(* ===== verification/_CoqProject ===== *)
-Q . S2P
Prelude.v
JsNumber.v
Schema.v
Policy.v
Postgres.v
Indexes.v
Store.v
Columns.v
Migration.v
Script.v
Client.v
CourseDetail.v
Completion.v
Session.v
Refinement.v
Race.v
Recovery.v
Lifecycle.v
Faults.v
CourseCard.v
Home.v
App.v
AppFlow.v
Network.v
Sessions.v
Replay.v
