(* ===== verification/Prelude.v ===== *)
(** * LearningPlatform: a verification development

    The program is a small e-learning application.  Its logic lives in two
    places: a PostgreSQL migration (tables, foreign keys with cascades,
    row-level security policies, a provisioning trigger) and a React client
    whose pages read the catalogue, derive completion state from the
    caller's progress rows and write those rows back through supabase-js.

    ** The program's parts and the files that model them

    The files are listed in dependency order.

    - [Prelude] (this file): the [result] type and the state-and-error
      monad [prog] in which every handler is written ([try_catch] for
      try/catch, [finally] for finally), the lemmas on JavaScript's
      [Array.some], [find] and [filter] (Stdlib's [existsb], [find],
      [filter]) and on stdpp's list filter that the components share, the
      tactics and the hint databases [lp] and [lp_run].
    - [JsNumber]: the binary64 operations of [calculateProgress] ([/], [*],
      [Math.round]) on Stdlib's [SpecFloat], the exact rational rounding the
      specification asks for, and the comparison of the two.
    - [Schema]: the four tables of the migration (src/unnamed/part_000,
      CREATE TABLE) with the row interfaces of lib/supabase.ts
      (src/unnamed/part_001) as records, the store as a record of tables
      ([Database]), inserts with defaults and key checks, the client's two
      updates, deletes with their cascades, and referential integrity
      ([db_wf]).
    - [Policy]: the CREATE POLICY statements as data, one list per table;
      their evaluation; the two kinds of policy set as type classes
      ([OwnerScoped] for profiles and user_progress, [Catalogue] for courses
      and lessons) whose instances are the sets of the migration; the
      queries and writes of the client as functions of the caller
      ([select_*], [api_*]); a request type ([write_request], [exec_write])
      with what a successful write can have done ([write_effect]).
    - [Postgres]: the writes of [Policy] as PostgreSQL evaluates them: the
      USING expression of a policy is one more condition of an UPDATE or a
      DELETE ([pg_update], [pg_deleted]), so a row it does not admit is
      skipped, and only WITH CHECK makes a statement fail
      ([pg_exec_write]); [as_postgres] turns an answer of [exec_write] into
      the answer PostgreSQL gives.
    - [Indexes]: the five CREATE INDEX statements as finite maps from a key
      to the rows that have it ([build_index], [index_scan], [index_add]),
      and what a UNIQUE index would do ([unique_add]).
    - [Store]: the trigger [handle_new_user] / [on_auth_user_created]
      ([sign_up]), with the signup metadata as a jsonb object ([json],
      [json_text] for [->>], [COALESCE]), and the store as a transition
      system: registrations,
      withdrawals, catalogue changes and client requests ([event],
      [run_events], [reachable]).
    - [Columns]: the CREATE TABLE statements column by column (NOT NULL,
      DEFAULT, [column_value]), the rows as the tables store them ([Sql]), the
      interfaces of lib/supabase.ts as decoders of stored rows
      ([decode_*]), and the INSERT and UPDATE statements of the trigger and
      of the course page.
    - [Migration]: the CREATE TABLE and CREATE INDEX statements as data
      ([table_def], [index_def]), an INSERT evaluated from them column by
      column ([stored_row]), the tables a delete reaches through the
      REFERENCES clauses ([cascade_closure]), and the comment at the head
      of the migration as data: the documented tables, policies and
      indexes ([header_tables], [header_policies]) and its notes as
      predicates on a schema ([note_uuid_keys], [note_defaults], ...).
    - [Script]: the migration as a script: its statements in the order
      written ([statement], [migration]), the catalogue of a database
      ([catalog]: tables, row-level security, policies, indexes, functions,
      triggers), what PostgreSQL does with one statement, as a function
      ([exec_statement]) and as a relation with a rule for each way a
      statement succeeds ([executes]), and a script run up to the first
      statement that fails ([exec_script]).
    - [Client]: the world a page runs in ([World]: the store, the session,
      pending network faults, the two clocks, the uuid source, the console)
      and the supabase-js calls of the pages ([fetch_*], [insert_progress],
      [update_progress]) as computations over it.
    - [CourseDetail]: src/src/pages/CourseDetail.tsx.  The five state hooks
      ([State.t]), [loadCourseData], [isLessonCompleted],
      [isCourseCompleted], [calculateProgress], [toggleLessonCompletion],
      [markCourseCompleted] with their guards, try/catch and reload.
    - [Completion]: the two write handlers on a page that holds what the
      store holds: the invariant between two handlers ([page_ok]), what a
      write leaves ([write_post]), and the failure paths.
    - [Session]: what the component returns, as data ([render]), the
      buttons a view offers ([offered]) and what a click runs ([click]);
      then a whole visit: the mount's load followed by any sequence of
      clicks on the buttons shown ([clicks]).
    - [Refinement]: the specification's view of progress, a set of
      completed lessons and a flag of the course ([Progress], [spec_click]),
      read off a page ([abs]) and off the store ([stored]).
    - [Race]: the handlers cut at their awaits ([toggle_call],
      [complete_call], [reload_fetch], [reload_commit]) and the pieces of
      several handlers in flight run in any order ([start], [advance],
      [reaches]).
    - [Recovery]: what a page in a race keeps ([page_typed], under any
      faults; [calm], on a quiet network), the work of a schedule
      ([steps_taken]), and the schedule that brings a page in step again
      ([recover]).
    - [Lifecycle]: the course page left with handlers in flight and opened
      again ([Tab]): the handlers of the instance that is mounted step as in
      [Race]; those of earlier instances ([tab_orphans]) share the world and
      set a state nobody sees ([drift]).
    - [Faults]: the handlers of [Race] on a network that loses requests
      and responses: what a page holds whatever is lost ([holds], [held]), the
      request of a handler in flight ([request_of]), and the consoles that
      hold nothing but errors of the network ([only_network]).
    - [CourseCard]: src/src/components/CourseCard.tsx, with JavaScript's
      property lookup on an object literal ([get_property]).
    - [Home]: src/src/pages/Home.tsx: [loadCourses] and the four-way view
      ([render_home]).
    - [App]: src/unnamed/part_001: the check of the two settings
      ([supabase]), the routing of [AppContent] and the header.
    - [AppFlow]: the application as a whole: [App] renders the screen of
      [AppContent] for the session's user, a page is mounted with fresh
      state hooks and loads in its effect ([mount], [Home_effect],
      [CourseDetail_effect]), and a step is what a user does ([app_do]):
      sign in, sign out, switch forms, select a course, click a button of
      the course page.  From the first render the provider is loading and
      [AppContent] shows the spinner ([Boot], [boot_do]); the application
      starts with the session the provider finds ([app_start]).
    - [Network]: several browsers with several windows on one store
      ([Net]).  A window holds an instance of the course page with its
      handlers in flight; the windows of a browser share the session, the
      console and the clock, and all share the store, its clock, its
      identifiers and the network ([world_of]).  A step is a step of one
      window ([act]) or the opening of one ([open]).
    - [Sessions]: a browser that its users share ([Shared]): the
      selection of [AppContent], which no sign-out resets, the course page
      with its handlers in flight, and the handlers that a sign-out or the
      back button has left behind, each with the user and the course of
      the render that created it ([Orphan]).  A step is a sign-in, a
      sign-out, a click, or a step of a handler, mounted or left behind
      ([shared_exec]).
    - [Replay]: [AppFlow] and [Sessions] side by side.  A state of the
      application is a browser with nothing in flight and nothing left
      behind ([browser_of]); a step of the application is the step of the
      browser followed by the steps of the handler it starts ([replay]).

    ** Modelling conventions

    - A uuid is a [string], as the client sees it; [string | null] is
      [option string].  A [timestamptz] (an ISO string in the client) is a
      [Z], milliseconds since the epoch: only equality and order matter.
    - A table is a list of rows in heap order; an insert appends, an update
      keeps positions.  PostgreSQL promises no order for a SELECT without
      ORDER BY; the queries that sort are modelled with a stable merge sort
      and the derived values of the page are proved independent of the
      order of the progress rows.
    - The rows of [Schema] are those of the TypeScript interfaces: columns
      the SQL leaves nullable but the interfaces declare non-null
      ([completed], the timestamps, [full_name]) are non-null there.
      [Columns] has the nullable rows and proves that the statements of the
      program never store a NULL the interfaces do not expect.
    - [auth.uid()] is the caller: [None] without a session, and a comparison
      with it is then false, as a comparison with NULL is in SQL.
    - What PostgreSQL does with a statement of the migration is not code
      of the repository either.  [Script] models it from PostgreSQL's
      documentation, as far as the statements of the script go: a name is
      looked up among the objects of its kind, tables and indexes share
      their names, a statement that fails changes nothing, and the body of
      a plpgsql function is checked when it runs, not when it is created.
    - How the store evaluates policies is not code of the repository.  It
      is modelled from the specification: policies are permissive, a
      command with no policy is denied, a read returns the rows admitted,
      and a write that touches a row not admitted is rejected as a whole
      with an authorization error.  PostgreSQL itself skips the rows of an
      UPDATE or a DELETE that USING does not admit and reports nothing;
      [Postgres] has that reading and proves the two leave the same store,
      and [Faults] proves that the course page never sends a request on
      which their answers differ.
    - Which session a request is sent with is decided inside supabase-js.
      [Sessions] models it from the documented behaviour of the client: a
      request carries the token of the session the client holds when the
      request is sent, and none when it holds no session.  The user a
      request names is the user of the render that created the handler.
    - A handler is a computation [component S A]: it threads the page's
      state and the world, and either returns or throws a [store_error].
      It reads the state of the render that created it, that is the state
      at the moment it is called.  In [CourseDetail], [Completion],
      [Session], [Refinement] and [AppFlow] a handler runs to its end
      without another in between; [Race], [Recovery], [Lifecycle],
      [Network] and [Sessions] give that up.  The three requests of
      [Promise.all] are sent in the order written; they only read.
    - [new Date()] reads the client's clock and [now()] the server's; the
      clocks move only between handlers ([elapse]).
    - [gen_random_uuid()] draws from the world's [entropy] function and
      counts the draws; a collision is a primary-key violation, as in the
      store.  Theorems that need fresh ids assume [fresh_source]: every
      draw still to come is new to the store and to the other draws.
    - Each request consumes one pending fault of the world: [no_fault],
      [request_lost] (the store never sees the request) or [response_lost]
      (the store applies it and the client sees a network error).  An
      empty list means a quiet network.

    ** What the theorems show

    - [JsNumber]: up to [max_lessons] lessons the percentage shown is the
      rounding of the exact quotient, except on eight ties (23 of 40 is the
      first) where binary64 shows the lower integer; it is always an
      integer between 0 and 100.
    - [Schema]: every operation preserves [db_wf]; an insert fails exactly
      when a key or a reference is violated; cascades remove exactly the
      dependent rows.
    - [Policy]: a caller reads only its own progress rows and profile;
      lessons come sorted by position; a successful write keeps the store
      intact, leaves the catalogue and every other account's rows alone;
      a caller without a session reads and changes nothing.
    - [Postgres]: where the specification's reading accepts a request,
      PostgreSQL's does the same to the store; where it rejects an INSERT,
      so does PostgreSQL's; where it rejects an UPDATE or a DELETE,
      PostgreSQL's changes nothing and reports no error.  Under either
      reading a write leaves the catalogue and the rows of other accounts
      alone.
    - [Indexes]: a read through an index returns what the query returns
      without it; an insert keeps an index in step with its table; the
      composite index takes duplicates, and declared UNIQUE would not.
    - [Store]: registration creates the profile from the signup metadata,
      with the empty name when the metadata has no full name or a null one;
      every reachable store is intact and holds one profile per identity.
    - [Columns]: the rows the trigger and the course page store decode at
      their interfaces, to the rows [Schema] works with, and a table that
      is typed stays typed under them; the tables themselves accept NULL in
      every column that only has a DEFAULT.
    - [Migration]: the statements as data store what [Columns] stores,
      keep values at the types of their columns, reference what [db_wf]
      checks and cascade where the deletes of [Schema] do; the header
      documents the tables and columns that are created; the policies
      created are those it lists and an INSERT policy on profiles, none
      for callers without a session; of its five notes, four hold and
      note 4 does not: a DEFAULT keeps NULL out of no column.
    - [Script]: on a new Supabase project the migration runs to its end
      and leaves the tables, indexes and policies the rest of the
      development works with; every script keeps a catalogue well formed,
      also when it stops at a statement that fails; the migration cannot
      be run a second time, for CREATE POLICY has no guard, and without its
      policies it can; a table that exists is never changed, so a table of
      an earlier schema survives CREATE TABLE IF NOT EXISTS; outside a
      Supabase project the first statement fails.
    - [CourseDetail]: the percentage is the specification's below 40
      lessons, bounded and monotone; a failed load keeps the page's data
      and shows the message; a failed progress request goes unnoticed.
    - [Completion]: a toggle flips exactly one flag and leaves the page in
      step with the store; two toggles restore every flag; marking the
      course complete makes it completed and changes no lesson's flag, and
      a second call updates the same row; lost requests and refused writes
      are logged and leave the page as it was; with two rows for one
      lesson a toggle no longer un-completes it, and a lost response
      followed by a retry creates such rows.
    - [Session]: the view offers exactly the buttons of the page shown; on
      a visit with a quiet network every click succeeds, nothing is logged
      and the page stays in step with the store; the scenario of the
      specification on a course of two lessons.
    - [Refinement]: a visit changes the progress the store holds as the
      specification's operations do, click by click, and the page shows it;
      the percentage shown is the specification's, less one on the lost
      ties.
    - [Race]: run one at a time, the pieces are the handlers of the page;
      run in any order, under any faults, they keep the store intact and
      the rows of other accounts untouched, and every handler ends within
      three steps; two clicks on one lesson create two rows, and a reload
      that sets the state late hides a later write.
    - [Recovery]: in any race and under any faults the page holds the
      course asked for, lessons of that course and rows of the signed-in
      user for it; a schedule takes at most three steps per handler and
      click, in any order; on a quiet network, once the handlers in flight
      have ended, the toggle of any lesson brings the page in step with the
      store.
    - [Lifecycle]: leaving the page cancels nothing and harms nothing: the
      store stays intact and the rows of other accounts untouched; the page
      mounted never shows what an earlier instance loaded; a handler left
      behind acts on the store only; its write outlives its page, and a page
      opened again before that write lands stays behind the store.
    - [Faults]: whatever the network loses and in whatever order the
      handlers step, a page that was in step with the store is refused
      nothing: the errors it logs are the network's, the only message it
      shows is that of a failed load, and the request of every handler in
      flight is one the store accepts, with the same result under both
      readings of the policies.
    - [AppFlow]: while the provider loads, the spinner is shown and
      nothing a user does has an effect; from then on, on a quiet network
      and whether or not the provider has found a session, whatever the
      users of a tab do, the page mounted is the one the screen selects and
      is in step with the store for the user signed in; the rows it shows
      are that user's, also after another user has used the tab.
    - [Network]: with any number of browsers and windows, in any order of
      their steps and under any faults, the store stays intact and the rows
      of an account are changed by its own browsers only; what other
      accounts do leaves a page in step with the store; on a quiet network
      no request fails, every window is loading or shows its course, a
      window that opens ends up in step, and any window can be brought in
      step by a toggle; a second window of the same account is left behind
      by a toggle in the first, and a toggle of the same lesson in it
      inserts a second row.
    - [Sessions]: in a browser that several users share, whoever signs
      in and out and whatever is left in flight, under any faults: the rows
      of the accounts that did not sign in are untouched; the page mounted
      holds the course selected and rows of the user signed in, and no
      request of it is refused; the write of a handler left behind is
      accepted when its user is signed in again when it is sent, and
      otherwise refused (an INSERT) or without effect (an UPDATE), so a
      click that a sign-out overtakes is lost, and logged in the console of
      whoever uses the browser then; these are the only refusals a browser
      ever logs, and every handler left behind ends within three steps.
    - [Replay]: on a quiet network a run of the application ends where
      the browser of [Sessions] ends on the replay of the run, with the same
      selection, page and world, nothing in flight and nothing left behind;
      so what [Sessions] proves of the store of every run holds of the
      application.  A sign-out that overtakes a handler is a run of the
      browser that is no run of the application.
    - [CourseCard], [Home], [App]: the colour class of a difficulty,
      including the keys inherited from [Object.prototype]; the list shows
      every course, newest first; no page is shown without a user, and the
      selected course outlives the session.

    ** Bounds

    [max_lessons] is 200.  The comparison of binary64 with exact arithmetic
    is decided by evaluation over every pair (completed, total) with total
    at most 200, which takes seconds; the theorems on the percentage carry
    that bound, and the agreement with the specification the bound 39,
    below the first tie that binary64 loses.  Nothing else in the
    development is bounded: every function is structurally recursive or
    not recursive at all, and the theorems on the store and the page hold
    for stores and pages of any size.  The one fuel is that of
    [cascade_closure], which follows the references between the four
    tables: 4 is more than the longest chain of them.  In [Race] a handler in
    flight ends after at most three steps, one per await, which is why
    three steps per handler drain every state.

    ** Not modelled

    The authentication context and the login and signup forms (imported by
    the sources, but not among them): the user they provide is the session
    of the world, signing in and out set it, and the loading flag is true
    from the first render until the provider has read the session, once;
    what the forms validate and which errors they show is in none of the
    sources.  supabase-js and the network beyond the three faults above: a
    request is applied by the store at once or not at all, so requests do
    not overlap inside the store, and a call resolves to data or an error
    and never throws, which is the contract the pages rely on.  The refresh
    of a session token and a session that expires while a page is shown.  The load of
    the list of courses as a handler in flight (it reads only; [AppFlow]
    runs it to its end).  The cost of a query, which is all the indexes
    change.
    JSX layout, class names and icons, except the colour class the card
    computes. *)

From Stdlib Require Import ZArith List Bool Lia.
From stdpp Require Import base tactics option list.
Import ListNotations.
Set Warnings "-clear-no-such-hyp".

(** ** Results of fallible operations *)

Inductive result (E A : Type) : Type :=
| Ok (a : A)
| Err (e : E).
Arguments Ok {E A} a.
Arguments Err {E A} e.

Definition is_Ok {E A} (r : result E A) : bool :=
  match r with Ok _ => true | Err _ => false end.

Definition is_Err {E A} (r : result E A) : bool :=
  match r with Ok _ => false | Err _ => true end.

Definition result_to_option {E A} (r : result E A) : option A :=
  match r with Ok a => Some a | Err _ => None end.

#[export] Instance result_ret {E} : MRet (result E) := fun _ a => Ok a.

#[export] Instance result_bind {E} : MBind (result E) := fun _ _ f r =>
  match r with Ok a => f a | Err e => Err e end.

#[export] Instance result_fmap {E} : FMap (result E) := fun _ _ f r =>
  match r with Ok a => Ok (f a) | Err e => Err e end.

#[export] Instance result_eq_dec {E A} `{EqDecision E, EqDecision A} :
  EqDecision (result E A).
Proof. solve_decision. Defined.

(** ** Programs: state threaded through calls that may throw

    An [async] handler of the client reads and writes mutable state and may
    throw.  A [prog S E A] is such a computation over a state [S]: it always
    returns the state it reached, together with a value or the error thrown.
    State written before a throw is kept, as in JavaScript. *)

Definition prog (S E A : Type) : Type := S → result E A * S.

Definition run {S E A} (p : prog S E A) (s : S) : result E A * S := p s.

#[export] Instance prog_ret {S E} : MRet (prog S E) := fun _ a s => (Ok a, s).

#[export] Instance prog_bind {S E} : MBind (prog S E) := fun _ _ f p s =>
  match p s with
  | (Ok a, s') => f a s'
  | (Err e, s') => (Err e, s')
  end.

Definition get {S E} : prog S E S := fun s => (Ok s, s).
Definition gets {S E A} (f : S → A) : prog S E A := fun s => (Ok (f s), s).
Definition put {S E} (s : S) : prog S E unit := fun _ => (Ok tt, s).
Definition modify {S E} (f : S → S) : prog S E unit := fun s => (Ok tt, f s).
Definition throw {S E A} (e : E) : prog S E A := fun s => (Err e, s).

(** [try { p } catch (err) { h err }] *)
Definition try_catch {S E A} (p : prog S E A) (h : E → prog S E A) : prog S E A :=
  fun s => match p s with
           | (Ok a, s') => (Ok a, s')
           | (Err e, s') => h e s'
           end.

(** [try { p } finally { f }]: [f] runs on both exits and the outcome of [p]
    is kept. *)
Definition finally {S E A} (p : prog S E A) (f : prog S E unit) : prog S E A :=
  fun s => match p s with
           | (r, s') => match f s' with
                        | (Ok _, s'') => (r, s'')
                        | (Err e, s'') => (Err e, s'')
                        end
           end.

(** A computation on a part of the state, run on the whole. *)
Definition zoom {S T E A} (proj : T → S) (inj : S → T → T) (p : prog S E A) :
  prog T E A :=
  fun t => match p (proj t) with (r, s') => (r, inj s' t) end.

(** ** Tactics and hints *)

Create HintDb lp discriminated.
Create Rewrite HintDb lp_run.

(** Destructs the scrutinee of the first [match] or [if] of the goal. *)
Ltac case_scrut :=
  match goal with
  | |- context [match ?x with _ => _ end] => destruct x eqn:?
  | |- context [if ?b then _ else _] => destruct b eqn:?
  end.

(** Turns boolean facts of the context into propositions. *)
Ltac bool_hyps :=
  repeat match goal with
  | H : _ && _ = true |- _ => apply andb_true_iff in H; destruct H
  | H : _ && _ = false |- _ => apply andb_false_iff in H
  | H : _ || _ = true |- _ => apply orb_true_iff in H
  | H : _ || _ = false |- _ => apply orb_false_iff in H; destruct H
  | H : negb _ = true |- _ => apply negb_true_iff in H
  | H : negb _ = false |- _ => apply negb_false_iff in H
  | H : bool_decide _ = true |- _ => apply bool_decide_eq_true in H
  | H : bool_decide _ = false |- _ => apply bool_decide_eq_false in H
  end.

(** Unfolds the programs' combinators. *)
Ltac unfold_prog :=
  unfold run, mbind, mret, prog_bind, prog_ret, result_bind, result_ret,
    get, gets, put, modify, throw, try_catch, finally, zoom in *.

(** ** Results *)

Section ResultFacts.
Context {E A B : Type}.
Implicit Types (r : result E A) (f : A → result E B).

Lemma is_Ok_true r : is_Ok r = true ↔ ∃ a, r = Ok a.
Proof. destruct r; naive_solver. Qed.

Lemma is_Err_true r : is_Err r = true ↔ ∃ e, r = Err e.
Proof. destruct r; naive_solver. Qed.

Lemma is_Err_negb r : is_Err r = negb (is_Ok r).
Proof. by destruct r. Qed.

Lemma result_bind_Ok r f b :
  r ≫= f = Ok b ↔ ∃ a, r = Ok a ∧ f a = Ok b.
Proof. destruct r; naive_solver. Qed.

Lemma result_bind_Err r f e :
  r ≫= f = Err e ↔ r = Err e ∨ ∃ a, r = Ok a ∧ f a = Err e.
Proof. destruct r; naive_solver. Qed.

End ResultFacts.

(** ** Programs *)

Section ProgFacts.
Context {S E : Type}.

Lemma run_ret {A} (a : A) (s : S) : run (mret a : prog S E A) s = (Ok a, s).
Proof. done. Qed.

Lemma run_bind {A B} (p : prog S E A) (f : A → prog S E B) s :
  run (p ≫= f) s =
  match run p s with (Ok a, s') => run (f a) s' | (Err e, s') => (Err e, s') end.
Proof. done. Qed.

Lemma run_bind_Ok {A B} (p : prog S E A) (f : A → prog S E B) s a s' :
  run p s = (Ok a, s') → run (p ≫= f) s = run (f a) s'.
Proof. unfold_prog. by intros ->. Qed.

Lemma run_bind_Err {A B} (p : prog S E A) (f : A → prog S E B) s e s' :
  run p s = (Err e, s') → run (p ≫= f) s = (Err e, s').
Proof. unfold_prog. by intros ->. Qed.

Lemma run_try_catch_Ok {A} (p : prog S E A) h s a s' :
  run p s = (Ok a, s') → run (try_catch p h) s = (Ok a, s').
Proof. unfold_prog. by intros ->. Qed.

Lemma run_try_catch_Err {A} (p : prog S E A) h s e s' :
  run p s = (Err e, s') → run (try_catch p h) s = run (h e) s'.
Proof. unfold_prog. by intros ->. Qed.

(** The monad laws, up to the state reached. *)
Lemma prog_left_id {A B} (a : A) (f : A → prog S E B) s :
  run (mret a ≫= f) s = run (f a) s.
Proof. done. Qed.

Lemma prog_right_id {A} (p : prog S E A) s : run (p ≫= mret) s = run p s.
Proof. unfold_prog. by destruct (p s) as [[]]. Qed.

Lemma prog_assoc {A B C} (p : prog S E A) (f : A → prog S E B)
    (g : B → prog S E C) s :
  run ((p ≫= f) ≫= g) s = run (p ≫= (λ a, f a ≫= g)) s.
Proof. unfold_prog. by destruct (p s) as [[]]. Qed.

End ProgFacts.

#[export] Hint Rewrite @run_ret @run_bind : lp_run.

(** ** Arrays: [some], [find], [filter] *)

Section ArrayFacts.
Context {A : Type}.
Implicit Types (f g : A → bool) (l : list A).

Lemma existsb_false_iff f l : existsb f l = false ↔ ∀ x, In x l → f x = false.
Proof.
  rewrite <- not_true_iff_false, existsb_exists. split.
  - intros H x Hx. destruct (f x) eqn:?; [exfalso; eauto | done].
  - intros H (x & Hx & Hf). rewrite (H x Hx) in Hf. done.
Qed.

Lemma find_none_iff f l : find f l = None ↔ ∀ x, In x l → f x = false.
Proof.
  split; [apply find_none|]. induction l as [|a l IH]; simpl; [done|].
  intros H. rewrite (H a) by auto. apply IH. auto.
Qed.

Lemma find_some_existsb f l : is_Some (find f l) ↔ existsb f l = true.
Proof.
  rewrite existsb_exists. split.
  - intros [x Hx]. apply find_some in Hx. naive_solver.
  - intros (x & Hx & Hf). destruct (find f l) eqn:Hn; [done|].
    rewrite (find_none _ _ Hn x Hx) in Hf. done.
Qed.

Lemma existsb_ext_in f g l :
  (∀ x, In x l → f x = g x) → existsb f l = existsb g l.
Proof.
  induction l as [|a l IH]; simpl; [done|]. intros H.
  rewrite (H a) by auto. f_equal. apply IH. auto.
Qed.

Lemma filter_length_le f l : length (List.filter f l) ≤ length l.
Proof. induction l; simpl; [done|]. case_scrut; simpl; lia. Qed.

Lemma filter_length_all f l :
  length (List.filter f l) = length l ↔ ∀ x, In x l → f x = true.
Proof.
  induction l as [|a l IH]; simpl; [naive_solver|].
  pose proof (filter_length_le f l). destruct (f a) eqn:Ha; simpl.
  - rewrite Nat.succ_inj_wd, IH. naive_solver.
  - split; [lia|]. intros H'. rewrite (H' a) in Ha by auto. done.
Qed.

Lemma filter_length_mono f g l :
  (∀ x, In x l → f x = true → g x = true) →
  length (List.filter f l) ≤ length (List.filter g l).
Proof.
  induction l as [|a l IH]; simpl; [done|]. intros H.
  assert (length (List.filter f l) ≤ length (List.filter g l)) by auto.
  destruct (f a) eqn:Ha; [rewrite (H a) by auto|case_scrut]; simpl; lia.
Qed.

(** Two tests that differ on one element of a list without duplicates:
    the counts differ by one. *)
Lemma filter_length_flip f g l x :
  NoDup l → x ∈ l → g x = negb (f x) →
  (∀ y, y ∈ l → y ≠ x → g y = f y) →
  length (List.filter g l) + (if f x then 1 else 0) =
  length (List.filter f l) + (if f x then 0 else 1).
Proof.
  induction l as [|a l IH]; [by intros _ ?%elem_of_nil|].
  rewrite NoDup_cons, elem_of_cons. intros [Ha Hl] Hx Hg Hy. simpl.
  destruct Hx as [->|Hx].
  - rewrite (filter_ext_in g f l).
    + rewrite Hg. destruct (f a); simpl; lia.
    + intros y Hin%list_elem_of_In. apply Hy; [by right|by intros ->].
  - rewrite (Hy a) by (by left || by intros ->).
    assert (IH' := IH Hl Hx Hg (λ y Hin, Hy y (list_elem_of_further _ _ _ Hin))).
    destruct (f a), (f x); simpl in *; lia.
Qed.

Lemma existsb_Permutation f l l' :
  Permutation l l' → existsb f l = existsb f l'.
Proof.
  induction 1; simpl; [done|congruence| |congruence].
  by rewrite !orb_assoc, (orb_comm (f y)).
Qed.

Lemma filter_length_Permutation f l l' :
  Permutation l l' → length (List.filter f l) = length (List.filter f l').
Proof.
  induction 1; simpl; [done| | |congruence].
  - case_scrut; simpl; congruence.
  - repeat case_scrut; done.
Qed.

End ArrayFacts.

#[export] Hint Resolve filter_length_le : lp.

(** ** Filters on tables *)

Section FilterFacts.
Context {A : Type}.
Implicit Types (l : list A) (P Q : A → Prop).

Lemma list_filter_all P `{∀ x, Decision (P x)} l : Forall P l → filter P l = l.
Proof.
  induction 1 as [|x l Hx _ IH]; [done|].
  rewrite filter_cons_True by done. by f_equal.
Qed.

Lemma list_filter_none P `{∀ x, Decision (P x)} l :
  Forall (λ x, ¬ P x) l → filter P l = [].
Proof.
  induction 1 as [|x l Hx _ IH]; [done|]. by rewrite filter_cons_False.
Qed.

Lemma list_filter_nil_neg P `{∀ x, Decision (P x)} l :
  filter P l = [] → filter (λ x, ¬ P x) l = l.
Proof.
  intros Hnil. apply list_filter_all, Forall_forall. intros x Hx HP.
  by eapply filter_nil_not_elem_of.
Qed.

Lemma Forall_filter_weak P `{∀ x, Decision (P x)} Q l :
  Forall Q l → Forall Q (filter P l).
Proof.
  rewrite !Forall_forall. intros Hl x [_ Hx]%list_elem_of_filter. auto.
Qed.

End FilterFacts.

(** ** The first element that passes a test *)

Lemma find_unique {A} (f : A → bool) (l : list A) (x : A) :
  In x l → f x = true → (∀ y, In y l → f y = true → y = x) →
  find f l = Some x.
Proof.
  intros Hx Hf Huniq. destruct (find f l) as [y|] eqn:Hfind.
  - apply find_some in Hfind as [??]. f_equal. auto.
  - rewrite (find_none _ _ Hfind x Hx) in Hf. done.
Qed.

Lemma list_fmap_id_in {A} (f : A → A) (l : list A) :
  (∀ x, x ∈ l → f x = x) → f <$> l = l.
Proof.
  intros H. rewrite <- (list_fmap_id l) at 2.
  by apply Forall_fmap_ext, Forall_forall.
Qed.

Lemma list_filter_fmap {A B} (f : A → B) (P : B → Prop) `{∀ y, Decision (P y)}
    (l : list A) :
  filter P (f <$> l) = f <$> filter (λ x, P (f x)) l.
Proof.
  induction l as [|x l IH]; [done|]. rewrite fmap_cons.
  destruct (decide (P (f x))).
  - by rewrite !filter_cons_True, fmap_cons, IH by done.
  - by rewrite !filter_cons_False by done.
Qed.

Lemma find_app_None {A} (f : A → bool) (l l' : list A) :
  find f l = None → find f (l ++ l') = find f l'.
Proof.
  induction l as [|a l IH]; simpl; [done|]. destruct (f a); [done|apply IH].
Qed.
