(* ===== verification/JsNumber.v ===== *)
(** * JsNumber: the arithmetic of [calculateProgress]

    [Math.round((completedLessons / lessons.length) * 100)] is computed on
    JavaScript Numbers, which are IEEE-754 binary64 values.  This file models
    the three operations on Stdlib's [SpecFloat] (an executable
    specification of binary floating point with round-to-nearest-even), states
    the rounding the specification asks for on exact rationals, and compares
    the two for every course of at most [max_lessons] lessons. *)

From Stdlib Require Import ZArith List Bool Lia Floats.SpecFloat.
Import ListNotations.
Local Open Scope Z_scope.

(** ** Numbers *)

Definition prec : Z := 53.
Definition emax : Z := 1024.

Definition number : Type := spec_float.

(** An integer as a Number (exact below 2^53). *)
Definition number_of_Z (z : Z) : number := binary_normalize prec emax z 0 false.

Definition number_of_nat (n : nat) : number := number_of_Z (Z.of_nat n).

Definition number_div (x y : number) : number := SFdiv prec emax x y.

Definition number_mul (x y : number) : number := SFmul prec emax x y.

(** [Math.round]: the integral Number closest to [x], a tie going towards
    plus infinity; NaN, the infinities and the zeros are returned as they
    are, and a negative [x] that rounds to zero gives minus zero. *)
Definition Math_round (x : number) : number :=
  match x with
  | S754_finite s m e =>
      if 0 <=? e then x
      else binary_normalize prec emax
             (Z.shiftr (cond_Zopp s (Zpos m) + Z.shiftl 1 (- e - 1)) (- e)) 0 s
  | _ => x
  end.

(** The integer a Number denotes, when it is integral. *)
Definition number_to_Z (x : number) : option Z :=
  match x with
  | S754_zero _ => Some 0
  | S754_finite s m e =>
      if 0 <=? e then Some (cond_Zopp s (Z.shiftl (Zpos m) e))
      else if Zpos m mod 2 ^ (- e) =? 0
           then Some (cond_Zopp s (Z.shiftr (Zpos m) (- e)))
           else None
  | _ => None
  end.

(** The expression of [calculateProgress], line 59. *)
Definition percent_of (completed total : nat) : number :=
  Math_round
    (number_mul (number_div (number_of_nat completed) (number_of_nat total))
       (number_of_Z 100)).

(** ** The specification's rounding

    [round(100 * completed / total)], on exact rationals, a tie going up:
    the floor of [100 * completed / total + 1/2]. *)
Definition exact_percent (completed total : nat) : Z :=
  (200 * Z.of_nat completed + Z.of_nat total) / (2 * Z.of_nat total).

(** The largest course the comparison covers. *)
Definition max_lessons : nat := 200.

(** The pairs (completed, total) up to [max_lessons] on which the quotient
    is a tie that binary64 places just below one half. *)
Definition lost_ties : list (nat * nat) :=
  [(23, 40); (46, 80); (69, 120); (92, 160);
   (29, 200); (57, 200); (113, 200); (115, 200)]%nat.

Definition is_lost_tie (completed total : nat) : bool :=
  existsb (fun p => Nat.eqb (fst p) completed && Nat.eqb (snd p) total) lost_ties.

(** What the page shows: the exact rounding, one less on a lost tie. *)
Definition shown_percent (completed total : nat) : Z :=
  exact_percent completed total - (if is_lost_tie completed total then 1 else 0).

(** ** Exhaustive checks over the courses up to a bound *)

Definition all_pairs (N : nat) (P : nat -> nat -> bool) : bool :=
  forallb (fun n => forallb (fun c => P c n) (seq 0 (S n))) (seq 1 N).

Definition option_Z_eqb (o : option Z) (z : Z) : bool :=
  match o with Some r => r =? z | None => false end.

Lemma all_pairs_spec N P :
  all_pairs N P = true ->
  forall c n, (0 < n <= N)%nat -> (c <= n)%nat -> P c n = true.
Proof.
  unfold all_pairs. rewrite forallb_forall. intros H c n Hn Hc.
  specialize (H n). rewrite in_seq, forallb_forall in H.
  apply H; [lia|]. apply in_seq. lia.
Qed.

Lemma option_Z_eqb_eq o z : option_Z_eqb o z = true <-> o = Some z.
Proof.
  destruct o as [r|]; simpl; [|split; discriminate].
  rewrite Z.eqb_eq. split; congruence.
Qed.

(** ** The exact rounding *)

Section ExactPercent.
Variable n : nat.
Hypothesis n_pos : (0 < n)%nat.
Implicit Type c : nat.

(** [exact_percent] is the integer nearest to [100 c / n], a tie going up:
    [r - 1/2 <= 100 c / n < r + 1/2]. *)
Lemma exact_percent_nearest c r :
  exact_percent c n = r <->
  (2 * r - 1) * Z.of_nat n <= 200 * Z.of_nat c < (2 * r + 1) * Z.of_nat n.
Proof using n_pos.
  unfold exact_percent. split.
  - intros <-.
    pose proof (Z.mul_div_le (200 * Z.of_nat c + Z.of_nat n) (2 * Z.of_nat n)).
    pose proof (Z.mul_succ_div_gt (200 * Z.of_nat c + Z.of_nat n) (2 * Z.of_nat n)).
    nia.
  - intros H. symmetry. apply Z.div_unique with
      (200 * Z.of_nat c + Z.of_nat n - 2 * Z.of_nat n * r); nia.
Qed.

Lemma exact_percent_nonneg c : 0 <= exact_percent c n.
Proof using n_pos. unfold exact_percent. apply Z.div_pos; lia. Qed.

Lemma exact_percent_le_100 c : (c <= n)%nat -> exact_percent c n <= 100.
Proof using n_pos.
  intros Hc. unfold exact_percent.
  apply Z.lt_succ_r, Z.div_lt_upper_bound; lia.
Qed.

Lemma exact_percent_all : exact_percent n n = 100.
Proof using n_pos. apply exact_percent_nearest. lia. Qed.

Lemma exact_percent_none : exact_percent 0 n = 0.
Proof using n_pos. apply exact_percent_nearest. lia. Qed.

End ExactPercent.

Lemma exact_percent_mono c c' n :
  (c <= c')%nat -> exact_percent c n <= exact_percent c' n.
Proof.
  intros Hc. unfold exact_percent. destruct n as [|n].
  - simpl. rewrite !Z.div_0_r. lia.
  - apply Z.div_le_mono; lia.
Qed.

(** ** binary64 against the exact rounding *)

(** The one evaluation of the floating-point expression: on every pair up to
    [max_lessons], the Number computed is the integer [shown_percent]. *)
Lemma percent_of_checked :
  all_pairs max_lessons
    (fun c n => option_Z_eqb (number_to_Z (percent_of c n)) (shown_percent c n))
  = true.
Proof. vm_cast_no_check (eq_refl true). Qed.

Theorem percent_of_shown c n :
  (0 < n <= max_lessons)%nat -> (c <= n)%nat ->
  number_to_Z (percent_of c n) = Some (shown_percent c n).
Proof.
  intros Hn Hc. apply option_Z_eqb_eq.
  exact (all_pairs_spec _ _ percent_of_checked c n Hn Hc).
Qed.

(** For a course of at most [max_lessons] lessons and off the lost ties,
    the binary64 evaluation of [Math.round((completed / total) * 100)] is the
    integer the specification asks for, the exact quotient rounded to the
    nearest integer with a tie going up. *)
Corollary percent_of_exact c n :
  (0 < n <= max_lessons)%nat -> (c <= n)%nat -> is_lost_tie c n = false ->
  number_to_Z (percent_of c n) = Some (exact_percent c n).
Proof.
  intros Hn Hc Ht. rewrite percent_of_shown by assumption.
  unfold shown_percent. rewrite Ht. f_equal. lia.
Qed.

Lemma percent_of_exact_witness :
  number_to_Z (percent_of 1 3) = Some (exact_percent 1 3).
Proof.
  apply (percent_of_exact 1 3); [unfold max_lessons; lia|lia|reflexivity].
Defined.

(** Below 40 lessons there is no lost tie. *)
Lemma no_lost_tie_below_40 c n : (n < 40)%nat -> is_lost_tie c n = false.
Proof.
  intros Hn. apply not_true_is_false. unfold is_lost_tie.
  rewrite existsb_exists. intros ([c' n'] & Hin & Heq).
  apply andb_true_iff in Heq as [_ Hn'%Nat.eqb_eq]. simpl in Hn'. subst n'.
  unfold lost_ties in Hin. simpl in Hin.
  repeat (destruct Hin as [Hin|Hin]; [injection Hin as _ <-; lia|]).
  destruct Hin.
Qed.

(** On a lost tie the exact quotient is a half-integer: the specification
    rounds up and the page shows one less. *)
Lemma lost_tie_is_tie c n :
  is_lost_tie c n = true ->
  200 * Z.of_nat c = (2 * exact_percent c n - 1) * Z.of_nat n.
Proof.
  unfold is_lost_tie. rewrite existsb_exists. intros ([c' n'] & Hin & Heq).
  apply andb_true_iff in Heq as [Hc%Nat.eqb_eq Hn%Nat.eqb_eq]. simpl in *. subst.
  unfold lost_ties in Hin. simpl in Hin.
  repeat (destruct Hin as [Hin|Hin]; [injection Hin as <- <-; reflexivity|]).
  destruct Hin.
Qed.

Lemma lost_tie_bounds c n :
  is_lost_tie c n = true -> (0 < n <= max_lessons)%nat /\ (c <= n)%nat.
Proof.
  unfold is_lost_tie. rewrite existsb_exists. intros ([c' n'] & Hin & Heq).
  apply andb_true_iff in Heq as [Hc%Nat.eqb_eq Hn%Nat.eqb_eq]. simpl in *. subst.
  unfold lost_ties in Hin. simpl in Hin. unfold max_lessons.
  repeat (destruct Hin as [Hin|Hin]; [injection Hin as <- <-; lia|]).
  destruct Hin.
Qed.

(** C33: on a lost tie the exact quotient lies half way between two integers
    and the page shows the lower one, where the specification's rounding
    gives the upper one: 23 lessons of 40 show 57, not 58. *)
Theorem percent_of_lost_tie c n :
  is_lost_tie c n = true ->
  200 * Z.of_nat c = (2 * exact_percent c n - 1) * Z.of_nat n /\
  number_to_Z (percent_of c n) = Some (exact_percent c n - 1).
Proof.
  intros Ht. destruct (lost_tie_bounds c n Ht) as [Hn Hc].
  split; [exact (lost_tie_is_tie c n Ht)|].
  rewrite percent_of_shown by assumption. unfold shown_percent. now rewrite Ht.
Qed.

Lemma percent_of_lost_tie_witness :
  200 * Z.of_nat 23 = (2 * exact_percent 23 40 - 1) * Z.of_nat 40 /\
  number_to_Z (percent_of 23 40) = Some (exact_percent 23 40 - 1).
Proof. apply (percent_of_lost_tie 23 40). reflexivity. Defined.

(** The facts about [shown_percent] that the page relies on, by evaluation
    over the same range (integer arithmetic only). *)
Lemma shown_percent_checked :
  all_pairs max_lessons (fun c n =>
    (0 <=? shown_percent c n) && (shown_percent c n <=? 100)
    && (shown_percent c n <=? shown_percent (S c) n) || Nat.eqb c n)
  && all_pairs max_lessons (fun c n =>
    (0 <=? shown_percent c n) && (shown_percent c n <=? 100))
  && all_pairs max_lessons (fun c n =>
    implb (shown_percent c n =? 100) (Nat.eqb c n || Nat.eqb n 200))
  = true.
Proof. vm_cast_no_check (eq_refl true). Qed.

Lemma shown_percent_range c n :
  (0 < n <= max_lessons)%nat -> (c <= n)%nat -> 0 <= shown_percent c n <= 100.
Proof.
  intros Hn Hc. pose proof shown_percent_checked as H.
  apply andb_true_iff in H as [H _]. apply andb_true_iff in H as [_ H].
  pose proof (all_pairs_spec _ _ H c n Hn Hc) as H'. simpl in H'.
  apply andb_true_iff in H' as [?%Z.leb_le ?%Z.leb_le]. lia.
Qed.

Lemma shown_percent_step c n :
  (0 < n <= max_lessons)%nat -> (c < n)%nat ->
  shown_percent c n <= shown_percent (S c) n.
Proof.
  intros Hn Hc. pose proof shown_percent_checked as H.
  apply andb_true_iff in H as [H _]. apply andb_true_iff in H as [H _].
  pose proof (all_pairs_spec _ _ H c n Hn (Nat.lt_le_incl _ _ Hc)) as H'.
  simpl in H'. apply orb_true_iff in H' as [H'|H'%Nat.eqb_eq]; [|lia].
  apply andb_true_iff in H' as [_ ?%Z.leb_le]. lia.
Qed.

Lemma shown_percent_mono c c' n :
  (0 < n <= max_lessons)%nat -> (c <= c' <= n)%nat ->
  shown_percent c n <= shown_percent c' n.
Proof.
  intros Hn [Hc Hc']. induction Hc as [|c' Hc IH]; [lia|].
  etransitivity; [apply IH; lia|]. apply shown_percent_step; lia.
Qed.

Lemma shown_percent_100 c n :
  (0 < n < max_lessons)%nat -> (c <= n)%nat ->
  shown_percent c n = 100 -> c = n.
Proof.
  intros Hn Hc Heq. pose proof shown_percent_checked as H.
  apply andb_true_iff in H as [_ H].
  assert (Hn' : (0 < n <= max_lessons)%nat) by lia.
  pose proof (all_pairs_spec _ _ H c n Hn' Hc) as H'. simpl in H'.
  rewrite Heq in H'. simpl in H'.
  apply orb_true_iff in H' as [?%Nat.eqb_eq|?%Nat.eqb_eq]; [assumption|].
  unfold max_lessons in Hn. lia.
Qed.
