(* ===== verification/Schema.v ===== *)
(** * Schema: the entity store

    The four tables of the migration (src/unnamed/part_000) with the row
    interfaces of lib/supabase.ts (src/unnamed/part_001), the identities of
    the authentication service they reference, and the operations the
    constraints admit: inserts that apply the column defaults and check
    primary and foreign keys, updates, and deletes with their cascades.
    [db_wf] is referential integrity; every operation preserves it.

    These are the operations of the store itself, as a privileged role (or
    a SECURITY DEFINER function) performs them.  What a caller may do goes
    through the policies of [Policy]. *)

From stdpp Require Import base tactics option list strings.
From S2P Require Import Prelude.
Set Warnings "-clear-no-such-hyp".

(** ** Column types *)

Definition uuid : Type := string.
Definition timestamptz : Type := Z.

(** ** Rows *)

(** A value in a JSON object, as far as the [->>] operator of PostgreSQL
    tells values apart: JSON null, a string, or any other value with the
    text PostgreSQL renders it as. *)
Inductive json :=
| j_null
| j_string (s : string)
| j_other (text : string).

(** An identity of the authentication service ([auth.users]), with the
    columns the migration reads.  [raw_user_meta_data] is the signup
    metadata, a JSON object: a key occurs once. *)
Module AuthUser.
Record t := mk {
  id : uuid;
  email : string;
  raw_user_meta_data : list (string * json);
}.
End AuthUser.

Module Profile.
Record t := mk {
  id : uuid;
  email : string;
  full_name : string;
  created_at : timestamptz;
  updated_at : timestamptz;
}.
End Profile.

Module Course.
Record t := mk {
  id : uuid;
  title : string;
  description : string;
  thumbnail_url : string;
  category : string;
  difficulty : string;
  duration_minutes : Z;
  created_at : timestamptz;
  updated_at : timestamptz;
}.
End Course.

Module Lesson.
Record t := mk {
  id : uuid;
  course_id : uuid;
  title : string;
  content : string;
  order_number : Z;
  duration_minutes : Z;
  created_at : timestamptz;
}.
End Lesson.

Module UserProgress.
Record t := mk {
  id : uuid;
  user_id : uuid;
  course_id : uuid;
  lesson_id : option uuid;
  completed : bool;
  completed_at : option timestamptz;
  created_at : timestamptz;
  updated_at : timestamptz;
}.
End UserProgress.

#[export] Instance json_eq_dec : EqDecision json.
Proof. solve_decision. Defined.
#[export] Instance AuthUser_eq_dec : EqDecision AuthUser.t.
Proof. solve_decision. Defined.
#[export] Instance Profile_eq_dec : EqDecision Profile.t.
Proof. solve_decision. Defined.
#[export] Instance Course_eq_dec : EqDecision Course.t.
Proof. solve_decision. Defined.
#[export] Instance Lesson_eq_dec : EqDecision Lesson.t.
Proof. solve_decision. Defined.
#[export] Instance UserProgress_eq_dec : EqDecision UserProgress.t.
Proof. solve_decision. Defined.

(** ** The database *)

Record Database := mkDatabase {
  auth_users : list AuthUser.t;
  profiles : list Profile.t;
  courses : list Course.t;
  lessons : list Lesson.t;
  user_progress : list UserProgress.t;
}.

#[export] Instance Database_eq_dec : EqDecision Database.
Proof. solve_decision. Defined.

Definition empty_db : Database := mkDatabase [] [] [] [] [].

Definition with_auth_users (f : list AuthUser.t → list AuthUser.t) (db : Database) :=
  mkDatabase (f (auth_users db)) (profiles db) (courses db) (lessons db)
    (user_progress db).
Definition with_profiles (f : list Profile.t → list Profile.t) (db : Database) :=
  mkDatabase (auth_users db) (f (profiles db)) (courses db) (lessons db)
    (user_progress db).
Definition with_courses (f : list Course.t → list Course.t) (db : Database) :=
  mkDatabase (auth_users db) (profiles db) (f (courses db)) (lessons db)
    (user_progress db).
Definition with_lessons (f : list Lesson.t → list Lesson.t) (db : Database) :=
  mkDatabase (auth_users db) (profiles db) (courses db) (f (lessons db))
    (user_progress db).
Definition with_user_progress
    (f : list UserProgress.t → list UserProgress.t) (db : Database) :=
  mkDatabase (auth_users db) (profiles db) (courses db) (lessons db)
    (f (user_progress db)).

Definition auth_user_ids (db : Database) : list uuid := AuthUser.id <$> auth_users db.
Definition profile_ids (db : Database) : list uuid := Profile.id <$> profiles db.
Definition course_ids (db : Database) : list uuid := Course.id <$> courses db.
Definition lesson_ids (db : Database) : list uuid := Lesson.id <$> lessons db.
Definition progress_ids (db : Database) : list uuid :=
  UserProgress.id <$> user_progress db.

(** ** Errors of the store, as a client receives them *)

Inductive store_error :=
| unique_violation (constraint : string)
| foreign_key_violation (constraint : string)
| rls_violation (table : string)
| multiple_rows
| network_error.

#[export] Instance store_error_eq_dec : EqDecision store_error.
Proof. solve_decision. Defined.

(** ** Constraints

    PRIMARY KEY on every [id]; REFERENCES on [profiles.id],
    [lessons.course_id], [user_progress.user_id], [.course_id] and
    [.lesson_id] (nullable).  NOT NULL is carried by the field types. *)

Definition pk_ok (db : Database) : Prop :=
  NoDup (auth_user_ids db) ∧ NoDup (profile_ids db) ∧ NoDup (course_ids db) ∧
  NoDup (lesson_ids db) ∧ NoDup (progress_ids db).

(** A nullable reference to a lesson. *)
Definition lesson_ref_ok (db : Database) (o : option uuid) : Prop :=
  match o with Some l => l ∈ lesson_ids db | None => True end.

Definition progress_fk (db : Database) (r : UserProgress.t) : Prop :=
  UserProgress.user_id r ∈ auth_user_ids db ∧
  UserProgress.course_id r ∈ course_ids db ∧
  lesson_ref_ok db (UserProgress.lesson_id r).

Definition fk_ok (db : Database) : Prop :=
  Forall (λ p, Profile.id p ∈ auth_user_ids db) (profiles db) ∧
  Forall (λ l, Lesson.course_id l ∈ course_ids db) (lessons db) ∧
  Forall (progress_fk db) (user_progress db).

Definition db_wf (db : Database) : Prop := pk_ok db ∧ fk_ok db.

#[export] Instance lesson_ref_ok_dec db o : Decision (lesson_ref_ok db o).
Proof. destruct o; simpl; apply _. Defined.
#[export] Instance progress_fk_dec db r : Decision (progress_fk db r).
Proof. unfold progress_fk. apply _. Defined.
#[export] Instance pk_ok_dec db : Decision (pk_ok db).
Proof. unfold pk_ok. apply _. Defined.
#[export] Instance fk_ok_dec db : Decision (fk_ok db).
Proof. unfold fk_ok. apply _. Defined.
#[export] Instance db_wf_dec db : Decision (db_wf db).
Proof. unfold db_wf. apply _. Defined.

(** ** Inserts *)

(** [insert into auth.users]: a registration, before any trigger runs. *)
Definition insert_auth_user (u : AuthUser.t) (db : Database) : result store_error Database :=
  if decide (AuthUser.id u ∈ auth_user_ids db)
  then Err (unique_violation "users_pkey")
  else Ok (with_auth_users (λ t, t ++ [u]) db).

(** [insert into profiles (id, email, full_name)]: the timestamps take
    their default, [now()]. *)
Definition insert_profile (now : timestamptz) (id : uuid) (email full_name : string)
    (db : Database) : result store_error Database :=
  if decide (id ∈ profile_ids db) then Err (unique_violation "profiles_pkey")
  else if decide (id ∈ auth_user_ids db)
  then Ok (with_profiles (λ t, t ++ [Profile.mk id email full_name now now]) db)
  else Err (foreign_key_violation "profiles_id_fkey").

Definition insert_course (c : Course.t) (db : Database) : result store_error Database :=
  if decide (Course.id c ∈ course_ids db) then Err (unique_violation "courses_pkey")
  else Ok (with_courses (λ t, t ++ [c]) db).

Definition insert_lesson (l : Lesson.t) (db : Database) : result store_error Database :=
  if decide (Lesson.id l ∈ lesson_ids db) then Err (unique_violation "lessons_pkey")
  else if decide (Lesson.course_id l ∈ course_ids db)
  then Ok (with_lessons (λ t, t ++ [l]) db)
  else Err (foreign_key_violation "lessons_course_id_fkey").

(** The columns a client gives when it inserts a progress row. *)
Record NewProgress := mkNewProgress {
  new_user_id : uuid;
  new_course_id : uuid;
  new_lesson_id : option uuid;
  new_completed : bool;
  new_completed_at : option timestamptz;
}.

(** The row stored: [id] defaults to [gen_random_uuid()], [created_at] and
    [updated_at] to [now()]. *)
Definition progress_row (id : uuid) (now : timestamptz) (n : NewProgress) :
    UserProgress.t :=
  UserProgress.mk id (new_user_id n) (new_course_id n) (new_lesson_id n)
    (new_completed n) (new_completed_at n) now now.

Definition insert_user_progress (id : uuid) (now : timestamptz) (n : NewProgress)
    (db : Database) : result store_error Database :=
  if decide (id ∈ progress_ids db)
  then Err (unique_violation "user_progress_pkey")
  else if decide (new_user_id n ∈ auth_user_ids db) then
    if decide (new_course_id n ∈ course_ids db) then
      if decide (lesson_ref_ok db (new_lesson_id n))
      then Ok (with_user_progress (λ t, t ++ [progress_row id now n]) db)
      else Err (foreign_key_violation "user_progress_lesson_id_fkey")
    else Err (foreign_key_violation "user_progress_course_id_fkey")
  else Err (foreign_key_violation "user_progress_user_id_fkey").

(** ** Updates *)

(** The columns the client's two updates set. *)
Record ProgressPatch := mkProgressPatch {
  patch_completed : bool;
  patch_completed_at : option timestamptz;
  patch_updated_at : timestamptz;
}.

Definition apply_patch (p : ProgressPatch) (r : UserProgress.t) : UserProgress.t :=
  UserProgress.mk (UserProgress.id r) (UserProgress.user_id r)
    (UserProgress.course_id r) (UserProgress.lesson_id r)
    (patch_completed p) (patch_completed_at p)
    (UserProgress.created_at r) (patch_updated_at p).

(** [update user_progress set ... where P]. *)
Definition update_user_progress (P : UserProgress.t → Prop)
    `{∀ r, Decision (P r)} (p : ProgressPatch) (db : Database) : Database :=
  with_user_progress (fmap (λ r, if decide (P r) then apply_patch p r else r)) db.

(** [update profiles set full_name = ..., updated_at = ... where id = ...] *)
Definition update_profile (id : uuid) (full_name : string) (now : timestamptz)
    (db : Database) : Database :=
  with_profiles (fmap (λ p,
    if decide (Profile.id p = id)
    then Profile.mk (Profile.id p) (Profile.email p) full_name
           (Profile.created_at p) now
    else p)) db.

(** ** Deletes and their cascades *)

(** [delete from lessons where id = lid]: the progress rows of the lesson
    go with it. *)
Definition delete_lesson (lid : uuid) (db : Database) : Database :=
  with_user_progress (filter (λ r, UserProgress.lesson_id r ≠ Some lid))
    (with_lessons (filter (λ l, Lesson.id l ≠ lid)) db).

(** [delete from courses where id = cid]: each lesson of the course is
    deleted as above, then the progress rows of the course. *)
Definition delete_course (cid : uuid) (db : Database) : Database :=
  let doomed := Lesson.id <$> filter (λ l, Lesson.course_id l = cid) (lessons db) in
  with_courses (filter (λ c, Course.id c ≠ cid))
    (with_user_progress (filter (λ r, UserProgress.course_id r ≠ cid))
       (foldr delete_lesson db doomed)).

(** [delete from auth.users where id = uid]: the profile and the progress
    rows of the identity go with it. *)
Definition delete_auth_user (uid : uuid) (db : Database) : Database :=
  with_auth_users (filter (λ u, AuthUser.id u ≠ uid))
    (with_profiles (filter (λ p, Profile.id p ≠ uid))
       (with_user_progress (filter (λ r, UserProgress.user_id r ≠ uid)) db)).

(** ** A small store

    Two identities, two courses, three lessons: the store on which the
    theorems of the development are instantiated.  Bob has completed the
    first lesson of the first course; Alice has no progress yet. *)
Module Sample.
#[local] Open Scope Z_scope.
Definition alice : AuthUser.t :=
  AuthUser.mk "alice" "alice@example.org" [("full_name", j_string "Alice")].
Definition bob : AuthUser.t := AuthUser.mk "bob" "bob@example.org" [].
Definition c1 : Course.t :=
  Course.mk "c1" "Logic" "An introduction" "" "General" "beginner" 60 10 10.
Definition c2 : Course.t :=
  Course.mk "c2" "Proofs" "Going further" "" "General" "advanced" 90 20 20.
Definition l1 : Lesson.t := Lesson.mk "l1" "c1" "Propositions" "" 1 30 10.
Definition l2 : Lesson.t := Lesson.mk "l2" "c1" "Predicates" "" 2 30 10.
Definition l3 : Lesson.t := Lesson.mk "l3" "c2" "Induction" "" 1 90 20.
Definition bob_l1 : UserProgress.t :=
  UserProgress.mk "p0" "bob" "c1" (Some "l1") true (Some 50) 50 50.
Definition db : Database :=
  mkDatabase [alice; bob]
    [Profile.mk "alice" "alice@example.org" "Alice" 5 5;
     Profile.mk "bob" "bob@example.org" "" 6 6]
    [c1; c2] [l2; l1; l3] [bob_l1].
End Sample.

(** ** Keys under the list operations of the store *)

Section Keys.
Context {A K : Type} (key : A → K).
Implicit Types (l : list A) (x : A).

Lemma NoDup_fmap_snoc l x :
  key x ∉ key <$> l → NoDup (key <$> l) → NoDup (key <$> (l ++ [x])).
Proof.
  intros Hx Hl. rewrite fmap_app. apply NoDup_app. split_and!; [done| |].
  - intros k Hk ->%list_elem_of_singleton. done.
  - apply NoDup_singleton.
Qed.

Lemma NoDup_fmap_filter (P : A → Prop) `{∀ x, Decision (P x)} l :
  NoDup (key <$> l) → NoDup (key <$> filter P l).
Proof.
  intros Hl. eapply sublist_NoDup; [done|]. apply fmap_sublist, sublist_filter.
Qed.

Lemma NoDup_fmap_update (g : A → A) l :
  (∀ x, key (g x) = key x) → NoDup (key <$> l) → NoDup (key <$> (g <$> l)).
Proof.
  intros Hg Hl. rewrite <- list_fmap_compose.
  erewrite list_fmap_ext; [done|]. intros ???. apply Hg.
Qed.

Lemma elem_of_fmap_snoc l x k : k ∈ key <$> l → k ∈ key <$> (l ++ [x]).
Proof. rewrite fmap_app, elem_of_app. auto. Qed.

Lemma elem_of_fmap_filter (P : A → Prop) `{∀ x, Decision (P x)} l x :
  x ∈ l → P x → key x ∈ key <$> filter P l.
Proof. intros. apply list_elem_of_fmap_2, list_elem_of_filter. done. Qed.

(** A key survives a filter that keeps every row carrying it. *)
Lemma elem_of_fmap_filter_key (P : A → Prop) `{∀ x, Decision (P x)} l k :
  k ∈ key <$> l → (∀ x, x ∈ l → key x = k → P x) → k ∈ key <$> filter P l.
Proof.
  intros (x & -> & Hx)%list_elem_of_fmap HP. apply elem_of_fmap_filter; auto.
Qed.

(** With unique keys, a key names its row. *)
Lemma NoDup_fmap_key_inj l x y :
  NoDup (key <$> l) → x ∈ l → y ∈ l → key x = key y → x = y.
Proof.
  induction l as [|a l IH]; [by intros _ ?%elem_of_nil|].
  rewrite fmap_cons, NoDup_cons, !elem_of_cons.
  intros [Ha Hl] [->|Hx] [->|Hy] Hk; [done| | |by apply IH].
  - destruct Ha. rewrite Hk. by apply list_elem_of_fmap_2.
  - destruct Ha. rewrite <- Hk. by apply list_elem_of_fmap_2.
Qed.

End Keys.

#[export] Hint Resolve NoDup_fmap_snoc NoDup_fmap_filter elem_of_fmap_snoc : lp.

(** States the [Forall]s of the context and of the goal pointwise. *)
Ltac forall_pointwise :=
  repeat match goal with H : Forall _ _ |- _ => rewrite Forall_forall in H end;
  try (apply Forall_forall; intros ??).

(** Foreign keys only ask that the referenced keys exist: they survive
    any growth of the referenced tables. *)
Lemma progress_fk_mono db db' r :
  auth_user_ids db ⊆ auth_user_ids db' → course_ids db ⊆ course_ids db' →
  lesson_ids db ⊆ lesson_ids db' → progress_fk db r → progress_fk db' r.
Proof.
  unfold progress_fk, lesson_ref_ok. intros Hu Hc Hl (? & ? & ?).
  split_and!; [by apply Hu|by apply Hc|].
  destruct (UserProgress.lesson_id r); [by apply Hl|done].
Qed.

Lemma subseteq_snoc {A} (l : list A) x : l ⊆ l ++ [x].
Proof. intros y. rewrite elem_of_app. auto. Qed.

#[export] Hint Resolve subseteq_snoc : lp.

(** Splits [db_wf] into its constraints, in the context and in the goal. *)
Ltac db_wf_split :=
  repeat match goal with
  | H : db_wf _ |- _ => destruct (H) as [(?&?&?&?&?) (?&?&?)]; clear H
  end;
  unfold db_wf, pk_ok, fk_ok, auth_user_ids, profile_ids, course_ids,
    lesson_ids, progress_ids in *; simpl in *; split_and?.

(** ** Inserts preserve referential integrity *)

Section InsertWf.
Context (db db' : Database) (Hwf : db_wf db).

Lemma insert_auth_user_wf u : insert_auth_user u db = Ok db' → db_wf db'.
Proof using Hwf.
  unfold insert_auth_user. case_decide; [done|]. intros [= <-].
  db_wf_split; eauto with lp.
  - eapply Forall_impl; [done|]. simpl. intros. by apply elem_of_fmap_snoc.
  - eapply Forall_impl; [done|]. intros r. apply progress_fk_mono; try done.
    unfold auth_user_ids. simpl. rewrite fmap_app. apply subseteq_snoc.
Qed.

Lemma insert_profile_wf now id email full_name :
  insert_profile now id email full_name db = Ok db' → db_wf db'.
Proof using Hwf.
  unfold insert_profile. repeat case_decide; try done. intros [= <-].
  db_wf_split; eauto with lp. apply Forall_app. split; [done|].
  by apply Forall_singleton.
Qed.

Lemma insert_course_wf c : insert_course c db = Ok db' → db_wf db'.
Proof using Hwf.
  unfold insert_course. case_decide; [done|]. intros [= <-].
  db_wf_split; eauto with lp.
  - eapply Forall_impl; [done|]. simpl. intros. by apply elem_of_fmap_snoc.
  - eapply Forall_impl; [done|]. intros r. apply progress_fk_mono; try done.
    unfold course_ids. simpl. rewrite fmap_app. apply subseteq_snoc.
Qed.

Lemma insert_lesson_wf l : insert_lesson l db = Ok db' → db_wf db'.
Proof using Hwf.
  unfold insert_lesson. repeat case_decide; try done. intros [= <-].
  db_wf_split; eauto with lp.
  - apply Forall_app. split; [done|]. by apply Forall_singleton.
  - eapply Forall_impl; [done|]. intros r. apply progress_fk_mono; try done.
    unfold lesson_ids. simpl. rewrite fmap_app. apply subseteq_snoc.
Qed.

Lemma insert_user_progress_wf id now n :
  insert_user_progress id now n db = Ok db' → db_wf db'.
Proof using Hwf.
  unfold insert_user_progress. repeat case_decide; try done. intros [= <-].
  db_wf_split; eauto with lp. apply Forall_app. split; [done|].
  by apply Forall_singleton.
Qed.

End InsertWf.

(** ** Updates preserve referential integrity *)

Lemma Forall_fmap_update {A} (P : A → Prop) (g : A → A) (l : list A) :
  (∀ x, P x → P (g x)) → Forall P l → Forall P (g <$> l).
Proof. intros Hg Hl. apply Forall_fmap. eapply Forall_impl; [done|]. apply Hg. Qed.

Lemma update_user_progress_wf (P : UserProgress.t → Prop) `{∀ r, Decision (P r)}
    p db :
  db_wf db → db_wf (update_user_progress P p db).
Proof.
  intros Hwf. db_wf_split; try done.
  - apply NoDup_fmap_update; [|done]. intros r. by case_decide.
  - apply Forall_fmap_update; [|done]. intros r. by case_decide.
Qed.

Lemma update_profile_wf id full_name now db :
  db_wf db → db_wf (update_profile id full_name now db).
Proof.
  intros Hwf. db_wf_split; try done.
  - apply NoDup_fmap_update; [|done]. intros r. by case_decide.
  - apply Forall_fmap_update; [|done]. intros r. by case_decide.
Qed.

(** ** Deletes: what a cascade removes *)

Lemma user_progress_delete_lesson lid db r :
  r ∈ user_progress (delete_lesson lid db) ↔
  r ∈ user_progress db ∧ UserProgress.lesson_id r ≠ Some lid.
Proof. unfold delete_lesson. simpl. rewrite list_elem_of_filter. tauto. Qed.

Lemma lessons_delete_lesson lid db l :
  l ∈ lessons (delete_lesson lid db) ↔ l ∈ lessons db ∧ Lesson.id l ≠ lid.
Proof. unfold delete_lesson. simpl. rewrite list_elem_of_filter. tauto. Qed.

(** Deleting a list of lessons, as the cascade of a course does. *)
Lemma foldr_delete_lesson_tables lids db :
  auth_users (foldr delete_lesson db lids) = auth_users db ∧
  profiles (foldr delete_lesson db lids) = profiles db ∧
  courses (foldr delete_lesson db lids) = courses db.
Proof. induction lids as [|lid lids IH]; simpl; [done|]. apply IH. Qed.

Lemma lessons_foldr_delete_lesson lids db l :
  l ∈ lessons (foldr delete_lesson db lids) ↔ l ∈ lessons db ∧ Lesson.id l ∉ lids.
Proof.
  induction lids as [|lid lids IH]; cbn [foldr].
  - rewrite elem_of_nil. tauto.
  - rewrite lessons_delete_lesson, IH, not_elem_of_cons. naive_solver.
Qed.

Lemma user_progress_foldr_delete_lesson lids db r :
  r ∈ user_progress (foldr delete_lesson db lids) ↔
  r ∈ user_progress db ∧ ∀ lid, lid ∈ lids → UserProgress.lesson_id r ≠ Some lid.
Proof.
  induction lids as [|lid lids IH]; cbn [foldr].
  - setoid_rewrite elem_of_nil. tauto.
  - rewrite user_progress_delete_lesson, IH. setoid_rewrite elem_of_cons.
    naive_solver.
Qed.

(** After [delete_course], the progress rows left are those of other
    courses that name no lesson of the deleted course. *)
Lemma user_progress_delete_course cid db r :
  r ∈ user_progress (delete_course cid db) ↔
  r ∈ user_progress db ∧ UserProgress.course_id r ≠ cid ∧
  ∀ l, l ∈ lessons db → Lesson.course_id l = cid →
       UserProgress.lesson_id r ≠ Some (Lesson.id l).
Proof.
  unfold delete_course. simpl.
  rewrite list_elem_of_filter, user_progress_foldr_delete_lesson.
  setoid_rewrite list_elem_of_fmap. setoid_rewrite list_elem_of_filter.
  naive_solver.
Qed.

(** With unique lesson ids, the lessons left are those of other courses. *)
Lemma lessons_delete_course cid db l :
  NoDup (lesson_ids db) →
  l ∈ lessons (delete_course cid db) ↔ l ∈ lessons db ∧ Lesson.course_id l ≠ cid.
Proof.
  intros Hnd. unfold delete_course. simpl.
  rewrite lessons_foldr_delete_lesson, list_elem_of_fmap.
  setoid_rewrite list_elem_of_filter. split.
  - intros [Hl Hn]. split; [done|]. intros Hc. apply Hn. eauto.
  - intros [Hl Hc]. split; [done|]. intros (l' & Hid & Hc' & Hl').
    assert (l = l') as -> by (by eapply (NoDup_fmap_key_inj Lesson.id)). done.
Qed.

Lemma courses_delete_course cid db c :
  c ∈ courses (delete_course cid db) ↔ c ∈ courses db ∧ Course.id c ≠ cid.
Proof.
  unfold delete_course. simpl. rewrite list_elem_of_filter.
  destruct (foldr_delete_lesson_tables
    (Lesson.id <$> filter (λ l, Lesson.course_id l = cid) (lessons db)) db)
    as (_ & _ & ->). tauto.
Qed.

(** ** Deletes preserve referential integrity *)

(** Removing rows that nothing references keeps the constraints. *)
Lemma filter_user_progress_wf (P : UserProgress.t → Prop) `{∀ r, Decision (P r)} db :
  db_wf db → db_wf (with_user_progress (filter P) db).
Proof. intros Hwf. db_wf_split; eauto using Forall_filter_weak with lp. Qed.

Lemma filter_profiles_wf (P : Profile.t → Prop) `{∀ r, Decision (P r)} db :
  db_wf db → db_wf (with_profiles (filter P) db).
Proof. intros Hwf. db_wf_split; eauto using Forall_filter_weak with lp. Qed.

Lemma progress_fk_delete_lesson lid db r :
  UserProgress.lesson_id r ≠ Some lid → progress_fk db r →
  progress_fk (delete_lesson lid db) r.
Proof.
  unfold progress_fk, lesson_ref_ok, lesson_ids. simpl.
  intros Hne (? & ? & Hl). split_and!; [done..|].
  destruct (UserProgress.lesson_id r) as [l|]; [|done].
  apply list_elem_of_fmap in Hl as (l' & -> & Hl').
  apply elem_of_fmap_filter; [done|]. congruence.
Qed.

Lemma delete_lesson_wf lid db : db_wf db → db_wf (delete_lesson lid db).
Proof.
  intros Hwf. db_wf_split; eauto using Forall_filter_weak with lp.
  apply Forall_forall. intros r [Hne Hr]%list_elem_of_filter.
  apply progress_fk_delete_lesson; [done|]. by eapply Forall_forall.
Qed.

Lemma foldr_delete_lesson_wf lids db :
  db_wf db → db_wf (foldr delete_lesson db lids).
Proof. induction lids; cbn [foldr]; auto using delete_lesson_wf. Qed.

(** A course that no lesson and no progress row names can go. *)
Lemma delete_course_row_wf cid db :
  Forall (λ l, Lesson.course_id l ≠ cid) (lessons db) →
  Forall (λ r, UserProgress.course_id r ≠ cid) (user_progress db) →
  db_wf db → db_wf (with_courses (filter (λ c, Course.id c ≠ cid)) db).
Proof.
  intros Hl Hr Hwf. db_wf_split; eauto with lp; forall_pointwise.
  - apply elem_of_fmap_filter_key; [auto|]. intros c _ ->. auto.
  - unfold progress_fk, course_ids in *. simpl.
    split_and!; [naive_solver| |naive_solver].
    apply elem_of_fmap_filter_key; [naive_solver|]. intros c _ ->. auto.
Qed.

Lemma delete_course_wf cid db : db_wf db → db_wf (delete_course cid db).
Proof.
  intros Hwf. unfold delete_course. apply delete_course_row_wf.
  - apply Forall_forall. intros l. simpl.
    rewrite lessons_foldr_delete_lesson, list_elem_of_fmap.
    setoid_rewrite list_elem_of_filter. naive_solver.
  - apply Forall_forall. intros r [? _]%list_elem_of_filter. done.
  - apply filter_user_progress_wf, foldr_delete_lesson_wf, Hwf.
Qed.

(** An identity that no profile and no progress row names can go. *)
Lemma delete_auth_user_row_wf uid db :
  Forall (λ p, Profile.id p ≠ uid) (profiles db) →
  Forall (λ r, UserProgress.user_id r ≠ uid) (user_progress db) →
  db_wf db → db_wf (with_auth_users (filter (λ u, AuthUser.id u ≠ uid)) db).
Proof.
  intros Hp Hr Hwf. db_wf_split; eauto with lp; forall_pointwise.
  - apply elem_of_fmap_filter_key; [auto|]. intros u _ ->. auto.
  - unfold progress_fk, auth_user_ids in *. simpl.
    split_and!; [|naive_solver..].
    apply elem_of_fmap_filter_key; [naive_solver|]. intros u _ ->. auto.
Qed.

Lemma delete_auth_user_wf uid db : db_wf db → db_wf (delete_auth_user uid db).
Proof.
  intros Hwf. unfold delete_auth_user. apply delete_auth_user_row_wf.
  - apply Forall_forall. intros p [? _]%list_elem_of_filter. done.
  - apply Forall_forall. intros r [? _]%list_elem_of_filter. done.
  - apply filter_profiles_wf, filter_user_progress_wf, Hwf.
Qed.

(** ** Inserts, branch by branch *)

Lemma insert_user_progress_Ok id now n db :
  id ∉ progress_ids db → new_user_id n ∈ auth_user_ids db →
  new_course_id n ∈ course_ids db → lesson_ref_ok db (new_lesson_id n) →
  insert_user_progress id now n db =
    Ok (with_user_progress (λ t, t ++ [progress_row id now n]) db).
Proof. intros. unfold insert_user_progress. by repeat case_decide. Qed.

(** An insert of a progress row fails exactly when its key is in use
    or one of its references dangles: the user, the course, or the lesson
    when it names one. *)
Theorem insert_user_progress_Err id now n db :
  is_Err (insert_user_progress id now n db) = true ↔
  id ∈ progress_ids db ∨ new_user_id n ∉ auth_user_ids db ∨
  new_course_id n ∉ course_ids db ∨ ¬ lesson_ref_ok db (new_lesson_id n).
Proof. unfold insert_user_progress. repeat case_decide; naive_solver. Qed.

(** An insert only appends: the rows that were there are untouched. *)
Lemma insert_user_progress_rows id now n db db' :
  insert_user_progress id now n db = Ok db' →
  user_progress db' = user_progress db ++ [progress_row id now n] ∧
  auth_users db' = auth_users db ∧ profiles db' = profiles db ∧
  courses db' = courses db ∧ lessons db' = lessons db.
Proof.
  unfold insert_user_progress. repeat case_decide; try done. by intros [= <-].
Qed.

(** Deleting a course that is not there changes nothing. *)
Lemma insert_profile_rows now id email full_name db db' :
  insert_profile now id email full_name db = Ok db' →
  profiles db' = profiles db ++ [Profile.mk id email full_name now now] ∧
  user_progress db' = user_progress db ∧ courses db' = courses db ∧
  lessons db' = lessons db ∧ auth_users db' = auth_users db.
Proof. unfold insert_profile. repeat case_decide; try done. by intros [= <-]. Qed.

Lemma progress_ids_update (P : UserProgress.t → Prop) `{∀ r, Decision (P r)} p db :
  progress_ids (update_user_progress P p db) = progress_ids db.
Proof.
  unfold progress_ids. simpl. rewrite <- list_fmap_compose.
  apply list_fmap_ext. intros ? r ?. simpl. by case_decide.
Qed.

Lemma delete_course_absent cid db :
  db_wf db → cid ∉ course_ids db → delete_course cid db = db.
Proof.
  intros Hwf Hcid. unfold delete_course.
  assert (Forall (λ l, Lesson.course_id l ≠ cid) (lessons db)) as Hl.
  { db_wf_split. forall_pointwise. naive_solver. }
  assert (Forall (λ r, UserProgress.course_id r ≠ cid) (user_progress db)) as Hr.
  { db_wf_split. forall_pointwise. unfold progress_fk, course_ids in *.
    naive_solver. }
  rewrite (list_filter_none (λ l, Lesson.course_id l = cid)); simpl.
  - destruct db as [a p co l up]. unfold with_courses, with_user_progress.
    simpl in *. f_equal; apply list_filter_all; [|done].
    apply Forall_forall. intros c Hc ?. apply Hcid. unfold course_ids. simpl.
    subst cid. by apply list_elem_of_fmap_2.
  - eapply Forall_impl; [done|]. naive_solver.
Qed.

(** With unique keys, at most one row carries a key. *)
Lemma filter_key_NoDup {A K} `{EqDecision K} (key : A → K) (l : list A) k :
  NoDup (key <$> l) →
  filter (λ x, key x = k) l = [] ∨ ∃ x, filter (λ x, key x = k) l = [x].
Proof.
  induction l as [|a l IH]; [by left|].
  rewrite fmap_cons, NoDup_cons. intros [Ha Hl].
  destruct (decide (key a = k)) as [<-|Hne].
  - right. exists a. rewrite filter_cons_True by done. f_equal.
    apply list_filter_none, Forall_forall. intros x Hx Hk.
    apply Ha. rewrite <- Hk. by apply list_elem_of_fmap_2.
  - rewrite filter_cons_False by done. auto.
Qed.

(** ** The cascades, as a whole *)

(** C11: deleting a course leaves the store referentially intact, with no
    course of that id, no lesson of that course, and no progress row of
    that course or of one of its lessons. *)
Theorem delete_course_cascade cid db :
  db_wf db →
  db_wf (delete_course cid db) ∧ (cid ∉ course_ids (delete_course cid db)) ∧
  (∀ l, l ∈ lessons (delete_course cid db) → Lesson.course_id l ≠ cid) ∧
  (∀ r, r ∈ user_progress (delete_course cid db) →
        UserProgress.course_id r ≠ cid ∧
        ∀ l, l ∈ lessons db → Lesson.course_id l = cid →
             UserProgress.lesson_id r ≠ Some (Lesson.id l)).
Proof.
  intros Hwf. split_and!.
  - by apply delete_course_wf.
  - intros (c & -> & Hc)%list_elem_of_fmap. by apply courses_delete_course in Hc as [_ ?].
  - intros l Hl. apply lessons_delete_course in Hl as [_ ?]; [done|apply Hwf].
  - intros r Hr. by apply user_progress_delete_course in Hr as (_ & ? & ?).
Qed.

(** Withdrawing an identity leaves the store referentially intact, with
    neither the identity, nor its profile, nor any progress row of it; the
    rows of the other identities stay. *)
Theorem delete_auth_user_cascade uid db :
  db_wf db →
  db_wf (delete_auth_user uid db) ∧
  (uid ∉ auth_user_ids (delete_auth_user uid db)) ∧
  (uid ∉ profile_ids (delete_auth_user uid db)) ∧
  ∀ r, r ∈ user_progress (delete_auth_user uid db) ↔
       r ∈ user_progress db ∧ UserProgress.user_id r ≠ uid.
Proof.
  intros Hwf. split_and!; [by apply delete_auth_user_wf|..].
  - intros (u & -> & [? _]%list_elem_of_filter)%list_elem_of_fmap. done.
  - intros (p & -> & [? _]%list_elem_of_filter)%list_elem_of_fmap. done.
  - intros r. unfold delete_auth_user. simpl. rewrite list_elem_of_filter. tauto.
Qed.

Lemma sample_wf : db_wf Sample.db.
Proof. compute_done. Qed.

Lemma delete_course_cascade_witness :
  db_wf (delete_course "c1" Sample.db) ∧
  ("c1" ∉ course_ids (delete_course "c1" Sample.db)) ∧
  (∀ l, l ∈ lessons (delete_course "c1" Sample.db) → Lesson.course_id l ≠ "c1") ∧
  (∀ r, r ∈ user_progress (delete_course "c1" Sample.db) →
        UserProgress.course_id r ≠ "c1" ∧
        ∀ l, l ∈ lessons Sample.db → Lesson.course_id l = "c1" →
             UserProgress.lesson_id r ≠ Some (Lesson.id l)).
Proof. exact (delete_course_cascade "c1" Sample.db sample_wf). Defined.

Lemma delete_auth_user_cascade_witness :
  db_wf (delete_auth_user "bob" Sample.db) ∧
  ("bob" ∉ auth_user_ids (delete_auth_user "bob" Sample.db)) ∧
  ("bob" ∉ profile_ids (delete_auth_user "bob" Sample.db)) ∧
  ∀ r, r ∈ user_progress (delete_auth_user "bob" Sample.db) ↔
       r ∈ user_progress Sample.db ∧ UserProgress.user_id r ≠ "bob".
Proof. exact (delete_auth_user_cascade "bob" Sample.db sample_wf). Defined.
