(* ===== verification/Policy.v ===== *)
(** * Policy: row-level security

    The CREATE POLICY statements of the migration (src/unnamed/part_000) as
    data, one list per table, and the store as a caller reaches it: every
    read filtered and every write admitted or rejected by the policies of
    its table.

    A policy's expression is a function of [auth.uid()] and a row.
    [auth.uid()] is [None] for a caller without a session, and a comparison
    with it is then false, as a comparison with NULL is in SQL.

    How the store evaluates a set of policies is not code of the repository.
    It is modelled from the specification: policies are permissive (one
    that admits is enough), a command with no policy is denied, a read
    returns the rows admitted, and a write that touches a row not admitted
    is rejected as a whole with an authorization error. *)

From stdpp Require Import base tactics option list strings sorting.
From S2P Require Import Prelude Schema.
Set Warnings "-clear-no-such-hyp".

(** ** Policies *)

Inductive command := SELECT | INSERT | UPDATE | DELETE.

Inductive role := anon | authenticated.

#[export] Instance command_eq_dec : EqDecision command.
Proof. solve_decision. Defined.
#[export] Instance role_eq_dec : EqDecision role.
Proof. solve_decision. Defined.

(** The caller of a request: the identity of its session, if it has one. *)
Definition caller : Type := option uuid.

Definition role_of (c : caller) : role :=
  match c with Some _ => authenticated | None => anon end.

Record policy (R : Type) := mkPolicy {
  pol_name : string;
  pol_cmd : command;
  pol_to : role;
  pol_using : option (caller → R → bool);
  pol_check : option (caller → R → bool);
}.
Arguments mkPolicy {R}.
Arguments pol_name {R}.
Arguments pol_cmd {R}.
Arguments pol_to {R}.
Arguments pol_using {R}.
Arguments pol_check {R}.

(** [auth.uid() = id] *)
Definition owns_profile (c : caller) (p : Profile.t) : bool :=
  bool_decide (c = Some (Profile.id p)).

(** [auth.uid() = user_id] *)
Definition owns_progress (c : caller) (r : UserProgress.t) : bool :=
  bool_decide (c = Some (UserProgress.user_id r)).

Definition profiles_policies : list (policy Profile.t) :=
  [ mkPolicy "Users can view own profile" SELECT authenticated
      (Some owns_profile) None;
    mkPolicy "Users can update own profile" UPDATE authenticated
      (Some owns_profile) (Some owns_profile);
    mkPolicy "Users can insert own profile" INSERT authenticated
      None (Some owns_profile) ].

Definition courses_policies : list (policy Course.t) :=
  [ mkPolicy "Anyone can view courses" SELECT authenticated
      (Some (λ _ _, true)) None ].

Definition lessons_policies : list (policy Lesson.t) :=
  [ mkPolicy "Anyone can view lessons" SELECT authenticated
      (Some (λ _ _, true)) None ].

Definition user_progress_policies : list (policy UserProgress.t) :=
  [ mkPolicy "Users can view own progress" SELECT authenticated
      (Some owns_progress) None;
    mkPolicy "Users can insert own progress" INSERT authenticated
      None (Some owns_progress);
    mkPolicy "Users can update own progress" UPDATE authenticated
      (Some owns_progress) (Some owns_progress) ].

(** ** Evaluation *)

Section Evaluation.
Context {R : Type} (pols : list (policy R)).

(** The policy is for this command and this caller's role. *)
Definition applies (cmd : command) (c : caller) (p : policy R) : bool :=
  bool_decide (pol_cmd p = cmd) && bool_decide (pol_to p = role_of c).

(** Some policy's USING expression admits the existing row. *)
Definition admits_row (cmd : command) (c : caller) (r : R) : bool :=
  existsb (λ p, applies cmd c p &&
                match pol_using p with Some e => e c r | None => false end) pols.

(** Some policy's WITH CHECK expression admits the new row; a policy with
    no WITH CHECK checks its USING expression. *)
Definition admits_new (cmd : command) (c : caller) (r : R) : bool :=
  existsb (λ p, applies cmd c p &&
                match pol_check p, pol_using p with
                | Some e, _ => e c r
                | None, Some e => e c r
                | None, None => false
                end) pols.

(** A read: the rows admitted. *)
Definition rls_select (c : caller) (rows : list R) : list R :=
  filter (λ r, admits_row SELECT c r = true) rows.

(** A write to existing rows: each row touched is admitted as it is and as
    it will be. *)
Definition rls_update_ok (c : caller) (new : R → R) (touched : list R) : bool :=
  forallb (λ r, admits_row UPDATE c r && admits_new UPDATE c (new r)) touched.

Definition rls_delete_ok (c : caller) (touched : list R) : bool :=
  forallb (admits_row DELETE c) touched.

End Evaluation.

(** ** The store as a caller reaches it *)

(** [.order('order_number')]: ascending. *)
Definition by_order_number (a b : Lesson.t) : Prop :=
  (Lesson.order_number a ≤ Lesson.order_number b)%Z.

(** [.order('created_at', { ascending: false })] *)
Definition by_created_at_desc (a b : Course.t) : Prop :=
  (Course.created_at b ≤ Course.created_at a)%Z.

#[export] Instance by_order_number_dec a b : Decision (by_order_number a b).
Proof. unfold by_order_number. apply _. Defined.
#[export] Instance by_created_at_desc_dec a b : Decision (by_created_at_desc a b).
Proof. unfold by_created_at_desc. apply _. Defined.

(** [from('courses').select('*').order('created_at', { ascending: false })] *)
Definition select_courses (c : caller) (db : Database) : list Course.t :=
  merge_sort by_created_at_desc (rls_select courses_policies c (courses db)).

(** [from('courses').select('*').eq('id', courseId)] *)
Definition select_course_by_id (c : caller) (courseId : uuid) (db : Database) :
    list Course.t :=
  filter (λ x, Course.id x = courseId) (rls_select courses_policies c (courses db)).

(** [from('lessons').select('*').eq('course_id', courseId).order('order_number')] *)
Definition select_lessons (c : caller) (courseId : uuid) (db : Database) :
    list Lesson.t :=
  merge_sort by_order_number
    (filter (λ l, Lesson.course_id l = courseId)
       (rls_select lessons_policies c (lessons db))).

(** [from('user_progress').select('*').eq('user_id', userId)
      .eq('course_id', courseId)] *)
Definition select_user_progress (c : caller) (userId courseId : uuid)
    (db : Database) : list UserProgress.t :=
  filter (λ r, UserProgress.user_id r = userId ∧ UserProgress.course_id r = courseId)
    (rls_select user_progress_policies c (user_progress db)).

(** [from('profiles').select('*').eq('id', userId)] *)
Definition select_profile (c : caller) (userId : uuid) (db : Database) :
    list Profile.t :=
  filter (λ p, Profile.id p = userId) (rls_select profiles_policies c (profiles db)).

(** [from('user_progress').insert({...})] *)
Definition api_insert_user_progress (c : caller) (id : uuid) (now : timestamptz)
    (n : NewProgress) (db : Database) : result store_error Database :=
  if admits_new user_progress_policies INSERT c (progress_row id now n)
  then insert_user_progress id now n db
  else Err (rls_violation "user_progress").

(** [from('user_progress').update({...}).eq('id', rowId)] *)
Definition api_update_user_progress (c : caller) (rowId : uuid) (p : ProgressPatch)
    (db : Database) : result store_error Database :=
  let touched := filter (λ r, UserProgress.id r = rowId) (user_progress db) in
  if rls_update_ok user_progress_policies c (apply_patch p) touched
  then Ok (update_user_progress (λ r, UserProgress.id r = rowId) p db)
  else Err (rls_violation "user_progress").

(** [from('user_progress').delete().eq('id', rowId)] *)
Definition api_delete_user_progress (c : caller) (rowId : uuid) (db : Database) :
    result store_error Database :=
  let touched := filter (λ r, UserProgress.id r = rowId) (user_progress db) in
  if rls_delete_ok user_progress_policies c touched
  then Ok (with_user_progress (filter (λ r, UserProgress.id r ≠ rowId)) db)
  else Err (rls_violation "user_progress").

(** [from('profiles').update({ full_name, updated_at }).eq('id', userId)] *)
Definition api_update_profile (c : caller) (userId : uuid) (full_name : string)
    (now : timestamptz) (db : Database) : result store_error Database :=
  let touched := filter (λ p, Profile.id p = userId) (profiles db) in
  let new p := Profile.mk (Profile.id p) (Profile.email p) full_name
                 (Profile.created_at p) now in
  if rls_update_ok profiles_policies c new touched
  then Ok (update_profile userId full_name now db)
  else Err (rls_violation "profiles").

(** [from('profiles').insert({ id, email, full_name })] *)
Definition api_insert_profile (c : caller) (now : timestamptz) (id : uuid)
    (email full_name : string) (db : Database) : result store_error Database :=
  if admits_new profiles_policies INSERT c (Profile.mk id email full_name now now)
  then insert_profile now id email full_name db
  else Err (rls_violation "profiles").

(** [from('courses').insert(row)]: no policy admits it. *)
Definition api_insert_course (c : caller) (row : Course.t) (db : Database) :
    result store_error Database :=
  if admits_new courses_policies INSERT c row then insert_course row db
  else Err (rls_violation "courses").

(** [from('courses').delete().eq('id', courseId)] *)
Definition api_delete_course (c : caller) (courseId : uuid) (db : Database) :
    result store_error Database :=
  let touched := filter (λ x, Course.id x = courseId) (courses db) in
  if rls_delete_ok courses_policies c touched
  then Ok (delete_course courseId db)
  else Err (rls_violation "courses").

(** [from('lessons').insert(row)] *)
Definition api_insert_lesson (c : caller) (row : Lesson.t) (db : Database) :
    result store_error Database :=
  if admits_new lessons_policies INSERT c row then insert_lesson row db
  else Err (rls_violation "lessons").

Arguments select_courses : simpl never.
Arguments select_course_by_id : simpl never.
Arguments select_lessons : simpl never.
Arguments select_user_progress : simpl never.
Arguments select_profile : simpl never.
Arguments api_insert_user_progress : simpl never.
Arguments api_update_user_progress : simpl never.

(** ** Writes, as one type of request *)

Inductive write_request :=
| InsertProgress (id : uuid) (now : timestamptz) (n : NewProgress)
| UpdateProgress (rowId : uuid) (p : ProgressPatch)
| DeleteProgress (rowId : uuid)
| InsertProfile (now : timestamptz) (id : uuid) (email full_name : string)
| UpdateProfile (userId : uuid) (full_name : string) (now : timestamptz)
| InsertCourse (row : Course.t)
| DeleteCourse (courseId : uuid)
| InsertLesson (row : Lesson.t).

Definition exec_write (c : caller) (req : write_request) (db : Database) :
    result store_error Database :=
  match req with
  | InsertProgress id now n => api_insert_user_progress c id now n db
  | UpdateProgress rowId p => api_update_user_progress c rowId p db
  | DeleteProgress rowId => api_delete_user_progress c rowId db
  | InsertProfile now id email full_name =>
      api_insert_profile c now id email full_name db
  | UpdateProfile userId full_name now => api_update_profile c userId full_name now db
  | InsertCourse row => api_insert_course c row db
  | DeleteCourse courseId => api_delete_course c courseId db
  | InsertLesson row => api_insert_lesson c row db
  end.

(** What a request that succeeds has done: nothing, or one of four changes
    to rows of the caller. *)
Inductive write_effect (c : caller) (db : Database) : Database → Prop :=
| effect_none : write_effect c db db
| effect_insert_progress id now n db' :
    c = Some (new_user_id n) → insert_user_progress id now n db = Ok db' →
    write_effect c db db'
| effect_update_progress rowId p :
    (∀ r, r ∈ user_progress db → UserProgress.id r = rowId →
          c = Some (UserProgress.user_id r)) →
    write_effect c db (update_user_progress (λ r, UserProgress.id r = rowId) p db)
| effect_insert_profile now id email full_name db' :
    c = Some id → insert_profile now id email full_name db = Ok db' →
    write_effect c db db'
| effect_update_profile userId full_name now :
    (∀ p, p ∈ profiles db → Profile.id p = userId → c = Some userId) →
    write_effect c db (update_profile userId full_name now db).

(** ** What each table's policies admit *)

Section PolicySets.
Implicit Types (c : caller).

Lemma user_progress_admits_row cmd c r :
  admits_row user_progress_policies cmd c r =
  match cmd with SELECT | UPDATE => owns_progress c r | _ => false end.
Proof. destruct cmd, c; simpl; by rewrite ?orb_false_r. Qed.

Lemma user_progress_admits_new cmd c r :
  admits_new user_progress_policies cmd c r =
  match cmd with DELETE => false | _ => owns_progress c r end.
Proof. destruct cmd, c; simpl; by rewrite ?orb_false_r. Qed.

Lemma profiles_admits_row cmd c p :
  admits_row profiles_policies cmd c p =
  match cmd with SELECT | UPDATE => owns_profile c p | _ => false end.
Proof. destruct cmd, c; simpl; by rewrite ?orb_false_r. Qed.

Lemma profiles_admits_new cmd c p :
  admits_new profiles_policies cmd c p =
  match cmd with DELETE => false | _ => owns_profile c p end.
Proof. destruct cmd, c; simpl; by rewrite ?orb_false_r. Qed.

Lemma courses_admits_row cmd c x :
  admits_row courses_policies cmd c x =
  match cmd with SELECT => bool_decide (is_Some c) | _ => false end.
Proof. destruct cmd, c; simpl; try done; by rewrite bool_decide_eq_false_2
  by (by intros [??]). Qed.

Lemma courses_admits_new cmd c x :
  admits_new courses_policies cmd c x =
  match cmd with SELECT => bool_decide (is_Some c) | _ => false end.
Proof. destruct cmd, c; simpl; try done; by rewrite bool_decide_eq_false_2
  by (by intros [??]). Qed.

Lemma lessons_admits_row cmd c l :
  admits_row lessons_policies cmd c l =
  match cmd with SELECT => bool_decide (is_Some c) | _ => false end.
Proof. destruct cmd, c; simpl; try done; by rewrite bool_decide_eq_false_2
  by (by intros [??]). Qed.

Lemma lessons_admits_new cmd c l :
  admits_new lessons_policies cmd c l =
  match cmd with SELECT => bool_decide (is_Some c) | _ => false end.
Proof. destruct cmd, c; simpl; try done; by rewrite bool_decide_eq_false_2
  by (by intros [??]). Qed.

Lemma owns_progress_true c r :
  owns_progress c r = true ↔ c = Some (UserProgress.user_id r).
Proof. unfold owns_progress. by rewrite bool_decide_eq_true. Qed.

Lemma owns_profile_true c p :
  owns_profile c p = true ↔ c = Some (Profile.id p).
Proof. unfold owns_profile. by rewrite bool_decide_eq_true. Qed.

End PolicySets.

#[export] Hint Rewrite user_progress_admits_row user_progress_admits_new
  profiles_admits_row profiles_admits_new courses_admits_row courses_admits_new
  lessons_admits_row lessons_admits_new : lp_run.

(** ** Two kinds of policy set

    The four sets of the migration are of two kinds.  The lemmas on reads
    and writes below are proved once for each kind, against these
    interfaces; the sets of the migration are their instances. *)

(** The rows of the table belong to accounts: a session reads, inserts and
    updates the rows of its own account, and nothing is deleted. *)
Class OwnerScoped {R : Type} (pols : list (policy R)) (owner : R → uuid) := {
  scoped_row cmd c r :
    admits_row pols cmd c r =
    match cmd with
    | SELECT | UPDATE => bool_decide (c = Some (owner r))
    | _ => false
    end;
  scoped_new cmd c r :
    admits_new pols cmd c r =
    match cmd with DELETE => false | _ => bool_decide (c = Some (owner r)) end;
}.

(** The table is a catalogue: every session reads all of it, and no caller
    writes to it. *)
Class Catalogue {R : Type} (pols : list (policy R)) := {
  catalogue_row cmd c (r : R) :
    admits_row pols cmd c r =
    match cmd with SELECT => bool_decide (is_Some c) | _ => false end;
  catalogue_new cmd c (r : R) :
    admits_new pols cmd c r =
    match cmd with SELECT => bool_decide (is_Some c) | _ => false end;
}.

#[export] Instance user_progress_scoped :
  OwnerScoped user_progress_policies UserProgress.user_id.
Proof.
  split; intros; [apply user_progress_admits_row|apply user_progress_admits_new].
Qed.

#[export] Instance profiles_scoped : OwnerScoped profiles_policies Profile.id.
Proof. split; intros; [apply profiles_admits_row|apply profiles_admits_new]. Qed.

#[export] Instance courses_catalogue : Catalogue courses_policies.
Proof. split; intros; [apply courses_admits_row|apply courses_admits_new]. Qed.

#[export] Instance lessons_catalogue : Catalogue lessons_policies.
Proof. split; intros; [apply lessons_admits_row|apply lessons_admits_new]. Qed.

Lemma rls_select_all {R} (pols : list (policy R)) c (rows : list R) :
  (∀ r, admits_row pols SELECT c r = true) → rls_select pols c rows = rows.
Proof. intros H. apply list_filter_all, Forall_forall. auto. Qed.

Lemma rls_select_none {R} (pols : list (policy R)) c (rows : list R) :
  (∀ r, admits_row pols SELECT c r = false) → rls_select pols c rows = [].
Proof.
  intros H. apply list_filter_none, Forall_forall. intros r _. by rewrite H.
Qed.

Lemma rls_delete_ok_nil {R} (pols : list (policy R)) c (touched : list R) :
  (∀ x, admits_row pols DELETE c x = false) →
  rls_delete_ok pols c touched = true ↔ touched = [].
Proof.
  intros H. destruct touched as [|x touched]; [done|]. simpl. by rewrite H.
Qed.

Section Scoped.
Context {R : Type} (pols : list (policy R)) (owner : R → uuid).
Context `{!OwnerScoped pols owner}.
Implicit Types (c : caller) (r : R).

(** A caller reads the rows of its own account. *)
Lemma rls_select_scoped c rows :
  rls_select pols c rows = filter (λ r, c = Some (owner r)) rows.
Proof.
  unfold rls_select. apply list_filter_iff. intros r.
  by rewrite scoped_row, bool_decide_eq_true.
Qed.

(** No row is read by two callers. *)
Lemma rls_select_scoped_inj c c' rows r :
  r ∈ rls_select pols c rows → r ∈ rls_select pols c' rows → c = c'.
Proof.
  rewrite !rls_select_scoped, !list_elem_of_filter. intros [-> _] [-> _]. done.
Qed.

(** An update that keeps the owner of a row is admitted when every row it
    touches is the caller's. *)
Lemma rls_update_ok_scoped c new touched :
  (∀ r, owner (new r) = owner r) →
  rls_update_ok pols c new touched = true ↔
  ∀ r, r ∈ touched → c = Some (owner r).
Proof.
  intros Hnew. unfold rls_update_ok. rewrite forallb_forall.
  setoid_rewrite <- list_elem_of_In. apply forall_proper. intros r.
  rewrite scoped_row, scoped_new, andb_true_iff, !bool_decide_eq_true, Hnew.
  naive_solver.
Qed.

(** A delete is admitted when it touches nothing. *)
Lemma rls_delete_ok_scoped c touched :
  rls_delete_ok pols c touched = true ↔ touched = [].
Proof. apply rls_delete_ok_nil. intros. by rewrite scoped_row. Qed.

End Scoped.

Section CatalogueFacts.
Context {R : Type} (pols : list (policy R)) `{!Catalogue pols}.
Implicit Types (c : caller) (r : R).

(** A session reads the whole table; without one, nothing. *)
Lemma rls_select_catalogue c rows :
  rls_select pols c rows = match c with Some _ => rows | None => [] end.
Proof.
  destruct c; [apply rls_select_all|apply rls_select_none]; intros;
    rewrite catalogue_row; [by apply bool_decide_eq_true_2|].
  apply bool_decide_eq_false_2. by intros [??].
Qed.

(** No caller writes a row. *)
Lemma catalogue_read_only cmd c r : cmd ≠ SELECT → admits_new pols cmd c r = false.
Proof. intros Hcmd. rewrite catalogue_new. by destruct cmd. Qed.

Lemma rls_delete_ok_catalogue c touched :
  rls_delete_ok pols c touched = true ↔ touched = [].
Proof. apply rls_delete_ok_nil. intros. by rewrite catalogue_row. Qed.

End CatalogueFacts.

(** ** Reads: a caller sees its own rows, and every course and lesson *)

Section Reads.
Context (db : Database).
Implicit Types (c : caller) (u courseId : uuid).

Lemma rls_select_user_progress c :
  rls_select user_progress_policies c (user_progress db) =
  filter (λ r, c = Some (UserProgress.user_id r)) (user_progress db).
Proof. apply (rls_select_scoped _ UserProgress.user_id). Qed.

Lemma rls_select_profiles c :
  rls_select profiles_policies c (profiles db) =
  filter (λ p, c = Some (Profile.id p)) (profiles db).
Proof. apply (rls_select_scoped _ Profile.id). Qed.

(** A progress row that a caller reads is its own, and is a row of the
    store with the user and course asked for. *)
Lemma select_user_progress_elem c u courseId r :
  r ∈ select_user_progress c u courseId db ↔
  r ∈ user_progress db ∧ c = Some u ∧
  UserProgress.user_id r = u ∧ UserProgress.course_id r = courseId.
Proof.
  unfold select_user_progress.
  rewrite rls_select_user_progress, !list_elem_of_filter. naive_solver.
Qed.

(** Asking for another account's rows returns nothing. *)
Lemma select_user_progress_other c u courseId :
  c ≠ Some u → select_user_progress c u courseId db = [].
Proof.
  intros Hc. apply elem_of_nil_inv. intros r.
  rewrite select_user_progress_elem. naive_solver.
Qed.

(** The caller's own rows, in the store's order. *)
Lemma select_user_progress_own u courseId :
  select_user_progress (Some u) u courseId db =
  filter (λ r, UserProgress.user_id r = u ∧ UserProgress.course_id r = courseId)
    (user_progress db).
Proof.
  unfold select_user_progress. rewrite rls_select_user_progress.
  rewrite list_filter_filter. apply list_filter_iff. naive_solver.
Qed.

Lemma select_profile_elem c u p :
  p ∈ select_profile c u db ↔ p ∈ profiles db ∧ c = Some u ∧ Profile.id p = u.
Proof.
  unfold select_profile.
  rewrite rls_select_profiles, !list_elem_of_filter. naive_solver.
Qed.

Lemma select_profile_own u :
  select_profile (Some u) u db = filter (λ p, Profile.id p = u) (profiles db).
Proof.
  unfold select_profile. rewrite rls_select_profiles, list_filter_filter.
  apply list_filter_iff. naive_solver.
Qed.

(** C6: a caller that asks for the progress rows or the profile of another
    account reads nothing, whatever the store holds; what it reads of its
    own account are the rows of the store with its identity. *)
Theorem reads_are_own c u courseId :
  (c ≠ Some u →
   select_user_progress c u courseId db = [] ∧ select_profile c u db = []) ∧
  (∀ r, r ∈ select_user_progress c u courseId db →
        r ∈ user_progress db ∧ c = Some (UserProgress.user_id r)) ∧
  (∀ p, p ∈ select_profile c u db → p ∈ profiles db ∧ c = Some (Profile.id p)).
Proof.
  split_and!.
  - intros Hc. split; [by apply select_user_progress_other|].
    apply elem_of_nil_inv. intros p. rewrite select_profile_elem. naive_solver.
  - intros r. rewrite select_user_progress_elem. naive_solver.
  - intros p. rewrite select_profile_elem. naive_solver.
Qed.

(** Courses and lessons: everything for a session, nothing without one. *)
Lemma rls_select_courses c :
  rls_select courses_policies c (courses db) =
  match c with Some _ => courses db | None => [] end.
Proof. apply rls_select_catalogue, _. Qed.

Lemma rls_select_lessons c :
  rls_select lessons_policies c (lessons db) =
  match c with Some _ => lessons db | None => [] end.
Proof. apply rls_select_catalogue, _. Qed.

End Reads.

(** ** Ordered reads *)

#[export] Instance by_order_number_total : Total by_order_number.
Proof. intros a b. unfold by_order_number. lia. Qed.
#[export] Instance by_order_number_trans : Transitive by_order_number.
Proof. intros a b c. unfold by_order_number. lia. Qed.
#[export] Instance by_created_at_desc_total : Total by_created_at_desc.
Proof. intros a b. unfold by_created_at_desc. lia. Qed.
#[export] Instance by_created_at_desc_trans : Transitive by_created_at_desc.
Proof. intros a b c. unfold by_created_at_desc. lia. Qed.

Lemma select_lessons_perm u courseId db :
  select_lessons (Some u) courseId db ≡ₚ
    filter (λ l, Lesson.course_id l = courseId) (lessons db).
Proof.
  unfold select_lessons. rewrite rls_select_lessons. apply merge_sort_Permutation.
Qed.

(** The lessons a session reads for a course are the lessons of that
    course, each as often as the store holds it, in ascending order
    position. *)
Theorem select_lessons_sorted u courseId db :
  StronglySorted by_order_number (select_lessons (Some u) courseId db) ∧
  select_lessons (Some u) courseId db ≡ₚ
    filter (λ l, Lesson.course_id l = courseId) (lessons db).
Proof.
  split; [|apply select_lessons_perm].
  unfold select_lessons. apply StronglySorted_merge_sort; apply _.
Qed.

Lemma select_courses_perm u db :
  StronglySorted by_created_at_desc (select_courses (Some u) db) ∧
  select_courses (Some u) db ≡ₚ courses db.
Proof.
  unfold select_courses. rewrite rls_select_courses. split.
  - apply StronglySorted_merge_sort; apply _.
  - apply merge_sort_Permutation.
Qed.

(** The course a session asks for by its id is the course of the store
    with that id, when there is one: with unique ids the request never fails
    for more than one row, and gives no course exactly when the store has
    none of that id. *)
Theorem fetch_course_by_id u courseId db :
  NoDup (course_ids db) →
  ∃ oc, select_course_by_id (Some u) courseId db = option_list oc ∧
    (∀ c, oc = Some c ↔ c ∈ courses db ∧ Course.id c = courseId).
Proof.
  intros Hnd. unfold select_course_by_id. rewrite rls_select_courses.
  destruct (filter_key_NoDup Course.id (courses db) courseId Hnd) as [H|[x H]];
    [exists None|exists (Some x)]; (split; [by rewrite H|]); intros c.
  - split; [done|]. intros [Hc Hid].
    by destruct (filter_nil_not_elem_of _ _ c H Hid).
  - pose proof (list_elem_of_filter (λ x, Course.id x = courseId) (courses db) c)
      as Hc. rewrite H, list_elem_of_singleton in Hc. naive_solver.
Qed.

Lemma select_lessons_anon courseId db : select_lessons None courseId db = [].
Proof. unfold select_lessons. by rewrite rls_select_lessons. Qed.

Lemma select_courses_anon db : select_courses None db = [].
Proof. unfold select_courses. by rewrite rls_select_courses. Qed.

(** C39: a caller without a session reads nothing: no course, no lesson, no
    progress row and no profile. *)
Theorem anon_reads_nothing u courseId db :
  select_courses None db = [] ∧ select_course_by_id None courseId db = [] ∧
  select_lessons None courseId db = [] ∧
  select_user_progress None u courseId db = [] ∧ select_profile None u db = [].
Proof.
  split_and!; [apply select_courses_anon| |apply select_lessons_anon|..].
  - unfold select_course_by_id. by rewrite rls_select_courses.
  - unfold select_user_progress. rewrite rls_select_user_progress.
    by rewrite (list_filter_none (λ r, None = Some (UserProgress.user_id r)))
      by by apply Forall_forall.
  - unfold select_profile. rewrite rls_select_profiles.
    by rewrite (list_filter_none (λ p, None = Some (Profile.id p)))
      by by apply Forall_forall.
Qed.

Lemma select_lessons_elem u courseId db l :
  l ∈ select_lessons (Some u) courseId db ↔
  l ∈ lessons db ∧ Lesson.course_id l = courseId.
Proof.
  rewrite select_lessons_perm, list_elem_of_filter. tauto.
Qed.

Lemma select_lessons_ids_NoDup u courseId db :
  NoDup (lesson_ids db) → NoDup (Lesson.id <$> select_lessons (Some u) courseId db).
Proof.
  intros Hnd. rewrite select_lessons_perm. by apply NoDup_fmap_filter.
Qed.

(** ** Writes: a caller changes its own rows only *)

Section Writes.
Context (db : Database).
Implicit Types (c : caller) (r : UserProgress.t).

Lemma rls_update_ok_user_progress c new touched :
  (∀ r, UserProgress.user_id (new r) = UserProgress.user_id r) →
  rls_update_ok user_progress_policies c new touched = true ↔
  ∀ r, r ∈ touched → c = Some (UserProgress.user_id r).
Proof. apply (rls_update_ok_scoped _ UserProgress.user_id). Qed.

Lemma api_insert_user_progress_Ok u id now n :
  new_user_id n = u → id ∉ progress_ids db → u ∈ auth_user_ids db →
  new_course_id n ∈ course_ids db → lesson_ref_ok db (new_lesson_id n) →
  api_insert_user_progress (Some u) id now n db =
    Ok (with_user_progress (λ t, t ++ [progress_row id now n]) db).
Proof.
  intros <- ????. unfold api_insert_user_progress.
  rewrite user_progress_admits_new. unfold owns_progress. simpl.
  rewrite bool_decide_eq_true_2 by done. by apply insert_user_progress_Ok.
Qed.

(** An insert of a progress row whose user is not the caller is
    rejected by the policies, before any constraint is looked at. *)
Theorem api_insert_user_progress_denied c id now n :
  c ≠ Some (new_user_id n) →
  api_insert_user_progress c id now n db = Err (rls_violation "user_progress").
Proof.
  intros Hc. unfold api_insert_user_progress.
  rewrite user_progress_admits_new. unfold owns_progress. simpl.
  by rewrite bool_decide_eq_false_2.
Qed.

Lemma api_insert_user_progress_inv c id now n db' :
  api_insert_user_progress c id now n db = Ok db' →
  c = Some (new_user_id n) ∧ insert_user_progress id now n db = Ok db'.
Proof.
  unfold api_insert_user_progress. rewrite user_progress_admits_new.
  case_scrut; [|done]. bool_hyps. by rewrite owns_progress_true in *.
Qed.

Lemma api_update_user_progress_inv c rowId p db' :
  api_update_user_progress c rowId p db = Ok db' →
  (∀ r, r ∈ user_progress db → UserProgress.id r = rowId →
        c = Some (UserProgress.user_id r)) ∧
  db' = update_user_progress (λ r, UserProgress.id r = rowId) p db.
Proof.
  unfold api_update_user_progress.
  destruct (rls_update_ok _ _ _ _) eqn:Hok; [|done]. intros [= <-].
  split; [|done]. intros r Hr Hid.
  apply (proj1 (rls_update_ok_user_progress c _ _ (λ _, eq_refl)) Hok).
  by apply list_elem_of_filter.
Qed.

(** An update of a progress row of another account is rejected. *)
Theorem api_update_user_progress_denied c rowId p r :
  r ∈ user_progress db → UserProgress.id r = rowId →
  c ≠ Some (UserProgress.user_id r) →
  api_update_user_progress c rowId p db = Err (rls_violation "user_progress").
Proof.
  intros Hr Hid Hc.
  destruct (api_update_user_progress c rowId p db) as [db'|e] eqn:Hupd.
  - apply api_update_user_progress_inv in Hupd as [H _]. destruct Hc. eauto.
  - unfold api_update_user_progress in Hupd.
    destruct (rls_update_ok _ _ _ _); by simplify_eq.
Qed.

Lemma api_update_user_progress_Ok u rowId p :
  (∀ r, r ∈ user_progress db → UserProgress.id r = rowId →
        UserProgress.user_id r = u) →
  api_update_user_progress (Some u) rowId p db =
    Ok (update_user_progress (λ r, UserProgress.id r = rowId) p db).
Proof.
  intros H. unfold api_update_user_progress.
  rewrite (proj2 (rls_update_ok_user_progress _ (apply_patch p) _ (λ _, eq_refl)));
    [done|].
  intros r [??]%list_elem_of_filter. f_equal. symmetry. auto.
Qed.

(** No policy admits a delete: a delete request never removes a row. *)
Lemma api_delete_user_progress_inv c rowId db' :
  api_delete_user_progress c rowId db = Ok db' → db' = db.
Proof.
  unfold api_delete_user_progress.
  destruct (rls_delete_ok _ _ _) eqn:Hok; [|done]. intros [= <-].
  apply rls_delete_ok_nil in Hok; [|by intros; rewrite user_progress_admits_row].
  destruct db as [a p co l up]. unfold with_user_progress. simpl in *. f_equal.
  by apply list_filter_nil_neg.
Qed.

Lemma api_insert_course_denied c row :
  api_insert_course c row db = Err (rls_violation "courses").
Proof. unfold api_insert_course. by rewrite courses_admits_new. Qed.

Lemma api_insert_lesson_denied c row :
  api_insert_lesson c row db = Err (rls_violation "lessons").
Proof. unfold api_insert_lesson. by rewrite lessons_admits_new. Qed.

(** No caller can delete a course that exists. *)
Lemma api_delete_course_denied c courseId x :
  x ∈ courses db → Course.id x = courseId →
  api_delete_course c courseId db = Err (rls_violation "courses").
Proof.
  intros Hx Hid. unfold api_delete_course.
  destruct (rls_delete_ok _ _ _) eqn:Hok; [|done].
  apply rls_delete_ok_nil in Hok; [|by intros; rewrite courses_admits_row].
  assert (x ∈ filter (λ x, Course.id x = courseId) (courses db)) as Hin
    by by apply list_elem_of_filter.
  rewrite Hok in Hin. by apply elem_of_nil in Hin.
Qed.

End Writes.

(** ** Every write, at once *)

Lemma api_delete_course_inv c courseId db db' :
  db_wf db → api_delete_course c courseId db = Ok db' → db' = db.
Proof.
  intros Hwf. unfold api_delete_course.
  destruct (rls_delete_ok _ _ _) eqn:Hok; [|done]. intros [= <-].
  apply rls_delete_ok_nil in Hok; [|by intros; rewrite courses_admits_row].
  apply delete_course_absent; [done|].
  intros (x & -> & Hx)%list_elem_of_fmap.
  by eapply filter_nil_not_elem_of.
Qed.

Lemma api_update_profile_inv c userId full_name now db db' :
  api_update_profile c userId full_name now db = Ok db' →
  (∀ p, p ∈ profiles db → Profile.id p = userId → c = Some userId) ∧
  db' = update_profile userId full_name now db.
Proof.
  unfold api_update_profile.
  destruct (rls_update_ok _ _ _ _) eqn:Hok; [|done]. intros [= <-].
  split; [|done]. intros p Hp Hid. rewrite <- Hid.
  apply (proj1 (rls_update_ok_scoped _ Profile.id c _ _ (λ _, eq_refl)) Hok).
  by apply list_elem_of_filter.
Qed.

Lemma api_insert_profile_inv c now id email full_name db db' :
  api_insert_profile c now id email full_name db = Ok db' →
  c = Some id ∧ insert_profile now id email full_name db = Ok db'.
Proof.
  unfold api_insert_profile. rewrite profiles_admits_new.
  case_scrut; [|done]. bool_hyps. by rewrite owns_profile_true in *.
Qed.

(** Every request that succeeds is one of the effects. *)
Lemma exec_write_effect c req db db' :
  db_wf db → exec_write c req db = Ok db' → write_effect c db db'.
Proof.
  intros Hwf Hexec. destruct req; simpl in Hexec.
  - apply api_insert_user_progress_inv in Hexec as [??]. by econstructor.
  - apply api_update_user_progress_inv in Hexec as [? ->]. by constructor.
  - apply api_delete_user_progress_inv in Hexec as ->. constructor.
  - apply api_insert_profile_inv in Hexec as [??]. by econstructor.
  - apply api_update_profile_inv in Hexec as [? ->]. by constructor.
  - by rewrite api_insert_course_denied in Hexec.
  - apply api_delete_course_inv in Hexec as ->; [constructor|done].
  - by rewrite api_insert_lesson_denied in Hexec.
Qed.

Section WriteEffect.
Context (c : caller) (db db' : Database).
Context (Heff : write_effect c db db').

(** Referential integrity survives every effect. *)
Lemma write_effect_wf : db_wf db → db_wf db'.
Proof using Heff.
  intros Hwf. destruct Heff; [done|..];
    eauto using insert_user_progress_wf, update_user_progress_wf,
      insert_profile_wf, update_profile_wf.
Qed.

(** Courses, lessons and identities are what they were. *)
Lemma write_effect_catalog :
  courses db' = courses db ∧ lessons db' = lessons db ∧
  auth_users db' = auth_users db.
Proof using Heff.
  destruct Heff as [|???? _ H|?? _|????? _ H|??? _]; try done.
  - apply insert_user_progress_rows in H. naive_solver.
  - apply insert_profile_rows in H. naive_solver.
Qed.

(** The progress rows of every other account are what they were. *)
Lemma write_effect_progress_isolation r :
  c ≠ Some (UserProgress.user_id r) →
  r ∈ user_progress db' ↔ r ∈ user_progress db.
Proof using Heff.
  intros Hc. destruct Heff as [|???? -> H|?? Hown|????? _ H|??? _]; try done.
  - apply insert_user_progress_rows in H as (-> & _).
    rewrite elem_of_app, list_elem_of_singleton. split; [|by left].
    intros [?| ->]; [done|]. by destruct Hc.
  - simpl. rewrite list_elem_of_fmap. split.
    + intros (r0 & -> & Hr0). case_decide; [|done]. destruct Hc. simpl. eauto.
    + intros Hr. exists r. split; [|done]. case_decide; [|done].
      destruct Hc. eauto.
  - by apply insert_profile_rows in H as (_ & -> & _).
Qed.

(** The profile of every other account is what it was. *)
Lemma write_effect_profile_isolation p :
  c ≠ Some (Profile.id p) → p ∈ profiles db' ↔ p ∈ profiles db.
Proof using Heff.
  intros Hc. destruct Heff as [|???? _ H|?? _|????? -> H|??? Hown]; try done.
  - by apply insert_user_progress_rows in H as (_ & _ & -> & _).
  - apply insert_profile_rows in H as (-> & _).
    rewrite elem_of_app, list_elem_of_singleton. split; [|by left].
    intros [?| ->]; [done|]. by destruct Hc.
  - simpl. rewrite list_elem_of_fmap. split.
    + intros (p0 & -> & Hp0). case_decide as Hid; [|done]. destruct Hc.
      simpl. rewrite Hid. eauto.
    + intros Hp. exists p. split; [|done]. case_decide as Hid; [|done].
      destruct Hc. rewrite Hid. eauto.
Qed.

(** No effect deletes a progress row: every id stays. *)
Lemma write_effect_keeps_ids : progress_ids db ⊆ progress_ids db'.
Proof using Heff.
  destruct Heff as [|???? _ H|?? _|????? _ H|??? _]; try done.
  - apply insert_user_progress_rows in H as (H & _).
    unfold progress_ids. rewrite H, fmap_app. apply subseteq_snoc.
  - unfold progress_ids. simpl. rewrite <- list_fmap_compose.
    erewrite list_fmap_ext; [done|]. intros ? r ?. simpl. by case_decide.
  - apply insert_profile_rows in H as (_ & H & _). unfold progress_ids.
    by rewrite H.
Qed.

(** Without a session nothing changes. *)
Lemma write_effect_anon : c = None → db' = db.
Proof using Heff.
  intros ->. destruct Heff as [|???? ? _|?? Hown|????? ? _|??? Hown]; try done.
  - unfold update_user_progress. destruct db as [a p0 co l up]. simpl in *.
    unfold with_user_progress. simpl. f_equal. apply list_fmap_id_in.
    intros r Hr. case_decide as Hid; [|done]. by specialize (Hown r Hr Hid).
  - unfold update_profile. destruct db as [a p0 co l up]. simpl in *.
    unfold with_profiles. simpl. f_equal. apply list_fmap_id_in.
    intros r Hr. case_decide as Hid; [|done]. by specialize (Hown r Hr Hid).
Qed.

End WriteEffect.

(** C8: a write request that succeeds leaves the store referentially
    intact, and leaves the courses, the lessons and the identities exactly as
    they were: the catalogue is read-only for every caller. *)
Theorem exec_write_safe c req db db' :
  db_wf db → exec_write c req db = Ok db' →
  db_wf db' ∧ courses db' = courses db ∧ lessons db' = lessons db ∧
  auth_users db' = auth_users db.
Proof.
  intros Hwf Hexec. pose proof (exec_write_effect _ _ _ _ Hwf Hexec) as Heff.
  split; [by eapply write_effect_wf|by eapply write_effect_catalog].
Qed.

(** C7: a write request changes rows of its caller only: the progress rows
    and the profile of every other account are exactly what they were, and
    no progress row is deleted. *)
Theorem exec_write_isolation c req db db' :
  db_wf db → exec_write c req db = Ok db' →
  (∀ r, c ≠ Some (UserProgress.user_id r) →
        r ∈ user_progress db' ↔ r ∈ user_progress db) ∧
  (∀ p, c ≠ Some (Profile.id p) → p ∈ profiles db' ↔ p ∈ profiles db) ∧
  progress_ids db ⊆ progress_ids db'.
Proof.
  intros Hwf Hexec. pose proof (exec_write_effect _ _ _ _ Hwf Hexec) as Heff.
  split_and!; eauto using write_effect_progress_isolation,
    write_effect_profile_isolation, write_effect_keeps_ids.
Qed.

(** A caller without a session changes nothing, whatever it requests. *)
Theorem exec_write_anon req db db' :
  db_wf db → exec_write None req db = Ok db' → db' = db.
Proof.
  intros Hwf Hexec. eapply write_effect_anon; [|done]. by eapply exec_write_effect.
Qed.

(** ** What a caller reads after a write *)

Lemma list_filter_fmap_inv {A} (P : A → Prop) `{∀ x, Decision (P x)}
    (g : A → A) (l : list A) :
  (∀ x, P (g x) ↔ P x) → filter P (g <$> l) = g <$> filter P l.
Proof.
  intros Hg. induction l as [|x l IH]; [done|]. rewrite fmap_cons.
  destruct (decide (P x)) as [Hx|Hx].
  - rewrite !filter_cons_True by by rewrite ?Hg. by rewrite fmap_cons, IH.
  - rewrite !filter_cons_False by by rewrite ?Hg. done.
Qed.

Section ReadAfterWrite.
Context (u courseId : uuid) (db : Database).

Lemma select_user_progress_after_insert id now n :
  select_user_progress (Some u) u courseId
    (with_user_progress (λ t, t ++ [progress_row id now n]) db) =
  select_user_progress (Some u) u courseId db ++
    (if decide (new_user_id n = u ∧ new_course_id n = courseId)
     then [progress_row id now n] else []).
Proof.
  rewrite !select_user_progress_own. simpl. by rewrite filter_app.
Qed.

Lemma select_user_progress_after_update (P : UserProgress.t → Prop)
    `{∀ r, Decision (P r)} p :
  select_user_progress (Some u) u courseId (update_user_progress P p db) =
  (λ r, if decide (P r) then apply_patch p r else r) <$>
    select_user_progress (Some u) u courseId db.
Proof.
  rewrite !select_user_progress_own. simpl. apply list_filter_fmap_inv.
  intros r. by case_decide.
Qed.

(** Reads of the catalog do not depend on the progress rows. *)
Lemma select_lessons_catalog c db' :
  lessons db' = lessons db →
  select_lessons c courseId db' = select_lessons c courseId db.
Proof. unfold select_lessons, rls_select. by intros ->. Qed.

Lemma select_course_by_id_catalog c db' :
  courses db' = courses db →
  select_course_by_id c courseId db' = select_course_by_id c courseId db.
Proof. unfold select_course_by_id, rls_select. by intros ->. Qed.

End ReadAfterWrite.

(** What an account reads is not changed by the write of another caller:
    the same rows, in the same order. *)
Lemma write_effect_reads_kept c db db' u courseId :
  write_effect c db db' → c ≠ Some u →
  select_user_progress (Some u) u courseId db' =
  select_user_progress (Some u) u courseId db.
Proof.
  intros Heff Hc. destruct Heff as [|???? -> H|rowId p Hown|????? _ H|??? _]; try done.
  - apply insert_user_progress_rows in H as (Hrows & _).
    rewrite !select_user_progress_own, Hrows, filter_app, filter_cons_False;
      [by rewrite filter_nil, app_nil_r|].
    simpl. intros [Hu _]. by rewrite Hu in Hc.
  - rewrite select_user_progress_after_update.
    etrans; [|apply list_fmap_id]. apply list_fmap_ext. intros i r Hr.
    case_decide as Hid; [|done]. apply list_elem_of_lookup_2 in Hr.
    apply select_user_progress_elem in Hr as (Hin & _ & Hu & _).
    destruct Hc. by rewrite (Hown r Hin Hid), Hu.
  - apply insert_profile_rows in H as (_ & Hrows & _).
    by rewrite !select_user_progress_own, Hrows.
Qed.

(** With unique course ids, [.maybeSingle()] on a course never fails. *)
Lemma maybeSingle_course c courseId db :
  NoDup (course_ids db) →
  ∃ oc, select_course_by_id c courseId db = option_list oc.
Proof.
  intros Hnd. unfold select_course_by_id. rewrite rls_select_courses.
  destruct c; [|by exists None].
  destruct (filter_key_NoDup Course.id (courses db) courseId Hnd) as [->|[x ->]];
    [by exists None|by exists (Some x)].
Qed.

(** ** The theorems on the sample store *)

Section OnSample.
#[local] Open Scope Z_scope.

(** Alice records the first lesson of the first course. *)
Definition sample_insert : write_request :=
  InsertProgress "p1" 2000
    (mkNewProgress "alice" "c1" (Some "l1") true (Some 1000)).

Definition sample_inserted : Database :=
  with_user_progress
    (λ t, t ++ [UserProgress.mk "p1" "alice" "c1" (Some "l1") true
                  (Some 1000) 2000 2000]) Sample.db.

Lemma sample_insert_Ok :
  exec_write (Some "alice") sample_insert Sample.db = Ok sample_inserted.
Proof. by vm_compute. Qed.

Lemma reads_are_own_witness :
  (Some "alice" ≠ Some "bob" →
   select_user_progress (Some "alice") "bob" "c1" Sample.db = [] ∧
   select_profile (Some "alice") "bob" Sample.db = []) ∧
  (∀ r, r ∈ select_user_progress (Some "alice") "bob" "c1" Sample.db →
        r ∈ user_progress Sample.db ∧ Some "alice" = Some (UserProgress.user_id r)) ∧
  (∀ p, p ∈ select_profile (Some "alice") "bob" Sample.db →
        p ∈ profiles Sample.db ∧ Some "alice" = Some (Profile.id p)).
Proof. exact (reads_are_own Sample.db (Some "alice") "bob" "c1"). Defined.

Lemma fetch_course_by_id_witness :
  ∃ oc, select_course_by_id (Some "alice") "c1" Sample.db = option_list oc ∧
    (∀ c, oc = Some c ↔ c ∈ courses Sample.db ∧ Course.id c = "c1").
Proof. apply (fetch_course_by_id "alice" "c1" Sample.db). compute_done. Defined.

Lemma api_insert_user_progress_denied_witness :
  api_insert_user_progress (Some "alice") "p1" 2000
    (mkNewProgress "bob" "c1" (Some "l2") true None) Sample.db =
  Err (rls_violation "user_progress").
Proof. by apply (api_insert_user_progress_denied Sample.db). Defined.

Lemma api_update_user_progress_denied_witness :
  api_update_user_progress (Some "alice") "p0" (mkProgressPatch false None 2000)
    Sample.db = Err (rls_violation "user_progress").
Proof.
  apply (api_update_user_progress_denied Sample.db _ _ _ Sample.bob_l1);
    [compute_done|done..].
Defined.

Lemma exec_write_safe_witness :
  db_wf sample_inserted ∧ courses sample_inserted = courses Sample.db ∧
  lessons sample_inserted = lessons Sample.db ∧
  auth_users sample_inserted = auth_users Sample.db.
Proof.
  exact (exec_write_safe (Some "alice") sample_insert Sample.db sample_inserted
           sample_wf sample_insert_Ok).
Defined.

Lemma exec_write_isolation_witness :
  (∀ r, Some "alice" ≠ Some (UserProgress.user_id r) →
        r ∈ user_progress sample_inserted ↔ r ∈ user_progress Sample.db) ∧
  (∀ p, Some "alice" ≠ Some (Profile.id p) →
        p ∈ profiles sample_inserted ↔ p ∈ profiles Sample.db) ∧
  progress_ids Sample.db ⊆ progress_ids sample_inserted.
Proof.
  exact (exec_write_isolation (Some "alice") sample_insert Sample.db
           sample_inserted sample_wf sample_insert_Ok).
Defined.

Lemma exec_write_anon_witness :
  update_user_progress (λ r, UserProgress.id r = "p9")
    (mkProgressPatch true None 2000) Sample.db = Sample.db.
Proof.
  by apply (exec_write_anon (UpdateProgress "p9" (mkProgressPatch true None 2000))
              Sample.db _ sample_wf).
Defined.

End OnSample.
