(* ===== verification/Postgres.v ===== *)
(** * Postgres: the policies as PostgreSQL evaluates them

    [Policy] follows the specification: a write that touches a row the
    policies do not admit is rejected as a whole.  PostgreSQL itself treats
    the USING expression of an UPDATE or a DELETE as one more condition of
    the statement: rows that it does not admit are not seen, the statement
    changes the others and reports no error; only a new row that fails WITH
    CHECK makes the statement fail.  This file has that reading
    ([pg_exec_write]) and shows that the choice does not matter for the
    store: where the specification's reading accepts a request both do the
    same, and where it rejects an UPDATE or a DELETE, PostgreSQL's changes
    nothing. *)

From stdpp Require Import base tactics option list strings.
From S2P Require Import Prelude Schema Policy.
Set Warnings "-clear-no-such-hyp".

(** ** Statements that filter *)

Section Filtered.
Context {R : Type} (pols : list (policy R)).
Context (matches : R → Prop) `{∀ r, Decision (matches r)}.

(** The rows an UPDATE or a DELETE works on: those of its WHERE clause that
    USING admits. *)
Definition pg_hit (cmd : command) (c : caller) (r : R) : Prop :=
  matches r ∧ admits_row pols cmd c r = true.

#[export] Instance pg_hit_dec cmd c r : Decision (pg_hit cmd c r).
Proof. unfold pg_hit. apply _. Defined.

(** [UPDATE ... SET ... WHERE ...]: the rows hit are replaced; the statement
    fails when WITH CHECK refuses one of the new rows. *)
Definition pg_update (c : caller) (new : R → R) (rows : list R) : option (list R) :=
  if forallb (λ r, admits_new pols UPDATE c (new r)) (filter (pg_hit UPDATE c) rows)
  then Some ((λ r, if decide (pg_hit UPDATE c r) then new r else r) <$> rows)
  else None.

(** [DELETE FROM ... WHERE ...]: the rows hit. *)
Definition pg_deleted (c : caller) (rows : list R) : list R :=
  filter (pg_hit DELETE c) rows.

End Filtered.

(** ** Requests *)

Definition pg_update_user_progress (c : caller) (rowId : uuid) (p : ProgressPatch)
    (db : Database) : result store_error Database :=
  match pg_update user_progress_policies (λ r, UserProgress.id r = rowId) c
          (apply_patch p) (user_progress db) with
  | Some rows => Ok (with_user_progress (λ _, rows) db)
  | None => Err (rls_violation "user_progress")
  end.

Definition pg_delete_user_progress (c : caller) (rowId : uuid) (db : Database) :
    result store_error Database :=
  let gone := pg_deleted user_progress_policies (λ r, UserProgress.id r = rowId) c
                (user_progress db) in
  Ok (with_user_progress (filter (λ r, r ∉ gone)) db).

Definition pg_update_profile (c : caller) (userId : uuid) (full_name : string)
    (now : timestamptz) (db : Database) : result store_error Database :=
  match pg_update profiles_policies (λ p, Profile.id p = userId) c
          (λ p, Profile.mk (Profile.id p) (Profile.email p) full_name
                  (Profile.created_at p) now) (profiles db) with
  | Some rows => Ok (with_profiles (λ _, rows) db)
  | None => Err (rls_violation "profiles")
  end.

Definition pg_delete_course (c : caller) (courseId : uuid) (db : Database) :
    result store_error Database :=
  let gone := pg_deleted courses_policies (λ x, Course.id x = courseId) c
                (courses db) in
  Ok (foldr delete_course db (Course.id <$> gone)).

(** A request as PostgreSQL runs it.  An INSERT has no USING: it is as in
    [Policy]. *)
Definition pg_exec_write (c : caller) (req : write_request) (db : Database) :
    result store_error Database :=
  match req with
  | UpdateProgress rowId p => pg_update_user_progress c rowId p db
  | DeleteProgress rowId => pg_delete_user_progress c rowId db
  | UpdateProfile userId full_name now => pg_update_profile c userId full_name now db
  | DeleteCourse courseId => pg_delete_course c courseId db
  | _ => exec_write c req db
  end.

(** The requests with a WHERE clause. *)
Definition filters (req : write_request) : bool :=
  match req with
  | UpdateProgress _ _ | DeleteProgress _ | UpdateProfile _ _ _ | DeleteCourse _ => true
  | _ => false
  end.

(** What PostgreSQL answers where [Policy] answers [r]: the same, except
    that a statement with a WHERE clause that [Policy] rejects is run on no
    row. *)
Definition as_postgres (req : write_request) (db : Database)
    (r : result store_error Database) : result store_error Database :=
  match r with
  | Ok db' => Ok db'
  | Err e => if filters req then Ok db else Err e
  end.

(** ** The two readings on the tables of the migration *)

Section Scoped.
Context {R : Type} (pols : list (policy R)) (owner key : R → uuid).
Context `{!OwnerScoped pols owner}.

(** On a table whose rows belong to accounts and whose key is unique, an
    UPDATE by key never fails: it replaces the row of the key when it is the
    caller's, and does nothing otherwise. *)
Lemma pg_update_scoped c k new rows :
  (∀ r, owner (new r) = owner r) → NoDup (key <$> rows) →
  pg_update pols (λ r, key r = k) c new rows =
  Some (if rls_update_ok pols c new (filter (λ r, key r = k) rows)
        then (λ r, if decide (key r = k) then new r else r) <$> rows
        else rows).
Proof.
  intros Hnew Hnd. unfold pg_update.
  rewrite (proj2 (forallb_forall _ _)); last first.
  { intros r [[_ Hr] _]%list_elem_of_In%list_elem_of_filter.
    by rewrite scoped_new, Hnew, <- (scoped_row UPDATE). }
  f_equal. pose proof (rls_update_ok_scoped pols owner c new
    (filter (λ r, key r = k) rows) Hnew) as Hiff.
  destruct (rls_update_ok _ _ _ _).
  - apply list_fmap_ext. intros _ r Hr%list_elem_of_lookup_2.
    destruct (decide (key r = k)) as [Hk|Hk].
    + rewrite decide_True; [done|]. split; [done|]. rewrite scoped_row.
      apply bool_decide_eq_true, Hiff; [done|by apply list_elem_of_filter].
    + rewrite decide_False; [done|]. by intros [? _].
  - etrans; [|apply list_fmap_id]. apply list_fmap_ext.
    intros _ r Hr%list_elem_of_lookup_2. case_decide as Hhit; [|done].
    destruct Hhit as [Hk Hown]. rewrite scoped_row, bool_decide_eq_true in Hown.
    enough (false = true) by done. apply Hiff.
    intros r' [Hk' Hr']%list_elem_of_filter.
    by rewrite (NoDup_fmap_key_inj key rows r' r Hnd Hr' Hr) by congruence.
Qed.

End Scoped.

(** Where no policy admits a DELETE, a DELETE hits no row. *)
Lemma pg_deleted_nil {R} (pols : list (policy R)) (matches : R → Prop)
    `{∀ r, Decision (matches r)} c rows :
  (∀ r, admits_row pols DELETE c r = false) → pg_deleted pols matches c rows = [].
Proof.
  intros Hno. apply list_filter_none, Forall_forall. intros r _ [_ Hr].
  by rewrite Hno in Hr.
Qed.

Lemma with_user_progress_same db : with_user_progress (λ _, user_progress db) db = db.
Proof. by destruct db. Qed.

Lemma with_profiles_same db : with_profiles (λ _, profiles db) db = db.
Proof. by destruct db. Qed.

Lemma pg_update_user_progress_agrees c rowId p db :
  db_wf db →
  pg_update_user_progress c rowId p db =
  as_postgres (UpdateProgress rowId p) db (api_update_user_progress c rowId p db).
Proof.
  intros ((_ & _ & _ & _ & Hnd) & _).
  unfold pg_update_user_progress, api_update_user_progress.
  rewrite (pg_update_scoped _ UserProgress.user_id UserProgress.id) by done.
  destruct (rls_update_ok _ _ _ _); simpl; [done|].
  by rewrite with_user_progress_same.
Qed.

Lemma pg_update_profile_agrees c userId full_name now db :
  db_wf db →
  pg_update_profile c userId full_name now db =
  as_postgres (UpdateProfile userId full_name now) db
    (api_update_profile c userId full_name now db).
Proof.
  intros ((_ & Hnd & _) & _). unfold pg_update_profile, api_update_profile.
  rewrite (pg_update_scoped _ Profile.id Profile.id) by done.
  destruct (rls_update_ok _ _ _ _); simpl; [done|].
  by rewrite with_profiles_same.
Qed.

Lemma pg_delete_user_progress_nothing c rowId db :
  pg_delete_user_progress c rowId db = Ok db.
Proof.
  unfold pg_delete_user_progress.
  rewrite pg_deleted_nil by (intros; by rewrite user_progress_admits_row).
  rewrite <- (with_user_progress_same db) at 2. f_equal.
  destruct db as [a p co l up]. unfold with_user_progress. simpl. f_equal.
  apply list_filter_all, Forall_forall. intros r _. apply not_elem_of_nil.
Qed.

Lemma pg_delete_course_nothing c courseId db : pg_delete_course c courseId db = Ok db.
Proof.
  unfold pg_delete_course.
  by rewrite pg_deleted_nil by (intros; by rewrite courses_admits_row).
Qed.

Lemma pg_delete_user_progress_agrees c rowId db :
  pg_delete_user_progress c rowId db =
  as_postgres (DeleteProgress rowId) db (api_delete_user_progress c rowId db).
Proof.
  rewrite pg_delete_user_progress_nothing.
  destruct (api_delete_user_progress _ _ _) eqn:Hdel; [|done].
  by apply api_delete_user_progress_inv in Hdel as ->.
Qed.

Lemma pg_delete_course_agrees c courseId db :
  db_wf db →
  pg_delete_course c courseId db =
  as_postgres (DeleteCourse courseId) db (api_delete_course c courseId db).
Proof.
  intros Hwf. rewrite pg_delete_course_nothing.
  destruct (api_delete_course _ _ _) eqn:Hdel; [|done].
  by apply api_delete_course_inv in Hdel as ->.
Qed.

(** What PostgreSQL's answer has done, when the request it answers could
    only do [effect]: that, or nothing. *)
Lemma as_postgres_effect c req db r db' :
  (∀ db1, r = Ok db1 → write_effect c db db1) →
  as_postgres req db r = Ok db' → write_effect c db db'.
Proof.
  intros Heff. destruct r as [db1|e]; simpl.
  - intros [= <-]. by apply Heff.
  - destruct (filters req); [|done]. intros [= <-]. constructor.
Qed.

(** C25: the two readings of the policies agree on the store.  Where the
    specification's reading accepts a request, PostgreSQL's does the same to
    the store; where it rejects an INSERT, so does PostgreSQL's, with the
    same error; where it rejects an UPDATE or a DELETE, PostgreSQL's reports
    no error and changes nothing. *)
Theorem pg_exec_write_agrees c req db :
  db_wf db → pg_exec_write c req db = as_postgres req db (exec_write c req db).
Proof.
  intros Hwf.
  destruct req; cbn [pg_exec_write exec_write];
    try (unfold as_postgres; cbn [filters]; by case_match).
  - by apply pg_update_user_progress_agrees.
  - apply pg_delete_user_progress_agrees.
  - by apply pg_update_profile_agrees.
  - by apply pg_delete_course_agrees.
Qed.

(** So what a successful request has done is the same under both readings:
    nothing, or a change to rows of the caller. *)
Lemma pg_exec_write_effect c req db db' :
  db_wf db → pg_exec_write c req db = Ok db' → write_effect c db db'.
Proof.
  intros Hwf Hpg.
  assert (∀ db1, exec_write c req db = Ok db1 → write_effect c db db1) as Heff
    by (intros; by eapply exec_write_effect).
  destruct req; cbn [pg_exec_write exec_write] in *; try by apply Heff.
  all: rewrite ?pg_update_user_progress_agrees, ?pg_delete_user_progress_agrees,
         ?pg_update_profile_agrees, ?pg_delete_course_agrees in Hpg by done;
       by eapply as_postgres_effect.
Qed.

(** Under PostgreSQL's reading too, a request keeps the store intact,
    leaves the catalogue and the identities as they are, changes the
    progress rows and the profile of no other account, and deletes no
    progress row. *)
Theorem pg_write_isolation c req db db' :
  db_wf db → pg_exec_write c req db = Ok db' →
  db_wf db' ∧ courses db' = courses db ∧ lessons db' = lessons db ∧
  auth_users db' = auth_users db ∧
  (∀ r, c ≠ Some (UserProgress.user_id r) →
        r ∈ user_progress db' ↔ r ∈ user_progress db) ∧
  (∀ p, c ≠ Some (Profile.id p) → p ∈ profiles db' ↔ p ∈ profiles db) ∧
  progress_ids db ⊆ progress_ids db'.
Proof.
  intros Hwf Heff%pg_exec_write_effect; [|done].
  pose proof (write_effect_catalog _ _ _ Heff) as (? & ? & ?).
  split_and!; [by eapply write_effect_wf|done..| | |by eapply write_effect_keeps_ids].
  - intros r. by apply write_effect_progress_isolation.
  - intros p. by apply write_effect_profile_isolation.
Qed.

(** The sample store has one progress row, Bob's.  Alice's update of it is
    rejected in one reading and runs on no row in the other; Bob's own
    update does the same in both. *)
Example pg_update_of_another :
  exec_write (Some "alice") (UpdateProgress "p0" (mkProgressPatch false None 9%Z))
    Sample.db = Err (rls_violation "user_progress") ∧
  pg_exec_write (Some "alice") (UpdateProgress "p0" (mkProgressPatch false None 9%Z))
    Sample.db = Ok Sample.db ∧
  pg_exec_write (Some "bob") (UpdateProgress "p0" (mkProgressPatch false None 9%Z))
    Sample.db =
  exec_write (Some "bob") (UpdateProgress "p0" (mkProgressPatch false None 9%Z))
    Sample.db.
Proof. by vm_compute. Qed.

Lemma pg_exec_write_agrees_witness :
  pg_exec_write (Some "alice") (UpdateProgress "p0" (mkProgressPatch false None 9%Z))
    Sample.db =
  as_postgres (UpdateProgress "p0" (mkProgressPatch false None 9%Z)) Sample.db
    (exec_write (Some "alice")
       (UpdateProgress "p0" (mkProgressPatch false None 9%Z)) Sample.db).
Proof.
  apply (pg_exec_write_agrees (Some "alice")
           (UpdateProgress "p0" (mkProgressPatch false None 9%Z)) Sample.db),
    sample_wf.
Defined.

Lemma pg_write_isolation_witness :
  db_wf (update_user_progress (λ r, UserProgress.id r = "p0")
           (mkProgressPatch false None 9%Z) Sample.db) ∧
  courses (update_user_progress (λ r, UserProgress.id r = "p0")
             (mkProgressPatch false None 9%Z) Sample.db) = courses Sample.db ∧
  lessons (update_user_progress (λ r, UserProgress.id r = "p0")
             (mkProgressPatch false None 9%Z) Sample.db) = lessons Sample.db ∧
  auth_users (update_user_progress (λ r, UserProgress.id r = "p0")
                (mkProgressPatch false None 9%Z) Sample.db) =
    auth_users Sample.db ∧
  (∀ r, Some "bob" ≠ Some (UserProgress.user_id r) →
        r ∈ user_progress (update_user_progress (λ r, UserProgress.id r = "p0")
                             (mkProgressPatch false None 9%Z) Sample.db) ↔
        r ∈ user_progress Sample.db) ∧
  (∀ p, Some "bob" ≠ Some (Profile.id p) →
        p ∈ profiles (update_user_progress (λ r, UserProgress.id r = "p0")
                        (mkProgressPatch false None 9%Z) Sample.db) ↔
        p ∈ profiles Sample.db) ∧
  progress_ids Sample.db ⊆
    progress_ids (update_user_progress (λ r, UserProgress.id r = "p0")
                    (mkProgressPatch false None 9%Z) Sample.db).
Proof.
  apply (pg_write_isolation (Some "bob")
           (UpdateProgress "p0" (mkProgressPatch false None 9%Z)) Sample.db);
    [apply sample_wf|by vm_compute].
Defined.
