(* ===== verification/Indexes.v ===== *)
(** * Indexes: the five indexes of the migration

    src/unnamed/part_000 creates five indexes, none of them UNIQUE: on
    [lessons(course_id)], on [user_progress(user_id)], [(course_id)] and
    [(lesson_id)], and the composite [(user_id, course_id, lesson_id)].  An
    index is a finite map from a key to the rows that have it, in the order
    of the table.  Reading through an index returns what a scan of the table
    with the same condition returns, so the queries of the pages mean the
    same with the indexes or without; an insert keeps an index in step with
    its table; and since no index is unique, none rejects a second row with
    the key of a first. *)

From stdpp Require Import base tactics option list strings gmap sorting.
From S2P Require Import Prelude Schema Policy.
Set Warnings "-clear-no-such-hyp".

(** ** An index on a key *)

Section Index.
Context {K R : Type} `{Countable K} (key : R → K).

(** [CREATE INDEX ... ON table(key)], built over the rows of the table. *)
Definition build_index (rows : list R) : gmap K (list R) :=
  foldr (λ r idx, <[key r := r :: default [] (idx !! key r)]> idx) ∅ rows.

(** An index scan for [key = k]. *)
Definition index_scan (idx : gmap K (list R)) (k : K) : list R :=
  default [] (idx !! k).

(** What the store does to the index when a row is appended to the table. *)
Definition index_add (r : R) (idx : gmap K (list R)) : gmap K (list R) :=
  <[key r := default [] (idx !! key r) ++ [r]]> idx.

(** What a UNIQUE index would do with a row whose key is taken. *)
Definition unique_add (r : R) (idx : gmap K (list R)) : option (gmap K (list R)) :=
  match idx !! key r with
  | Some (_ :: _) => None
  | _ => Some (index_add r idx)
  end.

End Index.

(** ** The indexes of the migration *)

Definition idx_lessons_course_id (db : Database) : gmap uuid (list Lesson.t) :=
  build_index Lesson.course_id (lessons db).

Definition idx_user_progress_user_id (db : Database) :
    gmap uuid (list UserProgress.t) :=
  build_index UserProgress.user_id (user_progress db).

Definition idx_user_progress_course_id (db : Database) :
    gmap uuid (list UserProgress.t) :=
  build_index UserProgress.course_id (user_progress db).

Definition idx_user_progress_lesson_id (db : Database) :
    gmap (option uuid) (list UserProgress.t) :=
  build_index UserProgress.lesson_id (user_progress db).

(** The key of the composite index. *)
Definition lookup_key (r : UserProgress.t) : uuid * uuid * option uuid :=
  (UserProgress.user_id r, UserProgress.course_id r, UserProgress.lesson_id r).

Definition idx_user_progress_lookup (db : Database) :
    gmap (uuid * uuid * option uuid) (list UserProgress.t) :=
  build_index lookup_key (user_progress db).

(** ** Scans *)

Section IndexFacts.
Context {K R : Type} `{Countable K} (key : R → K).
Implicit Types (rows : list R) (k : K) (r : R).

Lemma index_scan_build rows k :
  index_scan (build_index key rows) k = filter (λ r, key r = k) rows.
Proof.
  unfold index_scan. induction rows as [|r rows IH]; [done|]. simpl.
  destruct (decide (key r = k)) as [<-|Hne].
  - by rewrite lookup_insert_eq, filter_cons_True, <- IH.
  - by rewrite lookup_insert_ne, filter_cons_False.
Qed.

(** An entry of the index is never empty. *)
Lemma build_index_lookup rows k :
  build_index key rows !! k =
  match filter (λ r, key r = k) rows with [] => None | l => Some l end.
Proof.
  induction rows as [|r rows IH]; [done|]. simpl.
  destruct (decide (key r = k)) as [<-|Hne].
  - rewrite lookup_insert_eq, filter_cons_True by done.
    by rewrite <- (index_scan_build rows (key r)).
  - by rewrite lookup_insert_ne, filter_cons_False.
Qed.

(** An insert into the table keeps the index in step with it. *)
Lemma index_add_build rows r :
  index_add key r (build_index key rows) = build_index key (rows ++ [r]).
Proof.
  apply map_eq. intros k. unfold index_add. rewrite !build_index_lookup.
  rewrite filter_app. destruct (decide (key r = k)) as [<-|Hne].
  - rewrite lookup_insert_eq, filter_cons_True by done. simpl.
    by destruct (filter _ rows).
  - rewrite lookup_insert_ne, build_index_lookup, filter_cons_False by done.
    by rewrite app_nil_r.
Qed.

(** A unique index would refuse exactly the rows whose key some row of the
    table has. *)
Lemma unique_add_build rows r :
  unique_add key r (build_index key rows) =
  if decide (key r ∈ key <$> rows) then None
  else Some (build_index key (rows ++ [r])).
Proof.
  unfold unique_add. rewrite build_index_lookup, index_add_build.
  destruct (filter _ rows) as [|x l] eqn:Hf.
  - rewrite decide_False; [done|]. intros (y & Hy & Hin)%list_elem_of_fmap.
    assert (y ∈ filter (λ r0, key r0 = key r) rows) as Hy'
      by by apply list_elem_of_filter.
    rewrite Hf in Hy'. by apply elem_of_nil in Hy'.
  - rewrite decide_True; [done|].
    assert (x ∈ filter (λ r0, key r0 = key r) rows) as [Hx Hin]%list_elem_of_filter
      by (rewrite Hf; by left).
    rewrite <- Hx. by apply list_elem_of_fmap_2.
Qed.

End IndexFacts.

(** ** The queries of the pages through the indexes *)

(** The reads of the course page mean the same through the indexes:
    the lessons of a course are the entry of the course in the index on
    [lessons(course_id)], ordered; the progress rows of the user for the
    course are those of the course in the user's entry of the index on
    [user_progress(user_id)]; and the rows the page holds for a lesson
    reference are the entry of (user, course, reference) in the composite
    index. *)
Theorem index_queries u courseId target db :
  select_lessons (Some u) courseId db =
    merge_sort by_order_number (index_scan (idx_lessons_course_id db) courseId) ∧
  select_user_progress (Some u) u courseId db =
    filter (λ r, UserProgress.course_id r = courseId)
      (index_scan (idx_user_progress_user_id db) u) ∧
  filter (λ r, UserProgress.lesson_id r = target)
    (select_user_progress (Some u) u courseId db) =
    index_scan (idx_user_progress_lookup db) (u, courseId, target).
Proof.
  unfold idx_lessons_course_id, idx_user_progress_user_id, idx_user_progress_lookup,
    select_lessons, select_user_progress.
  rewrite !index_scan_build, rls_select_lessons, rls_select_user_progress.
  rewrite !list_filter_filter. split_and!; [done|..]; apply list_filter_iff;
    intros r; unfold lookup_key; naive_solver.
Qed.

(** No index of the migration is unique.  The composite index takes a
    second row for a user, a course and a lesson reference beside the first,
    and returns both; declared UNIQUE it would take the first when the table
    has no row with the key, and refuse the second. *)
Theorem lookup_index_not_unique db id1 id2 now1 now2 n :
  let r1 := progress_row id1 now1 n in
  let r2 := progress_row id2 now2 n in
  let idx := idx_user_progress_lookup db in
  index_scan (index_add lookup_key r2 (index_add lookup_key r1 idx)) (lookup_key r1) =
    filter (λ r, lookup_key r = lookup_key r1) (user_progress db) ++ [r1; r2] ∧
  (lookup_key r1 ∉ lookup_key <$> user_progress db →
   ∃ idx1, unique_add lookup_key r1 idx = Some idx1 ∧
           unique_add lookup_key r2 idx1 = None).
Proof.
  intros r1 r2 idx. unfold idx, idx_user_progress_lookup.
  rewrite !index_add_build, index_scan_build, !filter_app. split.
  - rewrite (filter_cons_True _ r1), (filter_cons_True _ r2) by done.
    by rewrite <- app_assoc.
  - intros Hnew. rewrite unique_add_build, decide_False by done.
    eexists. split; [done|]. rewrite unique_add_build, decide_True; [done|].
    rewrite fmap_app, elem_of_app. right. by left.
Qed.

Lemma lookup_index_not_unique_witness :
  index_scan
    (index_add lookup_key
       (progress_row "p2" 8%Z (mkNewProgress "alice" "c1" (Some "l1") true (Some 6%Z)))
       (index_add lookup_key
          (progress_row "p1" 7%Z (mkNewProgress "alice" "c1" (Some "l1") true (Some 6%Z)))
          (idx_user_progress_lookup Sample.db)))
    ("alice", "c1", Some "l1") =
  [progress_row "p1" 7%Z (mkNewProgress "alice" "c1" (Some "l1") true (Some 6%Z));
   progress_row "p2" 8%Z (mkNewProgress "alice" "c1" (Some "l1") true (Some 6%Z))] ∧
  ∃ idx1,
    unique_add lookup_key
      (progress_row "p1" 7%Z (mkNewProgress "alice" "c1" (Some "l1") true (Some 6%Z)))
      (idx_user_progress_lookup Sample.db) = Some idx1 ∧
    unique_add lookup_key
      (progress_row "p2" 8%Z (mkNewProgress "alice" "c1" (Some "l1") true (Some 6%Z)))
      idx1 = None.
Proof.
  destruct (lookup_index_not_unique Sample.db "p1" "p2" 7%Z 8%Z
              (mkNewProgress "alice" "c1" (Some "l1") true (Some 6%Z)))
    as [Hscan Hunique].
  split; [exact Hscan|]. apply Hunique. compute_done.
Defined.
