(* ===== verification/Store.v ===== *)
(** * Store: the store as a transition system

    What changes the store: a registration, which fires the trigger
    [on_auth_user_created] of the migration (src/unnamed/part_000) and so
    creates the profile, with the full name of the signup metadata or the
    empty name; the withdrawal of an identity; the administrator's
    changes to the catalogue, which no policy covers and which therefore
    only a privileged role performs; and the requests of the clients, which
    go through the policies.  Every store reachable from the empty one is
    referentially intact and holds exactly one profile per identity. *)

From stdpp Require Import base tactics option list strings.
From S2P Require Import Prelude Schema Policy.
Set Warnings "-clear-no-such-hyp".

(** ** The trigger *)

(** [object ->> key]: the field as text, and NULL when the object has no
    such key or holds JSON null there. *)
Definition json_text (object : list (string * json)) (key : string) :
    option string :=
  match snd <$> find (λ kv, bool_decide (kv.1 = key)) object with
  | Some (j_string s) => Some s
  | Some (j_other text) => Some text
  | Some j_null | None => None
  end.

(** [COALESCE(a, b)]: the first argument that is not NULL. *)
Definition COALESCE {A} (a : option A) (b : A) : A := default b a.

(** [COALESCE(new.raw_user_meta_data->>'full_name', '')] *)
Definition meta_full_name (new : AuthUser.t) : string :=
  COALESCE (json_text (AuthUser.raw_user_meta_data new) "full_name") "".

(** [handle_new_user()]: SECURITY DEFINER, so the insert is the store's own
    and no policy is consulted. *)
Definition handle_new_user (now : timestamptz) (new : AuthUser.t) (db : Database) :
    result store_error Database :=
  insert_profile now (AuthUser.id new) (AuthUser.email new) (meta_full_name new) db.

(** [insert into auth.users] with [on_auth_user_created] in place: the
    trigger runs after the row is inserted, in the same transaction, so a
    failure of the trigger undoes the insert. *)
Definition sign_up (now : timestamptz) (u : AuthUser.t) (db : Database) :
    result store_error Database :=
  db1 ← insert_auth_user u db; handle_new_user now u db1.

(** ** Events *)

Inductive event :=
| SignUp (now : timestamptz) (u : AuthUser.t)
| Withdraw (uid : uuid)
| AddCourse (c : Course.t)
| AddLesson (l : Lesson.t)
| RemoveCourse (cid : uuid)
| RemoveLesson (lid : uuid)
| Request (c : caller) (req : write_request).

Definition exec_event (e : event) (db : Database) : result store_error Database :=
  match e with
  | SignUp now u => sign_up now u db
  | Withdraw uid => Ok (delete_auth_user uid db)
  | AddCourse c => insert_course c db
  | AddLesson l => insert_lesson l db
  | RemoveCourse cid => Ok (delete_course cid db)
  | RemoveLesson lid => Ok (delete_lesson lid db)
  | Request c req => exec_write c req db
  end.

(** The events in order; the first that fails stops the run. *)
Fixpoint run_events (es : list event) (db : Database) : result store_error Database :=
  match es with
  | [] => Ok db
  | e :: es => db1 ← exec_event e db; run_events es db1
  end.

Definition reachable (db : Database) : Prop :=
  ∃ es, run_events es empty_db = Ok db.

(** Every identity has its profile, and in the order of registration. *)
Definition provisioned (db : Database) : Prop :=
  profile_ids db = auth_user_ids db.

#[export] Instance provisioned_dec db : Decision (provisioned db).
Proof. unfold provisioned. apply _. Defined.

(** The invariant of the store. *)
Definition store_inv (db : Database) : Prop := db_wf db ∧ provisioned db.

(** The events that built the sample store. *)
Definition sample_events : list event :=
  [ SignUp 5%Z Sample.alice; SignUp 6%Z Sample.bob;
    AddCourse Sample.c1; AddCourse Sample.c2;
    AddLesson Sample.l2; AddLesson Sample.l1; AddLesson Sample.l3;
    Request (Some "bob")
      (InsertProgress "p0" 50%Z
         (mkNewProgress "bob" "c1" (Some "l1") true (Some 50%Z))) ].

(** ** The trigger creates the profile *)

Section SignUp.
Context (now : timestamptz) (u : AuthUser.t) (db : Database).

Lemma sign_up_inv db' :
  sign_up now u db = Ok db' →
  ∃ db1, insert_auth_user u db = Ok db1 ∧ handle_new_user now u db1 = Ok db'.
Proof.
  unfold sign_up. destruct (insert_auth_user u db) as [db1|e]; [|done].
  simpl. eauto.
Qed.

Lemma sign_up_rows db' :
  sign_up now u db = Ok db' →
  auth_users db' = auth_users db ++ [u] ∧
  profiles db' =
    profiles db ++ [Profile.mk (AuthUser.id u) (AuthUser.email u)
                      (meta_full_name u) now now] ∧
  courses db' = courses db ∧ lessons db' = lessons db ∧
  user_progress db' = user_progress db.
Proof.
  intros (db1 & H1 & H2)%sign_up_inv. unfold handle_new_user in H2.
  apply insert_profile_rows in H2 as (-> & -> & -> & -> & ->).
  unfold insert_auth_user in H1. case_decide; [done|]. by injection H1 as <-.
Qed.

Lemma sign_up_wf db' : db_wf db → sign_up now u db = Ok db' → db_wf db'.
Proof.
  intros Hwf (db1 & H1 & H2)%sign_up_inv.
  eapply insert_profile_wf; [|done]. by eapply insert_auth_user_wf.
Qed.

End SignUp.

(** C10: registering an identity that the store does not hold yet succeeds
    and creates its profile, with the full name of the signup metadata (the
    empty text when there is none); the new identity then reads exactly
    that profile, and the store is referentially intact. *)
Theorem sign_up_creates_profile now u db :
  db_wf db → AuthUser.id u ∉ auth_user_ids db →
  ∃ db', sign_up now u db = Ok db' ∧ db_wf db' ∧
    select_profile (Some (AuthUser.id u)) (AuthUser.id u) db' =
      [Profile.mk (AuthUser.id u) (AuthUser.email u) (meta_full_name u) now now].
Proof.
  intros Hwf Hu. destruct (sign_up now u db) as [db'|e] eqn:Hs.
  - exists db'. split_and!; [done|by eapply sign_up_wf|].
    apply sign_up_rows in Hs as (_ & Hp & _).
    rewrite select_profile_own, Hp, filter_app.
    rewrite (list_filter_none _ (profiles db)), filter_cons_True; [done..|].
    apply Forall_forall. intros p Hp' Hid. destruct Hwf as [_ (Hfk & _)].
    apply Hu. rewrite <- Hid. by apply (proj1 (Forall_forall _ _) Hfk).
  - exfalso. unfold sign_up, insert_auth_user, handle_new_user, insert_profile in Hs.
    rewrite decide_False in Hs by done. simpl in Hs. unfold profile_ids in Hs.
    simpl in Hs. destruct Hwf as [_ (Hfk & _)].
    rewrite decide_False, decide_True in Hs; [done| |].
    + unfold auth_user_ids. simpl. rewrite fmap_app, elem_of_app. right. by left.
    + intros (p & Hid & Hp)%list_elem_of_fmap. apply Hu. rewrite Hid.
      by apply (proj1 (Forall_forall _ _) Hfk).
Qed.

(** Registering an identity twice is refused, and the refusal leaves no
    trace: the store is a value, and the failed run returns none. *)
Theorem sign_up_duplicate now u db :
  AuthUser.id u ∈ auth_user_ids db →
  sign_up now u db = Err (unique_violation "users_pkey").
Proof. intros Hu. unfold sign_up, insert_auth_user. by rewrite decide_True. Qed.

(** ** The invariant *)

Lemma provisioned_withdraw uid db :
  provisioned db → provisioned (delete_auth_user uid db).
Proof.
  unfold provisioned, delete_auth_user, profile_ids, auth_user_ids. simpl.
  intros Hp.
  pose proof (list_filter_fmap Profile.id (λ i, i ≠ uid) (profiles db)) as H1.
  pose proof (list_filter_fmap AuthUser.id (λ i, i ≠ uid) (auth_users db)) as H2.
  simpl in *. congruence.
Qed.

Lemma provisioned_tables db db' :
  profiles db' = profiles db → auth_users db' = auth_users db →
  provisioned db → provisioned db'.
Proof. unfold provisioned, profile_ids, auth_user_ids. by intros -> ->. Qed.

Lemma provisioned_effect c db db' :
  write_effect c db db' → db_wf db → provisioned db → provisioned db'.
Proof.
  intros Heff Hwf Hp. pose proof (write_effect_catalog _ _ _ Heff) as (_ & _ & Ha).
  destruct Heff as [|???? _ H|?? _|????? _ H|??? _]; try done.
  - apply insert_user_progress_rows in H as (_ & _ & ? & _).
    by eapply provisioned_tables.
  - unfold insert_profile in H. repeat case_decide; try done.
    unfold provisioned in Hp. congruence.
  - unfold provisioned, profile_ids, auth_user_ids in *. simpl in *. rewrite <- Hp.
    rewrite <- list_fmap_compose. apply list_fmap_ext. intros ? p ?. simpl.
    by case_decide.
Qed.

Lemma exec_event_inv e db db' :
  store_inv db → exec_event e db = Ok db' → store_inv db'.
Proof.
  intros [Hwf Hp]. destruct e; simpl; try intros [= <-].
  - intros Hs. split; [by eapply sign_up_wf|].
    apply sign_up_rows in Hs as (Ha & Hpr & _).
    unfold provisioned, profile_ids, auth_user_ids in *.
    by rewrite Ha, Hpr, !fmap_app, Hp.
  - split; [by apply delete_auth_user_wf|by apply provisioned_withdraw].
  - intros Hi. split; [by eapply insert_course_wf|].
    unfold insert_course in Hi. case_decide; [done|]. by injection Hi as <-.
  - intros Hi. split; [by eapply insert_lesson_wf|].
    unfold insert_lesson in Hi. repeat case_decide; try done. by injection Hi as <-.
  - split; [by apply delete_course_wf|]. unfold delete_course.
    eapply provisioned_tables; [..|done]; simpl; apply foldr_delete_lesson_tables.
  - split; [by apply delete_lesson_wf|done].
  - intros Heff%exec_write_effect; [|done].
    split; [by eapply write_effect_wf|by eapply provisioned_effect].
Qed.

Lemma run_events_inv es db db' :
  store_inv db → run_events es db = Ok db' → store_inv db'.
Proof.
  revert db. induction es as [|e es IH]; intros db Hinv; simpl.
  - by intros [= <-].
  - destruct (exec_event e db) as [db1|] eqn:He; [|done]. simpl.
    apply IH. by eapply exec_event_inv.
Qed.

(** C9: every store reachable from the empty one by registrations,
    withdrawals, changes to the catalogue and requests of clients is
    referentially intact and holds exactly one profile per identity. *)
Theorem reachable_store_inv db : reachable db → db_wf db ∧ provisioned db.
Proof.
  intros [es Hes]. eapply run_events_inv; [|done]. split; [|done].
  repeat split; simpl; apply NoDup_nil_2 || apply Forall_nil_2.
Qed.

Lemma sample_reachable : reachable Sample.db.
Proof. exists sample_events. by vm_compute. Qed.

Lemma reachable_store_inv_witness : db_wf Sample.db ∧ provisioned Sample.db.
Proof. exact (reachable_store_inv Sample.db sample_reachable). Defined.

(** The display name of a registration is the text under [full_name] in
    the signup metadata; it is the empty text when the metadata have no such
    key and when they hold JSON null there, and the digits of a number. *)
Example sign_up_names :
  let name_of meta :=
    (λ db', Profile.full_name <$> select_profile (Some "carol") "carol" db') <$>
      sign_up 7%Z (AuthUser.mk "carol" "carol@example.org" meta) Sample.db in
  name_of [("full_name", j_string "Carol")] = Ok ["Carol"] ∧
  name_of [("plan", j_string "free")] = Ok [""] ∧
  name_of [("full_name", j_null)] = Ok [""] ∧
  name_of [("full_name", j_other "42")] = Ok ["42"].
Proof. by vm_compute. Qed.

Lemma sign_up_creates_profile_witness :
  ∃ db', sign_up 7%Z (AuthUser.mk "carol" "carol@example.org" []) Sample.db = Ok db' ∧
    db_wf db' ∧
    select_profile (Some "carol") "carol" db' =
      [Profile.mk "carol" "carol@example.org" "" 7%Z 7%Z].
Proof.
  apply (sign_up_creates_profile 7%Z (AuthUser.mk "carol" "carol@example.org" [])
           Sample.db); compute_done.
Defined.

Lemma sign_up_duplicate_witness :
  sign_up 7%Z Sample.alice Sample.db = Err (unique_violation "users_pkey").
Proof. apply (sign_up_duplicate 7%Z Sample.alice Sample.db). compute_done. Defined.
