(* ===== verification/Columns.v ===== *)
(** * Columns: what the tables store, and what the interfaces assume

    The four CREATE TABLE statements of the migration (src/unnamed/part_000)
    column by column: which columns may hold NULL, which have a DEFAULT, and
    what an INSERT stores for a column it leaves out, sets to NULL, or gives
    a value.  The interfaces of lib/supabase.ts (src/unnamed/part_001) type
    the rows the client receives; they are the rows of [Schema].  [decode_*]
    reads a stored row at its interface: it succeeds when every column the
    interface types without [null] holds a value.

    The statements the program itself issues (the trigger's insert into
    [profiles], the insert and the update of the course page) store rows
    that decode, and to the rows [Schema] works with.  The tables admit
    more: a DEFAULT does not make a column NOT NULL. *)

From stdpp Require Import base tactics option list strings.
From S2P Require Import Prelude Schema Store.
Set Warnings "-clear-no-such-hyp".

(** ** Statements *)

(** A column in an INSERT: left out of the column list, NULL, or a value. *)
Inductive cell (A : Type) :=
| Omitted
| Null
| Given (a : A).
Arguments Omitted {A}.
Arguments Null {A}.
Arguments Given {A} a.

(** A JavaScript value that may be [null], as a column of a request. *)
Definition of_nullable {A} (o : option A) : cell A :=
  match o with Some a => Given a | None => Null end.

(** What is stored for a column: its DEFAULT only when the statement leaves
    the column out. *)
Definition column_value {A} (dflt : option A) (c : cell A) : option A :=
  match c with Omitted => dflt | Null => None | Given a => Some a end.

Inductive column_error := not_null_violation (column : string).

#[export] Instance column_error_eq_dec : EqDecision column_error.
Proof. solve_decision. Defined.

(** NOT NULL, and PRIMARY KEY, which implies it. *)
Definition not_null {A} (column : string) (v : option A) : result column_error A :=
  match v with Some a => Ok a | None => Err (not_null_violation column) end.

(** ** Stored rows *)

Module Sql.

Record profiles := mk_profiles {
  profiles_id : uuid;
  profiles_email : string;
  profiles_full_name : option string;
  profiles_created_at : option timestamptz;
  profiles_updated_at : option timestamptz;
}.

Record courses := mk_courses {
  courses_id : uuid;
  courses_title : string;
  courses_description : string;
  courses_thumbnail_url : option string;
  courses_category : option string;
  courses_difficulty : option string;
  courses_duration_minutes : option Z;
  courses_created_at : option timestamptz;
  courses_updated_at : option timestamptz;
}.

Record lessons := mk_lessons {
  lessons_id : uuid;
  lessons_course_id : uuid;
  lessons_title : string;
  lessons_content : option string;
  lessons_order_number : Z;
  lessons_duration_minutes : option Z;
  lessons_created_at : option timestamptz;
}.

Record user_progress := mk_user_progress {
  user_progress_id : uuid;
  user_progress_user_id : uuid;
  user_progress_course_id : uuid;
  user_progress_lesson_id : option uuid;
  user_progress_completed : option bool;
  user_progress_completed_at : option timestamptz;
  user_progress_created_at : option timestamptz;
  user_progress_updated_at : option timestamptz;
}.

End Sql.

(** ** INSERT statements, a cell per column *)

Record into_profiles := mk_into_profiles {
  p_id : cell uuid;
  p_email : cell string;
  p_full_name : cell string;
  p_created_at : cell timestamptz;
  p_updated_at : cell timestamptz;
}.

Record into_courses := mk_into_courses {
  c_id : cell uuid;
  c_title : cell string;
  c_description : cell string;
  c_thumbnail_url : cell string;
  c_category : cell string;
  c_difficulty : cell string;
  c_duration_minutes : cell Z;
  c_created_at : cell timestamptz;
  c_updated_at : cell timestamptz;
}.

Record into_lessons := mk_into_lessons {
  l_id : cell uuid;
  l_course_id : cell uuid;
  l_title : cell string;
  l_content : cell string;
  l_order_number : cell Z;
  l_duration_minutes : cell Z;
  l_created_at : cell timestamptz;
}.

Record into_user_progress := mk_into_user_progress {
  u_id : cell uuid;
  u_user_id : cell uuid;
  u_course_id : cell uuid;
  u_lesson_id : cell uuid;
  u_completed : cell bool;
  u_completed_at : cell timestamptz;
  u_created_at : cell timestamptz;
  u_updated_at : cell timestamptz;
}.

(** ** The row an INSERT stores

    [fresh] is what [gen_random_uuid()] returns and [now] what [now()]
    returns when the statement runs. *)

Definition profiles_row (now : timestamptz) (s : into_profiles) :
    result column_error Sql.profiles :=
  id ← not_null "id" (column_value None (p_id s));
  email ← not_null "email" (column_value None (p_email s));
  mret (Sql.mk_profiles id email
          (column_value (Some "") (p_full_name s))
          (column_value (Some now) (p_created_at s))
          (column_value (Some now) (p_updated_at s))).

Definition courses_row (fresh : uuid) (now : timestamptz) (s : into_courses) :
    result column_error Sql.courses :=
  id ← not_null "id" (column_value (Some fresh) (c_id s));
  title ← not_null "title" (column_value None (c_title s));
  description ← not_null "description" (column_value None (c_description s));
  mret (Sql.mk_courses id title description
          (column_value (Some "") (c_thumbnail_url s))
          (column_value (Some "General") (c_category s))
          (column_value (Some "beginner") (c_difficulty s))
          (column_value (Some 0%Z) (c_duration_minutes s))
          (column_value (Some now) (c_created_at s))
          (column_value (Some now) (c_updated_at s))).

Definition lessons_row (fresh : uuid) (now : timestamptz) (s : into_lessons) :
    result column_error Sql.lessons :=
  id ← not_null "id" (column_value (Some fresh) (l_id s));
  course_id ← not_null "course_id" (column_value None (l_course_id s));
  title ← not_null "title" (column_value None (l_title s));
  order_number ← not_null "order_number" (column_value None (l_order_number s));
  mret (Sql.mk_lessons id course_id title
          (column_value (Some "") (l_content s))
          order_number
          (column_value (Some 0%Z) (l_duration_minutes s))
          (column_value (Some now) (l_created_at s))).

Definition user_progress_row (fresh : uuid) (now : timestamptz)
    (s : into_user_progress) : result column_error Sql.user_progress :=
  id ← not_null "id" (column_value (Some fresh) (u_id s));
  user_id ← not_null "user_id" (column_value None (u_user_id s));
  course_id ← not_null "course_id" (column_value None (u_course_id s));
  mret (Sql.mk_user_progress id user_id course_id
          (column_value None (u_lesson_id s))
          (column_value (Some false) (u_completed s))
          (column_value None (u_completed_at s))
          (column_value (Some now) (u_created_at s))
          (column_value (Some now) (u_updated_at s))).

(** ** Stored rows at the interfaces *)

Definition decode_profile (r : Sql.profiles) : option Profile.t :=
  full_name ← Sql.profiles_full_name r;
  created_at ← Sql.profiles_created_at r;
  updated_at ← Sql.profiles_updated_at r;
  Some (Profile.mk (Sql.profiles_id r) (Sql.profiles_email r) full_name
          created_at updated_at).

Definition decode_course (r : Sql.courses) : option Course.t :=
  thumbnail_url ← Sql.courses_thumbnail_url r;
  category ← Sql.courses_category r;
  difficulty ← Sql.courses_difficulty r;
  duration_minutes ← Sql.courses_duration_minutes r;
  created_at ← Sql.courses_created_at r;
  updated_at ← Sql.courses_updated_at r;
  Some (Course.mk (Sql.courses_id r) (Sql.courses_title r)
          (Sql.courses_description r) thumbnail_url category difficulty
          duration_minutes created_at updated_at).

Definition decode_lesson (r : Sql.lessons) : option Lesson.t :=
  content ← Sql.lessons_content r;
  duration_minutes ← Sql.lessons_duration_minutes r;
  created_at ← Sql.lessons_created_at r;
  Some (Lesson.mk (Sql.lessons_id r) (Sql.lessons_course_id r)
          (Sql.lessons_title r) content (Sql.lessons_order_number r)
          duration_minutes created_at).

Definition decode_progress (r : Sql.user_progress) : option UserProgress.t :=
  completed ← Sql.user_progress_completed r;
  created_at ← Sql.user_progress_created_at r;
  updated_at ← Sql.user_progress_updated_at r;
  Some (UserProgress.mk (Sql.user_progress_id r) (Sql.user_progress_user_id r)
          (Sql.user_progress_course_id r) (Sql.user_progress_lesson_id r)
          completed (Sql.user_progress_completed_at r) created_at updated_at).

(** A typed row as it is stored. *)
Definition encode_progress (r : UserProgress.t) : Sql.user_progress :=
  Sql.mk_user_progress (UserProgress.id r) (UserProgress.user_id r)
    (UserProgress.course_id r) (UserProgress.lesson_id r)
    (Some (UserProgress.completed r)) (UserProgress.completed_at r)
    (Some (UserProgress.created_at r)) (Some (UserProgress.updated_at r)).

(** ** The statements of the program *)

(** The trigger: [INSERT INTO public.profiles (id, email, full_name)
    VALUES (new.id, new.email, COALESCE(...))]. *)
Definition handle_new_user_insert (new : AuthUser.t) : into_profiles :=
  mk_into_profiles (Given (AuthUser.id new)) (Given (AuthUser.email new))
    (Given (meta_full_name new)) Omitted Omitted.

(** The course page: [.insert({ user_id, course_id, lesson_id, completed,
    completed_at })]. *)
Definition progress_insert (n : NewProgress) : into_user_progress :=
  mk_into_user_progress Omitted (Given (new_user_id n)) (Given (new_course_id n))
    (of_nullable (new_lesson_id n)) (Given (new_completed n))
    (of_nullable (new_completed_at n)) Omitted Omitted.

(** The course page: [.update({ completed, completed_at, updated_at })] on a
    stored row. *)
Definition progress_update (p : ProgressPatch) (r : Sql.user_progress) :
    Sql.user_progress :=
  Sql.mk_user_progress (Sql.user_progress_id r) (Sql.user_progress_user_id r)
    (Sql.user_progress_course_id r) (Sql.user_progress_lesson_id r)
    (Some (patch_completed p)) (patch_completed_at p)
    (Sql.user_progress_created_at r) (Some (patch_updated_at p)).

(** ** The table of progress rows *)

(** The table at the interface: every row decodes. *)
Definition decode_table (t : list Sql.user_progress) : option (list UserProgress.t) :=
  mapM decode_progress t.

(** [INSERT INTO user_progress] of a statement. *)
Definition sql_insert (fresh : uuid) (now : timestamptz) (s : into_user_progress)
    (t : list Sql.user_progress) : result column_error (list Sql.user_progress) :=
  row ← user_progress_row fresh now s; mret (t ++ [row]).

(** [UPDATE user_progress SET ... WHERE id = rowId]. *)
Definition sql_update (rowId : uuid) (p : ProgressPatch)
    (t : list Sql.user_progress) : list Sql.user_progress :=
  (λ r, if decide (Sql.user_progress_id r = rowId) then progress_update p r else r)
    <$> t.

(** A course seeded with its category and difficulty set to NULL. *)
Definition null_course : into_courses :=
  mk_into_courses Omitted (Given "Logic") (Given "An introduction") Omitted
    Null Null Omitted Omitted Omitted.

(** ** Decoding *)

Lemma decode_encode_progress r : decode_progress (encode_progress r) = Some r.
Proof. by destruct r. Qed.

Lemma decode_progress_Some raw r :
  decode_progress raw = Some r ↔ raw = encode_progress r.
Proof.
  split; [|intros ->; apply decode_encode_progress].
  destruct raw as [? ? ? ? [c|] ? [ca|] [ua|]]; intros [= <-]; done.
Qed.

Lemma decode_insert fresh now n :
  user_progress_row fresh now (progress_insert n) =
  Ok (encode_progress (progress_row fresh now n)).
Proof. by destruct n as [? ? [?|] ? [?|]]. Qed.

Lemma decode_update p raw r :
  decode_progress raw = Some r →
  decode_progress (progress_update p raw) = Some (apply_patch p r).
Proof. intros ->%decode_progress_Some. by destruct r. Qed.

Lemma decode_table_Some t ps :
  decode_table t = Some ps ↔ t = encode_progress <$> ps.
Proof.
  unfold decode_table. rewrite mapM_Some. split.
  - induction 1 as [|raw r t ps ->%decode_progress_Some _ ->]; by simpl.
  - intros ->. apply Forall2_fmap_l, Forall_Forall2_diag, Forall_forall.
    intros r _. apply decode_encode_progress.
Qed.

(** C26: the typed store of [Schema] is what the nullable table holds under
    the statements of the program.  The trigger's insert stores the profile
    with the defaults of its timestamps.  On a table of progress rows that
    the interface types, the insert of the course page succeeds and the table
    is then the typed rows with the row of [Schema] appended, its id and
    timestamps defaulted; its update leaves the typed rows with the row of
    that id patched; so the table stays typed. *)
Theorem program_rows_typed now fresh new n rowId p t ps :
  decode_table t = Some ps →
  decode_profile <$> profiles_row now (handle_new_user_insert new) =
    Ok (Some (Profile.mk (AuthUser.id new) (AuthUser.email new)
                (meta_full_name new) now now)) ∧
  decode_table <$> sql_insert fresh now (progress_insert n) t =
    Ok (Some (ps ++ [progress_row fresh now n])) ∧
  decode_table (sql_update rowId p t) =
    Some ((λ r, if decide (UserProgress.id r = rowId) then apply_patch p r else r)
            <$> ps).
Proof.
  intros ->%decode_table_Some. split_and!; [done| |].
  - unfold sql_insert. rewrite decode_insert. simpl. f_equal.
    apply decode_table_Some. by rewrite fmap_app.
  - apply decode_table_Some. unfold sql_update. rewrite <- !list_fmap_compose.
    apply list_fmap_ext. intros _ r _. simpl. by destruct r; case_decide.
Qed.

(** A DEFAULT does not keep NULL out of a column: the tables accept a
    course whose category and difficulty are NULL, and a progress row whose
    [completed] is NULL, though the interfaces type these columns as
    [string] and [boolean]; only the columns declared NOT NULL reject it. *)
Example defaults_admit_null :
  (∃ raw, courses_row "c9" 0%Z null_course = Ok raw ∧
          Sql.courses_category raw = None ∧ decode_course raw = None) ∧
  (∃ raw, user_progress_row "p9" 0%Z
            (mk_into_user_progress Omitted (Given "alice") (Given "c1") Null
               Null Omitted Omitted Omitted) = Ok raw ∧
          decode_progress raw = None ∧ decode_table [raw] = None) ∧
  courses_row "c9" 0%Z
    (mk_into_courses Omitted Null (Given "An introduction") Omitted Omitted
       Omitted Omitted Omitted Omitted) = Err (not_null_violation "title").
Proof. split_and!; [by eexists..|done]. Qed.

Lemma program_rows_typed_witness :
  decode_profile <$> profiles_row 7%Z (handle_new_user_insert Sample.alice) =
    Ok (Some (Profile.mk "alice" "alice@example.org" "Alice" 7%Z 7%Z)) ∧
  decode_table <$>
    sql_insert "p1" 7%Z
      (progress_insert (mkNewProgress "alice" "c1" (Some "l1") true (Some 5%Z)))
      [encode_progress Sample.bob_l1] =
    Ok (Some ([Sample.bob_l1] ++
              [progress_row "p1" 7%Z
                 (mkNewProgress "alice" "c1" (Some "l1") true (Some 5%Z))])) ∧
  decode_table (sql_update "p0" (mkProgressPatch false None 9%Z)
                  [encode_progress Sample.bob_l1]) =
    Some ((λ r, if decide (UserProgress.id r = "p0")
                then apply_patch (mkProgressPatch false None 9%Z) r else r)
            <$> [Sample.bob_l1]).
Proof.
  by apply (program_rows_typed 7%Z "p1" Sample.alice
              (mkNewProgress "alice" "c1" (Some "l1") true (Some 5%Z)) "p0"
              (mkProgressPatch false None 9%Z) [encode_progress Sample.bob_l1]
              [Sample.bob_l1]).
Defined.
