(* ===== verification/Migration.v ===== *)
(** * Migration: the statements of the migration as data, and its header

    The migration (src/unnamed/part_000) opens with a comment that
    documents the schema: the tables with their columns, the policies, the
    indexes and five notes.  This file has the CREATE TABLE and CREATE INDEX
    statements as data ([column_def], [table_def], [index_def]) and the
    header as data of its own ([doc_column], [header_tables],
    [header_policies], the notes as predicates on a schema), and compares
    the two.

    The data are tied to the rest of the development: an INSERT evaluated
    column by column from a [table_def] ([stored_row]) stores what the
    functions of [Columns] store; every REFERENCES clause is a conjunct of
    [db_wf]; and a delete changes the tables that reference its table,
    directly or through another, and no other ([cascade_closure]). *)

From stdpp Require Import base tactics option list strings.
From S2P Require Import Prelude Schema Policy Columns.
Set Warnings "-clear-no-such-hyp".

(** ** The statements *)

Inductive sql_type := t_uuid | t_text | t_integer | t_boolean | t_timestamptz.

Inductive sql_default :=
| d_text (s : string)
| d_integer (z : Z)
| d_boolean (b : bool)
| d_now
| d_gen_random_uuid.

Inductive on_delete := NO_ACTION | CASCADE.

(** [REFERENCES table(column) ON DELETE ...] *)
Record reference := mkReference {
  ref_table : string;
  ref_column : string;
  ref_on_delete : on_delete;
}.

Record column_def := mkColumn {
  col_name : string;
  col_type : sql_type;
  col_primary_key : bool;
  col_not_null : bool;
  col_default : option sql_default;
  col_references : option reference;
}.

Record table_def := mkTable {
  tab_name : string;
  tab_columns : list column_def;
}.

Record index_def := mkIndex {
  idx_name : string;
  idx_table : string;
  idx_columns : list string;
}.

#[export] Instance sql_type_eq_dec : EqDecision sql_type.
Proof. solve_decision. Defined.
#[export] Instance sql_default_eq_dec : EqDecision sql_default.
Proof. solve_decision. Defined.
#[export] Instance on_delete_eq_dec : EqDecision on_delete.
Proof. solve_decision. Defined.
#[export] Instance reference_eq_dec : EqDecision reference.
Proof. solve_decision. Defined.
#[export] Instance column_def_eq_dec : EqDecision column_def.
Proof. solve_decision. Defined.

#[export] Instance index_def_eq_dec : EqDecision index_def.
Proof. solve_decision. Defined.

Definition profiles_def : table_def :=
  mkTable "profiles"
    [ mkColumn "id" t_uuid true false None
        (Some (mkReference "auth.users" "id" CASCADE));
      mkColumn "email" t_text false true None None;
      mkColumn "full_name" t_text false false (Some (d_text "")) None;
      mkColumn "created_at" t_timestamptz false false (Some d_now) None;
      mkColumn "updated_at" t_timestamptz false false (Some d_now) None ].

Definition courses_def : table_def :=
  mkTable "courses"
    [ mkColumn "id" t_uuid true false (Some d_gen_random_uuid) None;
      mkColumn "title" t_text false true None None;
      mkColumn "description" t_text false true None None;
      mkColumn "thumbnail_url" t_text false false (Some (d_text "")) None;
      mkColumn "category" t_text false false (Some (d_text "General")) None;
      mkColumn "difficulty" t_text false false (Some (d_text "beginner")) None;
      mkColumn "duration_minutes" t_integer false false (Some (d_integer 0)) None;
      mkColumn "created_at" t_timestamptz false false (Some d_now) None;
      mkColumn "updated_at" t_timestamptz false false (Some d_now) None ].

Definition lessons_def : table_def :=
  mkTable "lessons"
    [ mkColumn "id" t_uuid true false (Some d_gen_random_uuid) None;
      mkColumn "course_id" t_uuid false true None
        (Some (mkReference "courses" "id" CASCADE));
      mkColumn "title" t_text false true None None;
      mkColumn "content" t_text false false (Some (d_text "")) None;
      mkColumn "order_number" t_integer false true None None;
      mkColumn "duration_minutes" t_integer false false (Some (d_integer 0)) None;
      mkColumn "created_at" t_timestamptz false false (Some d_now) None ].

Definition user_progress_def : table_def :=
  mkTable "user_progress"
    [ mkColumn "id" t_uuid true false (Some d_gen_random_uuid) None;
      mkColumn "user_id" t_uuid false true None
        (Some (mkReference "auth.users" "id" CASCADE));
      mkColumn "course_id" t_uuid false true None
        (Some (mkReference "courses" "id" CASCADE));
      mkColumn "lesson_id" t_uuid false false None
        (Some (mkReference "lessons" "id" CASCADE));
      mkColumn "completed" t_boolean false false (Some (d_boolean false)) None;
      mkColumn "completed_at" t_timestamptz false false None None;
      mkColumn "created_at" t_timestamptz false false (Some d_now) None;
      mkColumn "updated_at" t_timestamptz false false (Some d_now) None ].

Definition migration_tables : list table_def :=
  [profiles_def; courses_def; lessons_def; user_progress_def].

Definition migration_indexes : list index_def :=
  [ mkIndex "idx_lessons_course_id" "lessons" ["course_id"];
    mkIndex "idx_user_progress_user_id" "user_progress" ["user_id"];
    mkIndex "idx_user_progress_course_id" "user_progress" ["course_id"];
    mkIndex "idx_user_progress_lesson_id" "user_progress" ["lesson_id"];
    mkIndex "idx_user_progress_lookup" "user_progress"
      ["user_id"; "course_id"; "lesson_id"] ].

(** [ALTER TABLE ... ENABLE ROW LEVEL SECURITY] *)
Definition rls_enabled : list string :=
  ["profiles"; "courses"; "lessons"; "user_progress"].

(** The commands for which each table has a policy, and for whom. *)
Definition policy_heads {R} (pols : list (policy R)) : list (command * role) :=
  (λ p, (pol_cmd p, pol_to p)) <$> pols.

Definition migration_policies : list (string * list (command * role)) :=
  [ ("profiles", policy_heads profiles_policies);
    ("courses", policy_heads courses_policies);
    ("lessons", policy_heads lessons_policies);
    ("user_progress", policy_heads user_progress_policies) ].

(** ** What the statements say of a column *)

(** A column takes NULL unless it is a primary key or NOT NULL. *)
Definition nullable (c : column_def) : bool :=
  negb (col_primary_key c || col_not_null c).

Definition columns_of (tables : list table_def) : list (string * column_def) :=
  t ← tables; (λ c, (tab_name t, c)) <$> tab_columns t.

(** The tables that reference [target] with ON DELETE CASCADE. *)
Definition referencing (tables : list table_def) (target : string) : list string :=
  tab_name <$>
    filter (λ t, Exists (λ c, (λ r, (ref_table r, ref_on_delete r)) <$>
                                col_references c = Some (target, CASCADE))
                   (tab_columns t)) tables.

(** The tables a delete from [target] can change: the table itself and,
    through ON DELETE CASCADE, those that reference one of them. *)
Fixpoint cascade_closure (fuel : nat) (tables : list table_def) (target : string) :
    list string :=
  target ::
  match fuel with
  | 0 => []
  | S fuel => t ← referencing tables target; cascade_closure fuel tables t
  end.

(** ** An INSERT, column by column *)

Inductive value :=
| v_uuid (u : uuid)
| v_text (s : string)
| v_integer (z : Z)
| v_boolean (b : bool)
| v_timestamptz (t : timestamptz).

Definition type_of (v : value) : sql_type :=
  match v with
  | v_uuid _ => t_uuid
  | v_text _ => t_text
  | v_integer _ => t_integer
  | v_boolean _ => t_boolean
  | v_timestamptz _ => t_timestamptz
  end.

Definition eval_default (fresh : uuid) (now : timestamptz) (d : sql_default) : value :=
  match d with
  | d_text s => v_text s
  | d_integer z => v_integer z
  | d_boolean b => v_boolean b
  | d_now => v_timestamptz now
  | d_gen_random_uuid => v_uuid fresh
  end.

(** What is stored in a column: the value given, NULL, or the DEFAULT when
    the statement leaves the column out; NULL is refused by a primary key
    and by NOT NULL. *)
Definition stored_column (fresh : uuid) (now : timestamptz) (c : column_def)
    (x : cell value) : result column_error (option value) :=
  let v := column_value (eval_default fresh now <$> col_default c) x in
  if nullable c then Ok v else a ← not_null (col_name c) v; mret (Some a).

Fixpoint stored_row (fresh : uuid) (now : timestamptz) (cols : list column_def)
    (cells : list (cell value)) : result column_error (list (option value)) :=
  match cols, cells with
  | c :: cols, x :: cells =>
      v ← stored_column fresh now c x;
      vs ← stored_row fresh now cols cells;
      mret (v :: vs)
  | _, _ => mret []
  end.

(** The values of a row have the types of the columns, and NULL is only
    where the column takes it. *)
Definition values_typed (cols : list column_def) (vs : list (option value)) : Prop :=
  Forall2 (λ c v, match v with
                  | Some a => type_of a = col_type c
                  | None => nullable c = true
                  end) cols vs.

Definition cells_typed (cols : list column_def) (cells : list (cell value)) : Prop :=
  Forall2 (λ c x, match x with
                  | Given a => type_of a = col_type c
                  | _ => True
                  end) cols cells.

(** The DEFAULT of every column has the type of the column. *)
Definition defaults_typed (cols : list column_def) : Prop :=
  Forall (λ c, match col_default c with
               | Some d => ∀ fresh now, type_of (eval_default fresh now d) = col_type c
               | None => True
               end) cols.

(** ** The statements and rows of [Columns], as lists of values *)

Definition cell_map {A B} (f : A → B) (c : cell A) : cell B :=
  match c with Omitted => Omitted | Null => Null | Given a => Given (f a) end.

Definition profiles_cells (s : into_profiles) : list (cell value) :=
  [ cell_map v_uuid (p_id s); cell_map v_text (p_email s);
    cell_map v_text (p_full_name s); cell_map v_timestamptz (p_created_at s);
    cell_map v_timestamptz (p_updated_at s) ].

Definition profiles_values (r : Sql.profiles) : list (option value) :=
  [ Some (v_uuid (Sql.profiles_id r)); Some (v_text (Sql.profiles_email r));
    v_text <$> Sql.profiles_full_name r;
    v_timestamptz <$> Sql.profiles_created_at r;
    v_timestamptz <$> Sql.profiles_updated_at r ].

Definition courses_cells (s : into_courses) : list (cell value) :=
  [ cell_map v_uuid (c_id s); cell_map v_text (c_title s);
    cell_map v_text (c_description s); cell_map v_text (c_thumbnail_url s);
    cell_map v_text (c_category s); cell_map v_text (c_difficulty s);
    cell_map v_integer (c_duration_minutes s);
    cell_map v_timestamptz (c_created_at s);
    cell_map v_timestamptz (c_updated_at s) ].

Definition courses_values (r : Sql.courses) : list (option value) :=
  [ Some (v_uuid (Sql.courses_id r)); Some (v_text (Sql.courses_title r));
    Some (v_text (Sql.courses_description r));
    v_text <$> Sql.courses_thumbnail_url r; v_text <$> Sql.courses_category r;
    v_text <$> Sql.courses_difficulty r;
    v_integer <$> Sql.courses_duration_minutes r;
    v_timestamptz <$> Sql.courses_created_at r;
    v_timestamptz <$> Sql.courses_updated_at r ].

Definition lessons_cells (s : into_lessons) : list (cell value) :=
  [ cell_map v_uuid (l_id s); cell_map v_uuid (l_course_id s);
    cell_map v_text (l_title s); cell_map v_text (l_content s);
    cell_map v_integer (l_order_number s);
    cell_map v_integer (l_duration_minutes s);
    cell_map v_timestamptz (l_created_at s) ].

Definition lessons_values (r : Sql.lessons) : list (option value) :=
  [ Some (v_uuid (Sql.lessons_id r)); Some (v_uuid (Sql.lessons_course_id r));
    Some (v_text (Sql.lessons_title r)); v_text <$> Sql.lessons_content r;
    Some (v_integer (Sql.lessons_order_number r));
    v_integer <$> Sql.lessons_duration_minutes r;
    v_timestamptz <$> Sql.lessons_created_at r ].

Definition user_progress_cells (s : into_user_progress) : list (cell value) :=
  [ cell_map v_uuid (u_id s); cell_map v_uuid (u_user_id s);
    cell_map v_uuid (u_course_id s); cell_map v_uuid (u_lesson_id s);
    cell_map v_boolean (u_completed s);
    cell_map v_timestamptz (u_completed_at s);
    cell_map v_timestamptz (u_created_at s);
    cell_map v_timestamptz (u_updated_at s) ].

Definition user_progress_values (r : Sql.user_progress) : list (option value) :=
  [ Some (v_uuid (Sql.user_progress_id r));
    Some (v_uuid (Sql.user_progress_user_id r));
    Some (v_uuid (Sql.user_progress_course_id r));
    v_uuid <$> Sql.user_progress_lesson_id r;
    v_boolean <$> Sql.user_progress_completed r;
    v_timestamptz <$> Sql.user_progress_completed_at r;
    v_timestamptz <$> Sql.user_progress_created_at r;
    v_timestamptz <$> Sql.user_progress_updated_at r ].

(** ** The store of [Schema], table by table *)

(** The primary keys a table holds. *)
Definition table_keys (table : string) (db : Database) : list uuid :=
  if decide (table = "auth.users") then auth_user_ids db
  else if decide (table = "profiles") then profile_ids db
  else if decide (table = "courses") then course_ids db
  else if decide (table = "lessons") then lesson_ids db
  else if decide (table = "user_progress") then progress_ids db
  else [].

(** The values a column that references another table holds, NULL left
    out. *)
Definition column_refs (table column : string) (db : Database) : list uuid :=
  if decide (table = "profiles" ∧ column = "id") then profile_ids db
  else if decide (table = "lessons" ∧ column = "course_id")
  then Lesson.course_id <$> lessons db
  else if decide (table = "user_progress" ∧ column = "user_id")
  then UserProgress.user_id <$> user_progress db
  else if decide (table = "user_progress" ∧ column = "course_id")
  then UserProgress.course_id <$> user_progress db
  else if decide (table = "user_progress" ∧ column = "lesson_id")
  then omap UserProgress.lesson_id (user_progress db)
  else [].

(** ** The header *)

(** A column as the header lists it: its name, its type, and whether it is
    marked primary key, foreign key, nullable. *)
Record doc_column := mkDoc {
  doc_name : string;
  doc_type : sql_type;
  doc_primary_key : bool;
  doc_foreign_key : bool;
  doc_nullable : bool;
}.

#[export] Instance doc_column_eq_dec : EqDecision doc_column.
Proof. solve_decision. Defined.

Definition header_profiles : list doc_column :=
  [ mkDoc "id" t_uuid true false false;
    mkDoc "email" t_text false false false;
    mkDoc "full_name" t_text false false false;
    mkDoc "created_at" t_timestamptz false false false;
    mkDoc "updated_at" t_timestamptz false false false ].

Definition header_courses : list doc_column :=
  [ mkDoc "id" t_uuid true false false;
    mkDoc "title" t_text false false false;
    mkDoc "description" t_text false false false;
    mkDoc "thumbnail_url" t_text false false false;
    mkDoc "category" t_text false false false;
    mkDoc "difficulty" t_text false false false;
    mkDoc "duration_minutes" t_integer false false false;
    mkDoc "created_at" t_timestamptz false false false;
    mkDoc "updated_at" t_timestamptz false false false ].

Definition header_lessons : list doc_column :=
  [ mkDoc "id" t_uuid true false false;
    mkDoc "course_id" t_uuid false true false;
    mkDoc "title" t_text false false false;
    mkDoc "content" t_text false false false;
    mkDoc "order_number" t_integer false false false;
    mkDoc "duration_minutes" t_integer false false false;
    mkDoc "created_at" t_timestamptz false false false ].

Definition header_user_progress : list doc_column :=
  [ mkDoc "id" t_uuid true false false;
    mkDoc "user_id" t_uuid false true false;
    mkDoc "course_id" t_uuid false true false;
    mkDoc "lesson_id" t_uuid false true true;
    mkDoc "completed" t_boolean false false false;
    mkDoc "completed_at" t_timestamptz false false true;
    mkDoc "created_at" t_timestamptz false false false;
    mkDoc "updated_at" t_timestamptz false false false ].

Definition header_tables : list (string * list doc_column) :=
  [ ("profiles", header_profiles); ("courses", header_courses);
    ("lessons", header_lessons); ("user_progress", header_user_progress) ].

(** "All tables have RLS enabled". *)
Definition header_rls (tables : list table_def) : Prop :=
  Forall (λ t, tab_name t ∈ rls_enabled) tables.

(** "Users can view / update / only insert their own ...", "All
    authenticated users can view ...": the commands the header gives each
    table, all for authenticated users. *)
Definition header_policies : list (string * list (command * role)) :=
  [ ("profiles", [(SELECT, authenticated); (UPDATE, authenticated)]);
    ("courses", [(SELECT, authenticated)]);
    ("lessons", [(SELECT, authenticated)]);
    ("user_progress",
     [(SELECT, authenticated); (INSERT, authenticated); (UPDATE, authenticated)]) ].

(** "Public read access for course browsing", "for lesson browsing". *)
Definition header_public_read : list string := ["courses"; "lessons"].

(** "Foreign key indexes": every column that references another table and
    is not itself the primary key leads an index. *)
Definition foreign_keys_indexed (tables : list table_def) (idxs : list index_def) :
    Prop :=
  Forall (λ tc, is_Some (col_references tc.2) → col_primary_key tc.2 = false →
                Exists (λ i, idx_table i = tc.1 ∧
                             head (idx_columns i) = Some (col_name tc.2)) idxs)
    (columns_of tables).

(** "Composite index on user_progress (user_id, course_id, lesson_id)". *)
Definition header_composite : index_def :=
  mkIndex "idx_user_progress_lookup" "user_progress"
    ["user_id"; "course_id"; "lesson_id"].

(** Note 1: "All timestamps use timestamptz": the columns named [..._at]. *)
Definition note_timestamps (tables : list table_def) : Prop :=
  Forall (λ tc, String.substring (String.length (col_name tc.2) - 3) 3
                  (col_name tc.2) = "_at" →
                col_type tc.2 = t_timestamptz) (columns_of tables).

(** Note 2: "UUIDs are used for all primary keys". *)
Definition note_uuid_keys (tables : list table_def) : Prop :=
  Forall (λ t, Exists (λ c, col_primary_key c = true) (tab_columns t)) tables ∧
  Forall (λ tc, col_primary_key tc.2 = true → col_type tc.2 = t_uuid)
    (columns_of tables).

(** Note 3: "Foreign keys ensure referential integrity": in a store that is
    intact, what a referencing column holds is a key of the table it
    references. *)
Definition note_references (tables : list table_def) (db : Database) : Prop :=
  Forall (λ tc, ∀ r, col_references tc.2 = Some r →
                     column_refs tc.1 (col_name tc.2) db ⊆ table_keys (ref_table r) db)
    (columns_of tables).

(** Note 4: "Default values prevent null-related issues": a column with a
    DEFAULT does not take NULL. *)
Definition note_defaults (tables : list table_def) : Prop :=
  Forall (λ tc, is_Some (col_default tc.2) → nullable tc.2 = false)
    (columns_of tables).

(** Note 5: "RLS policies ensure users can only access their own progress
    data": whoever asks and whatever is asked for, a progress row that is
    read is a row of the caller. *)
Definition note_own_progress (db : Database) : Prop :=
  ∀ c userId courseId r,
    r ∈ select_user_progress c userId courseId db →
    c = Some (UserProgress.user_id r).

(** The header's view of a column of the statements. *)
Definition documented (c : column_def) : doc_column :=
  mkDoc (col_name c) (col_type c) (col_primary_key c)
    (bool_decide (is_Some (col_references c)) && negb (col_primary_key c))
    (nullable c && bool_decide (col_default c = None)).

(** ** An INSERT from the statements *)

Lemma column_value_map {A B} (f : A → B) d x :
  column_value (f <$> d) (cell_map f x) = f <$> column_value d x.
Proof. by destruct x. Qed.

Lemma column_value_Some {A B} (f : A → B) a x :
  column_value (Some (f a)) (cell_map f x) = f <$> column_value (Some a) x.
Proof. by destruct x. Qed.

Lemma column_value_None {A B} (f : A → B) x :
  column_value None (cell_map f x) = f <$> column_value None x.
Proof. by destruct x. Qed.

(** Unfolds an INSERT into a table of the migration down to the values of
    its columns. *)
Ltac stored_row_simpl :=
  cbn [stored_row tab_columns profiles_def courses_def lessons_def
       user_progress_def profiles_cells courses_cells lessons_cells
       user_progress_cells];
  unfold stored_column; cbn [nullable col_primary_key col_not_null col_default
    col_name orb negb fmap option_fmap option_map eval_default];
  rewrite ?column_value_Some, ?column_value_None.


(** ** Types *)

Lemma stored_column_typed fresh now c x v :
  (match col_default c with
   | Some d => ∀ fresh now, type_of (eval_default fresh now d) = col_type c
   | None => True
   end) →
  (match x with Given a => type_of a = col_type c | _ => True end) →
  stored_column fresh now c x = Ok v →
  match v with
  | Some a => type_of a = col_type c
  | None => nullable c = true
  end.
Proof.
  unfold stored_column. intros Hd Hx.
  destruct (nullable c), x as [| |a], (col_default c) as [d|];
    intros [= <-]; simpl; auto.
Qed.

(** An INSERT whose values have the types of their columns stores a row
    whose values have the types of the columns, with NULL only in the
    columns that take it, whatever the table, provided the defaults of the
    table have the types of their columns, as those of the migration do. *)
Theorem stored_row_typed fresh now cols cells vs :
  defaults_typed cols → cells_typed cols cells →
  stored_row fresh now cols cells = Ok vs → values_typed cols vs.
Proof.
  intros Hd Hcells. revert vs.
  induction Hcells as [|c x cols cells Hx _ IH]; intros vs; simpl.
  { intros [= <-]. constructor. }
  apply Forall_cons in Hd as [Hc Hd].
  destruct (stored_column fresh now c x) as [v|e] eqn:Hv; [|done].
  destruct (stored_row fresh now cols cells) as [vs'|e]; [|done].
  intros [= <-]. constructor; [by eapply stored_column_typed|by apply IH].
Qed.

Lemma migration_defaults_typed :
  Forall (λ t, defaults_typed (tab_columns t)) migration_tables.
Proof. repeat (apply Forall_cons_2 || apply Forall_nil_2); simpl; done. Qed.

Lemma stored_row_typed_witness :
  values_typed (tab_columns user_progress_def)
    (user_progress_values
       (encode_progress
          (progress_row "p1" 7%Z
             (mkNewProgress "alice" "c1" (Some "l1") true (Some 5%Z))))).
Proof.
  apply (stored_row_typed "p1" 7%Z (tab_columns user_progress_def)
           (user_progress_cells
              (progress_insert
                 (mkNewProgress "alice" "c1" (Some "l1") true (Some 5%Z)))));
    [|by repeat constructor|reflexivity].
  repeat (apply Forall_cons_2 || apply Forall_nil_2); simpl; done.
Defined.

(** ** The header and the statements *)

(** The header documents the tables that the statements create: the
    same tables, the same columns in the same order, with the same types
    and primary keys.  It marks as foreign key the columns that reference
    another table and are not the primary key, and as nullable the columns
    that take NULL and have no DEFAULT. *)
Theorem header_documents_tables :
  header_tables = (λ t, (tab_name t, documented <$> tab_columns t)) <$> migration_tables.
Proof. reflexivity. Qed.

(** The policies the statements create are those of the header and one
    more, the INSERT policy of profiles; none is for callers without a
    session, so the public read access the header gives courses and lessons
    does not exist. *)
Theorem header_policies_created :
  Forall2 (λ h m, h.1 = m.1 ∧
                  ∀ x, x ∈ m.2 ↔
                       x ∈ h.2 ∨ (m.1 = "profiles" ∧ x = (INSERT, authenticated)))
    header_policies migration_policies ∧
  Forall (λ t, ∀ heads, (t, heads) ∈ migration_policies → (SELECT, anon) ∉ heads)
    header_public_read.
Proof.
  split.
  - repeat first [apply Forall2_cons_2|apply Forall2_nil_2];
      simpl; (split; [reflexivity|]); intros x;
      rewrite ?elem_of_cons, ?elem_of_nil; naive_solver.
  - repeat first [apply Forall_cons_2|apply Forall_nil_2]; intros heads Hin;
      unfold migration_policies in Hin;
      rewrite ?elem_of_cons, ?elem_of_nil in Hin;
      destruct Hin as [?|[?|[?|[?|[]]]]]; simplify_eq; compute_done.
Qed.

(** The indexes the header names are there. *)
Theorem header_indexes_created :
  foreign_keys_indexed migration_tables migration_indexes ∧
  header_composite ∈ migration_indexes.
Proof.
  split; [|compute_done].
  unfold foreign_keys_indexed. simpl.
  repeat (apply Forall_cons_2 || apply Forall_nil_2); simpl;
    intros [r Hr] Hpk; simplify_eq; compute_done.
Qed.

Lemma table_keys_refs db :
  db_wf db →
  profile_ids db ⊆ auth_user_ids db ∧
  Lesson.course_id <$> lessons db ⊆ course_ids db ∧
  UserProgress.user_id <$> user_progress db ⊆ auth_user_ids db ∧
  UserProgress.course_id <$> user_progress db ⊆ course_ids db ∧
  omap UserProgress.lesson_id (user_progress db) ⊆ lesson_ids db.
Proof.
  intros (_ & Hp & Hl & Hr). rewrite !Forall_forall in *.
  split_and!; intros k.
  - intros (p & -> & Hin)%list_elem_of_fmap. by apply Hp.
  - intros (l & -> & Hin)%list_elem_of_fmap. by apply Hl.
  - intros (r & -> & Hin)%list_elem_of_fmap. by apply Hr.
  - intros (r & -> & Hin)%list_elem_of_fmap. by apply Hr.
  - intros (r & Hin & Hk)%list_elem_of_omap.
    destruct (Hr r Hin) as (_ & _ & Href). by rewrite Hk in Href.
Qed.



(** ** Cascades *)

Lemma delete_course_tables cid db :
  auth_users (delete_course cid db) = auth_users db ∧
  profiles (delete_course cid db) = profiles db.
Proof.
  unfold delete_course. simpl.
  by destruct (foldr_delete_lesson_tables
    (Lesson.id <$> filter (λ l, Lesson.course_id l = cid) (lessons db)) db)
    as (-> & -> & _).
Qed.

(** A table outside the closure of the references is not a table of the
    store that a delete touches. *)
Ltac outside_closure H :=
  unfold table_keys; repeat case_decide; subst; try done;
  try (exfalso; apply H; compute_done).

(** A delete changes no table but those that the REFERENCES clauses
    lead to from its table: the keys of every other table are what they
    were, for a delete of a course, of a lesson and of an identity; and on
    the sample store each table the clauses lead to does change. *)
Theorem cascade_scope table db :
  (∀ cid, table ∉ cascade_closure 4 migration_tables "courses" →
          table_keys table (delete_course cid db) = table_keys table db) ∧
  (∀ lid, table ∉ cascade_closure 4 migration_tables "lessons" →
          table_keys table (delete_lesson lid db) = table_keys table db) ∧
  (∀ uid, table ∉ cascade_closure 4 migration_tables "auth.users" →
          table_keys table (delete_auth_user uid db) = table_keys table db) ∧
  Forall (λ t, table_keys t (delete_course "c1" Sample.db) ≠ table_keys t Sample.db)
    (cascade_closure 4 migration_tables "courses") ∧
  Forall (λ t, table_keys t (delete_lesson "l1" Sample.db) ≠ table_keys t Sample.db)
    (cascade_closure 4 migration_tables "lessons") ∧
  Forall (λ t, table_keys t (delete_auth_user "bob" Sample.db) ≠
               table_keys t Sample.db)
    (cascade_closure 4 migration_tables "auth.users").
Proof.
  split_and!; [intros cid H|intros lid H|intros uid H|compute_done..].
  - destruct (delete_course_tables cid db) as [Hu Hp].
    outside_closure H; unfold auth_user_ids, profile_ids; congruence.
  - outside_closure H.
  - outside_closure H.
Qed.
