(* ===== verification/Script.v ===== *)
(** * Script: the migration run as a script

    src/unnamed/part_000 is a script: statements run in the order written
    against the catalogue of a database, each of which succeeds or stops
    the script.  [Migration] has what the statements declare; this file has
    the statements themselves ([statement], [migration]), the catalogue
    they change ([catalog]) and their execution ([exec_statement],
    [exec_script]).

    The statements are written to be run again: the tables and the indexes
    are created IF NOT EXISTS, the function is created OR REPLACE, the
    trigger is dropped IF EXISTS before it is created.  PostgreSQL has no
    such guard for CREATE POLICY, and the script does not drop its policies
    first.

    What PostgreSQL does with a statement is not code of the repository; it
    is modelled from PostgreSQL's documentation, to the extent the
    statements of the script need: names are looked up, a REFERENCES clause
    needs the primary key it names, a policy needs its table, its role and
    the columns and functions of its expressions, a trigger needs its table
    and a function that returns a trigger.  A name without a schema is a
    name of [public]. *)

From stdpp Require Import base tactics option list strings.
From S2P Require Import Prelude Schema Policy Columns Migration.
Set Warnings "-clear-no-such-hyp".

(** ** Statements *)

(** The expressions of the policies: [true] and [auth.uid() = column]. *)
Inductive policy_expr :=
| e_true
| e_uid_is (column : string).

(** [CREATE POLICY name ON table FOR cmd TO role USING (...) WITH CHECK (...)] *)
Record policy_def := mkPolicyDef {
  pd_name : string;
  pd_table : string;
  pd_cmd : command;
  pd_to : role;
  pd_using : option policy_expr;
  pd_check : option policy_expr;
}.

Inductive return_type := r_trigger | r_uuid.

(** A function: what it returns, whether it is SECURITY DEFINER, and the
    table and the columns of the INSERT in its body, if it has one. *)
Record function_def := mkFunction {
  fn_name : string;
  fn_returns : return_type;
  fn_security_definer : bool;
  fn_inserts : option (string * list string);
}.

(** [CREATE TRIGGER name AFTER event ON table FOR EACH ROW EXECUTE FUNCTION f()] *)
Record trigger_def := mkTrigger {
  trg_name : string;
  trg_event : command;
  trg_table : string;
  trg_function : string;
}.

Inductive statement :=
| CREATE_TABLE (if_not_exists : bool) (t : table_def)
| ENABLE_RLS (table : string)
| CREATE_POLICY (p : policy_def)
| CREATE_INDEX (if_not_exists : bool) (i : index_def)
| CREATE_FUNCTION (or_replace : bool) (f : function_def)
| DROP_TRIGGER (if_exists : bool) (name table : string)
| CREATE_TRIGGER (g : trigger_def).

#[export] Instance policy_expr_eq_dec : EqDecision policy_expr.
Proof. solve_decision. Defined.
#[export] Instance policy_def_eq_dec : EqDecision policy_def.
Proof. solve_decision. Defined.
#[export] Instance return_type_eq_dec : EqDecision return_type.
Proof. solve_decision. Defined.
#[export] Instance function_def_eq_dec : EqDecision function_def.
Proof. solve_decision. Defined.
#[export] Instance trigger_def_eq_dec : EqDecision trigger_def.
Proof. solve_decision. Defined.
#[export] Instance table_def_eq_dec : EqDecision table_def.
Proof. solve_decision. Defined.

(** [handle_new_user()] *)
Definition handle_new_user_def : function_def :=
  mkFunction "handle_new_user" r_trigger true
    (Some ("profiles", ["id"; "email"; "full_name"])).

(** [on_auth_user_created] *)
Definition on_auth_user_created : trigger_def :=
  mkTrigger "on_auth_user_created" INSERT "auth.users" "handle_new_user".

(** The script, statement by statement. *)
Definition migration : list statement :=
  [ CREATE_TABLE true profiles_def;
    ENABLE_RLS "profiles";
    CREATE_POLICY (mkPolicyDef "Users can view own profile" "profiles" SELECT
                     authenticated (Some (e_uid_is "id")) None);
    CREATE_POLICY (mkPolicyDef "Users can update own profile" "profiles" UPDATE
                     authenticated (Some (e_uid_is "id")) (Some (e_uid_is "id")));
    CREATE_POLICY (mkPolicyDef "Users can insert own profile" "profiles" INSERT
                     authenticated None (Some (e_uid_is "id")));
    CREATE_TABLE true courses_def;
    ENABLE_RLS "courses";
    CREATE_POLICY (mkPolicyDef "Anyone can view courses" "courses" SELECT
                     authenticated (Some e_true) None);
    CREATE_TABLE true lessons_def;
    ENABLE_RLS "lessons";
    CREATE_POLICY (mkPolicyDef "Anyone can view lessons" "lessons" SELECT
                     authenticated (Some e_true) None);
    CREATE_TABLE true user_progress_def;
    ENABLE_RLS "user_progress";
    CREATE_POLICY (mkPolicyDef "Users can view own progress" "user_progress" SELECT
                     authenticated (Some (e_uid_is "user_id")) None);
    CREATE_POLICY (mkPolicyDef "Users can insert own progress" "user_progress" INSERT
                     authenticated None (Some (e_uid_is "user_id")));
    CREATE_POLICY (mkPolicyDef "Users can update own progress" "user_progress" UPDATE
                     authenticated (Some (e_uid_is "user_id"))
                     (Some (e_uid_is "user_id"))) ]
  ++ (CREATE_INDEX true <$> migration_indexes) ++
  [ CREATE_FUNCTION true handle_new_user_def;
    DROP_TRIGGER true "on_auth_user_created" "auth.users";
    CREATE_TRIGGER on_auth_user_created ].

(** ** The catalogue *)

(** What a database holds beside its rows, each kind of object in the order
    of its creation. *)
Record catalog := mkCatalog {
  cat_roles : list role;
  cat_tables : list table_def;
  cat_rls : list string;
  cat_policies : list policy_def;
  cat_indexes : list index_def;
  cat_functions : list function_def;
  cat_triggers : list trigger_def;
}.

Inductive ddl_error :=
| duplicate_table (name : string)
| undefined_table (name : string)
| undefined_column (table column : string)
| invalid_foreign_key (table column : string)
| datatype_mismatch (column target : string)
| duplicate_object (name table : string)
| undefined_object (name : string)
| undefined_role (r : role)
| undefined_operator (column : string)
| duplicate_function (name : string)
| undefined_function (name : string)
| invalid_function_definition (name : string)
| invalid_object_definition (name : string).

#[export] Instance ddl_error_eq_dec : EqDecision ddl_error.
Proof. solve_decision. Defined.
#[export] Instance catalog_eq_dec : EqDecision catalog.
Proof. solve_decision. Defined.

(** The part of [auth.users] the script depends on. *)
Definition auth_users_def : table_def :=
  mkTable "auth.users"
    [ mkColumn "id" t_uuid true false None None;
      mkColumn "email" t_text false false None None ].

(** [auth.uid()] *)
Definition auth_uid_def : function_def := mkFunction "auth.uid" r_uuid false None.

(** A new Supabase project: the two roles of its API, the table of the
    identities and [auth.uid()]. *)
Definition supabase_project : catalog :=
  mkCatalog [anon; authenticated] [auth_users_def] [] [] [] [auth_uid_def] [].

(** A PostgreSQL database with nothing in it. *)
Definition empty_database : catalog := mkCatalog [] [] [] [] [] [] [].

(** ** Lookups *)

Definition table_named (name : string) (cat : catalog) : option table_def :=
  find (λ t, bool_decide (tab_name t = name)) (cat_tables cat).

Definition column_named (name : string) (t : table_def) : option column_def :=
  find (λ c, bool_decide (col_name c = name)) (tab_columns t).

Definition function_named (name : string) (cat : catalog) : option function_def :=
  find (λ f, bool_decide (fn_name f = name)) (cat_functions cat).

(** Tables and indexes are relations, and share their names. *)
Definition relation_exists (name : string) (cat : catalog) : Prop :=
  name ∈ (tab_name <$> cat_tables cat) ++ (idx_name <$> cat_indexes cat).

Definition policy_key (p : policy_def) : string * string := (pd_table p, pd_name p).
Definition trigger_key (g : trigger_def) : string * string := (trg_table g, trg_name g).

(** ** Checks *)

Definition check_all {A} (check : A → result ddl_error unit) (l : list A) :
    result ddl_error unit :=
  foldr (λ a rest, check a ≫= λ _, rest) (Ok tt) l.

(** REFERENCES: the table exists, the column is its primary key, and the
    types are the same. *)
Definition check_reference (cat : catalog) (c : column_def) : result ddl_error unit :=
  match col_references c with
  | None => Ok tt
  | Some r =>
      match table_named (ref_table r) cat with
      | None => Err (undefined_table (ref_table r))
      | Some target =>
          match column_named (ref_column r) target with
          | None => Err (undefined_column (ref_table r) (ref_column r))
          | Some k =>
              if negb (col_primary_key k)
              then Err (invalid_foreign_key (ref_table r) (ref_column r))
              else if decide (col_type k = col_type c) then Ok tt
              else Err (datatype_mismatch (col_name c) (ref_column r))
          end
      end
  end.

Definition check_column (t : table_def) (column : string) : result ddl_error unit :=
  match column_named column t with
  | Some _ => Ok tt
  | None => Err (undefined_column (tab_name t) column)
  end.

(** An expression of a policy: [auth.uid()] is a function of the database
    that returns a uuid, and the column is a uuid column of the table. *)
Definition check_expr (cat : catalog) (t : table_def) (e : option policy_expr) :
    result ddl_error unit :=
  match e with
  | None | Some e_true => Ok tt
  | Some (e_uid_is column) =>
      match function_named "auth.uid" cat, column_named column t with
      | None, _ => Err (undefined_function "auth.uid")
      | Some _, None => Err (undefined_column (tab_name t) column)
      | Some f, Some k =>
          if decide (fn_returns f = r_uuid ∧ col_type k = t_uuid) then Ok tt
          else Err (undefined_operator column)
      end
  end.

Definition check_policy (cat : catalog) (p : policy_def) : result ddl_error unit :=
  match table_named (pd_table p) cat with
  | None => Err (undefined_table (pd_table p))
  | Some t =>
      if decide (pd_to p ∈ cat_roles cat)
      then check_expr cat t (pd_using p) ≫= λ _, check_expr cat t (pd_check p)
      else Err (undefined_role (pd_to p))
  end.

Definition check_index (cat : catalog) (i : index_def) : result ddl_error unit :=
  match table_named (idx_table i) cat with
  | None => Err (undefined_table (idx_table i))
  | Some t => check_all (check_column t) (idx_columns i)
  end.

Definition check_trigger (cat : catalog) (g : trigger_def) : result ddl_error unit :=
  match table_named (trg_table g) cat with
  | None => Err (undefined_table (trg_table g))
  | Some _ =>
      match function_named (trg_function g) cat with
      | None => Err (undefined_function (trg_function g))
      | Some f =>
          if decide (fn_returns f = r_trigger) then Ok tt
          else Err (invalid_object_definition (trg_function g))
      end
  end.

(** ** Execution *)

Definition add_table (t : table_def) (cat : catalog) : catalog :=
  mkCatalog (cat_roles cat) (cat_tables cat ++ [t]) (cat_rls cat) (cat_policies cat)
    (cat_indexes cat) (cat_functions cat) (cat_triggers cat).

Definition add_rls (table : string) (cat : catalog) : catalog :=
  mkCatalog (cat_roles cat) (cat_tables cat)
    (if decide (table ∈ cat_rls cat) then cat_rls cat else cat_rls cat ++ [table])
    (cat_policies cat) (cat_indexes cat) (cat_functions cat) (cat_triggers cat).

Definition add_policy (p : policy_def) (cat : catalog) : catalog :=
  mkCatalog (cat_roles cat) (cat_tables cat) (cat_rls cat) (cat_policies cat ++ [p])
    (cat_indexes cat) (cat_functions cat) (cat_triggers cat).

Definition add_index (i : index_def) (cat : catalog) : catalog :=
  mkCatalog (cat_roles cat) (cat_tables cat) (cat_rls cat) (cat_policies cat)
    (cat_indexes cat ++ [i]) (cat_functions cat) (cat_triggers cat).

(** CREATE FUNCTION of a new name adds; OR REPLACE of a name that exists
    replaces the definition where it is. *)
Definition put_function (f : function_def) (cat : catalog) : catalog :=
  mkCatalog (cat_roles cat) (cat_tables cat) (cat_rls cat) (cat_policies cat)
    (cat_indexes cat)
    (match function_named (fn_name f) cat with
     | Some _ => (λ g, if decide (fn_name g = fn_name f) then f else g)
                   <$> cat_functions cat
     | None => cat_functions cat ++ [f]
     end)
    (cat_triggers cat).

Definition with_triggers (f : list trigger_def → list trigger_def) (cat : catalog) :
    catalog :=
  mkCatalog (cat_roles cat) (cat_tables cat) (cat_rls cat) (cat_policies cat)
    (cat_indexes cat) (cat_functions cat) (f (cat_triggers cat)).

#[export] Instance relation_exists_dec name cat : Decision (relation_exists name cat).
Proof. unfold relation_exists. apply _. Defined.

(** One statement.  A statement that fails changes nothing. *)
Definition exec_statement (s : statement) (cat : catalog) : result ddl_error catalog :=
  match s with
  | CREATE_TABLE if_not_exists t =>
      if decide (relation_exists (tab_name t) cat)
      then if if_not_exists then Ok cat else Err (duplicate_table (tab_name t))
      else check_all (check_reference cat) (tab_columns t) ≫= λ _,
           Ok (add_table t cat)
  | ENABLE_RLS table =>
      match table_named table cat with
      | Some _ => Ok (add_rls table cat)
      | None => Err (undefined_table table)
      end
  | CREATE_POLICY p =>
      check_policy cat p ≫= λ _,
      if decide (policy_key p ∈ policy_key <$> cat_policies cat)
      then Err (duplicate_object (pd_name p) (pd_table p))
      else Ok (add_policy p cat)
  | CREATE_INDEX if_not_exists i =>
      if decide (relation_exists (idx_name i) cat)
      then if if_not_exists then Ok cat else Err (duplicate_table (idx_name i))
      else check_index cat i ≫= λ _, Ok (add_index i cat)
  | CREATE_FUNCTION or_replace f =>
      match function_named (fn_name f) cat with
      | None => Ok (put_function f cat)
      | Some old =>
          if negb or_replace then Err (duplicate_function (fn_name f))
          else if decide (fn_returns old = fn_returns f) then Ok (put_function f cat)
          else Err (invalid_function_definition (fn_name f))
      end
  | DROP_TRIGGER if_exists name table =>
      if decide ((table, name) ∈ trigger_key <$> cat_triggers cat)
      then Ok (with_triggers (filter (λ g, trigger_key g ≠ (table, name))) cat)
      else if if_exists then Ok cat else Err (undefined_object name)
  | CREATE_TRIGGER g =>
      check_trigger cat g ≫= λ _,
      if decide (trigger_key g ∈ trigger_key <$> cat_triggers cat)
      then Err (duplicate_object (trg_name g) (trg_table g))
      else Ok (with_triggers (λ l, l ++ [g]) cat)
  end.

(** The script: the statements in order, up to the first that fails.  The
    state is the catalogue reached. *)
Definition run_statement (s : statement) : prog catalog ddl_error unit := λ cat,
  match exec_statement s cat with
  | Ok cat' => (Ok tt, cat')
  | Err e => (Err e, cat)
  end.

Definition exec_script (script : list statement) : prog catalog ddl_error unit :=
  foldr (λ s rest, run_statement s ≫= λ _, rest) (mret tt) script.

(** The policies a script creates, in its order. *)
Definition created_policies (script : list statement) : list policy_def :=
  omap (λ s, match s with CREATE_POLICY p => Some p | _ => None end) script.

(** The catalogue after the migration has run on a new project: the tables,
    the indexes and the tables with row-level security are those of
    [Migration]. *)
Definition migrated : catalog :=
  mkCatalog [anon; authenticated] (auth_users_def :: migration_tables) rls_enabled
    (created_policies migration) migration_indexes
    [auth_uid_def; handle_new_user_def] [on_auth_user_created].

(** ** The policies of a catalogue, as [Policy] evaluates them *)

Section Denote.
Context {R : Type} (column : string → R → option uuid).

Definition denote_expr (e : policy_expr) : caller → R → bool :=
  match e with
  | e_true => λ _ _, true
  | e_uid_is name => λ c r,
      match column name r with
      | Some u => bool_decide (c = Some u)
      | None => false
      end
  end.

Definition denote_policy (p : policy_def) : policy R :=
  mkPolicy (pd_name p) (pd_cmd p) (pd_to p)
    (denote_expr <$> pd_using p) (denote_expr <$> pd_check p).

Definition policies_on (table : string) (cat : catalog) : list (policy R) :=
  denote_policy <$> filter (λ p, pd_table p = table) (cat_policies cat).

End Denote.

(** The uuid columns of the rows of [Schema]. *)
Definition profile_column (name : string) (p : Profile.t) : option uuid :=
  if decide (name = "id") then Some (Profile.id p) else None.

Definition course_column (name : string) (c : Course.t) : option uuid :=
  if decide (name = "id") then Some (Course.id c) else None.

Definition lesson_column (name : string) (l : Lesson.t) : option uuid :=
  if decide (name = "id") then Some (Lesson.id l)
  else if decide (name = "course_id") then Some (Lesson.course_id l) else None.

Definition progress_column (name : string) (r : UserProgress.t) : option uuid :=
  if decide (name = "id") then Some (UserProgress.id r)
  else if decide (name = "user_id") then Some (UserProgress.user_id r)
  else if decide (name = "course_id") then Some (UserProgress.course_id r)
  else if decide (name = "lesson_id") then UserProgress.lesson_id r else None.

(** ** What a script keeps, needs and installs *)

(** The catalogue has grown: what could be looked up still can, and a
    table that was there is as it was. *)
Record extends (cat cat' : catalog) : Prop := mkExtends {
  ext_roles : cat_roles cat' = cat_roles cat;
  ext_tables : ∀ n t, table_named n cat = Some t → table_named n cat' = Some t;
  ext_functions : ∀ n f, function_named n cat = Some f →
    ∃ f', function_named n cat' = Some f' ∧ fn_returns f' = fn_returns f;
  ext_relations : ∀ n, relation_exists n cat → relation_exists n cat';
  ext_rls : cat_rls cat ⊆ cat_rls cat';
  ext_policies : policy_key <$> cat_policies cat ⊆ policy_key <$> cat_policies cat';
}.

(** The objects of [cat0] pass in [cat] the checks of their creation. *)
Definition objects_checked (cat0 cat : catalog) : Prop :=
  Forall (λ t, check_all (check_reference cat) (tab_columns t) = Ok tt)
    (cat_tables cat0) ∧
  Forall (λ n, is_Some (table_named n cat)) (cat_rls cat0) ∧
  Forall (λ p, check_policy cat p = Ok tt) (cat_policies cat0) ∧
  Forall (λ i, check_index cat i = Ok tt) (cat_indexes cat0) ∧
  Forall (λ g, check_trigger cat g = Ok tt) (cat_triggers cat0).

(** A catalogue is well formed: nothing in it refers to what is not there,
    and names are not used twice. *)
Record cat_wf (cat : catalog) : Prop := mkWf {
  wf_objects : objects_checked cat cat;
  wf_relations : NoDup ((tab_name <$> cat_tables cat) ++ (idx_name <$> cat_indexes cat));
  wf_rls : NoDup (cat_rls cat);
  wf_policies : NoDup (policy_key <$> cat_policies cat);
  wf_functions : NoDup (fn_name <$> cat_functions cat);
  wf_triggers : NoDup (trigger_key <$> cat_triggers cat);
}.

(** The statements that are written to be run again. *)
Definition guarded (s : statement) : bool :=
  match s with
  | CREATE_TABLE true _ | ENABLE_RLS _ | CREATE_INDEX true _
  | CREATE_FUNCTION true _ => true
  | _ => false
  end.

(** What a statement leaves behind. *)
Definition installed (s : statement) (cat : catalog) : Prop :=
  match s with
  | CREATE_TABLE _ t => relation_exists (tab_name t) cat
  | ENABLE_RLS table => is_Some (table_named table cat) ∧ table ∈ cat_rls cat
  | CREATE_POLICY p => policy_key p ∈ policy_key <$> cat_policies cat
  | CREATE_INDEX _ i => relation_exists (idx_name i) cat
  | CREATE_FUNCTION _ f =>
      f ∈ cat_functions cat ∧
      ∀ g, g ∈ cat_functions cat → fn_name g = fn_name f → g = f
  | DROP_TRIGGER _ name table => (table, name) ∉ trigger_key <$> cat_triggers cat
  | CREATE_TRIGGER g => g ∈ cat_triggers cat
  end.

(** The function a statement creates, and those a script creates. *)
Definition function_of (s : statement) : option string :=
  match s with CREATE_FUNCTION _ f => Some (fn_name f) | _ => None end.

Definition created_functions (script : list statement) : list string :=
  omap function_of script.

Definition is_policy (s : statement) : bool :=
  match s with CREATE_POLICY _ => true | _ => false end.

(** The script without its CREATE POLICY statements. *)
Definition without_policies (script : list statement) : list statement :=
  filter (λ s, is_policy s = false) script.

(** The INSERT in the body of a function names a table of the catalogue and
    columns of that table.  PostgreSQL does not check this when the
    function is created, but when it runs. *)
Definition body_checked (cat : catalog) (f : function_def) : Prop :=
  match fn_inserts f with
  | None => True
  | Some (table, columns) =>
      match table_named table cat with
      | Some t => check_all (check_column t) columns = Ok tt
      | None => False
      end
  end.

#[export] Instance body_checked_dec cat f : Decision (body_checked cat f).
Proof. unfold body_checked. repeat case_match; apply _. Defined.

(** A project in which an earlier version of the application has left a
    table [profiles] without the column [email]. *)
Definition earlier_profiles : table_def :=
  mkTable "profiles"
    [ mkColumn "id" t_uuid true false None
        (Some (mkReference "auth.users" "id" CASCADE));
      mkColumn "full_name" t_text false false (Some (d_text "")) None ].

Definition earlier_project : catalog :=
  mkCatalog [anon; authenticated] [auth_users_def; earlier_profiles] [] [] []
    [auth_uid_def] [].

(** What a statement that succeeds does, rule by rule. *)
Inductive executes : statement → catalog → catalog → Prop :=
| ex_table_skip t cat :
    relation_exists (tab_name t) cat → executes (CREATE_TABLE true t) cat cat
| ex_table b t cat :
    ¬ relation_exists (tab_name t) cat →
    check_all (check_reference cat) (tab_columns t) = Ok tt →
    executes (CREATE_TABLE b t) cat (add_table t cat)
| ex_rls table t cat :
    table_named table cat = Some t → executes (ENABLE_RLS table) cat (add_rls table cat)
| ex_policy p cat :
    check_policy cat p = Ok tt → policy_key p ∉ policy_key <$> cat_policies cat →
    executes (CREATE_POLICY p) cat (add_policy p cat)
| ex_index_skip i cat :
    relation_exists (idx_name i) cat → executes (CREATE_INDEX true i) cat cat
| ex_index b i cat :
    ¬ relation_exists (idx_name i) cat → check_index cat i = Ok tt →
    executes (CREATE_INDEX b i) cat (add_index i cat)
| ex_function b f cat :
    function_named (fn_name f) cat = None →
    executes (CREATE_FUNCTION b f) cat (put_function f cat)
| ex_replace f old cat :
    function_named (fn_name f) cat = Some old → fn_returns old = fn_returns f →
    executes (CREATE_FUNCTION true f) cat (put_function f cat)
| ex_drop b name table cat :
    (table, name) ∈ trigger_key <$> cat_triggers cat →
    executes (DROP_TRIGGER b name table) cat
      (with_triggers (filter (λ g, trigger_key g ≠ (table, name))) cat)
| ex_drop_skip name table cat :
    (table, name) ∉ trigger_key <$> cat_triggers cat →
    executes (DROP_TRIGGER true name table) cat cat
| ex_trigger g cat :
    check_trigger cat g = Ok tt → trigger_key g ∉ trigger_key <$> cat_triggers cat →
    executes (CREATE_TRIGGER g) cat (with_triggers (λ l, l ++ [g]) cat).

(** ** Lookups in a catalogue that grows *)

Lemma find_snoc_Some {A} (f : A → bool) l x y :
  find f l = Some y → find f (l ++ [x]) = Some y.
Proof. induction l as [|a l IH]; simpl; [done|]. by destruct (f a). Qed.

Lemma find_Some_elem {A} (f : A → bool) l y : find f l = Some y → y ∈ l ∧ f y = true.
Proof. intros [? ?]%find_some. split; [by apply list_elem_of_In|done]. Qed.

Lemma find_None_all {A} (f : A → bool) l x : find f l = None → x ∈ l → f x = false.
Proof. intros Hn Hx%list_elem_of_In. by eapply find_none. Qed.

Lemma find_is_Some {A} (f : A → bool) l x : x ∈ l → f x = true → is_Some (find f l).
Proof.
  intros Hx Hf. destruct (find f l) eqn:Hfind; [done|].
  by rewrite (find_None_all f l x Hfind Hx) in Hf.
Qed.

Lemma table_named_elem n cat t : table_named n cat = Some t → t ∈ cat_tables cat ∧ tab_name t = n.
Proof. intros [? ?%bool_decide_eq_true]%find_Some_elem. done. Qed.

Lemma table_named_relation n cat t : table_named n cat = Some t → relation_exists n cat.
Proof.
  intros [Ht <-]%table_named_elem. apply elem_of_app. left.
  by apply list_elem_of_fmap_2.
Qed.

#[export] Instance extends_refl : Reflexive extends.
Proof. intros cat. split; eauto. Qed.

#[export] Instance extends_trans : Transitive extends.
Proof.
  intros c1 c2 c3 [] []. split; eauto.
  - congruence.
  - intros n f (f' & Hf' & <-)%ext_functions0. by apply ext_functions1 in Hf'.
  - by etrans.
  - by etrans.
Qed.

Lemma find_fmap_same {A} (p : A → bool) (h : A → A) l :
  (∀ x, p (h x) = p x) → find p (h <$> l) = h <$> find p l.
Proof.
  intros Hp. induction l as [|a l IH]; [done|]. cbn [fmap list_fmap find].
  rewrite Hp. by destruct (p a).
Qed.

(** ** The statements that succeed *)

Lemma check_then {A} (r : result ddl_error unit) (k : result ddl_error A) a :
  r ≫= (λ _, k) = Ok a ↔ r = Ok tt ∧ k = Ok a.
Proof. destruct r as [[]|]; naive_solver. Qed.

Lemma exec_statement_executes s cat cat' :
  exec_statement s cat = Ok cat' ↔ executes s cat cat'.
Proof.
  split.
  - destruct s as [[] ?| | |[] ?|[] ?|[] ? ?|]; simpl; repeat case_match;
      rewrite ?check_then; intros; destruct_and?; simplify_eq/=; by econstructor.
  - destruct 1; simpl;
      repeat first [ rewrite decide_True by done | rewrite decide_False by done
                   | match goal with H : _ = _ |- _ => rewrite H; simpl end ];
      done.
Qed.

(** ** Each statement lets the catalogue grow *)

Lemma extends_add_table t cat : extends cat (add_table t cat).
Proof.
  split; try done.
  - intros n t'. apply find_snoc_Some.
  - eauto.
  - intros n. unfold relation_exists. simpl. rewrite fmap_app, !elem_of_app. tauto.
Qed.

Lemma extends_add_rls table cat : extends cat (add_rls table cat).
Proof.
  split; try done; [eauto|]. simpl. case_decide; [done|].
  intros x Hx. apply elem_of_app. by left.
Qed.

Lemma extends_add_policy p cat : extends cat (add_policy p cat).
Proof.
  split; try done; [eauto|]. simpl. intros x Hx.
  rewrite fmap_app, elem_of_app. by left.
Qed.

Lemma extends_add_index i cat : extends cat (add_index i cat).
Proof.
  split; try done; [eauto|].
  intros n. unfold relation_exists. simpl. rewrite fmap_app, !elem_of_app. tauto.
Qed.

Lemma extends_with_triggers f cat : extends cat (with_triggers f cat).
Proof. split; try done. eauto. Qed.

Lemma extends_put_function f cat :
  (∀ old, function_named (fn_name f) cat = Some old → fn_returns old = fn_returns f) →
  extends cat (put_function f cat).
Proof.
  intros Hret. split; try done. intros n g Hg. unfold function_named. simpl.
  destruct (function_named (fn_name f) cat) as [old|] eqn:Hold.
  - rewrite find_fmap_same by (intros x; by case_decide as Hx; [rewrite Hx|]).
    fold (function_named n cat). rewrite Hg. simpl. eexists. split; [done|].
    case_decide as Hn; [|done]. symmetry. apply Hret.
    pose proof (find_Some_elem _ _ _ Hg) as [_ Hgn%bool_decide_eq_true].
    assert (n = fn_name f) as -> by congruence. congruence.
  - exists g. split; [|done]. by apply find_snoc_Some.
Qed.

Lemma exec_statement_extends s cat cat' :
  exec_statement s cat = Ok cat' → extends cat cat'.
Proof.
  intros H%exec_statement_executes.
  destruct H; first [ reflexivity | apply extends_put_function; intros; congruence
    | auto using extends_add_table, extends_add_rls, extends_add_policy,
        extends_add_index, extends_with_triggers ].
Qed.

(** ** Scripts *)

Lemma exec_script_cons s script cat :
  run (exec_script (s :: script)) cat =
  match exec_statement s cat with
  | Ok cat' => run (exec_script script) cat'
  | Err e => (Err e, cat)
  end.
Proof.
  cbn [exec_script foldr]. rewrite run_bind. unfold run at 1, run_statement.
  by destruct (exec_statement s cat).
Qed.

Lemma exec_script_app a b cat :
  run (exec_script (a ++ b)) cat =
  match run (exec_script a) cat with
  | (Ok _, cat') => run (exec_script b) cat'
  | (Err e, cat') => (Err e, cat')
  end.
Proof.
  revert cat. induction a as [|s a IH]; intros cat; [done|].
  rewrite <- app_comm_cons, !exec_script_cons.
  destruct (exec_statement s cat); [apply IH|done].
Qed.

Lemma exec_script_cons_Ok s script cat cat' :
  run (exec_script (s :: script)) cat = (Ok tt, cat') ↔
  ∃ cat1, executes s cat cat1 ∧ run (exec_script script) cat1 = (Ok tt, cat').
Proof.
  rewrite exec_script_cons. setoid_rewrite <- exec_statement_executes.
  destruct (exec_statement s cat); naive_solver.
Qed.

Lemma exec_script_extends script cat r cat' :
  run (exec_script script) cat = (r, cat') → extends cat cat'.
Proof.
  revert cat. induction script as [|s script IH]; intros cat.
  - by intros [= _ <-].
  - rewrite exec_script_cons. destruct (exec_statement s cat) as [cat1|e] eqn:Hs.
    + intros H%IH. etrans; [|done]. by eapply exec_statement_extends.
    + by intros [= _ <-].
Qed.

(** ** Checks in a catalogue that grows *)

Lemma check_all_Ok {A} (check : A → result ddl_error unit) l :
  check_all check l = Ok tt ↔ Forall (λ a, check a = Ok tt) l.
Proof.
  induction l as [|a l IH]; simpl; [by split; [constructor|]|].
  rewrite check_then, Forall_cons. naive_solver.
Qed.

Section Grown.
Context (cat cat' : catalog) (Hext : extends cat cat').

Lemma check_reference_extends c :
  check_reference cat c = Ok tt → check_reference cat' c = Ok tt.
Proof.
  unfold check_reference. destruct (col_references c) as [r|]; [|done].
  destruct (table_named (ref_table r) cat) as [t|] eqn:Ht; [|done].
  by rewrite (ext_tables _ _ Hext _ _ Ht).
Qed.

Lemma check_expr_extends t e : check_expr cat t e = Ok tt → check_expr cat' t e = Ok tt.
Proof.
  destruct e as [[|column]|]; simpl; [done| |done].
  destruct (function_named "auth.uid" cat) as [f|] eqn:Hf; [|done].
  destruct (ext_functions _ _ Hext _ _ Hf) as (f' & -> & ->). done.
Qed.

Lemma check_policy_extends p : check_policy cat p = Ok tt → check_policy cat' p = Ok tt.
Proof.
  unfold check_policy. destruct (table_named (pd_table p) cat) as [t|] eqn:Ht; [|done].
  rewrite (ext_tables _ _ Hext _ _ Ht), (ext_roles _ _ Hext).
  case_decide; [|done]. rewrite !check_then.
  intros [? ?]. eauto using check_expr_extends.
Qed.

Lemma check_index_extends i : check_index cat i = Ok tt → check_index cat' i = Ok tt.
Proof.
  unfold check_index. destruct (table_named (idx_table i) cat) as [t|] eqn:Ht; [|done].
  by rewrite (ext_tables _ _ Hext _ _ Ht).
Qed.

Lemma check_trigger_extends g : check_trigger cat g = Ok tt → check_trigger cat' g = Ok tt.
Proof.
  unfold check_trigger. destruct (table_named (trg_table g) cat) as [t|] eqn:Ht; [|done].
  rewrite (ext_tables _ _ Hext _ _ Ht).
  destruct (function_named (trg_function g) cat) as [f|] eqn:Hf; [|done].
  destruct (ext_functions _ _ Hext _ _ Hf) as (f' & -> & ->). done.
Qed.

Lemma objects_checked_extends cat0 : objects_checked cat0 cat → objects_checked cat0 cat'.
Proof.
  intros (Ht & Hr & Hp & Hi & Hg). split_and!; eapply Forall_impl; try done; simpl.
  - intros t. rewrite !check_all_Ok. intros H. eapply Forall_impl; [done|].
    apply check_reference_extends.
  - intros n [t Hn]. exists t. by apply (ext_tables _ _ Hext).
  - apply check_policy_extends.
  - apply check_index_extends.
  - apply check_trigger_extends.
Qed.

End Grown.

(** ** Every statement keeps the catalogue well formed *)

Lemma NoDup_snoc_2 {A} (l : list A) x : x ∉ l → NoDup l → NoDup (l ++ [x]).
Proof. intros. rewrite <- Permutation_cons_append. by constructor. Qed.

Section Wf.
Context (cat : catalog) (Hwf : cat_wf cat).

(** The objects of the catalogue pass their checks in a catalogue that has
    grown from it. *)
Lemma wf_grown cat' : extends cat cat' → objects_checked cat cat'.
Proof. intros Hext. eapply objects_checked_extends; [done|]. apply Hwf. Qed.

Lemma add_table_wf t :
  ¬ relation_exists (tab_name t) cat →
  check_all (check_reference cat) (tab_columns t) = Ok tt → cat_wf (add_table t cat).
Proof.
  intros Hnew Hchk. pose proof (extends_add_table t cat) as Hext.
  destruct (wf_grown _ Hext) as (Ht & Hr & Hp & Hi & Hg).
  destruct Hwf as [_ Hrel ? ? ? ?]. split; simpl; try done.
  - split_and!; try done. simpl. apply Forall_app. split; [done|].
    apply Forall_singleton. rewrite check_all_Ok in *.
    eapply Forall_impl; [done|]. by apply check_reference_extends.
  - rewrite fmap_app, <- app_assoc. simpl. rewrite <- Permutation_middle.
    by constructor.
Qed.

Lemma add_rls_wf table t : table_named table cat = Some t → cat_wf (add_rls table cat).
Proof.
  intros Htab. pose proof (extends_add_rls table cat) as Hext.
  destruct (wf_grown _ Hext) as (Ht & Hr & Hp & Hi & Hg).
  destruct Hwf as [_ ? Hrls ? ? ?]. split; simpl; try done.
  - split_and!; try done. simpl. case_decide; [done|].
    apply Forall_app. split; [done|]. apply Forall_singleton. by exists t.
  - case_decide; [done|]. by apply NoDup_snoc_2.
Qed.

Lemma add_policy_wf p :
  check_policy cat p = Ok tt → policy_key p ∉ policy_key <$> cat_policies cat →
  cat_wf (add_policy p cat).
Proof.
  intros Hchk Hnew. pose proof (extends_add_policy p cat) as Hext.
  destruct (wf_grown _ Hext) as (Ht & Hr & Hp & Hi & Hg).
  destruct Hwf as [_ ? ? Hpol ? ?]. split; simpl; try done.
  - split_and!; try done. simpl. apply Forall_app. split; [done|].
    apply Forall_singleton. by apply (check_policy_extends cat).
  - rewrite fmap_app. by apply NoDup_snoc_2.
Qed.

Lemma add_index_wf i :
  ¬ relation_exists (idx_name i) cat → check_index cat i = Ok tt →
  cat_wf (add_index i cat).
Proof.
  intros Hnew Hchk. pose proof (extends_add_index i cat) as Hext.
  destruct (wf_grown _ Hext) as (Ht & Hr & Hp & Hi & Hg).
  destruct Hwf as [_ Hrel ? ? ? ?]. split; simpl; try done.
  - split_and!; try done. simpl. apply Forall_app. split; [done|].
    apply Forall_singleton. by apply (check_index_extends cat).
  - rewrite fmap_app, app_assoc. by apply NoDup_snoc_2.
Qed.

Lemma put_function_wf f :
  (∀ old, function_named (fn_name f) cat = Some old → fn_returns old = fn_returns f) →
  cat_wf (put_function f cat).
Proof.
  intros Hret. pose proof (extends_put_function f cat Hret) as Hext.
  destruct (wf_grown _ Hext) as (Ht & Hr & Hp & Hi & Hg).
  destruct Hwf as [_ ? ? ? Hfn ?]. split; simpl; try done.
  destruct (function_named (fn_name f) cat) eqn:Hold.
  - rewrite <- list_fmap_compose.
    rewrite (list_fmap_ext _ fn_name (cat_functions cat)); [done|].
    intros _ g _. simpl. by case_decide.
  - rewrite fmap_app. apply NoDup_snoc_2; [|done].
    intros (g & Hname & Hin)%list_elem_of_fmap.
    apply (find_None_all _ _ g Hold) in Hin. by rewrite bool_decide_eq_false in Hin.
Qed.

Lemma drop_trigger_wf key :
  cat_wf (with_triggers (filter (λ g, trigger_key g ≠ key)) cat).
Proof.
  pose proof (extends_with_triggers (filter (λ g, trigger_key g ≠ key)) cat) as Hext.
  destruct (wf_grown _ Hext) as (Ht & Hr & Hp & Hi & Hg).
  destruct Hwf as [_ ? ? ? ? Htrg]. split; simpl; try done.
  - split_and!; try done. simpl. apply Forall_forall.
    intros g [_ Hin]%list_elem_of_filter. by apply (proj1 (Forall_forall _ _) Hg).
  - by apply NoDup_fmap_filter.
Qed.

Lemma add_trigger_wf g :
  check_trigger cat g = Ok tt → trigger_key g ∉ trigger_key <$> cat_triggers cat →
  cat_wf (with_triggers (λ l, l ++ [g]) cat).
Proof.
  intros Hchk Hnew. pose proof (extends_with_triggers (λ l, l ++ [g]) cat) as Hext.
  destruct (wf_grown _ Hext) as (Ht & Hr & Hp & Hi & Hg).
  destruct Hwf as [_ ? ? ? ? Htrg]. split; simpl; try done.
  - split_and!; try done. simpl. apply Forall_app. split; [done|].
    apply Forall_singleton. by apply (check_trigger_extends cat).
  - rewrite fmap_app. by apply NoDup_snoc_2.
Qed.

End Wf.

Lemma executes_wf s cat cat' : executes s cat cat' → cat_wf cat → cat_wf cat'.
Proof.
  destruct 1; intros Hwf; try done;
    eauto using add_table_wf, add_rls_wf, add_policy_wf, add_index_wf,
      drop_trigger_wf, add_trigger_wf.
  - apply put_function_wf; [done|]. intros; congruence.
  - apply put_function_wf; [done|]. intros; congruence.
Qed.

(** ** What a statement leaves *)

Lemma elem_of_snoc {A} (l : list A) x : x ∈ l ++ [x].
Proof. apply elem_of_app. right. by left. Qed.

Lemma executes_functions s cat cat' :
  executes s cat cat' → function_of s = None → cat_functions cat' = cat_functions cat.
Proof. by destruct 1. Qed.

Lemma replaced_elem f (l : list function_def) g :
  g ∈ (λ g, if decide (fn_name g = fn_name f) then f else g) <$> l ↔
  (g = f ∧ ∃ old, old ∈ l ∧ fn_name old = fn_name f) ∨ (g ∈ l ∧ fn_name g ≠ fn_name f).
Proof.
  rewrite list_elem_of_fmap. split.
  - intros (g0 & -> & Hin). case_decide; eauto.
  - intros [(-> & old & Hin & Hn)|[Hin Hn]].
    + exists old. by rewrite decide_True.
    + exists g. by rewrite decide_False.
Qed.

Lemma executes_installed s cat cat' : executes s cat cat' → installed s cat'.
Proof.
  destruct 1; simpl; try done.
  - apply elem_of_app. left. apply list_elem_of_fmap_2, elem_of_snoc.
  - split; [by eexists|]. case_decide; [done|]. apply elem_of_snoc.
  - apply list_elem_of_fmap_2, elem_of_snoc.
  - apply elem_of_app. right. apply list_elem_of_fmap_2, elem_of_snoc.
  - rewrite H. setoid_rewrite elem_of_app. setoid_rewrite list_elem_of_singleton.
    split; [tauto|]. intros g [Hin| ->] Hn; [|done].
    apply (find_None_all _ _ g H) in Hin. by rewrite bool_decide_eq_false in Hin.
  - rewrite H. setoid_rewrite replaced_elem. split; [|naive_solver].
    left. split; [done|]. exists old.
    by apply find_Some_elem in H as [? ?%bool_decide_eq_true].
  - intros (g & Hk & [Hne _]%list_elem_of_filter)%list_elem_of_fmap. by rewrite <- Hk in Hne.
  - apply elem_of_snoc.
Qed.

(** A guarded statement whose object is installed does nothing. *)
Lemma add_rls_same table cat : table ∈ cat_rls cat → add_rls table cat = cat.
Proof. intros Hin. destruct cat. unfold add_rls. simpl in *. by rewrite decide_True. Qed.

Lemma put_function_same f cat :
  installed (CREATE_FUNCTION true f) cat →
  function_named (fn_name f) cat = Some f ∧ put_function f cat = cat.
Proof.
  intros [Hin Hall].
  destruct (find_is_Some (λ g, bool_decide (fn_name g = fn_name f)) _ f Hin)
    as [old Hold]; [by apply bool_decide_eq_true|].
  pose proof (find_Some_elem _ _ _ Hold) as [Hoin Hon%bool_decide_eq_true].
  rewrite (Hall old Hoin Hon) in Hold. split; [done|].
  destruct cat. unfold put_function, function_named in *. simpl in *. rewrite Hold.
  f_equal. etrans; [|apply list_fmap_id]. apply list_fmap_ext.
  intros _ g Hg%list_elem_of_lookup_2. simpl. case_decide; [|done]. symmetry. eauto.
Qed.

Lemma guarded_noop s cat : guarded s = true → installed s cat → executes s cat cat.
Proof.
  destruct s as [[] t|table| |[] i|[] f| |]; try done; simpl; intros _ Hin.
  - by constructor.
  - destruct Hin as [[t Ht] Hin]. rewrite <- (add_rls_same table cat Hin) at 2.
    by econstructor.
  - by constructor.
  - destruct (put_function_same f cat Hin) as [Hf Hsame].
    rewrite <- Hsame at 2. by econstructor.
Qed.

Lemma installed_kept s s' cat cat' :
  guarded s = true → installed s cat → executes s' cat cat' →
  (∀ n, function_of s = Some n → function_of s' ≠ Some n) → installed s cat'.
Proof.
  intros Hg Hin Hex Hfn. pose proof (proj2 (exec_statement_executes _ _ _) Hex) as Hext.
  apply exec_statement_extends in Hext.
  destruct s as [[] t|table| |[] i|[] f| |]; try done; simpl in *.
  - by apply (ext_relations _ _ Hext).
  - destruct Hin as [[t Ht] Hin]. split; [|by apply (ext_rls _ _ Hext)].
    exists t. by apply (ext_tables _ _ Hext).
  - by apply (ext_relations _ _ Hext).
  - specialize (Hfn _ eq_refl). destruct Hin as [Hf Hall].
    destruct Hex; try done; simpl in *.
    + rewrite H. setoid_rewrite elem_of_app. setoid_rewrite list_elem_of_singleton.
      split; [tauto|]. intros g [Hgin| ->] Hn; [by apply Hall|congruence].
    + rewrite H. setoid_rewrite replaced_elem. split.
      * right. split; [done|]. congruence.
      * intros g [[-> _]|[Hgin _]] Hn; [congruence|by apply Hall].
Qed.

(** ** Running a script again *)

Lemma installed_kept_script s script cat cat' :
  guarded s = true → installed s cat →
  (∀ n, function_of s = Some n → n ∉ created_functions script) →
  run (exec_script script) cat = (Ok tt, cat') → installed s cat'.
Proof.
  intros Hg. revert cat. induction script as [|s' script IH]; intros cat Hin Hfn.
  - by intros [= <-].
  - intros (cat1 & Hex & Hrun)%exec_script_cons_Ok. apply (IH cat1); [|..|done].
    + eapply installed_kept; [done..|]. intros n Hn Hn'. apply (Hfn n Hn).
      unfold created_functions. simpl. rewrite Hn'. by left.
    + intros n Hn Hin'. apply (Hfn n Hn). unfold created_functions. simpl.
      destruct (function_of s'); [by right|done].
Qed.

Lemma script_installed script cat cat' :
  Forall (λ s, guarded s = true) script → NoDup (created_functions script) →
  run (exec_script script) cat = (Ok tt, cat') →
  Forall (λ s, installed s cat') script.
Proof.
  revert cat. induction script as [|s script IH]; intros cat; [by constructor|].
  intros [Hg Hgs]%Forall_cons Hnd (cat1 & Hex & Hrun)%exec_script_cons_Ok.
  unfold created_functions in Hnd. simpl in Hnd. constructor.
  - apply (installed_kept_script s script cat1); [done|by eapply executes_installed| |done].
    intros n Hn. rewrite Hn in Hnd. by apply NoDup_cons in Hnd as [? _].
  - apply (IH cat1); [done| |done].
    destruct (function_of s); [by apply NoDup_cons in Hnd as [_ ?]|done].
Qed.

Lemma installed_noop script cat :
  Forall (λ s, guarded s = true) script → Forall (λ s, installed s cat) script →
  run (exec_script script) cat = (Ok tt, cat).
Proof.
  induction script as [|s script IH]; [done|].
  intros [Hg Hgs]%Forall_cons [Hin Hins]%Forall_cons.
  apply exec_script_cons_Ok. exists cat. split; [by apply guarded_noop|by apply IH].
Qed.

(** A policy that has been created cannot be created again. *)
Lemma policy_again p cat cat1 cat2 :
  executes (CREATE_POLICY p) cat cat1 → extends cat1 cat2 →
  exec_statement (CREATE_POLICY p) cat2 = Err (duplicate_object (pd_name p) (pd_table p)).
Proof.
  intros Hex Hext. pose proof (executes_installed _ _ _ Hex) as Hin.
  apply (ext_policies _ _ Hext) in Hin.
  assert (extends cat cat2) as Hext'.
  { etrans; [|done]. apply (exec_statement_extends (CREATE_POLICY p)).
    by apply exec_statement_executes. }
  inversion Hex; subst. simpl.
  by rewrite (check_policy_extends _ _ Hext' p), decide_True.
Qed.

(** A trigger that is dropped, if it exists, and created, can be dropped and
    created again. *)
Lemma trigger_again g cat cat' :
  let script := [DROP_TRIGGER true (trg_name g) (trg_table g); CREATE_TRIGGER g] in
  run (exec_script script) cat = (Ok tt, cat') →
  run (exec_script script) cat' = (Ok tt, cat').
Proof.
  intros script (cat1 & Hdrop & Hrun)%exec_script_cons_Ok.
  apply exec_script_cons_Ok in Hrun as (cat2 & Hcreate & [= ->]).
  inversion Hcreate as [| | | | | | | | | |g' cat1' Hchk Hnew]; subst.
  apply exec_script_cons_Ok.
  exists cat1. split.
  - assert (filter (λ g', trigger_key g' ≠ (trg_table g, trg_name g))
              (cat_triggers cat1 ++ [g]) = cat_triggers cat1) as Hf.
    { rewrite filter_app, filter_cons_False, filter_nil, app_nil_r by naive_solver.
      apply list_filter_all, Forall_forall. intros g' Hin Hk. apply Hnew.
      change (trigger_key g) with (trg_table g, trg_name g). rewrite <- Hk. by apply list_elem_of_fmap_2. }
    replace cat1 with
      (with_triggers (filter (λ g', trigger_key g' ≠ (trg_table g, trg_name g)))
         (with_triggers (λ l, l ++ [g]) cat1)) at 2.
    + constructor. simpl. apply (list_elem_of_fmap_2 trigger_key _ g), elem_of_snoc.
    + destruct cat1. unfold with_triggers. simpl in *. by rewrite Hf.
  - apply exec_script_cons_Ok. eexists. split; [done|done].
Qed.

(** What a guarded statement that creates no function has installed stays
    installed while the catalogue grows. *)
Lemma installed_extends s cat cat' :
  guarded s = true → function_of s = None → installed s cat → extends cat cat' →
  installed s cat'.
Proof.
  intros Hg Hfn Hin Hext. destruct s as [[] t|table| |[] i|[] f| |]; try done; simpl in *.
  - by apply (ext_relations _ _ Hext).
  - destruct Hin as [[t Ht] Hin]. split; [|by apply (ext_rls _ _ Hext)].
    exists t. by apply (ext_tables _ _ Hext).
  - by apply (ext_relations _ _ Hext).
Qed.

(** Run again on a catalogue that has grown since, it does nothing. *)
Lemma guarded_again s cat cat1 cat' :
  executes s cat cat1 → extends cat1 cat' → guarded s = true → function_of s = None →
  exec_statement s cat' = Ok cat'.
Proof.
  intros Hex Hext Hg Hfn. apply exec_statement_executes, guarded_noop; [done|].
  eapply installed_extends; [done..| |done]. by eapply executes_installed.
Qed.

(** ** The migration *)

Lemma supabase_project_wf : cat_wf supabase_project.
Proof.
  split; simpl; [split_and!; repeat constructor|..]; try apply NoDup_nil_2;
    by apply NoDup_singleton.
Qed.

Lemma exec_script_wf script cat r cat' :
  cat_wf cat → run (exec_script script) cat = (r, cat') → cat_wf cat'.
Proof.
  revert cat. induction script as [|s script IH]; intros cat Hwf.
  - by intros [= _ <-].
  - rewrite exec_script_cons.
    destruct (exec_statement s cat) as [cat1|e] eqn:Hs; [|by intros [= _ <-]].
    apply IH. eapply executes_wf; [by apply exec_statement_executes|done].
Qed.

(** The statements that are guarded, and the two that replace the trigger. *)
Lemma without_policies_migration :
  without_policies migration =
  filter (λ s, guarded s = true) migration ++
  [DROP_TRIGGER true (trg_name on_auth_user_created) (trg_table on_auth_user_created);
   CREATE_TRIGGER on_auth_user_created].
Proof. reflexivity. Qed.




(** C30: the migration cannot be run twice.  Whatever the database it has
    run on to its end, a second run stops at the first CREATE POLICY with
    the error that the policy exists, having changed nothing: the guards of
    the two statements before it make them do nothing, and CREATE POLICY
    has no guard. *)
Theorem migration_runs_once cat cat' :
  run (exec_script migration) cat = (Ok tt, cat') →
  run (exec_script migration) cat' =
    (Err (duplicate_object "Users can view own profile" "profiles"), cat').
Proof.
  unfold migration. cbn [app].
  intros (c1 & H1 & Hrun)%exec_script_cons_Ok.
  apply exec_script_cons_Ok in Hrun as (c2 & H2 & Hrun).
  apply exec_script_cons_Ok in Hrun as (c3 & H3 & Hrun).
  apply exec_script_extends in Hrun.
  assert (extends c2 cat') as Hext2.
  { etrans; [|done]. by eapply exec_statement_extends, exec_statement_executes. }
  assert (extends c1 cat') as Hext1.
  { etrans; [|done]. by eapply exec_statement_extends, exec_statement_executes. }
  rewrite exec_script_cons, (guarded_again _ _ _ cat' H1 Hext1 eq_refl eq_refl).
  rewrite exec_script_cons, (guarded_again _ _ _ cat' H2 Hext2 eq_refl eq_refl).
  by rewrite exec_script_cons, (policy_again _ _ _ _ H3 Hrun).
Qed.

Lemma migration_runs_once_witness :
  run (exec_script migration) migrated =
    (Err (duplicate_object "Users can view own profile" "profiles"), migrated).
Proof. apply (migration_runs_once supabase_project). by vm_compute. Defined.

(** The policies are all that keeps the migration from being run again.
    Without its CREATE POLICY statements the script can be run on the
    database it has run on, and leaves it as it is. *)
Theorem migration_without_policies cat cat' :
  run (exec_script (without_policies migration)) cat = (Ok tt, cat') →
  run (exec_script (without_policies migration)) cat' = (Ok tt, cat').
Proof.
  rewrite without_policies_migration, !exec_script_app.
  set (G := filter (λ s, guarded s = true) migration).
  assert (Forall (λ s, guarded s = true) G) as HG
    by (apply Forall_forall; by intros s [? _]%list_elem_of_filter).
  destruct (run (exec_script G) cat) as [[[]|e] c1] eqn:Hrun; [|done].
  intros Hpair.
  assert (Forall (λ s, installed s cat') G) as Hin.
  { apply script_installed in Hrun; [|done|by apply NoDup_singleton].
    apply Forall_forall. intros s Hs.
    eapply (installed_kept_script s _ c1 cat'); [| | |exact Hpair];
      [| |intros n _; apply not_elem_of_nil].
    - by apply (proj1 (Forall_forall _ _) HG).
    - by apply (proj1 (Forall_forall _ _) Hrun). }
  rewrite (installed_noop G cat' HG Hin).
  by apply (trigger_again on_auth_user_created c1).
Qed.

Lemma migration_without_policies_witness :
  let left := (run (exec_script (without_policies migration)) supabase_project).2 in
  run (exec_script (without_policies migration)) left = (Ok tt, left).
Proof. apply (migration_without_policies supabase_project). by vm_compute. Defined.

(** No statement of a script changes a table that exists.  A table
    that an earlier version of the schema has left is therefore kept as it
    is by CREATE TABLE IF NOT EXISTS, whatever the script declares for its
    name. *)
Theorem tables_kept script cat name t :
  table_named name cat = Some t →
  table_named name (run (exec_script script) cat).2 = Some t.
Proof.
  intros Ht. destruct (run (exec_script script) cat) as [r cat'] eqn:Hrun.
  by apply (ext_tables _ _ (exec_script_extends _ _ _ _ Hrun)).
Qed.

(** On a project whose [profiles] has no column [email] the migration runs
    to its end and the table is as it was: the INSERT of [handle_new_user]
    names a column the table does not have, which PostgreSQL finds when the
    trigger runs, at the next registration. *)
Lemma tables_kept_witness :
  (run (exec_script migration) earlier_project).1 = Ok tt ∧
  table_named "profiles" (run (exec_script migration) earlier_project).2 =
    Some earlier_profiles ∧
  ¬ body_checked (run (exec_script migration) earlier_project).2 handle_new_user_def.
Proof.
  split_and!; [by vm_compute|by apply (tables_kept migration earlier_project)|].
  by vm_compute.
Defined.

(** What the script needs of the database and of its own order: outside a
    Supabase project its first statement fails, and [lessons] cannot be
    created before [courses]. *)
Example migration_needs :
  run (exec_script migration) empty_database =
    (Err (undefined_table "auth.users"), empty_database) ∧
  run (exec_script [CREATE_TABLE true lessons_def; CREATE_TABLE true courses_def])
    supabase_project = (Err (undefined_table "courses"), supabase_project).
Proof. by vm_compute. Qed.
