(* ===== verification/Client.v ===== *)
(** * Client: the world a page runs in

    A page of the client reaches the store through supabase-js
    (src/unnamed/part_001 creates the client).  A call never throws: it
    resolves to a response that carries either data or an error, and the
    page decides what to do with it.  This file models the world around a
    page (the store, the session, the network, the clocks, the console) and
    the calls the pages make, as computations of [prog].

    The network is a list of pending faults, one consumed by each request:
    the request can be lost before the store sees it, or the response can be
    lost after the store has applied the request.  The client sees a network
    error in both cases. *)

From stdpp Require Import base tactics option list strings pretty.
From S2P Require Import Prelude Schema Policy.

(** ** The world *)

Inductive fault := no_fault | request_lost | response_lost.

#[export] Instance fault_eq_dec : EqDecision fault.
Proof. solve_decision. Defined.

(** A [console.error] call: its message and the error object logged. *)
Record log_entry := mkLog {
  log_message : string;
  log_error : store_error;
}.

Record World := mkWorld {
  db : Database;
  session : option AuthUser.t;
  faults : list fault;
  client_clock : timestamptz;
  server_clock : timestamptz;
  entropy : nat → uuid;
  drawn : nat;
  console : list log_entry;
}.

Definition with_db (f : Database → Database) (w : World) : World :=
  mkWorld (f (db w)) (session w) (faults w) (client_clock w) (server_clock w)
    (entropy w) (drawn w) (console w).
Definition with_faults (f : list fault → list fault) (w : World) : World :=
  mkWorld (db w) (session w) (f (faults w)) (client_clock w) (server_clock w)
    (entropy w) (drawn w) (console w).
Definition with_drawn (f : nat → nat) (w : World) : World :=
  mkWorld (db w) (session w) (faults w) (client_clock w) (server_clock w)
    (entropy w) (f (drawn w)) (console w).
Definition with_console (f : list log_entry → list log_entry) (w : World) : World :=
  mkWorld (db w) (session w) (faults w) (client_clock w) (server_clock w)
    (entropy w) (drawn w) (f (console w)).

(** Time passes: both clocks advance. *)
Definition elapse (d : Z) (w : World) : World :=
  mkWorld (db w) (session w) (faults w) (client_clock w + d)%Z
    (server_clock w + d)%Z (entropy w) (drawn w) (console w).

(** [auth.uid()] of the requests this client sends. *)
Definition auth_uid (w : World) : caller := AuthUser.id <$> session w.

(** ** Responses *)

Record response (A : Type) := mkResponse {
  data : option A;
  error : option store_error;
}.
Arguments mkResponse {A}.
Arguments data {A}.
Arguments error {A}.

Definition respond {A} (r : result store_error A) : response A :=
  match r with
  | Ok a => mkResponse (Some a) None
  | Err e => mkResponse None (Some e)
  end.

(** ** Requests *)

(** The fault of the next request. *)
Definition next_fault : prog World store_error fault := λ w,
  match faults w with
  | [] => (Ok no_fault, w)
  | f :: fs => (Ok f, with_faults (λ _, fs) w)
  end.

(** A read of the store. *)
Definition store_read {A} (q : caller → Database → result store_error A) :
    prog World store_error (response A) :=
  f ← next_fault;
  w ← get;
  match f with
  | no_fault => mret (respond (q (auth_uid w) (db w)))
  | _ => mret (respond (Err network_error))
  end.

(** The store runs a request; the client gets its outcome, or a network
    error when the response is lost. *)
Definition served (server : prog World store_error unit) (lost : bool) :
    prog World store_error (response unit) := λ w,
  let '(r, w') := server w in
  (Ok (respond (if lost then Err network_error else r)), w').

(** A write to the store: when the request arrives, the store runs it,
    whether or not the response comes back. *)
Definition store_write (server : prog World store_error unit) :
    prog World store_error (response unit) :=
  f ← next_fault;
  match f with
  | request_lost => mret (respond (Err network_error))
  | no_fault => served server false
  | response_lost => served server true
  end.

(** The store applies a write request for the caller of the session. *)
Definition apply_write (req : write_request) : prog World store_error unit :=
  w ← get;
  match exec_write (auth_uid w) req (db w) with
  | Ok db' => put (with_db (λ _, db') w)
  | Err e => throw e
  end.

(** [gen_random_uuid()] *)
Definition gen_random_uuid : prog World store_error uuid := λ w,
  (Ok (entropy w (drawn w)), with_drawn S w).

(** [new Date()] in the client. *)
Definition Date_now : prog World store_error timestamptz := gets client_clock.

(** [console.error(message, err)] *)
Definition console_error (message : string) (err : store_error) :
    prog World store_error unit :=
  modify (with_console (λ c, c ++ [mkLog message err])).

(** ** The calls of the pages *)

(** [.maybeSingle()]: no row is null, one row is the row, more is an error. *)
Definition maybeSingle {A} (rows : list A) : result store_error (option A) :=
  match rows with
  | [] => Ok None
  | [x] => Ok (Some x)
  | _ => Err multiple_rows
  end.

Definition fetch_course (courseId : uuid) :
    prog World store_error (response (option Course.t)) :=
  store_read (λ c d, maybeSingle (select_course_by_id c courseId d)).

Definition fetch_lessons (courseId : uuid) :
    prog World store_error (response (list Lesson.t)) :=
  store_read (λ c d, Ok (select_lessons c courseId d)).

Definition fetch_progress (userId courseId : uuid) :
    prog World store_error (response (list UserProgress.t)) :=
  store_read (λ c d, Ok (select_user_progress c userId courseId d)).

Definition fetch_courses : prog World store_error (response (list Course.t)) :=
  store_read (λ c d, Ok (select_courses c d)).

(** [from('user_progress').insert({...})]: the store fills [id] and the
    timestamps with their defaults. *)
Definition insert_progress (n : NewProgress) : prog World store_error (response unit) :=
  store_write (id ← gen_random_uuid;
               now ← gets server_clock;
               apply_write (InsertProgress id now n)).

(** [from('user_progress').update({...}).eq('id', rowId)] *)
Definition update_progress (rowId : uuid) (p : ProgressPatch) :
    prog World store_error (response unit) :=
  store_write (apply_write (UpdateProgress rowId p)).

(** ** A component: its state hooks beside the world *)

Definition component (S A : Type) : Type := prog (S * World) store_error A.

Definition in_world {S A} (p : prog World store_error A) : component S A :=
  zoom snd (λ w sw, (sw.1, w)) p.

Definition get_state {S} : component S S := gets fst.

Definition set_state {S} (f : S → S) : component S unit :=
  modify (λ sw, (f sw.1, sw.2)).

(** [if (result.error) throw result.error] *)
Definition throw_if_error {S A} (r : response A) : component S unit :=
  match error r with Some e => throw e | None => mret tt end.

(** ** Running requests *)

(** No fault is pending: every request reaches the store and its response
    comes back. *)
Definition quiet (w : World) : Prop := faults w = [].

#[export] Instance quiet_dec w : Decision (quiet w).
Proof. unfold quiet. apply _. Defined.

(** The world on which the theorems of the pages are instantiated: the
    store [Sample.db] with Alice signed in, no fault pending, and identifiers
    p1, p2, ... to draw. *)
Definition sample_uuid (n : nat) : uuid :=
  String (Ascii.ascii_of_nat 112) (pretty (S n)).

Definition sample_world : World :=
  mkWorld Sample.db (Some Sample.alice) [] 1000%Z 2000%Z sample_uuid 0 [].

(** Unfolds the calls of a page down to the store's functions. *)
Ltac run_calls :=
  unfold fetch_course, fetch_lessons, fetch_progress, fetch_courses,
    insert_progress, update_progress, store_read, store_write, served,
    apply_write, gen_random_uuid, Date_now, console_error, throw_if_error,
    in_world, get_state, set_state, next_fault, auth_uid in *;
  unfold_prog; simpl in *.

Section Running.
Context {S : Type}.
Implicit Types (w : World) (s : S).

Lemma run_in_world {A} (p : prog World store_error A) s w :
  run (in_world p : component S A) (s, w) =
  let '(r, w') := run p w in (r, (s, w')).
Proof. done. Qed.

Lemma run_component_bind {A B} (p : component S A) (f : A → component S B) sw :
  run (p ≫= f) sw =
  match run p sw with
  | (Ok a, sw') => run (f a) sw'
  | (Err e, sw') => (Err e, sw')
  end.
Proof. done. Qed.

Lemma run_component_bind_Ok {A B} (p : component S A) (f : A → component S B)
    sw a sw' :
  run p sw = (Ok a, sw') → run (p ≫= f) sw = run (f a) sw'.
Proof. rewrite run_component_bind. by intros ->. Qed.

Lemma run_get_state s w : run (get_state : component S S) (s, w) = (Ok s, (s, w)).
Proof. done. Qed.

Lemma run_set_state (f : S → S) s w : run (set_state f) (s, w) = (Ok tt, (f s, w)).
Proof. done. Qed.

Lemma run_throw_if_error_None {A} (r : response A) (sw : S * World) :
  error r = None → run (throw_if_error r) sw = (Ok tt, sw).
Proof. unfold throw_if_error. by intros ->. Qed.

Lemma run_throw_if_error_Some {A} (r : response A) e (sw : S * World) :
  error r = Some e → run (throw_if_error r) sw = (Err e, sw).
Proof. unfold throw_if_error. by intros ->. Qed.

Lemma run_next_fault_quiet w : quiet w → run next_fault w = (Ok no_fault, w).
Proof. unfold quiet, run, next_fault. by intros ->. Qed.

Lemma run_store_read_quiet {A} (q : caller → Database → result store_error A) w :
  quiet w → run (store_read q) w = (Ok (respond (q (auth_uid w) (db w))), w).
Proof.
  intros Hq. unfold store_read. rewrite run_bind, run_next_fault_quiet by done.
  done.
Qed.

Lemma run_store_write_quiet server w :
  quiet w →
  run (store_write server) w =
  let '(r, w') := run server w in (Ok (respond r), w').
Proof.
  intros Hq. unfold store_write. rewrite run_bind, run_next_fault_quiet by done.
  done.
Qed.

(** A lost request changes nothing but the pending faults. *)
Lemma run_store_read_lost {A} (q : caller → Database → result store_error A)
    w f fs :
  faults w = f :: fs → f ≠ no_fault →
  run (store_read q) w =
  (Ok (respond (Err network_error)), with_faults (λ _, fs) w).
Proof.
  intros Hf Hne. unfold store_read, run, mbind, prog_bind, next_fault.
  rewrite Hf. by destruct f.
Qed.

Lemma run_store_write_request_lost server w fs :
  faults w = request_lost :: fs →
  run (store_write server) w =
  (Ok (respond (Err network_error)), with_faults (λ _, fs) w).
Proof.
  intros Hf. unfold store_write, run, mbind, prog_bind, next_fault.
  by rewrite Hf.
Qed.

Lemma run_apply_write_Ok req w db' :
  exec_write (auth_uid w) req (db w) = Ok db' →
  run (apply_write req) w = (Ok tt, with_db (λ _, db') w).
Proof. intros H. unfold apply_write, run, mbind, prog_bind, get. by rewrite H. Qed.

Lemma run_apply_write_Err req w e :
  exec_write (auth_uid w) req (db w) = Err e →
  run (apply_write req) w = (Err e, w).
Proof. intros H. unfold apply_write, run, mbind, prog_bind, get. by rewrite H. Qed.

End Running.

(** The fields a write of the store leaves alone. *)
Lemma quiet_with_db f w : quiet (with_db f w) ↔ quiet w.
Proof. done. Qed.

Lemma quiet_with_drawn f w : quiet (with_drawn f w) ↔ quiet w.
Proof. done. Qed.

#[export] Hint Rewrite @run_in_world @run_get_state @run_set_state : lp_run.
