(* ===== verification/CourseDetail.v ===== *)
(** * CourseDetail: the course page

    src/src/pages/CourseDetail.tsx.  The component keeps five state hooks
    ([State.t]); it loads the course, its lessons and the caller's progress
    rows ([loadCourseData]), derives the completion flags and the percentage
    from what it loaded ([isLessonCompleted], [isCourseCompleted],
    [calculateProgress]), and writes progress rows back
    ([toggleLessonCompletion], [markCourseCompleted]), reloading after every
    successful write.  What the component returns, its view and the buttons
    with their handlers, is in [Session].

    A handler reads the state of the render that created it: here, the state
    at the moment it is called.  It runs to its end without another handler
    in between. *)

From stdpp Require Import base tactics option list strings.
From S2P Require Import Prelude JsNumber Schema Policy Client.
Set Warnings "-clear-no-such-hyp".

(** ** State *)

Module State.
Record t := mk {
  course : option Course.t;
  lessons : list Lesson.t;
  progress : list UserProgress.t;
  loading : bool;
  error : string;
}.
End State.

(** The state of the first render. *)
Definition initial_state : State.t := State.mk None [] [] true "".

Definition setCourse (c : option Course.t) : component State.t unit :=
  set_state (λ s, State.mk c (State.lessons s) (State.progress s)
                    (State.loading s) (State.error s)).
Definition setLessons (l : list Lesson.t) : component State.t unit :=
  set_state (λ s, State.mk (State.course s) l (State.progress s)
                    (State.loading s) (State.error s)).
Definition setProgress (p : list UserProgress.t) : component State.t unit :=
  set_state (λ s, State.mk (State.course s) (State.lessons s) p
                    (State.loading s) (State.error s)).
Definition setLoading (b : bool) : component State.t unit :=
  set_state (λ s, State.mk (State.course s) (State.lessons s) (State.progress s)
                    b (State.error s)).
Definition setError (e : string) : component State.t unit :=
  set_state (λ s, State.mk (State.course s) (State.lessons s) (State.progress s)
                    (State.loading s) e).

(** ** Derived values *)

(** [p.lesson_id === x], for [x] a lesson id or null. *)
Definition for_target (target : option uuid) (p : UserProgress.t) : bool :=
  bool_decide (UserProgress.lesson_id p = target).

(** [p.lesson_id === lessonId] *)
Definition for_lesson (lessonId : uuid) : UserProgress.t → bool :=
  for_target (Some lessonId).

(** [p.lesson_id === null] *)
Definition for_course : UserProgress.t → bool := for_target None.

Definition isLessonCompleted (st : State.t) (lessonId : uuid) : bool :=
  existsb (λ p, for_lesson lessonId p && UserProgress.completed p)
    (State.progress st).

Definition isCourseCompleted (st : State.t) : bool :=
  existsb (λ p, for_course p && UserProgress.completed p) (State.progress st).

Definition completedLessons (st : State.t) : nat :=
  length (List.filter (λ lesson, isLessonCompleted st (Lesson.id lesson))
            (State.lessons st)).

Definition calculateProgress (st : State.t) : number :=
  if Nat.eqb (length (State.lessons st)) 0 then number_of_Z 0
  else percent_of (completedLessons st) (length (State.lessons st)).

(** The number the page shows, when it is an integer. *)
Definition progressPercentage (st : State.t) : option Z :=
  number_to_Z (calculateProgress st).

(** ** Loading *)

Definition loadCourseData (courseId : uuid) : component State.t unit :=
  finally
    (try_catch
       (courseResult ← in_world (fetch_course courseId);
        lessonsResult ← in_world (fetch_lessons courseId);
        user ← in_world (gets session);
        progressResult ←
          match user with
          | Some user => in_world (fetch_progress (AuthUser.id user) courseId)
          | None => mret (mkResponse (Some []) None)
          end;
        throw_if_error courseResult;;
        throw_if_error lessonsResult;;
        setCourse (default None (data courseResult));;
        setLessons (default [] (data lessonsResult));;
        setProgress (default [] (data progressResult)))
       (λ err,
        setError "Failed to load course details";;
        in_world (console_error "" err)))
    (setLoading false).

(** ** Writing *)

Definition toggleLessonCompletion (courseId lessonId : uuid) :
    component State.t unit :=
  user ← in_world (gets session);
  match user with
  | None => mret tt
  | Some user =>
      st ← get_state;
      let isCompleted := isLessonCompleted st lessonId in
      let existingProgress := find (for_lesson lessonId) (State.progress st) in
      try_catch
        (match existingProgress with
         | Some existingProgress =>
             now ← in_world Date_now;
             r ← in_world
                   (update_progress (UserProgress.id existingProgress)
                      (mkProgressPatch (negb isCompleted)
                         (if negb isCompleted then Some now else None) now));
             throw_if_error r
         | None =>
             now ← in_world Date_now;
             r ← in_world
                   (insert_progress
                      (mkNewProgress (AuthUser.id user) courseId (Some lessonId)
                         true (Some now)));
             throw_if_error r
         end;;
         loadCourseData courseId)
        (λ err, in_world (console_error "Failed to update lesson progress:" err))
  end.

Definition markCourseCompleted (courseId : uuid) : component State.t unit :=
  user ← in_world (gets session);
  match user with
  | None => mret tt
  | Some user =>
      st ← get_state;
      let courseProgress := find for_course (State.progress st) in
      try_catch
        (match courseProgress with
         | Some courseProgress =>
             now ← in_world Date_now;
             r ← in_world
                   (update_progress (UserProgress.id courseProgress)
                      (mkProgressPatch true (Some now) now));
             throw_if_error r
         | None =>
             now ← in_world Date_now;
             r ← in_world
                   (insert_progress
                      (mkNewProgress (AuthUser.id user) courseId None
                         true (Some now)));
             throw_if_error r
         end;;
         loadCourseData courseId)
        (λ err, in_world (console_error "Failed to mark course as completed:" err))
  end.

(** What a load that reaches the store puts in the state. *)
Definition loaded (courseId : uuid) (oc : option Course.t) (w : World)
    (st : State.t) : State.t :=
  State.mk oc (select_lessons (auth_uid w) courseId (db w))
    (match session w with
     | Some user =>
         select_user_progress (auth_uid w) (AuthUser.id user) courseId (db w)
     | None => []
     end)
    false (State.error st).

(** What a failed load leaves: the data of the last load, and the message. *)
Definition load_failed (st : State.t) : State.t :=
  State.mk (State.course st) (State.lessons st) (State.progress st) false
    "Failed to load course details".

(** ** The two write handlers as one

    [toggleLessonCompletion] and [markCourseCompleted] have one shape: find
    the page's first row for a lesson reference, update it or insert a
    completed row, reload; log what fails.  [write_progress] is that shape,
    and each handler is an instance of it. *)

(** The row a first write inserts. *)
Definition first_insert (user : AuthUser.t) (courseId : uuid)
    (target : option uuid) (now : timestamptz) : NewProgress :=
  mkNewProgress (AuthUser.id user) courseId target true (Some now).

Definition lesson_insert (user : AuthUser.t) (courseId lessonId : uuid)
    (now : timestamptz) : NewProgress :=
  first_insert user courseId (Some lessonId) now.

(** The columns a toggle sets on an existing row. *)
Definition toggle_patch (isCompleted : bool) (now : timestamptz) : ProgressPatch :=
  mkProgressPatch (negb isCompleted) (if negb isCompleted then Some now else None) now.

(** The columns marking the course complete sets on an existing row. *)
Definition complete_patch (now : timestamptz) : ProgressPatch :=
  mkProgressPatch true (Some now) now.

Definition write_progress (courseId : uuid) (target : option uuid)
    (patch : State.t → timestamptz → ProgressPatch) (message : string) :
    component State.t unit :=
  user ← in_world (gets session);
  match user with
  | None => mret tt
  | Some user =>
      st ← get_state;
      try_catch
        (match find (for_target target) (State.progress st) with
         | Some existing =>
             now ← in_world Date_now;
             r ← in_world (update_progress (UserProgress.id existing) (patch st now));
             throw_if_error r
         | None =>
             now ← in_world Date_now;
             r ← in_world (insert_progress (first_insert user courseId target now));
             throw_if_error r
         end;;
         loadCourseData courseId)
        (λ err, in_world (console_error message err))
  end.

(** Unfolds a handler down to the store's functions. *)
Ltac run_handler :=
  unfold setCourse, setLessons, setProgress, setLoading, setError in *; run_calls.

(** ** The derived values *)

Section Derived.
Implicit Types (st : State.t) (p : UserProgress.t) (l lessonId : uuid).

Lemma for_lesson_true lessonId p :
  for_lesson lessonId p = true ↔ UserProgress.lesson_id p = Some lessonId.
Proof. unfold for_lesson, for_target. by rewrite bool_decide_eq_true. Qed.

Lemma for_course_true p :
  for_course p = true ↔ UserProgress.lesson_id p = None.
Proof. unfold for_course, for_target. by rewrite bool_decide_eq_true. Qed.

(** A lesson is completed when some row of the page names it and is
    completed. *)
Lemma isLessonCompleted_true st lessonId :
  isLessonCompleted st lessonId = true ↔
  ∃ p, p ∈ State.progress st ∧ UserProgress.lesson_id p = Some lessonId ∧
       UserProgress.completed p = true.
Proof.
  unfold isLessonCompleted. rewrite existsb_exists.
  setoid_rewrite andb_true_iff. setoid_rewrite for_lesson_true.
  setoid_rewrite list_elem_of_In. naive_solver.
Qed.

(** The course is completed when some row with no lesson is completed. *)
Lemma isCourseCompleted_true st :
  isCourseCompleted st = true ↔
  ∃ p, p ∈ State.progress st ∧ UserProgress.lesson_id p = None ∧
       UserProgress.completed p = true.
Proof.
  unfold isCourseCompleted. rewrite existsb_exists.
  setoid_rewrite andb_true_iff. setoid_rewrite for_course_true.
  setoid_rewrite list_elem_of_In. naive_solver.
Qed.

Lemma completedLessons_le st : completedLessons st ≤ length (State.lessons st).
Proof. apply filter_length_le. Qed.

(** A course with no lesson shows 0. *)
Lemma calculateProgress_no_lessons st :
  State.lessons st = [] → progressPercentage st = Some 0%Z.
Proof. unfold progressPercentage, calculateProgress. by intros ->. Qed.

(** Up to [max_lessons] lessons, the page shows the exact rounding of
    [100 * completed / total], one less on a lost tie. *)
Lemma calculateProgress_shown st :
  0 < length (State.lessons st) ≤ max_lessons →
  progressPercentage st =
    Some (shown_percent (completedLessons st) (length (State.lessons st))).
Proof.
  intros Hn. unfold progressPercentage, calculateProgress.
  destruct (Nat.eqb_spec (length (State.lessons st)) 0); [lia|].
  apply percent_of_shown; [done|apply completedLessons_le].
Qed.

(** C5: for a course of 1 to 39 lessons the page shows the percentage the
    specification asks for: [100 * completed / total] on exact rationals,
    rounded to the nearest integer, a tie going up. *)
Theorem calculateProgress_exact st :
  0 < length (State.lessons st) < 40 →
  progressPercentage st =
    Some (exact_percent (completedLessons st) (length (State.lessons st))).
Proof.
  intros Hn. rewrite calculateProgress_shown by (unfold max_lessons; lia).
  unfold shown_percent. rewrite no_lost_tie_below_40 by lia. f_equal. lia.
Qed.

(** C24: for a course of at most [max_lessons] lessons, none included, the
    page shows an integer between 0 and 100: the percentage never leaves
    the range of the progress bar, and a course without lessons shows 0
    where the quotient would be NaN. *)
Theorem calculateProgress_range st :
  length (State.lessons st) ≤ max_lessons →
  ∃ z, progressPercentage st = Some z ∧ (0 ≤ z ≤ 100)%Z.
Proof.
  intros Hn. destruct (State.lessons st) as [|x l] eqn:Hl.
  - exists 0%Z. split; [by apply calculateProgress_no_lessons|lia].
  - rewrite <- Hl in *. assert (0 < length (State.lessons st)) by (rewrite Hl; simpl; lia).
    eexists. split; [by apply calculateProgress_shown|].
    apply shown_percent_range; [done|apply completedLessons_le].
Qed.

(** With the lessons fixed, completing more lessons never lowers the
    percentage shown. *)
Theorem calculateProgress_mono st st' z z' :
  State.lessons st' = State.lessons st →
  length (State.lessons st) ≤ max_lessons →
  (∀ l, isLessonCompleted st l = true → isLessonCompleted st' l = true) →
  progressPercentage st = Some z → progressPercentage st' = Some z' →
  (z ≤ z')%Z.
Proof.
  intros Hl Hn Hsub. destruct (State.lessons st) as [|x l] eqn:Hls.
  - rewrite !calculateProgress_no_lessons by congruence. naive_solver.
  - rewrite <- Hls in *.
    assert (0 < length (State.lessons st)) by (rewrite Hls; simpl; lia).
    rewrite !calculateProgress_shown by (rewrite ?Hl; done).
    intros [= <-] [= <-]. rewrite Hl. apply shown_percent_mono; [done|].
    split; [|rewrite <- Hl; apply completedLessons_le].
    unfold completedLessons. rewrite Hl. apply filter_length_mono. auto.
Qed.

(** For a course of fewer than [max_lessons] lessons, the page shows
    100 exactly when every lesson is completed. *)
Theorem calculateProgress_100 st :
  0 < length (State.lessons st) < max_lessons →
  progressPercentage st = Some 100%Z ↔
  ∀ lesson, lesson ∈ State.lessons st →
            isLessonCompleted st (Lesson.id lesson) = true.
Proof.
  intros Hn. rewrite calculateProgress_shown by lia.
  setoid_rewrite list_elem_of_In.
  rewrite <- (filter_length_all (λ lesson, isLessonCompleted st (Lesson.id lesson))).
  fold (completedLessons st). split.
  - intros [= H]. apply shown_percent_100 in H; [done|lia|].
    apply completedLessons_le.
  - intros ->. f_equal. unfold shown_percent.
    assert (is_lost_tie (length (State.lessons st)) (length (State.lessons st))
            = false) as ->.
    { apply not_true_is_false. intros Ht%lost_tie_is_tie.
      rewrite exact_percent_all in Ht by lia. lia. }
    rewrite exact_percent_all by lia. done.
Qed.

(** The derived values do not depend on the order in which the store
    returned the progress rows. *)
Lemma derived_Permutation st st' :
  State.lessons st' = State.lessons st →
  Permutation (State.progress st) (State.progress st') →
  (∀ l, isLessonCompleted st' l = isLessonCompleted st l) ∧
  isCourseCompleted st' = isCourseCompleted st ∧
  calculateProgress st' = calculateProgress st.
Proof.
  intros Hl Hp.
  assert (Hflags : ∀ l, isLessonCompleted st' l = isLessonCompleted st l)
    by (intros l; symmetry; by apply existsb_Permutation).
  split; [done|]. split; [symmetry; by apply existsb_Permutation|].
  unfold calculateProgress, completedLessons. rewrite Hl.
  by rewrite (filter_ext _ _ (λ lesson, Hflags (Lesson.id lesson))).
Qed.

End Derived.

(** ** Loading, branch by branch *)

(** A load never throws: what fails inside is caught and logged. *)
Lemma loadCourseData_returns courseId sw :
  (run (loadCourseData courseId) sw).1 = Ok tt.
Proof.
  unfold loadCourseData, run, finally, try_catch.
  match goal with |- context [match ?p sw with _ => _ end] =>
    destruct (p sw) as [[[]|e] [s w]] end; done.
Qed.

Section Load.
Context (courseId : uuid) (st : State.t) (w : World).

(** With no fault pending, the page holds what the store holds. *)
Lemma loadCourseData_quiet oc :
  quiet w →
  maybeSingle (select_course_by_id (auth_uid w) courseId (db w)) = Ok oc →
  run (loadCourseData courseId) (st, w) = (Ok tt, (loaded courseId oc w st, w)).
Proof.
  intros Hq Hc. destruct w as [d s f cc sc en dr co]. unfold quiet in Hq.
  simpl in *. subst f. unfold loadCourseData. run_handler.
  rewrite Hc. by destruct s.
Qed.

(** When the course request fails, the load ends normally: the page
    keeps the data of the last load, shows the message, stops loading and
    logs the error; the store is untouched. *)
Theorem loadCourseData_course_failed f fs :
  faults w = f :: fs → f ≠ no_fault →
  ∃ w', run (loadCourseData courseId) (st, w) = (Ok tt, (load_failed st, w')) ∧
        db w' = db w ∧
        console w' = console w ++ [mkLog "" network_error].
Proof.
  intros Hf Hne. destruct w as [d s f' cc sc en dr co]. simpl in *. subst f'.
  unfold loadCourseData. run_handler.
  destruct f; [done|..]; destruct s, fs as [|[] [|[] ?]]; simpl; eauto.
Qed.

(** C34: when only the progress request fails, the error is never looked
    at: the page shows the course and its lessons with an empty progress
    list, no message, and logs nothing. *)
Theorem loadCourseData_progress_failed user oc f fs :
  session w = Some user → faults w = no_fault :: no_fault :: f :: fs →
  f ≠ no_fault →
  maybeSingle (select_course_by_id (auth_uid w) courseId (db w)) = Ok oc →
  run (loadCourseData courseId) (st, w) =
  (Ok tt,
   (State.mk oc (select_lessons (auth_uid w) courseId (db w)) [] false
      (State.error st),
    with_faults (λ _, fs) w)).
Proof.
  intros Hs Hf Hne Hc. destruct w as [d s f' cc sc en dr co]. simpl in *.
  subst s f'. unfold loadCourseData. run_handler. rewrite Hc. by destruct f.
Qed.

End Load.

(** ** Writing, branch by branch *)

Lemma toggleLessonCompletion_as_write courseId lessonId :
  toggleLessonCompletion courseId lessonId =
  write_progress courseId (Some lessonId)
    (λ st now, toggle_patch (isLessonCompleted st lessonId) now)
    "Failed to update lesson progress:".
Proof. reflexivity. Qed.

Lemma markCourseCompleted_as_write courseId :
  markCourseCompleted courseId =
  write_progress courseId None (λ _ now, complete_patch now)
    "Failed to mark course as completed:".
Proof. reflexivity. Qed.

(** Replaces a load in the goal by its outcome, which is never a throw. *)
Ltac load_returns :=
  match goal with
  | |- context [loadCourseData ?c ?sw] =>
      let Hret := fresh in
      pose proof (loadCourseData_returns c sw) as Hret; unfold run in Hret;
      by destruct (loadCourseData c sw) as [[[]|] ?]
  end.

Section WriteRun.
Context (courseId : uuid) (target : option uuid).
Context (patch : State.t → timestamptz → ProgressPatch) (message : string).
Context (st : State.t) (w : World).
#[local] Abbreviation handler := (write_progress courseId target patch message).

(** Without a session the handler returns at once. *)
Lemma write_progress_no_session :
  session w = None → run handler (st, w) = (Ok tt, (st, w)).
Proof.
  intros Hs. destruct w as [d s f cc sc en dr co]. simpl in *. by subst s.
Qed.

(** No row for the reference on the page: a row is inserted, then the page
    reloads. *)
Lemma write_progress_insert user db' :
  session w = Some user → quiet w →
  find (for_target target) (State.progress st) = None →
  api_insert_user_progress (auth_uid w) (entropy w (drawn w)) (server_clock w)
    (first_insert user courseId target (client_clock w)) (db w) = Ok db' →
  run handler (st, w) =
  run (loadCourseData courseId) (st, with_db (λ _, db') (with_drawn S w)).
Proof.
  intros Hs Hq Hfind Hins. destruct w as [d s f cc sc en dr co].
  unfold quiet in *. simpl in *. subst s f.
  unfold write_progress. run_handler. rewrite Hfind. simpl.
  rewrite Hins. simpl. load_returns.
Qed.

(** A row for the reference on the page: the first one is updated, then
    the page reloads. *)
Lemma write_progress_update user existing db' :
  session w = Some user → quiet w →
  find (for_target target) (State.progress st) = Some existing →
  api_update_user_progress (auth_uid w) (UserProgress.id existing)
    (patch st (client_clock w)) (db w) = Ok db' →
  run handler (st, w) = run (loadCourseData courseId) (st, with_db (λ _, db') w).
Proof.
  intros Hs Hq Hfind Hupd. destruct w as [d s f cc sc en dr co].
  unfold quiet in *. simpl in *. subst s f.
  unfold write_progress. run_handler. rewrite Hfind. simpl.
  rewrite Hupd. simpl. load_returns.
Qed.

(** A rejected insert: the error is logged, the page and the store are as
    they were. *)
Lemma write_progress_insert_rejected user e :
  session w = Some user → quiet w →
  find (for_target target) (State.progress st) = None →
  api_insert_user_progress (auth_uid w) (entropy w (drawn w)) (server_clock w)
    (first_insert user courseId target (client_clock w)) (db w) = Err e →
  run handler (st, w) =
  (Ok tt, (st, with_console (λ c, c ++ [mkLog message e]) (with_drawn S w))).
Proof.
  intros Hs Hq Hfind Hins. destruct w as [d s f cc sc en dr co].
  unfold quiet in *. simpl in *. subst s f.
  unfold write_progress. run_handler. rewrite Hfind. simpl. by rewrite Hins.
Qed.

(** A rejected update: the same. *)
Lemma write_progress_update_rejected user existing e :
  session w = Some user → quiet w →
  find (for_target target) (State.progress st) = Some existing →
  api_update_user_progress (auth_uid w) (UserProgress.id existing)
    (patch st (client_clock w)) (db w) = Err e →
  run handler (st, w) =
  (Ok tt, (st, with_console (λ c, c ++ [mkLog message e]) w)).
Proof.
  intros Hs Hq Hfind Hupd. destruct w as [d s f cc sc en dr co].
  unfold quiet in *. simpl in *. subst s f.
  unfold write_progress. run_handler. rewrite Hfind. simpl. by rewrite Hupd.
Qed.

(** A request that never arrives: a network error is logged, the page and
    the store are as they were. *)
Lemma write_progress_request_lost user fs :
  session w = Some user → faults w = request_lost :: fs →
  run handler (st, w) =
  (Ok tt, (st, with_console (λ c, c ++ [mkLog message network_error])
                 (with_faults (λ _, fs) w))).
Proof.
  intros Hs Hf. destruct w as [d s f cc sc en dr co]. simpl in *. subst s f.
  unfold write_progress. run_handler. by destruct (find _ _).
Qed.

End WriteRun.

(** ** The write handlers when nothing reaches the store *)

(** Without a session neither handler does anything: no request is
    sent, the page and the world are as they were. *)
Theorem write_handlers_no_session courseId lessonId st w :
  session w = None →
  run (toggleLessonCompletion courseId lessonId) (st, w) = (Ok tt, (st, w)) ∧
  run (markCourseCompleted courseId) (st, w) = (Ok tt, (st, w)).
Proof.
  intros Hs. rewrite toggleLessonCompletion_as_write, markCourseCompleted_as_write.
  split; by apply write_progress_no_session.
Qed.

(** When the write request is lost, each handler ends normally, logs a
    network error under its own message and leaves the page as it was: it
    does not reload, and it shows no message. *)
Theorem write_handlers_request_lost courseId lessonId st w user fs :
  session w = Some user → faults w = request_lost :: fs →
  run (toggleLessonCompletion courseId lessonId) (st, w) =
    (Ok tt, (st, with_console
                   (λ c, c ++ [mkLog "Failed to update lesson progress:" network_error])
                   (with_faults (λ _, fs) w))) ∧
  run (markCourseCompleted courseId) (st, w) =
    (Ok tt, (st, with_console
                   (λ c, c ++ [mkLog "Failed to mark course as completed:" network_error])
                   (with_faults (λ _, fs) w))).
Proof.
  intros Hs Hf. rewrite toggleLessonCompletion_as_write, markCourseCompleted_as_write.
  split; by eapply write_progress_request_lost.
Qed.

(** ** The theorems on the sample world *)

(** The page of the first course as Alice first loads it, and the same page
    once she has completed the first of its two lessons. *)
Definition sample_page : State.t :=
  loaded "c1" (Some Sample.c1) sample_world initial_state.

Definition half_page : State.t :=
  State.mk (Some Sample.c1) [Sample.l1; Sample.l2]
    [UserProgress.mk "p1" "alice" "c1" (Some "l1") true (Some 1000%Z)
       2000%Z 2000%Z]
    false "".

Lemma calculateProgress_exact_witness :
  progressPercentage half_page =
    Some (exact_percent (completedLessons half_page)
            (length (State.lessons half_page))).
Proof. apply (calculateProgress_exact half_page). simpl. lia. Defined.

Lemma calculateProgress_range_witness :
  ∃ z, progressPercentage half_page = Some z ∧ (0 ≤ z ≤ 100)%Z.
Proof. apply (calculateProgress_range half_page). unfold max_lessons. simpl. lia. Defined.

Lemma calculateProgress_mono_witness :
  progressPercentage sample_page = Some 0%Z ∧
  progressPercentage half_page = Some 50%Z ∧ (0 ≤ 50)%Z.
Proof.
  split; [by vm_compute|]. split; [by vm_compute|].
  apply (calculateProgress_mono sample_page half_page 0 50);
    [done|unfold max_lessons; simpl; lia|done|by vm_compute..].
Defined.

Lemma calculateProgress_100_witness :
  progressPercentage half_page = Some 100%Z ↔
  ∀ lesson, lesson ∈ State.lessons half_page →
            isLessonCompleted half_page (Lesson.id lesson) = true.
Proof. apply (calculateProgress_100 half_page). unfold max_lessons. simpl. lia. Defined.

Lemma loadCourseData_course_failed_witness :
  ∃ w', run (loadCourseData "c1")
          (half_page, with_faults (λ _, [request_lost]) sample_world) =
        (Ok tt, (load_failed half_page, w')) ∧
        db w' = Sample.db ∧ console w' = [mkLog "" network_error].
Proof.
  by apply (loadCourseData_course_failed "c1" half_page
              (with_faults (λ _, [request_lost]) sample_world) request_lost []).
Defined.

Lemma loadCourseData_progress_failed_witness :
  run (loadCourseData "c1")
    (half_page,
     with_faults (λ _, [no_fault; no_fault; response_lost]) sample_world) =
  (Ok tt,
   (State.mk (Some Sample.c1) [Sample.l1; Sample.l2] [] false "", sample_world)).
Proof.
  by apply (loadCourseData_progress_failed "c1" half_page
              (with_faults (λ _, [no_fault; no_fault; response_lost]) sample_world)
              Sample.alice (Some Sample.c1) response_lost []).
Defined.

(** The sample world with nobody signed in. *)
Definition signed_out_world : World :=
  mkWorld Sample.db None [] 1000%Z 2000%Z sample_uuid 0 [].

Lemma write_handlers_no_session_witness :
  run (toggleLessonCompletion "c1" "l1") (sample_page, signed_out_world) =
    (Ok tt, (sample_page, signed_out_world)) ∧
  run (markCourseCompleted "c1") (sample_page, signed_out_world) =
    (Ok tt, (sample_page, signed_out_world)).
Proof. by apply (write_handlers_no_session "c1" "l1" sample_page signed_out_world). Defined.

Lemma write_handlers_request_lost_witness :
  run (toggleLessonCompletion "c1" "l1")
    (sample_page, with_faults (λ _, [request_lost]) sample_world) =
    (Ok tt, (sample_page,
             with_console
               (λ c, c ++ [mkLog "Failed to update lesson progress:" network_error])
               sample_world)) ∧
  run (markCourseCompleted "c1")
    (sample_page, with_faults (λ _, [request_lost]) sample_world) =
    (Ok tt, (sample_page,
             with_console
               (λ c, c ++ [mkLog "Failed to mark course as completed:" network_error])
               sample_world)).
Proof.
  by apply (write_handlers_request_lost "c1" "l1" sample_page
              (with_faults (λ _, [request_lost]) sample_world) Sample.alice []).
Defined.
