(* ===== verification/Completion.v ===== *)
(** * Completion: the page and the store in step

    The write handlers of src/src/pages/CourseDetail.tsx on a page that holds
    what the store holds: the invariant of the page between two handlers
    ([page_ok]), what a write leaves ([write_post]), and from these the
    behaviour of [toggleLessonCompletion] and [markCourseCompleted] on every
    flag, on the count of completed lessons and on the timestamps. *)

From stdpp Require Import base tactics option list strings.
From S2P Require Import Prelude JsNumber Schema Policy Client CourseDetail.
Set Warnings "-clear-no-such-hyp".

(** ** The page's rows and its invariant *)

(** Both completion flags are one test on the rows: some row with this
    lesson reference ([None] for the course) is completed. *)
Definition completed_for (target : option uuid) (ps : list UserProgress.t) : bool :=
  existsb (λ p, for_target target p && UserProgress.completed p) ps.

(** The rows after the row [existing] has been patched. *)
Definition patched (ps : list UserProgress.t) (existing : UserProgress.t)
    (p : ProgressPatch) : list UserProgress.t :=
  (λ r, if decide (UserProgress.id r = UserProgress.id existing)
        then apply_patch p r else r) <$> ps.

(** The page holds what the store holds for its session. *)
Definition synced (courseId : uuid) (st : State.t) (w : World) : Prop :=
  ∃ user, session w = Some user ∧
    State.course st = head (select_course_by_id (auth_uid w) courseId (db w)) ∧
    State.lessons st = select_lessons (auth_uid w) courseId (db w) ∧
    State.progress st =
      select_user_progress (auth_uid w) (AuthUser.id user) courseId (db w).

(** At most one row per lesson, and at most one for the course. *)
Definition one_row_per_lesson (st : State.t) : Prop :=
  NoDup (UserProgress.lesson_id <$> State.progress st).

(** The world in which a handler runs undisturbed: no fault pending, a
    consistent store, and a session whose identity exists. *)
Definition ready (w : World) : Prop :=
  quiet w ∧ db_wf (db w) ∧
  ∀ user, session w = Some user → AuthUser.id user ∈ auth_user_ids (db w).

(** The invariant of the page between two handlers. *)
Definition page_ok (courseId : uuid) (st : State.t) (w : World) : Prop :=
  ready w ∧ synced courseId st w ∧ one_row_per_lesson st.

(** The row the page holds for a reference after a write: the patched row,
    or the row inserted. *)
Definition written_row (courseId : uuid) (target : option uuid)
    (patch : State.t → timestamptz → ProgressPatch) (st : State.t) (w : World)
    (user : AuthUser.t) : UserProgress.t :=
  match find (for_target target) (State.progress st) with
  | Some existing => apply_patch (patch st (client_clock w)) existing
  | None =>
      progress_row (entropy w (drawn w)) (server_clock w)
        (first_insert user courseId target (client_clock w))
  end.

(** The identifiers the store will draw are new to it, and distinct. *)
Definition fresh_source (w : World) : Prop :=
  ∀ n, drawn w ≤ n →
       (entropy w n ∉ progress_ids (db w)) ∧
       ∀ m, drawn w ≤ m → entropy w n = entropy w m → n = m.

(** What a write leaves of the world around the progress rows. *)
Definition world_kept (w w' : World) : Prop :=
  session w' = session w ∧ client_clock w' = client_clock w ∧
  console w' = console w ∧ courses (db w') = courses (db w) ∧
  (fresh_source w → fresh_source w').

(** The world after the store has inserted a row, and after it has patched
    the row of an id. *)
Definition inserted_world (w : World) (row : UserProgress.t) : World :=
  with_db (with_user_progress (λ t, t ++ [row])) (with_drawn S w).

Definition updated_world (w : World) (rowId : uuid) (p : ProgressPatch) : World :=
  with_db (update_user_progress (λ r, UserProgress.id r = rowId) p) w.

(** The world after a write of the page. *)
Definition written_world (courseId : uuid) (target : option uuid)
    (patch : State.t → timestamptz → ProgressPatch) (st : State.t) (w : World)
    (user : AuthUser.t) : World :=
  match find (for_target target) (State.progress st) with
  | Some existing =>
      updated_world w (UserProgress.id existing) (patch st (client_clock w))
  | None =>
      inserted_world w
        (progress_row (entropy w (drawn w)) (server_clock w)
           (first_insert user courseId target (client_clock w)))
  end.

(** What a write of the row [r'] leaves: the page holds [r'] for the
    reference and the rows of the other references as they were, the lessons
    are the same, and the page is in step with the store again. *)
Definition write_post (courseId : uuid) (target : option uuid)
    (st st' : State.t) (w w' : World) (r' : UserProgress.t) : Prop :=
  find (for_target target) (State.progress st') = Some r' ∧
  (∀ r, r ∈ State.progress st' ↔
        r = r' ∨ (r ∈ State.progress st ∧ UserProgress.lesson_id r ≠ target)) ∧
  State.lessons st' = State.lessons st ∧ page_ok courseId st' w' ∧
  world_kept w w' ∧
  State.error st' = State.error st ∧ State.loading st' = false.

#[export] Instance one_row_per_lesson_dec st : Decision (one_row_per_lesson st).
Proof. unfold one_row_per_lesson. apply _. Defined.

(** ** Rows before and after a write *)

Section Rows.
Context (ps : list UserProgress.t).
Implicit Types (f : UserProgress.t → bool) (r : UserProgress.t).

Lemma find_for_target_None target :
  find (for_target target) ps = None ↔ target ∉ UserProgress.lesson_id <$> ps.
Proof.
  rewrite find_none_iff, list_elem_of_fmap. setoid_rewrite <- list_elem_of_In.
  unfold for_target. setoid_rewrite bool_decide_eq_false. naive_solver.
Qed.

Lemma for_target_true target r :
  for_target target r = true ↔ UserProgress.lesson_id r = target.
Proof. unfold for_target. by rewrite bool_decide_eq_true. Qed.

Lemma find_elem_of f r : find f ps = Some r → r ∈ ps ∧ f r = true.
Proof. intros [??]%find_some. by rewrite list_elem_of_In. Qed.

Lemma completed_for_app target qs :
  completed_for target (ps ++ qs) =
  completed_for target ps || completed_for target qs.
Proof. apply existsb_app. Qed.

Lemma completed_for_absent target :
  target ∉ UserProgress.lesson_id <$> ps → completed_for target ps = false.
Proof.
  intros Hn. apply existsb_false_iff. intros r Hr%list_elem_of_In.
  unfold for_target. rewrite bool_decide_eq_false_2; [done|]. intros <-.
  by apply Hn, list_elem_of_fmap_2.
Qed.

Context (existing : UserProgress.t) (p : ProgressPatch).
Context (Hids : NoDup (UserProgress.id <$> ps)) (Hex : existing ∈ ps).

Lemma elem_of_patched r :
  r ∈ patched ps existing p ↔
  r = apply_patch p existing ∨ (r ∈ ps ∧ r ≠ existing).
Proof using Hids Hex.
  unfold patched. rewrite list_elem_of_fmap. split.
  - intros (r0 & -> & Hr0). case_decide as Hid.
    + left. f_equal. by eapply (NoDup_fmap_key_inj UserProgress.id).
    + right. split; [done|]. by intros ->.
  - intros [->|[Hr Hne]].
    + exists existing. by rewrite decide_True.
    + exists r. split; [|done]. rewrite decide_False; [done|].
      intros Hid. apply Hne. by eapply (NoDup_fmap_key_inj UserProgress.id).
Qed.

Lemma patched_lesson_ids :
  UserProgress.lesson_id <$> patched ps existing p =
  UserProgress.lesson_id <$> ps.
Proof using Type.
  unfold patched. rewrite <- list_fmap_compose. apply list_fmap_ext.
  intros ? r ?. simpl. by case_decide.
Qed.

Lemma patched_ids :
  UserProgress.id <$> patched ps existing p = UserProgress.id <$> ps.
Proof using Type.
  unfold patched. rewrite <- list_fmap_compose. apply list_fmap_ext.
  intros ? r ?. simpl. by case_decide.
Qed.

(** The flag of another lesson reference is what it was. *)
Lemma completed_for_patched_other target :
  UserProgress.lesson_id existing ≠ target →
  completed_for target (patched ps existing p) = completed_for target ps.
Proof using Hids Hex.
  intros Hne. apply eq_true_iff_eq. unfold completed_for.
  rewrite !existsb_exists. setoid_rewrite <- list_elem_of_In.
  setoid_rewrite elem_of_patched. setoid_rewrite andb_true_iff.
  setoid_rewrite for_target_true. split; intros (r & Hr & Ht & Hc).
  - destruct Hr as [->|[??]]; [done|eauto].
  - exists r. split_and!; [|done..]. right. split; [done|]. by intros ->.
Qed.

(** With one row per lesson reference, the flag of the patched row's
    reference is the patch's [completed]. *)
Lemma completed_for_patched :
  NoDup (UserProgress.lesson_id <$> ps) →
  completed_for (UserProgress.lesson_id existing) (patched ps existing p) =
  patch_completed p.
Proof using Hids Hex.
  intros Hone. apply eq_true_iff_eq. unfold completed_for.
  rewrite existsb_exists. setoid_rewrite <- list_elem_of_In.
  setoid_rewrite elem_of_patched. setoid_rewrite andb_true_iff.
  setoid_rewrite for_target_true. split.
  - intros (r & [->|[Hr Hne]] & Ht & Hc); [done|]. destruct Hne.
    by eapply (NoDup_fmap_key_inj UserProgress.lesson_id).
  - intros Hc. exists (apply_patch p existing). eauto.
Qed.

Lemma find_patched :
  NoDup (UserProgress.lesson_id <$> ps) →
  find (for_target (UserProgress.lesson_id existing)) (patched ps existing p) =
  Some (apply_patch p existing).
Proof using Hids Hex.
  intros Hone. apply find_unique.
  - apply list_elem_of_In, elem_of_patched. by left.
  - by apply for_target_true.
  - intros r [->|[Hr Hne]]%list_elem_of_In%elem_of_patched Ht%for_target_true;
      [done|]. destruct Hne.
    by eapply (NoDup_fmap_key_inj UserProgress.lesson_id).
Qed.

End Rows.

(** ** The world after a write *)

Lemma auth_uid_session w user :
  session w = Some user → auth_uid w = Some (AuthUser.id user).
Proof. unfold auth_uid. by intros ->. Qed.

Lemma ready_with_drawn f w : ready (with_drawn f w) ↔ ready w.
Proof. done. Qed.

(** A write that the store accepts leaves the world ready. *)
Lemma ready_after_write req w db' :
  ready w → exec_write (auth_uid w) req (db w) = Ok db' →
  ready (with_db (λ _, db') w).
Proof.
  intros (Hq & Hwf & Hs) Heff%exec_write_effect; [|done].
  split_and!; [done|by eapply write_effect_wf|].
  intros user Hu. simpl in *. unfold auth_user_ids.
  destruct (write_effect_catalog _ _ _ Heff) as (_ & _ & ->). by apply Hs.
Qed.

(** In a ready world a load succeeds, and the page is then in step with the
    store. *)
Lemma loadCourseData_ready courseId st w :
  ready w →
  run (loadCourseData courseId) (st, w) =
  (Ok tt,
   (loaded courseId (head (select_course_by_id (auth_uid w) courseId (db w))) w st,
    w)).
Proof.
  intros (Hq & ((_ & _ & Hnd & _) & _) & _).
  destruct (maybeSingle_course (auth_uid w) courseId (db w) Hnd) as [oc Hoc].
  apply loadCourseData_quiet; [done|]. rewrite Hoc. by destruct oc.
Qed.

Lemma synced_loaded courseId st w user :
  session w = Some user →
  synced courseId
    (loaded courseId (head (select_course_by_id (auth_uid w) courseId (db w))) w st)
    w.
Proof. intros Hs. exists user. unfold loaded. by rewrite Hs. Qed.

(** With one row per reference, the flag of a reference is the [completed]
    of the page's row for it. *)
Lemma completed_for_find target ps r :
  NoDup (UserProgress.lesson_id <$> ps) →
  find (for_target target) ps = Some r →
  completed_for target ps = UserProgress.completed r.
Proof.
  intros Hone [Hr Ht%for_target_true]%find_elem_of.
  apply eq_true_iff_eq. unfold completed_for. rewrite existsb_exists.
  setoid_rewrite andb_true_iff. setoid_rewrite for_target_true.
  setoid_rewrite <- list_elem_of_In. split; [|by eauto].
  intros (r' & Hr' & Ht' & Hc).
  by rewrite <- (NoDup_fmap_key_inj UserProgress.lesson_id ps r' r) by congruence.
Qed.

(** ** What a write does to the page *)

Section WriteEffect.
Context (courseId : uuid) (target : option uuid).
Context (patch : State.t → timestamptz → ProgressPatch) (message : string).
Context (st : State.t) (w : World) (user : AuthUser.t).
Context (Hready : ready w) (Hs : session w = Some user).
Context (Hl : State.lessons st = select_lessons (auth_uid w) courseId (db w)).
Context (Hp : State.progress st =
              select_user_progress (auth_uid w) (AuthUser.id user) courseId (db w)).
#[local] Abbreviation handler := (write_progress courseId target patch message).

(** The page's rows are rows of the store, with the store's unique ids. *)
Lemma page_rows_ids : NoDup (UserProgress.id <$> State.progress st).
Proof using Hready Hs Hp.
  rewrite Hp, (auth_uid_session _ _ Hs), select_user_progress_own.
  apply NoDup_fmap_filter. apply Hready.
Qed.

Lemma page_row_owned r :
  r ∈ State.progress st →
  r ∈ user_progress (db w) ∧ UserProgress.user_id r = AuthUser.id user.
Proof using Hs Hp.
  rewrite Hp, select_user_progress_elem. by intros (? & _ & ? & _).
Qed.

(** First write for a reference: the page gains one completed row. *)
Lemma write_progress_inserts :
  find (for_target target) (State.progress st) = None →
  courseId ∈ course_ids (db w) → lesson_ref_ok (db w) target →
  entropy w (drawn w) ∉ progress_ids (db w) →
  let row := progress_row (entropy w (drawn w)) (server_clock w)
               (first_insert user courseId target (client_clock w)) in
  let w' := inserted_world w row in
  ∃ st',
    run handler (st, w) = (Ok tt, (st', w')) ∧
    State.progress st' = State.progress st ++ [row] ∧
    State.lessons st' = State.lessons st ∧
    ready w' ∧ synced courseId st' w' ∧
    State.error st' = State.error st ∧ State.loading st' = false.
Proof using Hready Hs Hl Hp.
  intros Hfind Hc Href Hfresh. pose proof (auth_uid_session _ _ Hs) as Hu.
  destruct Hready as (Hq & Hwf & Hsess).
  pose proof (api_insert_user_progress_Ok (db w) (AuthUser.id user) _
    (server_clock w) (first_insert user courseId target (client_clock w))
    eq_refl Hfresh (Hsess _ Hs) Hc Href) as Hins. rewrite <- Hu in Hins.
  rewrite (write_progress_insert _ _ _ _ _ _ _ _ Hs Hq Hfind Hins).
  match goal with |- context [run _ (st, ?w1)] =>
    assert (ready w1) as Hr1
      by (by apply (ready_after_write
            (InsertProgress (entropy w (drawn w)) (server_clock w)
               (first_insert user courseId target (client_clock w)))
            (with_drawn S w)));
    rewrite (loadCourseData_ready courseId st w1 Hr1) end.
  eexists. split; [done|].
  split_and!; [|by rewrite Hl|done|by eapply synced_loaded|done..].
  unfold loaded, auth_uid. simpl. rewrite Hs. simpl.
  rewrite select_user_progress_after_insert, decide_True by done.
  by rewrite Hp, Hu.
Qed.

(** Later writes: the page's first row for the reference is patched. *)
Lemma write_progress_updates existing :
  find (for_target target) (State.progress st) = Some existing →
  let w' := updated_world w (UserProgress.id existing) (patch st (client_clock w)) in
  ∃ st',
    run handler (st, w) = (Ok tt, (st', w')) ∧
    State.progress st' =
      patched (State.progress st) existing (patch st (client_clock w)) ∧
    State.lessons st' = State.lessons st ∧
    ready w' ∧ synced courseId st' w' ∧
    State.error st' = State.error st ∧ State.loading st' = false.
Proof using Hready Hs Hl Hp.
  intros Hfind. pose proof (auth_uid_session _ _ Hs) as Hu.
  destruct (find_elem_of _ _ _ Hfind) as [Hex _].
  destruct (page_row_owned _ Hex) as [Hdb Hown].
  destruct Hready as (Hq & Hwf & Hsess).
  assert (api_update_user_progress (auth_uid w) (UserProgress.id existing)
            (patch st (client_clock w)) (db w) =
          Ok (update_user_progress
                (λ r, UserProgress.id r = UserProgress.id existing)
                (patch st (client_clock w)) (db w))) as Hupd.
  { rewrite Hu. apply api_update_user_progress_Ok. intros r Hr Hid.
    rewrite (NoDup_fmap_key_inj UserProgress.id (user_progress (db w)) r existing);
      try done. apply Hwf. }
  rewrite (write_progress_update _ _ _ _ _ _ _ _ _ Hs Hq Hfind Hupd).
  match goal with |- context [run _ (st, ?w1)] =>
    assert (ready w1) as Hr1
      by (by apply (ready_after_write
            (UpdateProgress (UserProgress.id existing)
               (patch st (client_clock w))) w));
    rewrite (loadCourseData_ready courseId st w1 Hr1) end.
  eexists. split; [done|].
  split_and!; [|by rewrite Hl|done|by eapply synced_loaded|done..].
  unfold loaded, auth_uid. simpl. rewrite Hs. simpl.
  rewrite select_user_progress_after_update. by rewrite Hp, Hu.
Qed.

End WriteEffect.

Lemma fresh_source_inserted w row :
  UserProgress.id row = entropy w (drawn w) →
  fresh_source w → fresh_source (inserted_world w row).
Proof.
  intros Hid Hfresh n Hn. simpl in *.
  destruct (Hfresh n ltac:(lia)) as [Hnew Hinj]. split; [|intros m Hm; apply Hinj; lia].
  unfold progress_ids. simpl. rewrite fmap_app, elem_of_app. simpl.
  rewrite list_elem_of_singleton, Hid.
  intros [?|Heq]; [done|]. apply Hinj in Heq; lia.
Qed.

Lemma world_kept_inserted w row :
  UserProgress.id row = entropy w (drawn w) → world_kept w (inserted_world w row).
Proof. intros Hid. split_and!; try done. by apply fresh_source_inserted. Qed.

Lemma world_kept_updated w rowId p : world_kept w (updated_world w rowId p).
Proof.
  split_and!; try done. intros Hfresh n Hn. simpl.
  rewrite progress_ids_update. by apply Hfresh.
Qed.

(** ** The write handlers on a page in step with the store *)

Section WriteOk.
Context (courseId : uuid) (target : option uuid).
Context (patch : State.t → timestamptz → ProgressPatch) (message : string).
Context (st : State.t) (w : World).
Context (Hok : page_ok courseId st w).
Context (Hc : courseId ∈ course_ids (db w)) (Href : lesson_ref_ok (db w) target).
#[local] Abbreviation handler := (write_progress courseId target patch message).

Lemma write_progress_ok_insert user :
  session w = Some user →
  find (for_target target) (State.progress st) = None →
  entropy w (drawn w) ∉ progress_ids (db w) →
  ∃ st', run handler (st, w) =
           (Ok tt, (st', written_world courseId target patch st w user)) ∧
    write_post courseId target st st' w
      (written_world courseId target patch st w user)
      (written_row courseId target patch st w user).
Proof using Hok Hc Href.
  intros Hs Hfind Hfresh. destruct Hok as (Hready & (u & Hu & _ & Hl & Hp) & Hone).
  assert (u = user) as -> by congruence. unfold written_row, written_world.
  rewrite Hfind.
  destruct (write_progress_inserts courseId target patch message st w user
    Hready Hs Hl Hp Hfind Hc Href Hfresh)
    as (st' & -> & Hp' & Hl' & Hr' & Hs' & He' & Hld').
  exists st'. split; [done|]. unfold write_post, page_ok, one_row_per_lesson.
  rewrite Hp'. apply find_for_target_None in Hfind.
  split_and!; try done; try by apply world_kept_inserted.
  - rewrite find_app_None by by apply find_for_target_None.
    simpl. by rewrite (proj2 (for_target_true _ _)).
  - intros r. rewrite elem_of_app, list_elem_of_singleton.
    split; [|naive_solver]. intros [Hr|Hr]; [right|by left].
    split; [done|]. intros <-. by apply Hfind, list_elem_of_fmap_2.
  - by apply NoDup_fmap_snoc.
Qed.

Lemma write_progress_ok_update user existing :
  session w = Some user →
  find (for_target target) (State.progress st) = Some existing →
  ∃ st', run handler (st, w) =
           (Ok tt, (st', written_world courseId target patch st w user)) ∧
    write_post courseId target st st' w
      (written_world courseId target patch st w user)
      (written_row courseId target patch st w user).
Proof using Hok Hc Href.
  intros Hs Hfind. destruct Hok as (Hready & (u & Hu & _ & Hl & Hp) & Hone).
  assert (u = user) as -> by congruence. unfold written_row, written_world.
  rewrite Hfind.
  destruct (write_progress_updates courseId target patch message st w user
    Hready Hs Hl Hp existing Hfind)
    as (st' & -> & Hp' & Hl' & Hr' & Hs' & He' & Hld').
  destruct (find_elem_of _ _ _ Hfind) as [Hex <-%for_target_true].
  pose proof (page_rows_ids courseId st w user Hready Hs Hp) as Hids.
  exists st'. split; [done|]. unfold write_post, page_ok, one_row_per_lesson.
  rewrite Hp', patched_lesson_ids.
  split_and!; try done; try apply world_kept_updated.
  - by apply find_patched.
  - intros r. rewrite elem_of_patched by done.
    split; (intros [->|[Hr Hne]]; [by left|right; split; [done|]]).
    + intros Heq. by eapply Hne, (NoDup_fmap_key_inj UserProgress.lesson_id).
    + by intros ->.
Qed.

(** A write on a page in step with the store succeeds, and leaves the page
    with the row written, the other rows, and in step again. *)
Lemma write_progress_ok user :
  session w = Some user →
  (find (for_target target) (State.progress st) = None →
   entropy w (drawn w) ∉ progress_ids (db w)) →
  ∃ st', run handler (st, w) =
           (Ok tt, (st', written_world courseId target patch st w user)) ∧
    write_post courseId target st st' w
      (written_world courseId target patch st w user)
      (written_row courseId target patch st w user).
Proof using Hok Hc Href.
  intros Hs Hfresh.
  destruct (find (for_target target) (State.progress st)) as [existing|] eqn:Hfind.
  - by eapply write_progress_ok_update.
  - by apply write_progress_ok_insert; [..|apply Hfresh].
Qed.

End WriteOk.

(** ** What follows from [write_post] *)

Section WritePost.
Context (courseId : uuid) (target : option uuid) (st st' : State.t).
Context (w w' : World) (r' : UserProgress.t).
Context (Hpost : write_post courseId target st st' w w' r').

Lemma write_post_flag :
  completed_for target (State.progress st') = UserProgress.completed r'.
Proof using Hpost.
  destruct Hpost as (Hfind & _ & _ & (_ & _ & Hone) & _).
  by apply completed_for_find.
Qed.

Lemma write_post_others t :
  t ≠ target →
  completed_for t (State.progress st') = completed_for t (State.progress st).
Proof using Hpost.
  destruct Hpost as ([_ Ht%for_target_true]%find_elem_of & Hrows & _).
  intros Hne. apply eq_true_iff_eq. unfold completed_for.
  rewrite !existsb_exists. setoid_rewrite <- list_elem_of_In.
  setoid_rewrite Hrows. setoid_rewrite andb_true_iff.
  setoid_rewrite for_target_true. naive_solver.
Qed.

End WritePost.

(** ** Toggling a lesson *)

(** A lesson the page lists is a lesson of the store, in an existing
    course. *)
Lemma lesson_on_page courseId st w lesson :
  page_ok courseId st w → lesson ∈ State.lessons st →
  courseId ∈ course_ids (db w) ∧ lesson_ref_ok (db w) (Some (Lesson.id lesson)).
Proof.
  intros ((_ & (_ & (_ & Hfk & _)) & _) & (user & Hs & _ & Hl & _) & _).
  rewrite Hl, (auth_uid_session _ _ Hs), select_lessons_elem. intros [Hin <-].
  split; [|by apply list_elem_of_fmap_2].
  by apply (proj1 (Forall_forall _ _) Hfk).
Qed.

Lemma page_lessons_NoDup courseId st w :
  page_ok courseId st w → NoDup (Lesson.id <$> State.lessons st).
Proof.
  intros ((_ & ((_ & _ & _ & Hnd & _) & _) & _) & (user & Hs & _ & -> & _) & _).
  rewrite (auth_uid_session _ _ Hs). by apply select_lessons_ids_NoDup.
Qed.

(** The flags, as tests on the rows. *)
Lemma isLessonCompleted_for st l :
  isLessonCompleted st l = completed_for (Some l) (State.progress st).
Proof. reflexivity. Qed.

Lemma isCourseCompleted_for st :
  isCourseCompleted st = completed_for None (State.progress st).
Proof. reflexivity. Qed.

(** The row a toggle writes is completed exactly when the lesson was not,
    and carries a completion time exactly when it is completed. *)
Lemma toggle_written_row courseId l st w user :
  let r' := written_row courseId (Some l)
              (λ st now, toggle_patch (isLessonCompleted st l) now) st w user in
  UserProgress.completed r' = negb (isLessonCompleted st l) ∧
  UserProgress.completed_at r' =
    (if UserProgress.completed r' then Some (client_clock w) else None).
Proof.
  unfold written_row.
  destruct (find _ _) as [existing|] eqn:Hfind; simpl; [done|].
  apply find_for_target_None, completed_for_absent in Hfind.
  by rewrite isLessonCompleted_for, Hfind.
Qed.

Section Toggle.
Context (courseId : uuid) (st : State.t) (w : World) (lesson : Lesson.t).
Context (Hok : page_ok courseId st w) (Hin : lesson ∈ State.lessons st).
Context (Hfresh : find (for_lesson (Lesson.id lesson)) (State.progress st) = None →
                  entropy w (drawn w) ∉ progress_ids (db w)).
#[local] Abbreviation lessonId := (Lesson.id lesson).

Lemma toggle_post :
  ∃ st' w' r', run (toggleLessonCompletion courseId lessonId) (st, w) =
                 (Ok tt, (st', w')) ∧
    write_post courseId (Some lessonId) st st' w w' r' ∧
    UserProgress.completed r' = negb (isLessonCompleted st lessonId) ∧
    UserProgress.completed_at r' =
      (if UserProgress.completed r' then Some (client_clock w) else None).
Proof using Hok Hin Hfresh.
  destruct (lesson_on_page _ _ _ _ Hok Hin) as [Hc Href].
  pose proof Hok as (_ & (user & Hs & _) & _).
  destruct (write_progress_ok courseId (Some lessonId)
    (λ st now, toggle_patch (isLessonCompleted st lessonId) now)
    "Failed to update lesson progress:" st w Hok Hc Href user Hs Hfresh)
    as (st' & Hrun & Hpost).
  eexists st', _, _. split; [by rewrite toggleLessonCompletion_as_write|].
  split; [done|]. apply toggle_written_row.
Qed.

End Toggle.

(** C1: on a page in step with the store, toggling a lesson of the page
    succeeds and flips that lesson's flag; the flag of every other lesson and
    the course's flag are unchanged, the lessons are the same, and the page is
    in step with the store again. *)
Theorem toggleLessonCompletion_flips courseId st w lesson :
  page_ok courseId st w → lesson ∈ State.lessons st →
  (find (for_lesson (Lesson.id lesson)) (State.progress st) = None →
   entropy w (drawn w) ∉ progress_ids (db w)) →
  ∃ st' w', run (toggleLessonCompletion courseId (Lesson.id lesson)) (st, w) =
              (Ok tt, (st', w')) ∧
    isLessonCompleted st' (Lesson.id lesson) =
      negb (isLessonCompleted st (Lesson.id lesson)) ∧
    (∀ l, l ≠ Lesson.id lesson →
          isLessonCompleted st' l = isLessonCompleted st l) ∧
    isCourseCompleted st' = isCourseCompleted st ∧
    State.lessons st' = State.lessons st ∧ page_ok courseId st' w'.
Proof.
  intros Hok Hin Hfresh.
  destruct (toggle_post courseId st w lesson Hok Hin Hfresh)
    as (st' & w' & r' & Hrun & Hpost & Hc & _).
  exists st', w'. rewrite !isLessonCompleted_for, !isCourseCompleted_for.
  rewrite (write_post_flag _ _ _ _ _ _ _ Hpost), Hc.
  split_and!; [done..| | |apply Hpost|apply Hpost].
  - intros l Hl. rewrite !isLessonCompleted_for.
    apply (write_post_others _ _ _ _ _ _ _ Hpost). congruence.
  - by apply (write_post_others _ _ _ _ _ _ _ Hpost).
Qed.

(** The count of completed lessons moves by one with the flag. *)
Theorem toggleLessonCompletion_count courseId st w lesson :
  page_ok courseId st w → lesson ∈ State.lessons st →
  (find (for_lesson (Lesson.id lesson)) (State.progress st) = None →
   entropy w (drawn w) ∉ progress_ids (db w)) →
  ∃ st' w', run (toggleLessonCompletion courseId (Lesson.id lesson)) (st, w) =
              (Ok tt, (st', w')) ∧
    completedLessons st' +
      (if isLessonCompleted st (Lesson.id lesson) then 1 else 0) =
    completedLessons st +
      (if isLessonCompleted st (Lesson.id lesson) then 0 else 1).
Proof.
  intros Hok Hin Hfresh.
  destruct (toggle_post courseId st w lesson Hok Hin Hfresh)
    as (st' & w' & r' & Hrun & Hpost & Hc & _).
  exists st', w'. split; [done|]. unfold completedLessons.
  pose proof Hpost as (_ & _ & -> & _).
  apply (filter_length_flip
    (λ lesson, isLessonCompleted st (Lesson.id lesson))
    (λ lesson, isLessonCompleted st' (Lesson.id lesson)) _ lesson).
  - eapply NoDup_fmap_1, page_lessons_NoDup, Hok.
  - done.
  - by rewrite !isLessonCompleted_for, (write_post_flag _ _ _ _ _ _ _ Hpost).
  - intros y Hy Hne. rewrite !isLessonCompleted_for.
    apply (write_post_others _ _ _ _ _ _ _ Hpost). intros [= Heq].
    apply Hne. eapply (NoDup_fmap_key_inj Lesson.id); [|done..].
    by eapply page_lessons_NoDup.
Qed.

(** ** Toggling twice *)

(** C32: toggling a lesson twice brings every flag back to what it was; the
    second toggle updates the row of the first, and that row carries a
    completion time exactly when the lesson was completed at the start. *)
Theorem toggleLessonCompletion_twice courseId st w lesson :
  page_ok courseId st w → lesson ∈ State.lessons st →
  (find (for_lesson (Lesson.id lesson)) (State.progress st) = None →
   entropy w (drawn w) ∉ progress_ids (db w)) →
  ∃ st'' w'' r'',
    run (toggleLessonCompletion courseId (Lesson.id lesson);;
         toggleLessonCompletion courseId (Lesson.id lesson)) (st, w) =
      (Ok tt, (st'', w'')) ∧
    (∀ l, isLessonCompleted st'' l = isLessonCompleted st l) ∧
    isCourseCompleted st'' = isCourseCompleted st ∧
    find (for_lesson (Lesson.id lesson)) (State.progress st'') = Some r'' ∧
    UserProgress.completed_at r'' =
      (if isLessonCompleted st (Lesson.id lesson)
       then Some (client_clock w) else None) ∧
    page_ok courseId st'' w''.
Proof.
  intros Hok Hin Hfresh.
  destruct (toggle_post courseId st w lesson Hok Hin Hfresh)
    as (st1 & w1 & r1 & Hrun1 & Hpost1 & Hc1 & _).
  pose proof Hpost1 as (Hf1 & _ & Hl1 & Hok1 & (_ & Hck & _) & _).
  destruct (toggle_post courseId st1 w1 lesson Hok1) as
    (st2 & w2 & r2 & Hrun2 & Hpost2 & Hc2 & Hat2);
    [by rewrite Hl1|intros Hf; unfold for_lesson in Hf; congruence|].
  pose proof Hpost2 as (Hf2 & _ & _ & Hok2 & _).
  pose proof (write_post_flag _ _ _ _ _ _ _ Hpost1) as Hflag1.
  pose proof (write_post_flag _ _ _ _ _ _ _ Hpost2) as Hflag2.
  rewrite <- !isLessonCompleted_for in *.
  assert (Hback : UserProgress.completed r2 = isLessonCompleted st (Lesson.id lesson))
    by (by rewrite Hc2, Hflag1, Hc1, negb_involutive).
  exists st2, w2, r2. rewrite (run_bind_Ok _ _ _ _ _ Hrun1), Hrun2.
  split_and!; [done| | |done| |done].
  - intros l. destruct (decide (l = (Lesson.id lesson))) as [->|Hne]; [congruence|].
    rewrite !isLessonCompleted_for.
    rewrite (write_post_others _ _ _ _ _ _ _ Hpost2) by congruence.
    apply (write_post_others _ _ _ _ _ _ _ Hpost1). congruence.
  - rewrite !isCourseCompleted_for.
    rewrite (write_post_others _ _ _ _ _ _ _ Hpost2) by done.
    by apply (write_post_others _ _ _ _ _ _ _ Hpost1).
  - by rewrite Hat2, Hback, Hck.
Qed.

(** ** Marking the course complete *)

Lemma complete_written_row courseId st w user :
  let r' := written_row courseId None (λ _ now, complete_patch now) st w user in
  UserProgress.completed r' = true ∧
  UserProgress.completed_at r' = Some (client_clock w).
Proof. unfold written_row. by destruct (find _ _). Qed.

Section Mark.
Context (courseId : uuid) (st : State.t) (w : World).
Context (Hok : page_ok courseId st w) (Hc : courseId ∈ course_ids (db w)).
Context (Hfresh : find for_course (State.progress st) = None →
                  entropy w (drawn w) ∉ progress_ids (db w)).

Lemma mark_post :
  ∃ st' w' r', run (markCourseCompleted courseId) (st, w) = (Ok tt, (st', w')) ∧
    write_post courseId None st st' w w' r' ∧
    UserProgress.completed r' = true ∧
    UserProgress.completed_at r' = Some (client_clock w).
Proof using Hok Hc Hfresh.
  pose proof Hok as (_ & (user & Hs & _) & _).
  destruct (write_progress_ok courseId None (λ _ now, complete_patch now)
    "Failed to mark course as completed:" st w Hok Hc I user Hs Hfresh)
    as (st' & Hrun & Hpost).
  eexists st', _, _. split; [by rewrite markCourseCompleted_as_write|].
  split; [done|]. apply complete_written_row.
Qed.

End Mark.

(** C2: on a page in step with the store, marking the course complete
    succeeds and the course is then completed, whatever it was before; no
    lesson's flag changes, so neither does the percentage; the page is in
    step with the store again. *)
Theorem markCourseCompleted_marks courseId st w :
  page_ok courseId st w → courseId ∈ course_ids (db w) →
  (find for_course (State.progress st) = None →
   entropy w (drawn w) ∉ progress_ids (db w)) →
  ∃ st' w', run (markCourseCompleted courseId) (st, w) = (Ok tt, (st', w')) ∧
    isCourseCompleted st' = true ∧
    (∀ l, isLessonCompleted st' l = isLessonCompleted st l) ∧
    calculateProgress st' = calculateProgress st ∧
    page_ok courseId st' w'.
Proof.
  intros Hok Hc Hfresh.
  destruct (mark_post courseId st w Hok Hc Hfresh)
    as (st' & w' & r' & Hrun & Hpost & Hcompleted & _).
  assert (Hflags : ∀ l, isLessonCompleted st' l = isLessonCompleted st l).
  { intros l. rewrite !isLessonCompleted_for.
    by apply (write_post_others _ _ _ _ _ _ _ Hpost). }
  exists st', w'. split_and!; [done| |done| |apply Hpost].
  - by rewrite isCourseCompleted_for, (write_post_flag _ _ _ _ _ _ _ Hpost).
  - unfold calculateProgress, completedLessons.
    destruct Hpost as (_ & _ & -> & _).
    by rewrite (filter_ext _ _ (λ lesson, Hflags (Lesson.id lesson))).
Qed.

(** ** Loading establishes the invariant *)

(** In a world with no fault pending and a consistent store that holds
    at most one progress row per lesson reference for the session and the
    course, loading succeeds without touching the world, and leaves the page
    in step with the store, not loading, with its message as it was. *)
Theorem loadCourseData_page_ok courseId st w user :
  ready w → session w = Some user →
  NoDup (UserProgress.lesson_id <$>
           select_user_progress (auth_uid w) (AuthUser.id user) courseId (db w)) →
  ∃ st', run (loadCourseData courseId) (st, w) = (Ok tt, (st', w)) ∧
    page_ok courseId st' w ∧ State.loading st' = false ∧
    State.error st' = State.error st.
Proof.
  intros Hready Hs Hone. rewrite (loadCourseData_ready courseId st w Hready).
  eexists. split; [done|]. split; [|done]. split; [done|].
  split; [by eapply synced_loaded|].
  unfold one_row_per_lesson, loaded. simpl. by rewrite Hs.
Qed.

(** ** Completion times *)

(** A row carries a completion time exactly when it is completed. *)
Definition stamped (r : UserProgress.t) : Prop :=
  UserProgress.completed r = true ↔ is_Some (UserProgress.completed_at r).

#[export] Instance stamped_dec r : Decision (stamped r).
Proof. unfold stamped. apply _. Defined.

Lemma write_post_Forall (P : UserProgress.t → Prop) courseId target st st' w w' r' :
  write_post courseId target st st' w w' r' → P r' →
  Forall P (State.progress st) → Forall P (State.progress st').
Proof.
  intros (_ & Hrows & _) Hr'. rewrite !Forall_forall. intros HP r.
  rewrite Hrows. intros [->|[Hr _]]; auto.
Qed.

(** Toggling keeps the completion times in step with the flags: if
    every row of the page carries a completion time exactly when it is
    completed, so does every row after the toggle. *)
Theorem toggleLessonCompletion_stamped courseId st w lesson :
  page_ok courseId st w → lesson ∈ State.lessons st →
  (find (for_lesson (Lesson.id lesson)) (State.progress st) = None →
   entropy w (drawn w) ∉ progress_ids (db w)) →
  Forall stamped (State.progress st) →
  ∃ st' w', run (toggleLessonCompletion courseId (Lesson.id lesson)) (st, w) =
              (Ok tt, (st', w')) ∧
    Forall stamped (State.progress st').
Proof.
  intros Hok Hin Hfresh Hst.
  destruct (toggle_post courseId st w lesson Hok Hin Hfresh)
    as (st' & w' & r' & Hrun & Hpost & _ & Hat).
  exists st', w'. split; [done|]. eapply write_post_Forall; [done| |done].
  unfold stamped. rewrite Hat. destruct (UserProgress.completed r'); [|by intros].
  split; [by eexists|done].
Qed.

(** ** Failures *)

Section Failures.
Context (courseId lessonId : uuid) (st : State.t) (w : World).

(** C35: on a page that still lists a lesson the store no longer holds, the
    first toggle of that lesson is refused by the lesson reference: the
    handler logs the violation and leaves the page as it was. *)
Theorem toggleLessonCompletion_stale_lesson user :
  ready w → session w = Some user →
  find (for_lesson lessonId) (State.progress st) = None →
  entropy w (drawn w) ∉ progress_ids (db w) →
  courseId ∈ course_ids (db w) → lessonId ∉ lesson_ids (db w) →
  run (toggleLessonCompletion courseId lessonId) (st, w) =
    (Ok tt, (st, with_console
                   (λ c, c ++ [mkLog "Failed to update lesson progress:"
                                 (foreign_key_violation "user_progress_lesson_id_fkey")])
                   (with_drawn S w))).
Proof.
  intros (Hq & Hwf & Hsess) Hs Hfind Hfresh Hc Hl.
  rewrite toggleLessonCompletion_as_write.
  eapply write_progress_insert_rejected; [done..|].
  rewrite (auth_uid_session _ _ Hs). unfold api_insert_user_progress.
  rewrite user_progress_admits_new, (proj2 (owns_progress_true _ _)) by done.
  unfold insert_user_progress. simpl.
  rewrite decide_False, decide_True, decide_True, decide_False; auto.
Qed.

End Failures.

(** ** Duplicate rows

    Nothing in the schema keeps the store from holding two progress rows
    for one user, course and lesson.  A write whose response is lost is
    enough to get there: the store has the row, the page does not, and the
    next toggle inserts a second one. *)

(** C36: on a page that holds two rows for a lesson, one of them completed
    and not the first, toggling the lesson does not un-complete it: the
    handler updates the first row to not completed, because the lesson
    counts as completed, and the lesson still counts as completed after. *)
Theorem toggleLessonCompletion_duplicate_stuck courseId st w lessonId existing r2 :
  ready w → synced courseId st w →
  find (for_lesson lessonId) (State.progress st) = Some existing →
  r2 ∈ State.progress st → r2 ≠ existing →
  UserProgress.lesson_id r2 = Some lessonId → UserProgress.completed r2 = true →
  ∃ st' w', run (toggleLessonCompletion courseId lessonId) (st, w) =
              (Ok tt, (st', w')) ∧
    apply_patch (toggle_patch true (client_clock w)) existing ∈ State.progress st' ∧
    isLessonCompleted st' lessonId = true ∧
    ready w' ∧ synced courseId st' w'.
Proof.
  intros Hready (user & Hs & _ & Hl & Hp) Hfind Hr2 Hne Hid Hc.
  assert (isLessonCompleted st lessonId = true) as Hwas
    by (apply isLessonCompleted_true; eauto).
  destruct (write_progress_updates courseId (Some lessonId)
    (λ st now, toggle_patch (isLessonCompleted st lessonId) now)
    "Failed to update lesson progress:" st w user Hready Hs Hl Hp existing Hfind)
    as (st' & Hrun & Hp' & _ & Hr' & Hs' & _).
  pose proof (page_rows_ids courseId st w user Hready Hs Hp) as Hids.
  destruct (find_elem_of _ _ _ Hfind) as [Hex _].
  exists st'. eexists. rewrite toggleLessonCompletion_as_write.
  split_and!; [done| | |done..].
  - rewrite Hp', Hwas. apply elem_of_patched; auto.
  - apply isLessonCompleted_true. exists r2. split_and!; [|done..].
    rewrite Hp'. apply elem_of_patched; auto.
Qed.

(** The sample world, with the response to the next write lost. *)
Definition lossy_world : World :=
  with_faults (λ _, [response_lost]) sample_world.


(** ** The theorems on the sample world *)

Lemma sample_ready : ready sample_world.
Proof. split; [done|]. split; [compute_done|]. intros ? [= <-]. compute_done. Qed.

Lemma sample_page_ok : page_ok "c1" sample_page sample_world.
Proof.
  split; [apply sample_ready|]. split; [by exists Sample.alice|compute_done].
Qed.

Lemma toggleLessonCompletion_flips_witness :
  ∃ st' w', run (toggleLessonCompletion "c1" "l1") (sample_page, sample_world) =
              (Ok tt, (st', w')) ∧
    isLessonCompleted st' "l1" = negb (isLessonCompleted sample_page "l1") ∧
    (∀ l, l ≠ "l1" → isLessonCompleted st' l = isLessonCompleted sample_page l) ∧
    isCourseCompleted st' = isCourseCompleted sample_page ∧
    State.lessons st' = State.lessons sample_page ∧ page_ok "c1" st' w'.
Proof.
  apply (toggleLessonCompletion_flips "c1" sample_page sample_world Sample.l1
           sample_page_ok); [compute_done|intros _; compute_done].
Defined.

Lemma toggleLessonCompletion_count_witness :
  ∃ st' w', run (toggleLessonCompletion "c1" "l1") (sample_page, sample_world) =
              (Ok tt, (st', w')) ∧
    completedLessons st' + (if isLessonCompleted sample_page "l1" then 1 else 0) =
    completedLessons sample_page +
      (if isLessonCompleted sample_page "l1" then 0 else 1).
Proof.
  apply (toggleLessonCompletion_count "c1" sample_page sample_world Sample.l1
           sample_page_ok); [compute_done|intros _; compute_done].
Defined.

Lemma toggleLessonCompletion_twice_witness :
  ∃ st'' w'' r'',
    run (toggleLessonCompletion "c1" "l1";; toggleLessonCompletion "c1" "l1")
      (sample_page, sample_world) = (Ok tt, (st'', w'')) ∧
    (∀ l, isLessonCompleted st'' l = isLessonCompleted sample_page l) ∧
    isCourseCompleted st'' = isCourseCompleted sample_page ∧
    find (for_lesson "l1") (State.progress st'') = Some r'' ∧
    UserProgress.completed_at r'' =
      (if isLessonCompleted sample_page "l1"
       then Some (client_clock sample_world) else None) ∧
    page_ok "c1" st'' w''.
Proof.
  apply (toggleLessonCompletion_twice "c1" sample_page sample_world Sample.l1
           sample_page_ok); [compute_done|intros _; compute_done].
Defined.

Lemma toggleLessonCompletion_stamped_witness :
  ∃ st' w', run (toggleLessonCompletion "c1" "l1") (sample_page, sample_world) =
              (Ok tt, (st', w')) ∧
    Forall stamped (State.progress st').
Proof.
  apply (toggleLessonCompletion_stamped "c1" sample_page sample_world Sample.l1
           sample_page_ok); [compute_done|intros _; compute_done|compute_done].
Defined.

Lemma markCourseCompleted_marks_witness :
  ∃ st' w', run (markCourseCompleted "c1") (sample_page, sample_world) =
              (Ok tt, (st', w')) ∧
    isCourseCompleted st' = true ∧
    (∀ l, isLessonCompleted st' l = isLessonCompleted sample_page l) ∧
    calculateProgress st' = calculateProgress sample_page ∧
    page_ok "c1" st' w'.
Proof.
  apply (markCourseCompleted_marks "c1" sample_page sample_world sample_page_ok);
    [compute_done|intros _; compute_done].
Defined.

Lemma loadCourseData_page_ok_witness :
  ∃ st', run (loadCourseData "c1") (initial_state, sample_world) =
           (Ok tt, (st', sample_world)) ∧
    page_ok "c1" st' sample_world ∧ State.loading st' = false ∧
    State.error st' = State.error initial_state.
Proof.
  apply (loadCourseData_page_ok "c1" initial_state sample_world Sample.alice
           sample_ready); [done|compute_done].
Defined.

Lemma toggleLessonCompletion_stale_lesson_witness :
  run (toggleLessonCompletion "c1" "l9") (sample_page, sample_world) =
    (Ok tt, (sample_page,
             with_console
               (λ c, c ++ [mkLog "Failed to update lesson progress:"
                             (foreign_key_violation "user_progress_lesson_id_fkey")])
               (with_drawn S sample_world))).
Proof.
  apply (toggleLessonCompletion_stale_lesson "c1" "l9" sample_page sample_world
           Sample.alice sample_ready); compute_done.
Defined.

(** A store that holds two rows for Alice and the first lesson, the second
    of them completed, and the page loaded from it. *)
Definition twice_l1 : list UserProgress.t :=
  [ UserProgress.mk "q1" "alice" "c1" (Some "l1") false None 2000%Z 2000%Z;
    UserProgress.mk "q2" "alice" "c1" (Some "l1") true (Some 1000%Z) 2000%Z 2000%Z ].

Definition duplicate_world : World :=
  with_db (with_user_progress (λ t, t ++ twice_l1)) sample_world.

Definition duplicate_page : State.t :=
  loaded "c1" (Some Sample.c1) duplicate_world initial_state.

Lemma toggleLessonCompletion_duplicate_stuck_witness :
  ∃ st' w', run (toggleLessonCompletion "c1" "l1") (duplicate_page, duplicate_world) =
              (Ok tt, (st', w')) ∧
    apply_patch (toggle_patch true (client_clock duplicate_world))
      (UserProgress.mk "q1" "alice" "c1" (Some "l1") false None 2000%Z 2000%Z)
      ∈ State.progress st' ∧
    isLessonCompleted st' "l1" = true ∧
    ready w' ∧ synced "c1" st' w'.
Proof.
  apply (toggleLessonCompletion_duplicate_stuck "c1" duplicate_page duplicate_world
           "l1" _ (UserProgress.mk "q2" "alice" "c1" (Some "l1") true (Some 1000%Z)
                     2000%Z 2000%Z));
    [|by exists Sample.alice|done|compute_done|done..].
  split; [done|]. split; [compute_done|]. intros ? [= <-]. compute_done.
Defined.

(** ** Marking twice *)

Lemma page_ok_elapse courseId st w d :
  page_ok courseId st w → page_ok courseId st (elapse d w).
Proof. by intros (? & ? & ?). Qed.

(** Marking the course complete a second time, some time after the
    first, updates the row of the first: the course stays completed, the row
    keeps its id and its creation time, and its completion time is that of
    the second call, not before that of the first. *)
Theorem markCourseCompleted_twice courseId st w d :
  page_ok courseId st w → courseId ∈ course_ids (db w) →
  (find for_course (State.progress st) = None →
   entropy w (drawn w) ∉ progress_ids (db w)) →
  (0 ≤ d)%Z →
  ∃ st1 w1 r1 st2 w2 r2,
    run (markCourseCompleted courseId) (st, w) = (Ok tt, (st1, w1)) ∧
    find for_course (State.progress st1) = Some r1 ∧
    run (markCourseCompleted courseId) (st1, elapse d w1) = (Ok tt, (st2, w2)) ∧
    find for_course (State.progress st2) = Some r2 ∧
    isCourseCompleted st2 = true ∧
    UserProgress.id r2 = UserProgress.id r1 ∧
    UserProgress.created_at r2 = UserProgress.created_at r1 ∧
    UserProgress.completed_at r1 = Some (client_clock w) ∧
    UserProgress.completed_at r2 = Some (client_clock w + d)%Z ∧
    page_ok courseId st2 w2.
Proof.
  intros Hok Hc Hfresh Hd.
  destruct (mark_post courseId st w Hok Hc Hfresh)
    as (st1 & w1 & r1 & Hrun1 & Hpost1 & _ & Hat1).
  pose proof Hpost1 as (Hf1 & _ & _ & Hok1 & (Hs1 & Hck & _ & Hco & _) & _).
  pose proof (page_ok_elapse courseId st1 w1 d Hok1) as Hok1'.
  pose proof Hok1' as (_ & (user & Hs & _) & _).
  assert (courseId ∈ course_ids (db (elapse d w1))) as Hc1
    by (unfold course_ids; simpl; by rewrite Hco).
  destruct (write_progress_ok courseId None (λ _ now, complete_patch now)
    "Failed to mark course as completed:" st1 (elapse d w1) Hok1' Hc1 I user Hs)
    as (st2 & Hrun2 & Hpost2); [intros Hnone; unfold for_course in *; congruence|].
  pose proof Hpost2 as (Hf2 & _ & _ & Hok2 & _).
  unfold written_row in Hf2. unfold for_course in Hf1. rewrite Hf1 in Hf2.
  eexists st1, w1, r1, st2, _, _. rewrite markCourseCompleted_as_write in *.
  split_and!; [done..| |done|done|done| |done].
  - by rewrite isCourseCompleted_for, (write_post_flag _ _ _ _ _ _ _ Hpost2),
      (proj1 (complete_written_row _ _ _ _)).
  - simpl. by rewrite Hck.
Qed.

Lemma markCourseCompleted_twice_witness :
  ∃ st1 w1 r1 st2 w2 r2,
    run (markCourseCompleted "c1") (sample_page, sample_world) = (Ok tt, (st1, w1)) ∧
    find for_course (State.progress st1) = Some r1 ∧
    run (markCourseCompleted "c1") (st1, elapse 60 w1) = (Ok tt, (st2, w2)) ∧
    find for_course (State.progress st2) = Some r2 ∧
    isCourseCompleted st2 = true ∧
    UserProgress.id r2 = UserProgress.id r1 ∧
    UserProgress.created_at r2 = UserProgress.created_at r1 ∧
    UserProgress.completed_at r1 = Some (client_clock sample_world) ∧
    UserProgress.completed_at r2 = Some (client_clock sample_world + 60)%Z ∧
    page_ok "c1" st2 w2.
Proof.
  apply (markCourseCompleted_twice "c1" sample_page sample_world 60 sample_page_ok);
    [compute_done|intros _; compute_done|done].
Defined.
