(* ===== verification/Session.v ===== *)
(** * Session: the view of the course page and a visit to it

    What the component of src/src/pages/CourseDetail.tsx returns, as data
    ([render]): the spinner, a message, or the page with its texts, flags and
    one row per lesson; the buttons a view has ([offered]) and the handler a
    click runs ([click]).  Class names and icons are left out.

    Then the page as its user drives it: the component mounts and loads, and
    from then on every handler runs because a button of the view shown was
    clicked ([clicks]).  The view offers a toggle for the
    lessons it lists and nothing else, and disables the completion button
    once the course is completed; so on a page in step with the store every
    click finds the hypotheses of [Completion] in place, and the page stays
    in step for the whole visit. *)

From stdpp Require Import base tactics option list strings pretty.
From S2P Require Import Prelude JsNumber Schema Policy Client CourseDetail Completion.
Set Warnings "-clear-no-such-hyp".

(** ** What the page shows *)

(** One lesson of the list: its position, title, content when it has any,
    duration, whether it is shown as completed, and the lesson its button
    toggles. *)
Record LessonRow := mkLessonRow {
  row_lesson : uuid;
  row_completed : bool;
  row_number : nat;
  row_title : string;
  row_content : option string;
  row_duration_minutes : Z;
}.

Record PageView := mkPageView {
  page_category : string;
  page_completed_badge : bool;
  page_title : string;
  page_description : string;
  page_duration_minutes : Z;
  page_lesson_count : nat;
  page_difficulty : string;
  page_percentage : number;
  page_rows : list LessonRow;
  page_button_disabled : bool;
  page_button_label : string;
}.

Inductive View :=
| Spinner
| Message (text : string)
| Page (p : PageView).

Definition lesson_row (st : State.t) (index : nat) (lesson : Lesson.t) : LessonRow :=
  mkLessonRow (Lesson.id lesson) (isLessonCompleted st (Lesson.id lesson))
    (index + 1) (Lesson.title lesson)
    (if String.eqb (Lesson.content lesson) "" then None
     else Some (Lesson.content lesson))
    (Lesson.duration_minutes lesson).

Definition render (st : State.t) : View :=
  if State.loading st then Spinner
  else
    match String.eqb (State.error st) "", State.course st with
    | false, _ => Message (State.error st)
    | true, None => Message "Course not found"
    | true, Some course =>
        let progressPercentage := calculateProgress st in
        let courseCompleted := isCourseCompleted st in
        Page (mkPageView (Course.category course) courseCompleted
                (Course.title course) (Course.description course)
                (Course.duration_minutes course) (length (State.lessons st))
                (Course.difficulty course) progressPercentage
                (imap (lesson_row st) (State.lessons st))
                courseCompleted
                (if courseCompleted then "Course Completed!"
                 else "Mark Course as Completed"))
    end.

(** What a click can do on the page shown. *)
Inductive action :=
| Back
| Toggle (lessonId : uuid)
| MarkCompleted.

#[export] Instance action_eq_dec : EqDecision action.
Proof. solve_decision. Defined.

(** The buttons of a view: none while loading or on a message; on the page,
    the way back, one toggle per lesson shown, and the completion button
    unless it is disabled. *)
Definition offered (v : View) : list action :=
  match v with
  | Page p =>
      Back :: (Toggle ∘ row_lesson <$> page_rows p) ++
      (if page_button_disabled p then [] else [MarkCompleted])
  | _ => []
  end.

(** A click: the handler the view has bound to the button, when the view
    has the button. *)
Definition click (courseId : uuid) (a : action) : component State.t unit :=
  st ← get_state;
  if bool_decide (a ∈ offered (render st)) then
    match a with
    | Back => mret tt
    | Toggle lessonId => toggleLessonCompletion courseId lessonId
    | MarkCompleted => markCourseCompleted courseId
    end
  else mret tt.

(** A sequence of clicks, each on the view that the one before left. *)
Fixpoint clicks (courseId : uuid) (actions : list action) : component State.t unit :=
  match actions with
  | [] => mret tt
  | a :: actions => click courseId a;; clicks courseId actions
  end.

(** The invariant of a visit: the page is in step with the store, the
    identifiers to come are new, and the course exists. *)
Definition session_inv (courseId : uuid) (st : State.t) (w : World) : Prop :=
  page_ok courseId st w ∧ fresh_source w ∧ courseId ∈ course_ids (db w).

(** What a click leaves of the page and the world around it. *)
Definition click_post (st st' : State.t) (w w' : World) : Prop :=
  State.lessons st' = State.lessons st ∧ State.course st' = State.course st ∧
  State.error st' = State.error st ∧ State.loading st' = State.loading st ∧
  console w' = console w ∧ session w' = session w ∧
  (isCourseCompleted st = true → isCourseCompleted st' = true).

(** The page shows the course: it is not loading, has no message, and has
    found the course. *)
Definition shown (st : State.t) : Prop :=
  State.loading st = false ∧ State.error st = "" ∧ is_Some (State.course st).

(** The page that the mount's load leaves. *)
Definition mounted (courseId : uuid) (w : World) : State.t :=
  loaded courseId (head (select_course_by_id (auth_uid w) courseId (db w))) w
    initial_state.

(** ** What the view offers *)

Lemma page_rows_lessons st :
  row_lesson <$> imap (lesson_row st) (State.lessons st) =
  Lesson.id <$> State.lessons st.
Proof. rewrite fmap_imap, <- imap_const. by apply imap_ext. Qed.

(** The buttons of a page that shows the course. *)
Lemma offered_shown st course :
  State.loading st = false → State.error st = "" →
  State.course st = Some course →
  offered (render st) =
  Back :: (Toggle ∘ Lesson.id <$> State.lessons st) ++
  (if isCourseCompleted st then [] else [MarkCompleted]).
Proof.
  intros Hld He Hc. unfold render. rewrite Hld, He, Hc. simpl.
  by rewrite !list_fmap_compose, page_rows_lessons.
Qed.

(** A view that offers a button shows the course. *)
Lemma offered_visible st a :
  a ∈ offered (render st) →
  State.loading st = false ∧ State.error st = "" ∧ is_Some (State.course st).
Proof.
  unfold render. destruct (State.loading st); [by intros ?%elem_of_nil|].
  destruct (String.eqb_spec (State.error st) ""), (State.course st); simpl;
    first [by intros ?%elem_of_nil | by eauto].
Qed.

(** What a button of the page is. *)
Lemma offered_elem st a :
  a ∈ offered (render st) →
  a = Back ∨
  (∃ lesson, lesson ∈ State.lessons st ∧ a = Toggle (Lesson.id lesson)) ∨
  (a = MarkCompleted ∧ isCourseCompleted st = false).
Proof.
  intros Ha. destruct (offered_visible st a Ha) as (Hld & He & [course Hc]).
  rewrite (offered_shown st course) in Ha by done.
  apply elem_of_cons in Ha as [->|Ha]; [by left|]. right.
  apply elem_of_app in Ha as [Ha|Ha].
  - apply list_elem_of_fmap in Ha as (lesson & -> & Hin). left. by exists lesson.
  - destruct (isCourseCompleted st); [by apply elem_of_nil in Ha|].
    apply list_elem_of_singleton in Ha. by right.
Qed.

(** The page offers a button only when it shows the course: then the
    way back, a toggle for each lesson it lists and for nothing else, and
    the completion button exactly when the course is not completed. *)
Theorem offered_render st a :
  a ∈ offered (render st) ↔
  State.loading st = false ∧ State.error st = "" ∧ is_Some (State.course st) ∧
  (a = Back ∨
   (∃ lesson, lesson ∈ State.lessons st ∧ a = Toggle (Lesson.id lesson)) ∨
   (a = MarkCompleted ∧ isCourseCompleted st = false)).
Proof.
  split.
  - intros Ha. pose proof (offered_visible st a Ha) as (? & ? & ?).
    split_and!; [done..|by apply offered_elem].
  - intros (Hld & He & [course Hc] & Ha).
    rewrite (offered_shown st course) by done.
    rewrite elem_of_cons, elem_of_app, list_elem_of_fmap.
    destruct Ha as [->|[(lesson & Hin & ->)|[-> ->]]]; [by left|right; left|right; right].
    + by exists lesson.
    + by apply list_elem_of_singleton.
Qed.

(** ** One click *)

Lemma synced_course courseId st st' w w' :
  synced courseId st w → synced courseId st' w' → world_kept w w' →
  State.course st' = State.course st.
Proof.
  intros (u & Hs & -> & _) (u' & Hs' & -> & _) (Hse & _ & _ & Hc & _).
  unfold auth_uid. rewrite Hse. f_equal. by apply select_course_by_id_catalog.
Qed.

Lemma click_post_refl st w : click_post st st w w.
Proof. by split_and!. Qed.

Lemma write_post_click courseId target st st' w w' r' :
  page_ok courseId st w → State.loading st = false →
  write_post courseId target st st' w w' r' →
  (target = None → UserProgress.completed r' = true) →
  click_post st st' w w'.
Proof.
  intros Hok Hld Hpost Hmark.
  pose proof Hpost as (_ & _ & Hl & Hok' & Hkept & He & Hld').
  pose proof Hkept as (Hs & _ & Hco & _).
  split_and!; [done| |done|congruence|done..|].
  - eapply synced_course; [apply Hok|apply Hok'|done].
  - rewrite !isCourseCompleted_for. destruct target as [l|].
    + by rewrite (write_post_others _ _ _ _ _ _ _ Hpost).
    + rewrite (write_post_flag _ _ _ _ _ _ _ Hpost). auto.
Qed.

Lemma session_inv_post courseId target st st' w w' r' :
  session_inv courseId st w → write_post courseId target st st' w w' r' →
  session_inv courseId st' w'.
Proof.
  intros (_ & Hfresh & Hc) (_ & _ & _ & Hok' & (_ & _ & _ & Hco & Hf) & _).
  split_and!; [done|by apply Hf|]. unfold course_ids. by rewrite Hco.
Qed.

Lemma fresh_source_next w :
  fresh_source w → entropy w (drawn w) ∉ progress_ids (db w).
Proof. intros Hf. by apply (Hf (drawn w)). Qed.

Section Click.
Context (courseId : uuid) (st : State.t) (w : World).
Context (Hinv : session_inv courseId st w).

Lemma click_toggle lesson :
  lesson ∈ State.lessons st → State.loading st = false →
  ∃ st' w', run (toggleLessonCompletion courseId (Lesson.id lesson)) (st, w) =
              (Ok tt, (st', w')) ∧
    session_inv courseId st' w' ∧ click_post st st' w w'.
Proof using Hinv.
  intros Hin Hld. pose proof Hinv as (Hok & Hfresh & _).
  destruct (toggle_post courseId st w lesson Hok Hin
              (λ _, fresh_source_next w Hfresh)) as (st' & w' & r' & -> & Hpost & _).
  exists st', w'. split; [done|]. split; [by eapply session_inv_post|].
  by eapply write_post_click.
Qed.

Lemma click_mark :
  State.loading st = false →
  ∃ st' w', run (markCourseCompleted courseId) (st, w) = (Ok tt, (st', w')) ∧
    session_inv courseId st' w' ∧ click_post st st' w w'.
Proof using Hinv.
  intros Hld. pose proof Hinv as (Hok & Hfresh & Hc).
  destruct (mark_post courseId st w Hok Hc (λ _, fresh_source_next w Hfresh))
    as (st' & w' & r' & -> & Hpost & Hcompleted & _).
  exists st', w'. split; [done|]. split; [by eapply session_inv_post|].
  by eapply write_post_click.
Qed.

Lemma click_inv a :
  ∃ st' w', run (click courseId a) (st, w) = (Ok tt, (st', w')) ∧
    session_inv courseId st' w' ∧ click_post st st' w w'.
Proof using Hinv.
  unfold click. rewrite run_component_bind, run_get_state.
  case_bool_decide as Ha; [|by exists st, w; auto using click_post_refl].
  pose proof (offered_visible st a Ha) as (Hld & _).
  apply offered_elem in Ha as [->|[(lesson & Hin & ->)|[-> _]]].
  - exists st, w. auto using click_post_refl.
  - by apply click_toggle.
  - by apply click_mark.
Qed.

End Click.

(** ** A visit *)

Lemma click_post_trans st st1 st2 w w1 w2 :
  click_post st st1 w w1 → click_post st1 st2 w1 w2 → click_post st st2 w w2.
Proof.
  intros (? & ? & ? & ? & ? & ? & ?) (? & ? & ? & ? & ? & ? & ?).
  split_and!; try congruence. auto.
Qed.

Lemma clicks_inv courseId actions st w :
  session_inv courseId st w →
  ∃ st' w', run (clicks courseId actions) (st, w) = (Ok tt, (st', w')) ∧
    session_inv courseId st' w' ∧ click_post st st' w w'.
Proof.
  revert st w. induction actions as [|a actions IH]; intros st w Hinv.
  - exists st, w. auto using click_post_refl.
  - destruct (click_inv courseId st w Hinv a) as (st1 & w1 & Hrun1 & Hinv1 & Hpost1).
    destruct (IH st1 w1 Hinv1) as (st2 & w2 & Hrun2 & Hinv2 & Hpost2).
    exists st2, w2. cbn [clicks]. rewrite (run_component_bind_Ok _ _ _ _ _ Hrun1).
    eauto using click_post_trans.
Qed.

Lemma course_found u courseId db :
  courseId ∈ course_ids db →
  is_Some (head (select_course_by_id (Some u) courseId db)).
Proof.
  intros (c & -> & Hc)%list_elem_of_fmap. unfold select_course_by_id.
  rewrite rls_select_courses.
  assert (c ∈ filter (λ x, Course.id x = Course.id c) (courses db)) as Hin
    by by apply list_elem_of_filter.
  destruct (filter _ _); [by apply elem_of_nil in Hin|by eexists].
Qed.

Lemma shown_click_post st st' w w' :
  shown st → click_post st st' w w' → shown st'.
Proof.
  intros (? & ? & ?) (_ & Hc & He & Hl & _). unfold shown.
  by rewrite Hc, He, Hl.
Qed.

(** The mount of the page of an existing course, in a quiet world whose
    store holds at most one row per lesson reference: the load succeeds, and
    the page it leaves is in step with the store and shows the course. *)
Lemma mount_inv courseId w user :
  ready w → session w = Some user → fresh_source w →
  courseId ∈ course_ids (db w) →
  NoDup (UserProgress.lesson_id <$>
           select_user_progress (auth_uid w) (AuthUser.id user) courseId (db w)) →
  run (loadCourseData courseId) (initial_state, w) =
    (Ok tt, (mounted courseId w, w)) ∧
  session_inv courseId (mounted courseId w) w ∧ shown (mounted courseId w).
Proof.
  intros Hready Hs Hfresh Hc Hone.
  split; [by apply loadCourseData_ready|]. split.
  - split; [|done]. split; [done|]. split; [by eapply synced_loaded|].
    unfold one_row_per_lesson, mounted, loaded. simpl. by rewrite Hs.
  - split; [done|]. split; [done|]. unfold mounted, loaded. simpl.
    rewrite (auth_uid_session _ _ Hs). by apply course_found.
Qed.

(** C3: a visit to the page of a course that exists, in a world with no
    fault pending whose store holds at most one progress row per lesson
    reference for the session and the course: the page loads and shows the
    course, and whatever is clicked on it from then on, in any order and any
    number of times, every handler succeeds and nothing is logged, the page
    stays in step with the store, and the store still holds at most one row
    per lesson reference. *)
Theorem visit_in_step courseId w user actions :
  ready w → session w = Some user → fresh_source w →
  courseId ∈ course_ids (db w) →
  NoDup (UserProgress.lesson_id <$>
           select_user_progress (auth_uid w) (AuthUser.id user) courseId (db w)) →
  ∃ st' w', run (loadCourseData courseId;; clicks courseId actions)
              (initial_state, w) = (Ok tt, (st', w')) ∧
    page_ok courseId st' w' ∧ Back ∈ offered (render st') ∧
    console w' = console w ∧
    NoDup (UserProgress.lesson_id <$>
             select_user_progress (auth_uid w') (AuthUser.id user) courseId (db w')).
Proof.
  intros Hready Hs Hfresh Hc Hone.
  destruct (mount_inv courseId w user) as (Hload & Hinv & Hshown); [done..|].
  destruct (clicks_inv courseId actions _ w Hinv)
    as (st' & w' & Hrun & (Hok & _) & Hpost).
  pose proof (shown_click_post _ _ _ _ Hshown Hpost) as (Hld & He & [course Hco]).
  destruct Hpost as (_ & _ & _ & _ & Hcon & Hse & _).
  exists st', w'. rewrite (run_component_bind_Ok _ _ _ _ _ Hload).
  split_and!; [done..| |done|].
  - rewrite (offered_shown st' course) by done. by left.
  - destruct Hok as (_ & (u & Hu & _ & _ & Hp) & Hone').
    assert (u = user) as -> by congruence. by rewrite <- Hp.
Qed.

(** ** The theorems on the sample world *)

Lemma sample_fresh_source : fresh_source sample_world.
Proof.
  intros n _. change (progress_ids (db sample_world)) with ["p0"].
  unfold sample_world, sample_uuid. simpl. split.
  - rewrite list_elem_of_singleton. intros [= Heq].
    change "0" with (pretty 0) in Heq. by apply (inj pretty) in Heq.
  - intros m _ [= Heq]. by apply (inj pretty), (inj S) in Heq.
Qed.

Lemma offered_render_witness :
  Toggle "l2" ∈ offered (render sample_page) ↔
  State.loading sample_page = false ∧ State.error sample_page = "" ∧
  is_Some (State.course sample_page) ∧
  (Toggle "l2" = Back ∨
   (∃ lesson, lesson ∈ State.lessons sample_page ∧
              Toggle "l2" = Toggle (Lesson.id lesson)) ∨
   (Toggle "l2" = MarkCompleted ∧ isCourseCompleted sample_page = false)).
Proof. exact (offered_render sample_page (Toggle "l2")). Defined.

Lemma visit_in_step_witness :
  ∃ st' w',
    run (loadCourseData "c1";;
         clicks "c1" [Toggle "l1"; Toggle "l2"; MarkCompleted; Toggle "l1"])
      (initial_state, sample_world) = (Ok tt, (st', w')) ∧
    page_ok "c1" st' w' ∧ Back ∈ offered (render st') ∧
    console w' = console sample_world ∧
    NoDup (UserProgress.lesson_id <$>
             select_user_progress (auth_uid w') (AuthUser.id Sample.alice) "c1"
               (db w')).
Proof.
  apply (visit_in_step "c1" sample_world Sample.alice
           [Toggle "l1"; Toggle "l2"; MarkCompleted; Toggle "l1"]
           sample_ready eq_refl sample_fresh_source); compute_done.
Defined.

(** The scenario of the specification, clicked through on the sample
    world: a course of two lessons shows 0; the first lesson toggled, 50;
    the second, 100, and the course is not completed for that; the course
    marked complete, it is; the first lesson toggled back, 50 again, and
    the course is still completed.  Nothing is logged on the way. *)
Example scenario_two_lessons :
  ∃ s0 s1 s2 s3 s4,
    run (loadCourseData "c1") (initial_state, sample_world) = (Ok tt, s0) ∧
    progressPercentage s0.1 = Some 0%Z ∧
    run (click "c1" (Toggle "l1")) s0 = (Ok tt, s1) ∧
    progressPercentage s1.1 = Some 50%Z ∧
    run (click "c1" (Toggle "l2")) s1 = (Ok tt, s2) ∧
    progressPercentage s2.1 = Some 100%Z ∧ isCourseCompleted s2.1 = false ∧
    run (click "c1" MarkCompleted) s2 = (Ok tt, s3) ∧
    isCourseCompleted s3.1 = true ∧ progressPercentage s3.1 = Some 100%Z ∧
    run (click "c1" (Toggle "l1")) s3 = (Ok tt, s4) ∧
    progressPercentage s4.1 = Some 50%Z ∧ isCourseCompleted s4.1 = true ∧
    (MarkCompleted ∉ offered (render s4.1)) ∧ console s4.2 = [].
Proof.
  eexists _, _, _, _, _.
  repeat (split; [by vm_compute|]). split; [compute_done|by vm_compute].
Qed.
