(* ===== verification/Refinement.v ===== *)
(** * Refinement: the page implements the specification's progress

    The specification describes a user's progress in a course as a set of
    completed lessons and a completion flag of the course, changed by two
    operations: toggling a lesson and marking the course complete.  The
    code has no such object: it keeps rows, one per lesson reference, in
    the store and a copy of them in the page.  This file states the
    specification's object ([Progress], [spec_click]), reads it off a page
    ([abs]) and off the store ([stored]), and proves that a visit to the page
    changes both as the specification says.  The abstraction does not depend
    on the order of the rows, which the store does not promise. *)

From stdpp Require Import base tactics option list strings gmap.
From S2P Require Import Prelude JsNumber Schema Policy Client CourseDetail Completion Session.
Set Warnings "-clear-no-such-hyp".

(** ** The specification *)

(** A user's progress in one course. *)
Record Progress := mkProgress {
  lessons_done : gset uuid;
  course_done : bool;
}.

(** Toggling a lesson completes it when it is not completed and un-completes
    it when it is; the course's flag is independent of the lessons. *)
Definition spec_toggle (l : uuid) (p : Progress) : Progress :=
  mkProgress
    (if decide (l ∈ lessons_done p) then lessons_done p ∖ {[l]}
     else lessons_done p ∪ {[l]})
    (course_done p).

(** Marking the course complete sets its flag, and nothing un-sets it. *)
Definition spec_complete (p : Progress) : Progress :=
  mkProgress (lessons_done p) true.

(** What a click means for a course whose lessons are [ls]. *)
Definition spec_click (ls : gset uuid) (a : action) (p : Progress) : Progress :=
  match a with
  | Back => p
  | Toggle l => if decide (l ∈ ls) then spec_toggle l p else p
  | MarkCompleted => spec_complete p
  end.

Definition spec_clicks (ls : gset uuid) (actions : list action) (p : Progress) :
    Progress :=
  foldl (λ p a, spec_click ls a p) p actions.

(** The percentage: completed lessons over lessons, rounded to the nearest
    integer, 0 for a course without lessons. *)
Definition spec_percentage (ls : gset uuid) (p : Progress) : Z :=
  if decide (size ls = 0) then 0%Z
  else exact_percent (size (lessons_done p)) (size ls).

(** ** The abstraction *)

Definition lesson_set (lessons : list Lesson.t) : gset uuid :=
  list_to_set (Lesson.id <$> lessons).

(** The progress that a list of lessons and a list of rows stand for: a
    lesson is completed when some row of it is. *)
Definition progress_of (lessons : list Lesson.t) (rows : list UserProgress.t) :
    Progress :=
  mkProgress
    (list_to_set
       (Lesson.id <$>
        List.filter (λ lesson, completed_for (Some (Lesson.id lesson)) rows) lessons))
    (completed_for None rows).

(** The progress a page shows. *)
Definition abs (st : State.t) : Progress :=
  progress_of (State.lessons st) (State.progress st).

(** The progress the store holds for a user and a course. *)
Definition stored (user courseId : uuid) (db : Database) : Progress :=
  progress_of (select_lessons (Some user) courseId db)
    (select_user_progress (Some user) user courseId db).

(** What a click leaves: the invariant of the visit, and the progress the
    specification gives. *)
Definition refines (courseId : uuid) (st : State.t) (w : World) (a : action)
    (st' : State.t) (w' : World) : Prop :=
  session_inv courseId st' w' ∧ click_post st st' w w' ∧
  abs st' = spec_click (lesson_set (State.lessons st)) a (abs st).

(** ** Reading the abstraction *)

Lemma elem_of_lesson_set lessons l :
  l ∈ lesson_set lessons ↔ ∃ lesson, lesson ∈ lessons ∧ Lesson.id lesson = l.
Proof.
  unfold lesson_set. rewrite elem_of_list_to_set, list_elem_of_fmap. naive_solver.
Qed.

Lemma elem_of_lessons_done lessons rows l :
  l ∈ lessons_done (progress_of lessons rows) ↔
  l ∈ lesson_set lessons ∧ completed_for (Some l) rows = true.
Proof.
  unfold progress_of. simpl. rewrite elem_of_list_to_set, list_elem_of_fmap.
  rewrite elem_of_lesson_set. setoid_rewrite list_elem_of_In.
  setoid_rewrite filter_In. naive_solver.
Qed.

Lemma abs_done st l :
  l ∈ lessons_done (abs st) ↔
  l ∈ lesson_set (State.lessons st) ∧ isLessonCompleted st l = true.
Proof. apply elem_of_lessons_done. Qed.

(** ** What a write does to the progress shown *)

(** The flags of a page after a write, reference by reference. *)
Lemma write_post_flags courseId target st st' w w' r' t :
  write_post courseId target st st' w w' r' →
  completed_for t (State.progress st') =
  if decide (t = target) then UserProgress.completed r'
  else completed_for t (State.progress st).
Proof.
  intros Hpost. case_decide as Ht.
  - subst t. by eapply write_post_flag.
  - by eapply write_post_others.
Qed.

Lemma write_post_lesson_set courseId target st st' w w' r' :
  write_post courseId target st st' w w' r' →
  lesson_set (State.lessons st') = lesson_set (State.lessons st).
Proof. by intros (_ & _ & -> & _). Qed.

Lemma progress_eq p q :
  lessons_done p = lessons_done q → course_done p = course_done q → p = q.
Proof. destruct p, q. simpl. congruence. Qed.

Lemma abs_course st : course_done (abs st) = isCourseCompleted st.
Proof. reflexivity. Qed.

(** A toggle of a lesson of the page is the specification's toggle. *)
Lemma write_post_toggle courseId l st st' w w' r' :
  write_post courseId (Some l) st st' w w' r' →
  l ∈ lesson_set (State.lessons st) →
  UserProgress.completed r' = negb (isLessonCompleted st l) →
  abs st' = spec_toggle l (abs st).
Proof.
  intros Hpost Hl Hc. pose proof (write_post_lesson_set _ _ _ _ _ _ _ Hpost) as Hls.
  apply progress_eq; unfold spec_toggle; cbn [lessons_done course_done].
  - apply set_eq. intros x. rewrite abs_done, Hls, isLessonCompleted_for.
    rewrite (write_post_flags _ _ _ _ _ _ _ (Some x) Hpost), Hc.
    destruct (decide (l ∈ lessons_done (abs st))) as [Hd|Hd];
      rewrite ?elem_of_difference, ?elem_of_union, elem_of_singleton, abs_done;
      rewrite abs_done in Hd; case_decide; simplify_eq;
      destruct (isLessonCompleted st l) eqn:?; naive_solver.
  - by rewrite !abs_course, !isCourseCompleted_for,
      (write_post_others _ _ _ _ _ _ _ Hpost).
Qed.

(** Marking the course complete is the specification's. *)
Lemma write_post_complete courseId st st' w w' r' :
  write_post courseId None st st' w w' r' →
  UserProgress.completed r' = true →
  abs st' = spec_complete (abs st).
Proof.
  intros Hpost Hc. pose proof (write_post_lesson_set _ _ _ _ _ _ _ Hpost) as Hls.
  apply progress_eq; unfold spec_complete; cbn [lessons_done course_done].
  - apply set_eq. intros x. rewrite !abs_done, Hls, !isLessonCompleted_for.
    by rewrite (write_post_others _ _ _ _ _ _ _ Hpost).
  - by rewrite abs_course, isCourseCompleted_for,
      (write_post_flag _ _ _ _ _ _ _ Hpost).
Qed.

(** ** One click *)

Lemma offered_toggle st l :
  shown st → Toggle l ∈ offered (render st) ↔ l ∈ lesson_set (State.lessons st).
Proof.
  intros (Hld & He & [course Hc]). rewrite (offered_shown st course) by done.
  rewrite elem_of_cons, elem_of_app, list_elem_of_fmap, elem_of_lesson_set.
  destruct (isCourseCompleted st); rewrite ?elem_of_nil, ?list_elem_of_singleton;
    naive_solver.
Qed.

Lemma offered_mark st :
  shown st → MarkCompleted ∈ offered (render st) ↔ isCourseCompleted st = false.
Proof.
  intros (Hld & He & [course Hc]). rewrite (offered_shown st course) by done.
  rewrite elem_of_cons, elem_of_app, list_elem_of_fmap.
  destruct (isCourseCompleted st); rewrite ?elem_of_nil, ?list_elem_of_singleton;
    naive_solver.
Qed.

Section Click.
Context (courseId : uuid) (st : State.t) (w : World).
Context (Hinv : session_inv courseId st w) (Hshown : shown st).

Lemma toggle_refines l :
  l ∈ lesson_set (State.lessons st) →
  ∃ st' w', run (toggleLessonCompletion courseId l) (st, w) = (Ok tt, (st', w')) ∧
    refines courseId st w (Toggle l) st' w'.
Proof using Hinv Hshown.
  intros Hl. pose proof Hl as (lesson & Hin & <-)%elem_of_lesson_set.
  pose proof Hinv as (Hok & Hfresh & _). pose proof Hshown as (Hld & _).
  destruct (toggle_post courseId st w lesson Hok Hin
              (λ _, fresh_source_next w Hfresh))
    as (st' & w' & r' & -> & Hpost & Hc & _).
  exists st', w'. split; [done|]. split; [by eapply session_inv_post|].
  split; [by eapply write_post_click|]. cbn [spec_click].
  rewrite decide_True by done. by eapply write_post_toggle.
Qed.

Lemma mark_refines :
  ∃ st' w', run (markCourseCompleted courseId) (st, w) = (Ok tt, (st', w')) ∧
    refines courseId st w MarkCompleted st' w'.
Proof using Hinv Hshown.
  pose proof Hinv as (Hok & Hfresh & Hc). pose proof Hshown as (Hld & _).
  destruct (mark_post courseId st w Hok Hc (λ _, fresh_source_next w Hfresh))
    as (st' & w' & r' & -> & Hpost & Hcompleted & _).
  exists st', w'. split; [done|]. split; [by eapply session_inv_post|].
  split; [by eapply write_post_click|]. by eapply write_post_complete.
Qed.

(** A click the view does not offer changes nothing, and neither does the
    specification: the lesson is not of the course, or the course is already
    completed. *)
Lemma idle_refines a : a ∉ offered (render st) → a ≠ Back → refines courseId st w a st w.
Proof using Hinv Hshown.
  intros Ha Hback. split; [done|]. split; [apply click_post_refl|].
  destruct a as [|l|]; cbn [spec_click]; [done| |].
  - rewrite offered_toggle in Ha by done. by rewrite decide_False.
  - rewrite offered_mark in Ha by done. apply not_false_is_true in Ha.
    apply progress_eq; [done|]. by rewrite abs_course.
Qed.

Lemma click_refines a :
  ∃ st' w', run (click courseId a) (st, w) = (Ok tt, (st', w')) ∧
    refines courseId st w a st' w'.
Proof using Hinv Hshown.
  unfold click. rewrite run_component_bind, run_get_state.
  destruct (decide (a = Back)) as [->|Hback].
  { exists st, w. split; [by case_bool_decide|].
    split; [done|]. split; [apply click_post_refl|done]. }
  case_bool_decide as Ha; [|by exists st, w; auto using idle_refines].
  destruct a as [|l|]; [done| |by apply mark_refines].
  apply toggle_refines. by apply offered_toggle.
Qed.

End Click.

(** ** A visit *)

Lemma spec_clicks_cons ls a actions p :
  spec_clicks ls (a :: actions) p = spec_clicks ls actions (spec_click ls a p).
Proof. reflexivity. Qed.

Lemma clicks_refine courseId actions st w :
  session_inv courseId st w → shown st →
  ∃ st' w', run (clicks courseId actions) (st, w) = (Ok tt, (st', w')) ∧
    session_inv courseId st' w' ∧ click_post st st' w w' ∧
    abs st' = spec_clicks (lesson_set (State.lessons st)) actions (abs st).
Proof.
  revert st w. induction actions as [|a actions IH]; intros st w Hinv Hshown.
  - exists st, w. auto using click_post_refl.
  - destruct (click_refines courseId st w Hinv Hshown a)
      as (st1 & w1 & Hrun1 & Hinv1 & Hpost1 & Habs1).
    destruct (IH st1 w1 Hinv1 (shown_click_post _ _ _ _ Hshown Hpost1))
      as (st2 & w2 & Hrun2 & Hinv2 & Hpost2 & Habs2).
    exists st2, w2. cbn [clicks]. rewrite (run_component_bind_Ok _ _ _ _ _ Hrun1).
    rewrite spec_clicks_cons, <- Habs1.
    pose proof Hpost1 as (Hl & _). rewrite <- Hl, <- Habs2.
    eauto using click_post_trans.
Qed.

(** A page in step with the store shows the progress the store holds. *)
Lemma synced_abs courseId st w user :
  synced courseId st w → session w = Some user →
  abs st = stored (AuthUser.id user) courseId (db w).
Proof.
  intros (u & Hu & _ & Hl & Hp) Hs. assert (u = user) as -> by congruence.
  unfold abs, stored. by rewrite Hl, Hp, (auth_uid_session _ _ Hs).
Qed.

(** C4: a visit to the page of an existing course, with a quiet network and
    a store that holds at most one row per lesson reference, implements the
    specification: after any sequence of clicks the progress the store holds
    for the user and the course is the progress it held before, changed by
    the specification's meaning of each click in turn, and the page shows
    it. *)
Theorem visit_refines courseId w user actions :
  ready w → session w = Some user → fresh_source w →
  courseId ∈ course_ids (db w) →
  NoDup (UserProgress.lesson_id <$>
           select_user_progress (auth_uid w) (AuthUser.id user) courseId (db w)) →
  ∃ st' w', run (loadCourseData courseId;; clicks courseId actions)
              (initial_state, w) = (Ok tt, (st', w')) ∧
    stored (AuthUser.id user) courseId (db w') =
      spec_clicks
        (lesson_set (select_lessons (Some (AuthUser.id user)) courseId (db w)))
        actions (stored (AuthUser.id user) courseId (db w)) ∧
    abs st' = stored (AuthUser.id user) courseId (db w').
Proof.
  intros Hready Hs Hfresh Hc Hone.
  destruct (mount_inv courseId w user) as (Hload & Hinv & Hshown); [done..|].
  destruct (clicks_refine courseId actions _ w Hinv Hshown)
    as (st' & w' & Hrun & ((_ & Hsync' & _) & _) & Hpost & Habs).
  pose proof Hinv as ((_ & Hsync & _) & _).
  destruct Hpost as (_ & _ & _ & _ & _ & Hse & _). rewrite Hs in Hse.
  exists st', w'. rewrite (run_component_bind_Ok _ _ _ _ _ Hload).
  rewrite <- (synced_abs _ _ _ _ Hsync' Hse), Habs.
  rewrite (synced_abs _ _ _ _ Hsync Hs). split_and!; [done| |done].
  unfold mounted, loaded. simpl. by rewrite (auth_uid_session _ _ Hs).
Qed.

(** ** The percentage *)

Lemma NoDup_fmap_List_filter {A B} (f : A → B) (p : A → bool) l :
  NoDup (f <$> l) → NoDup (f <$> List.filter p l).
Proof.
  induction l as [|x l IH]; simpl; [done|]. rewrite NoDup_cons. intros [Hx Hl].
  destruct (p x); simpl; [|by auto]. rewrite NoDup_cons. split; [|by auto].
  rewrite list_elem_of_fmap in *. setoid_rewrite list_elem_of_In.
  setoid_rewrite filter_In. setoid_rewrite <- list_elem_of_In. naive_solver.
Qed.

Lemma size_lesson_set lessons :
  NoDup (Lesson.id <$> lessons) → size (lesson_set lessons) = length lessons.
Proof. intros Hnd. unfold lesson_set. by rewrite size_list_to_set, length_fmap. Qed.

Lemma size_lessons_done st :
  NoDup (Lesson.id <$> State.lessons st) →
  size (lessons_done (abs st)) = completedLessons st.
Proof.
  intros Hnd. unfold abs, progress_of. simpl.
  rewrite size_list_to_set, length_fmap by by apply NoDup_fmap_List_filter.
  done.
Qed.

(** For a course of at most [max_lessons] lessons with distinct ids,
    the percentage the page shows is the specification's percentage of the
    progress it shows, less one on the ties that binary64 loses. *)
Theorem percentage_refines st :
  NoDup (Lesson.id <$> State.lessons st) →
  length (State.lessons st) ≤ max_lessons →
  progressPercentage st =
    Some (spec_percentage (lesson_set (State.lessons st)) (abs st) -
          if is_lost_tie (size (lessons_done (abs st)))
               (size (lesson_set (State.lessons st)))
          then 1 else 0)%Z.
Proof.
  intros Hnd Hn. unfold spec_percentage.
  rewrite size_lesson_set, size_lessons_done by done.
  destruct (State.lessons st) as [|x l] eqn:Hl.
  - rewrite calculateProgress_no_lessons by done. simpl.
    by rewrite no_lost_tie_below_40 by lia.
  - rewrite <- Hl in *. assert (0 < length (State.lessons st)) by (rewrite Hl; simpl; lia).
    rewrite calculateProgress_shown by lia. by rewrite decide_False by lia.
Qed.

(** ** The order of the rows does not matter

    The store promises no order for the progress rows (the query has no
    ORDER BY), and the specification's progress has none: the abstraction
    is the same for every order of the rows and of the lessons. *)

#[export] Instance completed_for_perm target :
  Proper ((≡ₚ) ==> (=)) (completed_for target).
Proof. intros rows rows' Hp. by apply existsb_Permutation. Qed.

#[export] Instance lesson_set_perm : Proper ((≡ₚ) ==> (=)) lesson_set.
Proof.
  intros lessons lessons' Hp. unfold lesson_set. apply set_eq. intros l.
  by rewrite !elem_of_list_to_set, Hp.
Qed.

#[export] Instance progress_of_perm : Proper ((≡ₚ) ==> (≡ₚ) ==> (=)) progress_of.
Proof.
  intros lessons lessons' Hl rows rows' Hr. apply progress_eq.
  - apply set_eq. intros l. by rewrite !elem_of_lessons_done, Hl, Hr.
  - unfold progress_of. simpl. by rewrite Hr.
Qed.

(** The store's answer in another order is the same progress. *)
Lemma abs_perm st st' :
  State.lessons st ≡ₚ State.lessons st' → State.progress st ≡ₚ State.progress st' →
  abs st = abs st'.
Proof. intros Hl Hp. unfold abs. by rewrite Hl, Hp. Qed.

(** ** The theorems on the sample world *)

Lemma visit_refines_witness :
  ∃ st' w',
    run (loadCourseData "c1";;
         clicks "c1" [Toggle "l1"; Toggle "l2"; MarkCompleted; Toggle "l1"])
      (initial_state, sample_world) = (Ok tt, (st', w')) ∧
    stored "alice" "c1" (db w') =
      spec_clicks (lesson_set (select_lessons (Some "alice") "c1" Sample.db))
        [Toggle "l1"; Toggle "l2"; MarkCompleted; Toggle "l1"]
        (stored "alice" "c1" Sample.db) ∧
    abs st' = stored "alice" "c1" (db w').
Proof.
  apply (visit_refines "c1" sample_world Sample.alice
           [Toggle "l1"; Toggle "l2"; MarkCompleted; Toggle "l1"]
           sample_ready eq_refl sample_fresh_source); compute_done.
Defined.

Lemma percentage_refines_witness :
  progressPercentage half_page =
    Some (spec_percentage (lesson_set (State.lessons half_page)) (abs half_page) -
          if is_lost_tie (size (lessons_done (abs half_page)))
               (size (lesson_set (State.lessons half_page)))
          then 1 else 0)%Z.
Proof.
  apply (percentage_refines half_page); [compute_done|].
  unfold max_lessons. simpl. lia.
Defined.
