(* ===== verification/Race.v ===== *)
(** * Race: the handlers of one page, interleaved

    A handler of src/src/pages/CourseDetail.tsx is an [async] function: it
    gives control back at every [await], and the user can click again before
    it has finished.  [CourseDetail] runs each handler to its end; this file
    cuts the handlers at their awaits and lets the pieces of several handlers
    run in any order.

    A write handler awaits twice, its write request and the three reads of
    the reload ([Promise.all]), so a handler in flight is in one of three
    places ([task]): its write is on its way
    ([Writing], with the request as the click built it from the page it saw),
    its write has succeeded and the reload has not read yet ([Loading]), or
    the reads have come back and the state is not yet set ([Fetched]).  A
    click starts a handler ([start]); a handler in flight takes its next step
    when its response arrives ([advance]).

    Run one handler at a time, the pieces are the handlers of
    [CourseDetail].  Run in any order they keep the store intact and touch
    the rows of their own user only, and every handler ends after three
    steps; but two clicks on one lesson create two rows, and a reload that
    read early and sets the state late hides what a later handler wrote. *)

From stdpp Require Import base tactics option list strings.
From S2P Require Import Prelude JsNumber Schema Policy Client CourseDetail Completion Session.
Set Warnings "-clear-no-such-hyp".

(** ** Handlers in flight *)

(** The write request of a handler. *)
Inductive write_call :=
| CallInsert (n : NewProgress)
| CallUpdate (rowId : uuid) (p : ProgressPatch).

(** What [Promise.all] of the reload resolves to. *)
Record Results := mkResults {
  courseResult : response (option Course.t);
  lessonsResult : response (list Lesson.t);
  progressResult : response (list UserProgress.t);
}.

Inductive task :=
| Writing (message : string) (call : write_call)
| Loading
| Fetched (results : Results).

(** The page, the world, and the handlers in flight, oldest first. *)
Record Sys := mkSys {
  sys_page : State.t;
  sys_world : World;
  sys_tasks : list task;
}.

Definition send (call : write_call) : prog World store_error (response unit) :=
  match call with
  | CallInsert n => insert_progress n
  | CallUpdate rowId p => update_progress rowId p
  end.

(** ** The pieces of the handlers *)

(** [toggleLessonCompletion] up to its first await: the request it sends,
    built from the page the click saw. *)
Definition toggle_call (courseId lessonId : uuid) (st : State.t)
    (user : AuthUser.t) (now : timestamptz) : write_call :=
  let isCompleted := isLessonCompleted st lessonId in
  match find (for_lesson lessonId) (State.progress st) with
  | Some existingProgress =>
      CallUpdate (UserProgress.id existingProgress)
        (mkProgressPatch (negb isCompleted)
           (if negb isCompleted then Some now else None) now)
  | None =>
      CallInsert
        (mkNewProgress (AuthUser.id user) courseId (Some lessonId) true (Some now))
  end.

(** [markCourseCompleted] up to its first await. *)
Definition complete_call (courseId : uuid) (st : State.t) (user : AuthUser.t)
    (now : timestamptz) : write_call :=
  match find for_course (State.progress st) with
  | Some courseProgress =>
      CallUpdate (UserProgress.id courseProgress)
        (mkProgressPatch true (Some now) now)
  | None =>
      CallInsert (mkNewProgress (AuthUser.id user) courseId None true (Some now))
  end.

(** The request of either write handler: an update of the row the page holds
    for the reference, or an insert when it holds none. *)
Definition write_call_of (courseId : uuid) (target : option uuid)
    (patch : State.t → timestamptz → ProgressPatch) (st : State.t)
    (user : AuthUser.t) (now : timestamptz) : write_call :=
  match find (for_target target) (State.progress st) with
  | Some existing => CallUpdate (UserProgress.id existing) (patch st now)
  | None => CallInsert (first_insert user courseId target now)
  end.

(** [loadCourseData] up to its await: the three reads. *)
Definition reload_fetch (courseId : uuid) : prog World store_error Results :=
  courseResult ← fetch_course courseId;
  lessonsResult ← fetch_lessons courseId;
  user ← gets session;
  progressResult ←
    match user with
    | Some user => fetch_progress (AuthUser.id user) courseId
    | None => mret (mkResponse (Some []) None)
    end;
  mret (mkResults courseResult lessonsResult progressResult).

(** [loadCourseData] after its await. *)
Definition reload_commit (r : Results) : component State.t unit :=
  finally
    (try_catch
       (throw_if_error (courseResult r);;
        throw_if_error (lessonsResult r);;
        setCourse (default None (data (courseResult r)));;
        setLessons (default [] (data (lessonsResult r)));;
        setProgress (default [] (data (progressResult r))))
       (λ err,
        setError "Failed to load course details";;
        in_world (console_error "" err)))
    (setLoading false).

(** ** Steps *)

Definition spawn (t : task) (s : Sys) : Sys :=
  mkSys (sys_page s) (sys_world s) (sys_tasks s ++ [t]).

(** A click: the handler bound to the button starts, and runs up to its
    first await. *)
Definition start (courseId : uuid) (a : action) (s : Sys) : Sys :=
  if bool_decide (a ∈ offered (render (sys_page s))) then
    match a, session (sys_world s) with
    | Toggle lessonId, Some user =>
        spawn (Writing "Failed to update lesson progress:"
                 (toggle_call courseId lessonId (sys_page s) user
                    (client_clock (sys_world s)))) s
    | MarkCompleted, Some user =>
        spawn (Writing "Failed to mark course as completed:"
                 (complete_call courseId (sys_page s) user
                    (client_clock (sys_world s)))) s
    | _, _ => s
    end
  else s.

(** The failure of a write: the handler logs it and ends. *)
Definition failed (message : string) (e : store_error) (i : nat) (w : World)
    (s : Sys) : Sys :=
  mkSys (sys_page s) (with_console (λ c, c ++ [mkLog message e]) w)
    (delete i (sys_tasks s)).

(** The handler at position [i] takes its next step. *)
Definition advance (courseId : uuid) (i : nat) (s : Sys) : Sys :=
  match sys_tasks s !! i with
  | None => s
  | Some (Writing message call) =>
      match send call (sys_world s) with
      | (Ok r, w) =>
          match error r with
          | None => mkSys (sys_page s) w (<[i := Loading]> (sys_tasks s))
          | Some e => failed message e i w s
          end
      | (Err e, w) => failed message e i w s
      end
  | Some Loading =>
      match reload_fetch courseId (sys_world s) with
      | (Ok r, w) => mkSys (sys_page s) w (<[i := Fetched r]> (sys_tasks s))
      | (Err _, w) => mkSys (sys_page s) w (delete i (sys_tasks s))
      end
  | Some (Fetched r) =>
      let '(_, (st, w)) := reload_commit r (sys_page s, sys_world s) in
      mkSys st w (delete i (sys_tasks s))
  end.

Inductive move := Start (a : action) | Advance (i : nat).

Definition exec (courseId : uuid) (m : move) (s : Sys) : Sys :=
  match m with
  | Start a => start courseId a s
  | Advance i => advance courseId i s
  end.

Definition run_moves (courseId : uuid) (ms : list move) (s : Sys) : Sys :=
  foldl (λ s m, exec courseId m s) s ms.

(** The states a page can reach from [s0]. *)
Inductive reaches (courseId : uuid) (s0 : Sys) : Sys → Prop :=
| reaches_refl : reaches courseId s0 s0
| reaches_step s m :
    reaches courseId s0 s → reaches courseId s0 (exec courseId m s).

(** What the writes of a caller, however many, leave of a store: it is
    referentially intact, the catalogue and the identities are the same, so
    are the rows of every other account, and no progress row is gone. *)
Definition store_kept (c : caller) (db0 db : Database) : Prop :=
  db_wf db ∧ courses db = courses db0 ∧ lessons db = lessons db0 ∧
  auth_users db = auth_users db0 ∧
  (∀ r, c ≠ Some (UserProgress.user_id r) →
        r ∈ user_progress db ↔ r ∈ user_progress db0) ∧
  (∀ p, c ≠ Some (Profile.id p) → p ∈ profiles db ↔ p ∈ profiles db0) ∧
  progress_ids db0 ⊆ progress_ids db.

(** What a piece of a handler does to the world: the session stays, and the
    store is as it was or is changed by one write of the session's caller. *)
Definition world_step (w w' : World) : Prop :=
  session w' = session w ∧
  (db w' = db w ∨ ∃ req, exec_write (auth_uid w) req (db w) = Ok (db w')).

(** What every state a page reaches keeps of the world it started in. *)
Definition safe (w0 : World) (s : Sys) : Prop :=
  session (sys_world s) = session w0 ∧
  store_kept (auth_uid w0) (db w0) (db (sys_world s)).

(** The steps a handler in flight has left. *)
Definition steps_left (t : task) : nat :=
  match t with
  | Writing _ _ => 3
  | Loading => 2
  | Fetched _ => 1
  end.

Definition weight (s : Sys) : nat := sum_list (steps_left <$> sys_tasks s).

(** The oldest handler in flight steps [n] times. *)
Definition drain (n : nat) : list move := replicate n (Advance 0).

(** One handler from click to end. *)
Definition serial (courseId : uuid) (a : action) : list move :=
  [Start a; Advance 0; Advance 0; Advance 0].

(** Two clicks on the first lesson before the first handler has reloaded:
    both handlers see a page without a row for the lesson. *)
Definition double_toggle : list move :=
  [Start (Toggle "l1"); Start (Toggle "l1");
   Advance 0; Advance 1; Advance 0; Advance 0; Advance 0; Advance 0].

(** The reload of a first handler reads, a second handler runs from click to
    end, and only then the first reload sets the state. *)
Definition stale_reload : list move :=
  [Start (Toggle "l1"); Advance 0; Advance 0;
   Start (Toggle "l2"); Advance 1; Advance 1; Advance 1;
   Advance 0].

(** Alice on the page of the first course, just loaded. *)
Definition sample_sys : Sys := mkSys sample_page sample_world [].

(** ** The pieces never throw *)

(** Splits the world and the faults pending for the next three requests. *)
Ltac split_faults w :=
  let fs := fresh "fs" in
  destruct w as [? ? fs ? ? ? ? ?];
  destruct fs as [|[] [|[] [|[] ?]]].

Lemma send_Ok call w : ∃ r w', send call w = (Ok r, w').
Proof.
  destruct call; split_faults w; simpl; run_calls; repeat case_match; eauto.
Qed.

Lemma reload_fetch_Ok courseId w : ∃ r w', reload_fetch courseId w = (Ok r, w').
Proof.
  unfold reload_fetch. split_faults w; destruct session;
    run_calls; eauto.
Qed.

Lemma reload_commit_Ok r st w :
  ∃ st' w', reload_commit r (st, w) = (Ok tt, (st', w')).
Proof.
  unfold reload_commit. run_handler. repeat case_match; simplify_eq; eauto.
Qed.

(** [loadCourseData] is its two pieces, one after the other. *)
Lemma loadCourseData_pieces courseId st w r w' :
  reload_fetch courseId w = (Ok r, w') →
  run (loadCourseData courseId) (st, w) = reload_commit r (st, w').
Proof.
  unfold loadCourseData, reload_fetch, reload_commit.
  split_faults w; destruct session; run_handler; intros [= <- <-]; simpl;
    repeat case_match; simplify_eq; done.
Qed.

(** ** One handler at a time *)

Lemma toggle_call_of courseId lessonId st user now :
  toggle_call courseId lessonId st user now =
  write_call_of courseId (Some lessonId)
    (λ st now, toggle_patch (isLessonCompleted st lessonId) now) st user now.
Proof. reflexivity. Qed.

Lemma complete_call_of courseId st user now :
  complete_call courseId st user now =
  write_call_of courseId None (λ _ now, complete_patch now) st user now.
Proof. reflexivity. Qed.

Lemma run_send call st w r w1 :
  send call w = (Ok r, w1) →
  run (in_world (send call) ≫= throw_if_error : component State.t unit) (st, w) =
  match error r with
  | None => (Ok tt, (st, w1))
  | Some e => (Err e, (st, w1))
  end.
Proof.
  intros Hsend. rewrite run_component_bind, run_in_world. unfold run.
  rewrite Hsend. unfold throw_if_error. by destruct (error r).
Qed.

(** A write handler, once its request has been answered. *)
Lemma write_progress_sent courseId target patch message st w user r w1 :
  session w = Some user →
  send (write_call_of courseId target patch st user (client_clock w)) w = (Ok r, w1) →
  run (write_progress courseId target patch message) (st, w) =
  match error r with
  | None => run (loadCourseData courseId) (st, w1)
  | Some e => (Ok tt, (st, with_console (λ c, c ++ [mkLog message e]) w1))
  end.
Proof.
  intros Hs Hsend. pose proof (loadCourseData_returns courseId (st, w1)) as Hret.
  apply (run_send _ st) in Hsend. unfold write_progress.
  rewrite (run_component_bind_Ok _ _ _ (Some user) (st, w))
    by (rewrite run_in_world; unfold run, gets; by rewrite Hs).
  rewrite (run_component_bind_Ok _ _ _ st (st, w)) by done.
  assert (Hw : run (match find (for_target target) (State.progress st) with
                    | Some existing =>
                        now ← in_world Date_now;
                        r ← in_world (update_progress (UserProgress.id existing)
                                        (patch st now));
                        throw_if_error r
                    | None =>
                        now ← in_world Date_now;
                        r ← in_world (insert_progress
                                        (first_insert user courseId target now));
                        throw_if_error r
                    end : component State.t unit) (st, w) =
               match error r with
               | None => (Ok tt, (st, w1))
               | Some e => (Err e, (st, w1))
               end).
  { rewrite <- Hsend. unfold write_call_of. by destruct (find _ _). }
  destruct (error r) as [e|].
  - rewrite (run_try_catch_Err _ _ _ e (st, w1)); [done|].
    by rewrite run_component_bind, Hw.
  - destruct (run (loadCourseData courseId) (st, w1)) as [[[]|?] sw] eqn:Hl;
      [|done].
    apply run_try_catch_Ok. by rewrite run_component_bind, Hw.
Qed.


(** The steps of the oldest handler in flight. *)
Lemma advance_writing courseId message call st w ts r w1 :
  send call w = (Ok r, w1) →
  advance courseId 0 (mkSys st w (Writing message call :: ts)) =
  match error r with
  | None => mkSys st w1 (Loading :: ts)
  | Some e => mkSys st (with_console (λ c, c ++ [mkLog message e]) w1) ts
  end.
Proof.
  intros Hsend. unfold advance, failed. cbn [sys_tasks sys_world sys_page lookup list_lookup].
  rewrite Hsend. by destruct (error r).
Qed.

Lemma advance_loading courseId st w ts r w1 :
  reload_fetch courseId w = (Ok r, w1) →
  advance courseId 0 (mkSys st w (Loading :: ts)) = mkSys st w1 (Fetched r :: ts).
Proof.
  intros Hfetch. unfold advance. cbn [sys_tasks sys_world sys_page lookup list_lookup].
  by rewrite Hfetch.
Qed.

Lemma advance_fetched courseId st w ts r x st' w' :
  reload_commit r (st, w) = (x, (st', w')) →
  advance courseId 0 (mkSys st w (Fetched r :: ts)) = mkSys st' w' ts.
Proof.
  intros Hcommit. unfold advance. cbn [sys_tasks sys_world sys_page lookup list_lookup].
  by rewrite Hcommit.
Qed.

Lemma run_moves_cons courseId m ms s :
  run_moves courseId (m :: ms) s = run_moves courseId ms (exec courseId m s).
Proof. reflexivity. Qed.

(** With no handler in flight, advancing does nothing. *)
Lemma run_moves_idle courseId st w :
  run_moves courseId [Advance 0; Advance 0; Advance 0] (mkSys st w []) =
  mkSys st w [].
Proof. reflexivity. Qed.

(** The three steps of a write handler in flight alone. *)
Lemma serial_write courseId target patch message st w user :
  session w = Some user →
  ∃ st' w',
    run (write_progress courseId target patch message) (st, w) =
      (Ok tt, (st', w')) ∧
    run_moves courseId [Advance 0; Advance 0; Advance 0]
      (mkSys st w [Writing message
                     (write_call_of courseId target patch st user (client_clock w))]) =
    mkSys st' w' [].
Proof.
  intros Hs. destruct (send_Ok (write_call_of courseId target patch st user
                                  (client_clock w)) w) as (r & w1 & Hsend).
  rewrite (write_progress_sent _ _ _ _ _ _ _ _ _ Hs Hsend).
  rewrite run_moves_cons. cbn [exec]. rewrite (advance_writing _ _ _ _ _ _ _ _ Hsend).
  destruct (error r) as [e|]; [by eauto|].
  destruct (reload_fetch_Ok courseId w1) as (res & w2 & Hfetch).
  destruct (reload_commit_Ok res st w2) as (st' & w3 & Hcommit).
  rewrite (loadCourseData_pieces _ _ _ _ _ Hfetch), Hcommit.
  exists st', w3. split; [done|]. rewrite !run_moves_cons. cbn [exec run_moves foldl].
  by rewrite (advance_loading _ _ _ _ _ _ Hfetch), (advance_fetched _ _ _ _ _ _ _ _ Hcommit).
Qed.

(** With no other handler in flight, a click followed by the three steps
    of its handler is the handler of the page run to its end: it leaves the
    same page and the same world, and nothing in flight, whatever the faults
    of the network. *)
Lemma click_serial courseId a st w :
  ∃ st' w', run (click courseId a) (st, w) = (Ok tt, (st', w')) ∧
    run_moves courseId (serial courseId a) (mkSys st w []) = mkSys st' w' [].
Proof.
  unfold serial, click. rewrite run_moves_cons, run_component_bind, run_get_state.
  cbn [exec]. unfold start. cbn [sys_page sys_world].
  case_bool_decide; [|by eauto using run_moves_idle].
  destruct a as [|lessonId|], (session w) as [user|] eqn:Hs;
    try (by eauto using run_moves_idle).
  - rewrite toggleLessonCompletion_as_write, toggle_call_of.
    by apply serial_write.
  - rewrite toggleLessonCompletion_as_write, write_progress_no_session by done.
    eauto using run_moves_idle.
  - rewrite markCourseCompleted_as_write, complete_call_of.
    by apply serial_write.
  - rewrite markCourseCompleted_as_write, write_progress_no_session by done.
    eauto using run_moves_idle.
Qed.

(** ** Any order *)

Lemma store_kept_refl c db : db_wf db → store_kept c db db.
Proof. intros Hwf. by split_and!. Qed.

Lemma store_kept_write c req db0 db db' :
  store_kept c db0 db → exec_write c req db = Ok db' → store_kept c db0 db'.
Proof.
  intros (Hwf & Hc & Hl & Hu & Hr & Hp & Hids) Hexec.
  pose proof (exec_write_effect _ _ _ _ Hwf Hexec) as Heff.
  pose proof (write_effect_catalog _ _ _ Heff) as (Hc' & Hl' & Hu').
  split_and!; [by eapply write_effect_wf|congruence..| | |].
  - intros r Hne. by rewrite (write_effect_progress_isolation _ _ _ Heff r Hne), Hr.
  - intros p Hne. by rewrite (write_effect_profile_isolation _ _ _ Heff p Hne), Hp.
  - etrans; [done|]. by eapply write_effect_keeps_ids.
Qed.

Lemma world_step_refl w : world_step w w.
Proof. split; [done|by left]. Qed.

Lemma world_step_console f w w' : world_step w w' → world_step w (with_console f w').
Proof. done. Qed.

Lemma world_step_from w w1 w2 :
  session w1 = session w → db w1 = db w → world_step w1 w2 → world_step w w2.
Proof. unfold world_step, auth_uid. by intros -> ->. Qed.

Lemma apply_write_world req w x w' : apply_write req w = (x, w') → world_step w w'.
Proof.
  unfold apply_write, world_step. unfold_prog.
  destruct (exec_write _ _ _) eqn:He; intros [= <- <-]; (split; [done|]);
    [right; by exists req|by left].
Qed.

Lemma store_write_world server w r w' :
  (∀ w1 x w2, session w1 = session w → db w1 = db w →
              server w1 = (x, w2) → world_step w w2) →
  store_write server w = (r, w') → world_step w w'.
Proof.
  intros Hserver. unfold store_write, served, next_fault. unfold_prog.
  destruct (faults w) as [|[] fs].
  all: try destruct (server _) eqn:Hs.
  all: intros [= <- <-].
  all: try (eapply Hserver in Hs; [exact Hs|done..]).
  by split; [|left].
Qed.

Lemma send_world call w r w' : send call w = (r, w') → world_step w w'.
Proof.
  destruct call; apply store_write_world; intros w1 x w2 Hs Hd.
  - unfold gen_random_uuid. unfold_prog. intros H%apply_write_world.
    by eapply world_step_from, H.
  - intros H%apply_write_world. by eapply world_step_from, H.
Qed.

Lemma reload_fetch_world courseId w r w' :
  reload_fetch courseId w = (r, w') → session w' = session w ∧ db w' = db w.
Proof.
  unfold reload_fetch. split_faults w; destruct session; run_calls;
    by intros [= <- <-].
Qed.

Lemma reload_commit_world r st w x st' w' :
  reload_commit r (st, w) = (x, (st', w')) → session w' = session w ∧ db w' = db w.
Proof.
  unfold reload_commit. run_handler. intros. by repeat case_match; simplify_eq/=.
Qed.

Lemma exec_world_step courseId m s :
  world_step (sys_world s) (sys_world (exec courseId m s)).
Proof.
  destruct m as [a|i]; simpl.
  - unfold start. repeat case_match; apply world_step_refl.
  - unfold advance, failed. destruct (sys_tasks s !! i) as [[message call| |r]|];
      [|..|apply world_step_refl].
    + destruct (send call (sys_world s)) as [[r|e] w] eqn:Hsend;
        apply send_world in Hsend; [destruct (error r)|]; done.
    + destruct (reload_fetch courseId (sys_world s)) as [[r|e] w] eqn:Hfetch;
        apply reload_fetch_world in Hfetch as [? Hdb]; by split; [|left].
    + destruct (reload_commit r _) as [x [st w]] eqn:Hcommit.
      apply reload_commit_world in Hcommit as [? Hdb]. by split; [|left].
Qed.

(** A piece of a handler keeps what the page's world has kept. *)
Lemma safe_world_step w0 s s' :
  safe w0 s → world_step (sys_world s) (sys_world s') → safe w0 s'.
Proof.
  intros [Hs Hk] [Hs' Hdb].
  split; [congruence|]. destruct Hdb as [->|[req Hexec]]; [done|].
  eapply store_kept_write; [done|]. unfold auth_uid in *. by rewrite <- Hs.
Qed.

Lemma safe_exec courseId w0 m s : safe w0 s → safe w0 (exec courseId m s).
Proof. intros Hsafe. eapply safe_world_step, exec_world_step. done. Qed.

(** C12: whatever is clicked and in whatever order the handlers in flight
    take their steps, with whatever faults of the network: the session is
    the same, the store is referentially intact, its catalogue and
    identities are unchanged, the rows of every other account are what they
    were, and no progress row is gone. *)
Theorem race_safe courseId s0 s :
  db_wf (db (sys_world s0)) → reaches courseId s0 s →
  session (sys_world s) = session (sys_world s0) ∧
  store_kept (auth_uid (sys_world s0)) (db (sys_world s0)) (db (sys_world s)).
Proof.
  intros Hwf Hr. change (safe (sys_world s0) s).
  induction Hr as [|s m _ IH]; [|by apply safe_exec].
  split; [done|by apply store_kept_refl].
Qed.

(** ** Every handler ends *)

Lemma weight_insert i t t' ts :
  ts !! i = Some t →
  sum_list (steps_left <$> <[i := t']> ts) + steps_left t =
  sum_list (steps_left <$> ts) + steps_left t'.
Proof.
  revert i. induction ts as [|x ts IH]; intros [|i] Hi; simplify_eq/=; [lia|].
  specialize (IH i Hi). unfold fmap in *. lia.
Qed.

Lemma weight_delete i t ts :
  ts !! i = Some t →
  sum_list (steps_left <$> delete i ts) + steps_left t = sum_list (steps_left <$> ts).
Proof.
  revert i. induction ts as [|x ts IH]; intros [|i] Hi; simplify_eq/=; [lia|].
  specialize (IH i Hi). unfold fmap in *. lia.
Qed.

(** A step of a handler in flight, whichever it is, leaves less to do. *)
Lemma weight_advance_any courseId i s :
  i < length (sys_tasks s) → weight (advance courseId i s) < weight s.
Proof.
  intros [t Hi]%lookup_lt_is_Some. unfold advance, failed, weight. rewrite Hi.
  pose proof (weight_delete i _ _ Hi) as Hdel.
  pose proof (λ t', weight_insert i _ t' _ Hi) as Hins.
  destruct t as [message call| |r].
  - pose proof (Hins Loading).
    destruct (send _ _) as [[r|e] w]; [destruct (error r)|]; simpl in *; lia.
  - destruct (reload_fetch _ _) as [[r|e] w]; [pose proof (Hins (Fetched r))|];
      simpl in *; lia.
  - destruct (reload_commit _ _) as [x [st w]]. simpl in *. lia.
Qed.

Lemma weight_advance courseId s :
  sys_tasks s ≠ [] → weight (advance courseId 0 s) < weight s.
Proof.
  intros Hne. apply weight_advance_any. destruct (sys_tasks s); [done|simpl; lia].
Qed.

Lemma drain_weight courseId n s :
  weight s ≤ n → sys_tasks (run_moves courseId (drain n) s) = [].
Proof.
  revert s. induction n as [|n IH]; intros s Hn.
  - cbn [drain replicate run_moves foldl]. unfold weight in Hn.
    destruct (sys_tasks s) as [|[] ?]; simpl in *; [done|lia..].
  - cbn [drain replicate]. rewrite run_moves_cons. apply IH. cbn [exec].
    destruct (decide (sys_tasks s = [])) as [Hnil|Hne].
    + unfold advance. rewrite Hnil. cbn [lookup list_lookup].
      unfold weight. rewrite Hnil. simpl. lia.
    + pose proof (weight_advance courseId s Hne). lia.
Qed.

Lemma weight_bound s : weight s ≤ 3 * length (sys_tasks s).
Proof.
  unfold weight. induction (sys_tasks s) as [|[] ts IH]; simpl in *;
    unfold fmap in *; lia.
Qed.

(** Every handler in flight ends, whatever the network does: when the
    oldest handler steps three times for each handler in flight, nothing is
    left in flight. *)
Theorem handlers_end courseId s :
  sys_tasks (run_moves courseId (drain (3 * length (sys_tasks s))) s) = [].
Proof. apply drain_weight, weight_bound. Qed.

(** ** Two races on the sample world *)

(** Two clicks on a lesson before the first handler has reloaded create
    two rows for the lesson, with nothing logged; the page then holds both,
    and from then on a toggle of the lesson leaves it completed. *)
Example double_toggle_duplicates :
  sys_tasks (run_moves "c1" double_toggle sample_sys) = [] ∧
  console (sys_world (run_moves "c1" double_toggle sample_sys)) = [] ∧
  UserProgress.lesson_id <$>
    select_user_progress (Some "alice") "alice" "c1"
      (db (sys_world (run_moves "c1" double_toggle sample_sys))) =
    [Some "l1"; Some "l1"] ∧
  UserProgress.lesson_id <$>
    State.progress (sys_page (run_moves "c1" double_toggle sample_sys)) =
    [Some "l1"; Some "l1"] ∧
  isLessonCompleted
    (sys_page (run_moves "c1" (double_toggle ++ serial "c1" (Toggle "l1"))
                 sample_sys)) "l1" = true.
Proof. by vm_compute. Qed.

(** A reload that read before a later handler wrote, and sets the state
    after that handler has ended, hides the later write: nothing is in
    flight, the store holds both lessons completed, and the page shows one
    and 50 percent; a toggle of the lesson it does not show then inserts a
    second row for it. *)
Example stale_reload_hides_write :
  sys_tasks (run_moves "c1" stale_reload sample_sys) = [] ∧
  UserProgress.lesson_id <$>
    select_user_progress (Some "alice") "alice" "c1"
      (db (sys_world (run_moves "c1" stale_reload sample_sys))) =
    [Some "l1"; Some "l2"] ∧
  UserProgress.lesson_id <$>
    State.progress (sys_page (run_moves "c1" stale_reload sample_sys)) =
    [Some "l1"] ∧
  progressPercentage (sys_page (run_moves "c1" stale_reload sample_sys)) =
    Some 50%Z ∧
  UserProgress.lesson_id <$>
    select_user_progress (Some "alice") "alice" "c1"
      (db (sys_world (run_moves "c1" (stale_reload ++ serial "c1" (Toggle "l2"))
                        sample_sys))) =
    [Some "l1"; Some "l2"; Some "l2"].
Proof. by vm_compute. Qed.

(** ** The theorems on the sample world *)

Lemma race_safe_witness :
  session (sys_world (run_moves "c1" double_toggle sample_sys)) =
    session sample_world ∧
  store_kept (Some "alice") Sample.db
    (db (sys_world (run_moves "c1" double_toggle sample_sys))).
Proof.
  apply (race_safe "c1" sample_sys (run_moves "c1" double_toggle sample_sys));
    [apply sample_wf|].
  unfold double_toggle, run_moves. cbn [foldl]. repeat apply reaches_step.
  apply reaches_refl.
Defined.
