(* ===== verification/Recovery.v ===== *)
(** * Recovery: what a page in a race still holds, and how it catches up

    [Race] shows that handlers in flight can leave the page behind the
    store.  This file shows what the page holds all the same, and that the
    damage is not lasting.

    Whatever is clicked, in whatever order the handlers step and whatever the
    network loses, the data of the page are well formed ([page_typed]): the
    course is the one asked for, every lesson is a lesson of that course, and
    every progress row is a row of the session's user for that course.  It is
    an invariant of the reads: the queries carry the filters, the policies
    the ownership, and a response that fails carries no data.

    On a network that loses nothing the page keeps more ([calm]): it shows
    the course and its lessons as the store has them, every row it holds is
    still a row of the account in the store, and every request in flight is
    one the store accepts.  So the page that was once in step with the store
    can always be brought in step again ([page_catches_up]): let the handlers
    in flight end, toggle any lesson, and let that handler end. *)

From stdpp Require Import base tactics option list strings.
From S2P Require Import Prelude JsNumber Schema Policy Client CourseDetail.
From S2P Require Import Completion Session Race.
Set Warnings "-clear-no-such-hyp".

(** ** Well-formed data *)

(** The rows of a caller for a course. *)
Definition row_typed (courseId : uuid) (c : caller) (r : UserProgress.t) : Prop :=
  c = Some (UserProgress.user_id r) ∧ UserProgress.course_id r = courseId.

(** The data of a page for a course and a caller. *)
Definition page_typed (courseId : uuid) (c : caller) (st : State.t) : Prop :=
  (∀ course, State.course st = Some course → Course.id course = courseId) ∧
  Forall (λ l, Lesson.course_id l = courseId) (State.lessons st) ∧
  Forall (row_typed courseId c) (State.progress st).

(** The page a reload is about to set, on a page without a message. *)
Definition results_page (r : Results) : State.t :=
  State.mk (default None (data (courseResult r)))
    (default [] (data (lessonsResult r)))
    (default [] (data (progressResult r))) false "".

Definition task_typed (courseId : uuid) (c : caller) (t : task) : Prop :=
  match t with
  | Fetched r => page_typed courseId c (results_page r)
  | _ => True
  end.

Definition sys_typed (courseId : uuid) (c : caller) (s : Sys) : Prop :=
  page_typed courseId c (sys_page s) ∧
  Forall (task_typed courseId c) (sys_tasks s).

(** ** A network that loses nothing *)

(** The store has a row with this id, and every such row is a row of the
    account. *)
Definition owned (db : Database) (u rowId : uuid) : Prop :=
  rowId ∈ progress_ids db ∧
  ∀ r, r ∈ user_progress db → UserProgress.id r = rowId →
       UserProgress.user_id r = u.

(** The course and the lessons are those of the store, and the rows held are
    rows of the account there, whatever their flags have become. *)
Definition known (courseId : uuid) (db : Database) (u : uuid) (st : State.t) :
    Prop :=
  State.course st = head (select_course_by_id (Some u) courseId db) ∧
  State.lessons st = select_lessons (Some u) courseId db ∧
  Forall (λ r, owned db u (UserProgress.id r)) (State.progress st).

(** A request the store will accept from the account. *)
Definition call_known (courseId : uuid) (db : Database) (u : uuid)
    (call : write_call) : Prop :=
  match call with
  | CallInsert n =>
      new_user_id n = u ∧ new_course_id n = courseId ∧
      lesson_ref_ok db (new_lesson_id n)
  | CallUpdate rowId _ => owned db u rowId
  end.

Definition task_known (courseId : uuid) (db : Database) (u : uuid) (t : task) :
    Prop :=
  match t with
  | Writing _ call => call_known courseId db u call
  | Loading => True
  | Fetched r =>
      known courseId db u (results_page r) ∧
      error (courseResult r) = None ∧ error (lessonsResult r) = None
  end.

(** The page and its handlers in a world where no request is lost. *)
Definition calm (courseId : uuid) (user : AuthUser.t) (s : Sys) : Prop :=
  ready (sys_world s) ∧ fresh_source (sys_world s) ∧
  session (sys_world s) = Some user ∧
  courseId ∈ course_ids (db (sys_world s)) ∧
  State.loading (sys_page s) = false ∧ State.error (sys_page s) = "" ∧
  known courseId (db (sys_world s)) (AuthUser.id user) (sys_page s) ∧
  Forall (task_known courseId (db (sys_world s)) (AuthUser.id user)) (sys_tasks s).

(** What the writes of the clients keep of the store for a page of any
    account. *)
Definition grows (db db' : Database) : Prop :=
  courses db' = courses db ∧ lessons db' = lessons db ∧
  auth_users db' = auth_users db ∧
  ∀ u rowId, owned db u rowId → owned db' u rowId.

(** What a world keeps when a request the store accepts has been sent. *)
Definition sent (w w' : World) : Prop :=
  ready w' ∧ fresh_source w' ∧ session w' = session w ∧
  console w' = console w ∧ grows (db w) (db w').

(** The handlers in flight end. *)
Definition settle (s : Sys) : list move := drain (3 * length (sys_tasks s)).

(** The handlers in flight end, then a button is clicked and its handler
    ends. *)
Definition recover (courseId : uuid) (a : action) (s : Sys) : list move :=
  settle s ++ serial courseId a.

(** The steps a schedule takes: the moves that find a handler in flight at
    their position. *)
Fixpoint steps_taken (courseId : uuid) (ms : list move) (s : Sys) : nat :=
  match ms with
  | [] => 0
  | m :: ms =>
      match m with
      | Advance i => if decide (i < length (sys_tasks s)) then 1 else 0
      | Start _ => 0
      end + steps_taken courseId ms (exec courseId m s)
  end.

(** The clicks of a schedule. *)
Fixpoint starts (ms : list move) : nat :=
  match ms with
  | [] => 0
  | Start _ :: ms => S (starts ms)
  | Advance _ :: ms => starts ms
  end.

Ltac sys_simpl :=
  cbn [sys_page sys_world sys_tasks app insert list_insert delete list_delete] in *.

(** ** The reads *)

Lemma reload_fetch_inv courseId w r w' :
  reload_fetch courseId w = (Ok r, w') →
  session w' = session w ∧ db w' = db w ∧
  (∀ oc, data (courseResult r) = Some oc →
         maybeSingle (select_course_by_id (auth_uid w) courseId (db w)) = Ok oc) ∧
  (∀ ls, data (lessonsResult r) = Some ls →
         ls = select_lessons (auth_uid w) courseId (db w)) ∧
  (∀ rows, data (progressResult r) = Some rows →
           ∀ row, row ∈ rows →
                  ∃ user, session w = Some user ∧
                    row ∈ select_user_progress (auth_uid w) (AuthUser.id user)
                            courseId (db w)).
Proof.
  unfold reload_fetch. split_faults w; destruct session; run_calls;
    intros [= <- <-]; simpl;
    (split_and!; [done|done|intros oc Hd|intros ls Hd|intros rows Hd row Hrow]);
    simplify_eq/=; try done;
    first [revert Hd; destruct (maybeSingle _); simpl; congruence
          | by eauto | by apply elem_of_nil in Hrow].
Qed.

(** With no fault pending the reads return the course, the lessons and the
    rows of the store, as the mount's load would set them. *)
Lemma reload_fetch_quiet courseId w :
  quiet w → NoDup (course_ids (db w)) →
  ∃ r, reload_fetch courseId w = (Ok r, w) ∧
       error (courseResult r) = None ∧ error (lessonsResult r) = None ∧
       results_page r = mounted courseId w.
Proof.
  intros Hq Hnd.
  destruct (maybeSingle_course (auth_uid w) courseId (db w) Hnd) as [oc Hoc].
  destruct w as [d s f cc sc en dr co]. unfold quiet in *. simpl in *. subst f.
  unfold reload_fetch, results_page, mounted, loaded.
  destruct s; run_calls; rewrite Hoc; eexists; (split; [done|]);
    by destruct oc.
Qed.

(** What setting the state does: the data read replace the page's, or, when
    the course or the lessons could not be read, the page keeps its data and
    shows the message. *)
Lemma reload_commit_cases r st w x st' w' :
  reload_commit r (st, w) = (x, (st', w')) →
  (st' = State.mk (default None (data (courseResult r)))
           (default [] (data (lessonsResult r)))
           (default [] (data (progressResult r))) false (State.error st) ∧
   w' = w ∧ error (courseResult r) = None ∧ error (lessonsResult r) = None) ∨
  (∃ e, st' = load_failed st ∧ w' = with_console (λ c, c ++ [mkLog "" e]) w ∧
        (error (courseResult r) = Some e ∨ error (lessonsResult r) = Some e)).
Proof.
  unfold reload_commit. run_handler.
  destruct (error (courseResult r)), (error (lessonsResult r));
    intros [= <- <- <-]; eauto 6.
Qed.

(** ** The data stay well formed *)

(** What the reads return is well formed, whatever the faults. *)
Lemma reload_fetch_typed courseId w r w' :
  reload_fetch courseId w = (Ok r, w') →
  page_typed courseId (auth_uid w) (results_page r).
Proof.
  intros (_ & _ & Hc & Hl & Hp)%reload_fetch_inv. split_and!; simpl.
  - intros course Hcourse. destruct (data (courseResult r)) as [oc|]; [|done].
    simpl in Hcourse. subst oc. specialize (Hc _ eq_refl).
    destruct (select_course_by_id _ _ _) as [|c0 [|]] eqn:Hsel; simplify_eq/=.
    assert (course ∈ select_course_by_id (auth_uid w) courseId (db w)) as Hin
      by (rewrite Hsel; by left).
    unfold select_course_by_id in Hin. by apply list_elem_of_filter in Hin as [? _].
  - destruct (data (lessonsResult r)) as [ls|]; [|constructor].
    rewrite (Hl _ eq_refl). apply Forall_forall. intros l.
    destruct (auth_uid w); [by intros [_ ?]%select_lessons_elem|].
    by rewrite select_lessons_anon, elem_of_nil.
  - destruct (data (progressResult r)) as [rows|]; [|constructor].
    apply Forall_forall. intros row (user & Hs & Hrow)%(Hp _ eq_refl).
    apply select_user_progress_elem in Hrow as (_ & Hu & Hr & ?).
    split; [by rewrite Hr|done].
Qed.

Lemma page_typed_initial courseId c : page_typed courseId c initial_state.
Proof. split_and!; [done|constructor..]. Qed.

Lemma reload_commit_typed courseId c r st w x st' w' :
  reload_commit r (st, w) = (x, (st', w')) →
  page_typed courseId c (results_page r) → page_typed courseId c st →
  page_typed courseId c st'.
Proof. by intros [(-> & _)|(e & -> & _)]%reload_commit_cases. Qed.

Lemma auth_uid_kept w w' : session w' = session w → auth_uid w' = auth_uid w.
Proof. unfold auth_uid. by intros ->. Qed.

(** A step keeps the page and the handlers in flight well formed. *)
Lemma exec_typed courseId m s :
  sys_typed courseId (auth_uid (sys_world s)) s →
  sys_typed courseId (auth_uid (sys_world s)) (exec courseId m s).
Proof.
  intros [Hp Ht]. destruct m as [a|i]; simpl.
  - unfold start, spawn. repeat case_match; try done;
      (split; [done|]); apply Forall_app; by split; [|apply Forall_singleton].
  - unfold advance, failed. destruct (sys_tasks s !! i) as [[message call| |r]|] eqn:Hi;
      [| |destruct (reload_commit r _) as [x [st w]] eqn:Hcommit|done].
    + repeat case_match; (split; [done|]); simpl;
        first [by apply Forall_insert|by apply Forall_delete].
    + destruct (reload_fetch _ _) as [[r|e] w] eqn:Hfetch;
        (split; [done|]); simpl; [|by apply Forall_delete].
      apply Forall_insert; [done|]. by eapply reload_fetch_typed.
    + split; simpl; [|by apply Forall_delete].
      eapply reload_commit_typed; [done| |done].
      by eapply (Forall_lookup_1 _ _ _ _ Ht Hi).
Qed.

Lemma reaches_run_moves courseId ms s : reaches courseId s (run_moves courseId ms s).
Proof.
  induction ms as [|m ms IH] using rev_ind; [constructor|].
  unfold run_moves. rewrite foldl_app. by constructor.
Qed.

Lemma reaches_trans courseId s0 s1 s2 :
  reaches courseId s0 s1 → reaches courseId s1 s2 → reaches courseId s0 s2.
Proof. intros H1. induction 1; [done|by constructor]. Qed.

(** Whatever is clicked, in whatever order the handlers in flight take
    their steps and whatever the network loses, the data of the page are well
    formed: the course shown is the one asked for, every lesson listed is a
    lesson of it, and every progress row held is a row of the signed-in user
    for this course; so are the data every handler in flight is about to
    set. *)
Theorem race_typed courseId s0 s :
  sys_typed courseId (auth_uid (sys_world s0)) s0 → reaches courseId s0 s →
  sys_typed courseId (auth_uid (sys_world s0)) s.
Proof.
  intros H0 Hreach.
  enough (auth_uid (sys_world s) = auth_uid (sys_world s0) ∧
          sys_typed courseId (auth_uid (sys_world s0)) s) as [_ ?]; [done|].
  induction Hreach as [|s m _ [Hs IH]]; [done|].
  destruct (exec_world_step courseId m s) as [Hs' _].
  apply auth_uid_kept in Hs'. split; [congruence|].
  rewrite <- Hs in IH |- *. by apply exec_typed.
Qed.

(** ** What a write of the account keeps *)

Lemma grows_insert id now n db :
  id ∉ progress_ids db →
  grows db (with_user_progress (λ t, t ++ [progress_row id now n]) db).
Proof.
  intros Hnew. split_and!; [done..|]. intros u rowId [Hin Hown]. split.
  - unfold progress_ids. simpl. rewrite fmap_app. apply elem_of_app. by left.
  - intros r. simpl.
    intros [Hr| ->%list_elem_of_singleton]%elem_of_app; [by apply Hown|].
    simpl. by intros ->.
Qed.

Lemma grows_update (P : UserProgress.t → Prop) `{∀ r, Decision (P r)} p db :
  grows db (update_user_progress P p db).
Proof.
  split_and!; [done..|]. intros u rowId [Hin Hown]. split.
  - by rewrite progress_ids_update.
  - intros r. simpl. intros (r0 & -> & Hr0)%list_elem_of_fmap Hid.
    case_decide; simpl in *; by apply Hown.
Qed.

Lemma grows_refl db : grows db db.
Proof. by split_and!. Qed.

Lemma sent_refl w : ready w → fresh_source w → sent w w.
Proof. intros. split_and!; [done..|apply grows_refl]. Qed.

Lemma known_grows courseId u db db' st :
  grows db db' → known courseId db u st → known courseId db' u st.
Proof.
  intros (Hc & Hl & _ & Hown) (Hcourse & Hls & Hps).
  unfold known, select_course_by_id, select_lessons. rewrite !rls_select_courses,
    !rls_select_lessons, Hc, Hl. split_and!.
  - by rewrite Hcourse; unfold select_course_by_id; rewrite rls_select_courses.
  - by rewrite Hls; unfold select_lessons; rewrite rls_select_lessons.
  - eapply Forall_impl; [done|]. intros r. apply Hown.
Qed.

Lemma task_known_grows courseId u db db' t :
  grows db db' → task_known courseId db u t → task_known courseId db' u t.
Proof.
  intros Hg. destruct t as [message [n|rowId p]| |r]; simpl; [| |done|].
  - destruct Hg as (_ & Hl & _). unfold lesson_ref_ok, lesson_ids. by rewrite Hl.
  - by apply Hg.
  - intros (? & ? & ?). split_and!; [by eapply known_grows|done..].
Qed.

(** The rows a read returns are rows of the account in the store. *)
Lemma select_user_progress_owned db u courseId r :
  NoDup (progress_ids db) → r ∈ select_user_progress (Some u) u courseId db →
  owned db u (UserProgress.id r).
Proof.
  intros Hnd (Hr & _ & Hu & _)%select_user_progress_elem.
  split; [by apply list_elem_of_fmap_2|]. intros r' Hr' Hid.
  by rewrite (NoDup_fmap_key_inj UserProgress.id _ r' r Hnd Hr' Hr Hid).
Qed.

(** The page a load sets is known to the store it read. *)
Lemma mounted_known courseId w user :
  NoDup (progress_ids (db w)) → session w = Some user →
  known courseId (db w) (AuthUser.id user) (mounted courseId w).
Proof.
  intros Hnd Hs. unfold mounted, loaded. rewrite (auth_uid_session _ _ Hs), Hs.
  split_and!; [done..|]. apply Forall_forall. intros r.
  by apply select_user_progress_owned.
Qed.

(** ** A request that arrives *)

Lemma send_insert_quiet n w db' :
  quiet w →
  api_insert_user_progress (auth_uid w) (entropy w (drawn w)) (server_clock w) n
    (db w) = Ok db' →
  send (CallInsert n) w =
  (Ok (respond (Ok tt)), with_db (λ _, db') (with_drawn S w)).
Proof.
  intros Hq Hins. destruct w as [d s f cc sc en dr co].
  unfold quiet in *. simpl in *. subst f. unfold insert_progress. run_calls.
  by rewrite Hins.
Qed.

Lemma send_update_quiet rowId p w db' :
  quiet w → api_update_user_progress (auth_uid w) rowId p (db w) = Ok db' →
  send (CallUpdate rowId p) w = (Ok (respond (Ok tt)), with_db (λ _, db') w).
Proof.
  intros Hq Hupd. destruct w as [d s f cc sc en dr co].
  unfold quiet in *. simpl in *. subst f. unfold update_progress. run_calls.
  by rewrite Hupd.
Qed.

Section Send.
Context (courseId : uuid) (user : AuthUser.t) (w : World).
Context (Hready : ready w) (Hfresh : fresh_source w).
Context (Hs : session w = Some user) (Hc : courseId ∈ course_ids (db w)).

Lemma send_insert_calm n :
  call_known courseId (db w) (AuthUser.id user) (CallInsert n) →
  ∃ w', send (CallInsert n) w = (Ok (respond (Ok tt)), w') ∧
        sent w w'.
Proof using Hready Hfresh Hs Hc.
  intros (Hu & Hcourse & Hl). pose proof (auth_uid_session _ _ Hs) as Hid.
  destruct Hready as (Hq & Hwf & Hsess).
  pose proof (api_insert_user_progress_Ok (db w) (AuthUser.id user)
    (entropy w (drawn w)) (server_clock w) n Hu (proj1 (Hfresh _ (le_n _)))
    (Hsess _ Hs) ltac:(by rewrite Hcourse) Hl) as Hins.
  rewrite <- Hid in Hins. eexists. split; [by apply send_insert_quiet|].
  split_and!; [|by apply (fresh_source_inserted w)|done|done|].
  - by apply (ready_after_write
      (InsertProgress (entropy w (drawn w)) (server_clock w) n) (with_drawn S w)).
  - apply grows_insert, (Hfresh _ (le_n _)).
Qed.

Lemma send_update_calm rowId p :
  call_known courseId (db w) (AuthUser.id user) (CallUpdate rowId p) →
  ∃ w', send (CallUpdate rowId p) w = (Ok (respond (Ok tt)), w') ∧
        sent w w'.
Proof using Hready Hfresh Hs.
  intros Hown. pose proof (auth_uid_session _ _ Hs) as Hid.
  pose proof (api_update_user_progress_Ok (db w) _ rowId p (proj2 Hown)) as Hupd.
  rewrite <- Hid in Hupd. eexists. split; [by apply send_update_quiet, Hupd; apply Hready|].
  split_and!; [|by apply (world_kept_updated w rowId p)|done|done|apply grows_update].
  by apply (ready_after_write (UpdateProgress rowId p) w).
Qed.

(** In a world that loses nothing, the store accepts the request of a
    handler of the page. *)
Lemma send_calm call :
  call_known courseId (db w) (AuthUser.id user) call →
  ∃ w', send call w = (Ok (respond (Ok tt)), w') ∧ sent w w'.
Proof using Hready Hfresh Hs Hc.
  destruct call; [apply send_insert_calm|apply send_update_calm].
Qed.

End Send.

(** ** The steps in a world that loses nothing *)

Lemma write_call_known courseId target patch st user now db :
  Forall (λ r, owned db (AuthUser.id user) (UserProgress.id r)) (State.progress st) →
  lesson_ref_ok db target →
  call_known courseId db (AuthUser.id user)
    (write_call_of courseId target patch st user now).
Proof.
  intros Hps Href. unfold write_call_of.
  destruct (find _ _) as [existing|] eqn:Hfind; simpl; [|done].
  apply find_elem_of in Hfind as [Hin _].
  by apply (proj1 (Forall_forall _ _) Hps).
Qed.

Section Calm.
Context (courseId : uuid) (user : AuthUser.t) (s : Sys).
Context (Hcalm : calm courseId user s).

Lemma spawn_calm message target patch :
  lesson_ref_ok (db (sys_world s)) target →
  calm courseId user
    (spawn (Writing message
              (write_call_of courseId target patch (sys_page s) user
                 (client_clock (sys_world s)))) s).
Proof using Hcalm.
  intros Href. destruct Hcalm as (? & ? & ? & ? & ? & ? & Hk & Ht).
  pose proof Hk as (_ & _ & Hps).
  split_and!; try done. apply Forall_app. split; [done|].
  apply Forall_singleton. by apply write_call_known.
Qed.

Lemma start_calm a : calm courseId user (start courseId a s).
Proof using Hcalm.
  unfold start. case_bool_decide as Ha; [|done].
  pose proof Hcalm as (_ & _ & -> & _ & _ & _ & (_ & Hls & _) & _).
  destruct (offered_elem _ _ Ha) as [->|[(lesson & Hin & ->)|[-> _]]]; [done|..].
  - rewrite toggle_call_of. apply spawn_calm. rewrite Hls in Hin.
    apply select_lessons_elem in Hin as [Hin _]. by apply list_elem_of_fmap_2.
  - rewrite complete_call_of. by apply spawn_calm.
Qed.

Lemma writing_calm i message call :
  sys_tasks s !! i = Some (Writing message call) →
  ∃ w', send call (sys_world s) = (Ok (respond (Ok tt)), w') ∧
        sent (sys_world s) w' ∧
        calm courseId user (mkSys (sys_page s) w' (<[i := Loading]> (sys_tasks s))).
Proof using Hcalm.
  intros Hi. destruct Hcalm as (Hr & Hf & Hs & Hc & Hld & He & Hk & Ht).
  destruct (send_calm courseId user _ Hr Hf Hs Hc call
              (Forall_lookup_1 _ _ _ _ Ht Hi))
    as (w' & Hsend & Hsent).
  pose proof Hsent as (Hr' & Hf' & Hs' & Hco & Hg).
  exists w'. split_and!; [done..|]. pose proof Hg as (Hcs & _).
  unfold calm. split_and!; simpl; [done|done|congruence| |done|done|by eapply known_grows|].
  - unfold course_ids. by rewrite Hcs.
  - apply Forall_insert; [|done].
    eapply Forall_impl; [done|]. intros t. by apply task_known_grows.
Qed.

Lemma loading_calm i :
  sys_tasks s !! i = Some Loading →
  ∃ r, reload_fetch courseId (sys_world s) = (Ok r, sys_world s) ∧
       results_page r = mounted courseId (sys_world s) ∧
       calm courseId user (mkSys (sys_page s) (sys_world s)
                             (<[i := Fetched r]> (sys_tasks s))).
Proof using Hcalm.
  intros Hi. destruct Hcalm as (Hr & Hf & Hs & Hc & Hld & He & Hk & Ht).
  destruct (reload_fetch_quiet courseId (sys_world s))
    as (r & Hfetch & Hec & Hel & Hpage); [apply Hr..|].
  exists r. split_and!; [done..|]. unfold calm. simpl. split_and!; try done.
  apply Forall_insert; [done|]. split_and!; [|done..].
  rewrite Hpage. apply mounted_known; [apply Hr|done].
Qed.

Lemma fetched_calm i r x st w :
  sys_tasks s !! i = Some (Fetched r) →
  reload_commit r (sys_page s, sys_world s) = (x, (st, w)) →
  st = results_page r ∧ w = sys_world s ∧
  calm courseId user (mkSys st w (delete i (sys_tasks s))).
Proof using Hcalm.
  intros Hi Hcommit. destruct Hcalm as (Hr & Hf & Hs & Hc & Hld & He & Hk & Ht).
  destruct (Forall_lookup_1 _ _ _ _ Ht Hi) as (Hres & Hec & Hel).
  apply reload_commit_cases in Hcommit as [(-> & -> & _)|(e & _ & _ & [?|?])];
    [|congruence..].
  rewrite He. split_and!; [done..|]. unfold calm. simpl.
  split_and!; try done. by apply Forall_delete.
Qed.

Lemma advance_calm i : calm courseId user (advance courseId i s).
Proof using Hcalm.
  unfold advance.
  destruct (sys_tasks s !! i) as [[message call| |r]|] eqn:Hi; [..|done].
  - destruct (writing_calm i message call Hi) as (w' & -> & _ & Hc). done.
  - destruct (loading_calm i Hi) as (r & -> & _ & Hc). done.
  - destruct (reload_commit r _) as [x [st w]] eqn:Hcommit.
    by eapply fetched_calm.
Qed.

(** What a step leaves of the world is what a request that arrives leaves. *)
Lemma exec_sent m : sent (sys_world s) (sys_world (exec courseId m s)).
Proof using Hcalm.
  pose proof Hcalm as (Hr & Hf & _).
  destruct m as [a|i]; simpl.
  { unfold start, spawn. repeat case_match; by apply sent_refl. }
  unfold advance.
  destruct (sys_tasks s !! i) as [[message call| |r]|] eqn:Hi; [..|by apply sent_refl].
  - by destruct (writing_calm i message call Hi) as (w' & -> & Hsent & _).
  - destruct (loading_calm i Hi) as (r & -> & _). by apply sent_refl.
  - destruct (reload_commit r _) as [x [st w]] eqn:Hcommit.
    destruct (fetched_calm i r x st w Hi Hcommit) as (_ & -> & _). by apply sent_refl.
Qed.

End Calm.

Lemma exec_calm courseId user m s :
  calm courseId user s → calm courseId user (exec courseId m s).
Proof. intros H. destruct m; [by apply start_calm|by apply advance_calm]. Qed.

(** A calm page stays calm when the world around it is changed by requests
    of other pages that arrive. *)
Lemma calm_moved courseId user st ts w w' :
  calm courseId user (mkSys st w ts) →
  ready w' → fresh_source w' → session w' = session w → grows (db w) (db w') →
  calm courseId user (mkSys st w' ts).
Proof.
  intros (_ & _ & Hs & Hc & Hld & He & Hk & Ht) Hr Hf Hs' Hg. sys_simpl.
  unfold calm. sys_simpl. split_and!; [done|done|congruence| |done|done| |].
  - unfold course_ids. by rewrite (proj1 Hg).
  - by eapply known_grows.
  - eapply Forall_impl; [done|]. intros t. by apply task_known_grows.
Qed.

Lemma run_moves_calm courseId user ms s :
  calm courseId user s → calm courseId user (run_moves courseId ms s).
Proof.
  revert s. induction ms as [|m ms IH]; intros s Hs; [done|].
  rewrite run_moves_cons. by apply IH, exec_calm.
Qed.

Lemma reaches_calm courseId user s0 s :
  calm courseId user s0 → reaches courseId s0 s → calm courseId user s.
Proof. intros H0. induction 1; [done|by apply exec_calm]. Qed.

(** ** Catching up *)

(** A page in step with the store, with nothing in flight, is calm. *)
Lemma calm_start courseId st w :
  session_inv courseId st w → shown st →
  ∃ user, calm courseId user (mkSys st w []).
Proof.
  intros ((Hr & (user & Hs & Hc & Hl & Hp) & _) & Hf & Hin) (Hld & He & _).
  exists user. rewrite (auth_uid_session _ _ Hs) in *.
  unfold calm, known. simpl. split_and!; try done.
  rewrite Hp. apply Forall_forall. intros r.
  apply select_user_progress_owned, Hr.
Qed.

(** A calm page shows the course, and offers a toggle for each of its
    lessons. *)
Lemma calm_shown courseId user s : calm courseId user s → shown (sys_page s).
Proof.
  intros (_ & _ & _ & Hc & Hld & He & (Hcourse & _) & _). split_and!; [done..|].
  rewrite Hcourse. by apply course_found.
Qed.

Lemma calm_offers courseId user s lesson :
  calm courseId user s → lesson ∈ State.lessons (sys_page s) →
  Toggle (Lesson.id lesson) ∈ offered (render (sys_page s)).
Proof.
  intros (Hld & He & [course Hc])%calm_shown Hin.
  rewrite (offered_shown _ course) by done.
  apply elem_of_cons. right. apply elem_of_app. left.
  by apply (list_elem_of_fmap_2 (Toggle ∘ Lesson.id)).
Qed.

(** The handlers in flight end, and leave the page calm. *)
Lemma settle_calm courseId user s :
  calm courseId user s →
  ∃ st w, run_moves courseId (settle s) s = mkSys st w [] ∧
          calm courseId user (mkSys st w []).
Proof.
  intros Hcalm. pose proof (drain_weight courseId _ s (weight_bound s)) as Hts.
  apply (run_moves_calm _ _ (settle s)) in Hcalm. unfold settle in *.
  destruct (run_moves _ _ _) as [st w ts]. simpl in Hts. subst ts. eauto.
Qed.

(** The handler of a write button, alone on a calm page, leaves the page as
    a load of the store sets it. *)
Lemma write_calm courseId user st w message target patch :
  calm courseId user (mkSys st w []) → lesson_ref_ok (db w) target →
  ∃ w', run_moves courseId [Advance 0; Advance 0; Advance 0]
          (mkSys st w [Writing message
                         (write_call_of courseId target patch st user
                            (client_clock w))]) =
        mkSys (mounted courseId w') w' [] ∧
        calm courseId user (mkSys (mounted courseId w') w' []) ∧
        console w' = console w.
Proof.
  intros Hcalm Href.
  apply (spawn_calm _ _ _ Hcalm message target patch) in Href as H1.
  unfold spawn in H1. sys_simpl.
  destruct (writing_calm _ _ _ H1 0 _ _ eq_refl)
    as (w' & Hsend & (_ & _ & _ & Hco & _) & H2). sys_simpl.
  destruct (loading_calm _ _ _ H2 0 eq_refl) as (r & Hfetch & Hpage & H3). sys_simpl.
  destruct (reload_commit r (st, w')) as [x [st' w'']] eqn:Hcommit.
  destruct (fetched_calm _ _ _ H3 0 r x st' w'' eq_refl Hcommit) as (-> & -> & H4).
  sys_simpl. exists w'. rewrite <- Hpage. split_and!; [|done..].
  rewrite !run_moves_cons. cbn [exec].
  rewrite (advance_writing _ _ _ _ _ _ _ _ Hsend). simpl.
  by rewrite (advance_loading _ _ _ _ _ _ Hfetch),
    (advance_fetched _ _ _ _ _ _ _ _ Hcommit).
Qed.

(** A write handler run in one piece on a calm page. *)
Lemma write_progress_calm courseId user st w message target patch :
  calm courseId user (mkSys st w []) → lesson_ref_ok (db w) target →
  ∃ w', run (write_progress courseId target patch message) (st, w) =
          (Ok tt, (mounted courseId w', w')) ∧
        run_moves courseId [Advance 0; Advance 0; Advance 0]
          (mkSys st w [Writing message
                         (write_call_of courseId target patch st user
                            (client_clock w))]) =
        mkSys (mounted courseId w') w' [] ∧
        calm courseId user (mkSys (mounted courseId w') w' []) ∧
        console w' = console w.
Proof.
  intros Hcalm Href. pose proof Hcalm as (_ & _ & Hs & _). sys_simpl.
  destruct (serial_write courseId target patch message st w user Hs)
    as (st' & w1 & Hrun & Hmoves).
  destruct (write_calm _ _ _ _ message target patch Hcalm Href)
    as (w' & Hmoves' & Hcalm' & Hco).
  rewrite Hmoves in Hmoves'. injection Hmoves' as -> ->.
  rewrite Hmoves. eauto 6.
Qed.

(** A toggle on a calm page, as a schedule and as the handler run in one
    piece. *)
Lemma toggle_calm courseId user st w lesson :
  calm courseId user (mkSys st w []) → lesson ∈ State.lessons st →
  ∃ w', run_moves courseId (serial courseId (Toggle (Lesson.id lesson)))
          (mkSys st w []) = mkSys (mounted courseId w') w' [] ∧
        run (toggleLessonCompletion courseId (Lesson.id lesson)) (st, w) =
          (Ok tt, (mounted courseId w', w')) ∧
        calm courseId user (mkSys (mounted courseId w') w' []) ∧
        console w' = console w.
Proof.
  intros Hcalm Hin. pose proof (calm_offers _ _ _ _ Hcalm Hin) as Ha.
  pose proof Hcalm as (_ & _ & Hs & _ & _ & _ & (_ & Hls & _) & _).
  sys_simpl. unfold serial. rewrite run_moves_cons. cbn [exec]. unfold start.
  cbn [sys_page sys_world]. rewrite bool_decide_eq_true_2, Hs by done.
  rewrite toggle_call_of, toggleLessonCompletion_as_write.
  destruct (write_progress_calm courseId user st w
    "Failed to update lesson progress:" (Some (Lesson.id lesson))
    (λ st now, toggle_patch (isLessonCompleted st (Lesson.id lesson)) now) Hcalm)
    as (w' & Hrun & Hmoves & Hcalm' & Hco); [|by eauto 6].
  rewrite Hls in Hin. apply select_lessons_elem in Hin as [Hin _].
  by apply list_elem_of_fmap_2.
Qed.

Lemma reaches_safe courseId w0 s0 s :
  safe w0 s0 → reaches courseId s0 s → safe w0 s.
Proof. intros H0. induction 1; [done|by apply safe_exec]. Qed.

Lemma select_lessons_ext c courseId db db' :
  lessons db' = lessons db →
  select_lessons c courseId db' = select_lessons c courseId db.
Proof. intros Hl. unfold select_lessons. by rewrite !rls_select_lessons, Hl. Qed.

(** The lessons a calm page lists are those it listed at the start. *)
Lemma calm_lessons courseId user s0 s :
  calm courseId user s0 → reaches courseId s0 s → calm courseId user s →
  State.lessons (sys_page s) = State.lessons (sys_page s0).
Proof.
  intros ((_ & Hwf & _) & _ & _ & _ & _ & _ & (_ & Hl0 & _) & _) Hreach
    (_ & _ & _ & _ & _ & _ & (_ & Hl & _) & _).
  apply (reaches_safe _ (sys_world s0)) in Hreach as [_ (_ & _ & Hls & _)];
    [|split; [done|by apply store_kept_refl]].
  rewrite Hl, Hl0. by apply select_lessons_ext.
Qed.

(** A click on a calm page in step with the store: the handler succeeds,
    logs nothing, and leaves the page calm and in step. *)
Lemma click_calm courseId user st w a :
  calm courseId user (mkSys st w []) → synced courseId st w →
  ∃ st' w', run (click courseId a) (st, w) = (Ok tt, (st', w')) ∧
    calm courseId user (mkSys st' w' []) ∧ synced courseId st' w' ∧
    console w' = console w.
Proof.
  intros Hcalm Hsync. unfold click. rewrite run_component_bind, run_get_state.
  case_bool_decide as Ha; [|by eauto 7].
  pose proof Hcalm as (_ & _ & _ & _ & _ & _ & (_ & Hls & _) & _). sys_simpl.
  apply offered_elem in Ha as [->|[(lesson & Hin & ->)|[-> _]]]; [by eauto 7|..].
  - rewrite toggleLessonCompletion_as_write.
    destruct (write_progress_calm courseId user st w
      "Failed to update lesson progress:" (Some (Lesson.id lesson))
      (λ st now, toggle_patch (isLessonCompleted st (Lesson.id lesson)) now) Hcalm)
      as (w' & -> & _ & Hcalm' & Hco).
    { rewrite Hls in Hin. apply select_lessons_elem in Hin as [Hin _].
      by apply list_elem_of_fmap_2. }
    exists (mounted courseId w'), w'. split_and!; [done..| |done].
    eapply synced_loaded, Hcalm'.
  - rewrite markCourseCompleted_as_write.
    destruct (write_progress_calm courseId user st w
      "Failed to mark course as completed:" None (λ _ now, complete_patch now)
      Hcalm I) as (w' & -> & _ & Hcalm' & Hco).
    exists (mounted courseId w'), w'. split_and!; [done..| |done].
    eapply synced_loaded, Hcalm'.
Qed.

(** The page a mount leaves in a ready world is calm and in step. *)
Lemma mounted_calm courseId w user :
  ready w → fresh_source w → session w = Some user →
  courseId ∈ course_ids (db w) →
  calm courseId user (mkSys (mounted courseId w) w []) ∧
  synced courseId (mounted courseId w) w.
Proof.
  intros Hr Hf Hs Hc. split; [|by eapply synced_loaded].
  unfold calm. sys_simpl. split_and!; try done.
  apply mounted_known; [apply Hr|done].
Qed.

(** The first load of a page, alone in a world that loses nothing. *)
Lemma mount_loads courseId w :
  quiet w → NoDup (course_ids (db w)) →
  run_moves courseId [Advance 0; Advance 0] (mkSys initial_state w [Loading]) =
  mkSys (mounted courseId w) w [].
Proof.
  intros Hq Hnd.
  destruct (reload_fetch_quiet courseId w Hq Hnd) as (r & Hfetch & Hec & Hel & Hpage).
  destruct (reload_commit r (initial_state, w)) as [x [st' w']] eqn:Hcommit.
  rewrite !run_moves_cons. cbn [exec].
  rewrite (advance_loading _ _ _ _ _ _ Hfetch). simpl.
  rewrite (advance_fetched _ _ _ _ _ _ _ _ Hcommit). simpl.
  apply reload_commit_cases in Hcommit as [(-> & -> & _)|(e & _ & _ & [?|?])];
    [|congruence..].
  by rewrite <- Hpage.
Qed.

Lemma run_moves_app courseId ms1 ms2 s :
  run_moves courseId (ms1 ++ ms2) s =
  run_moves courseId ms2 (run_moves courseId ms1 s).
Proof. apply foldl_app. Qed.

(** C13: on a network that loses nothing, a page that was in step with the
    store when it had nothing in flight can always be brought in step again,
    whatever has been clicked since and in whatever order the handlers have
    stepped: once the handlers in flight have ended, the page still shows the
    course and offers a toggle for every lesson, and the handler of any such
    toggle, run to its end, leaves nothing in flight and the page in step
    with the store. *)
Theorem page_catches_up courseId st w s lesson :
  session_inv courseId st w → shown st →
  reaches courseId (mkSys st w []) s → lesson ∈ State.lessons st →
  Toggle (Lesson.id lesson) ∈
    offered (render (sys_page (run_moves courseId (settle s) s))) ∧
  sys_tasks (run_moves courseId
               (recover courseId (Toggle (Lesson.id lesson)) s) s) = [] ∧
  synced courseId
    (sys_page (run_moves courseId
                 (recover courseId (Toggle (Lesson.id lesson)) s) s))
    (sys_world (run_moves courseId
                  (recover courseId (Toggle (Lesson.id lesson)) s) s)) ∧
  shown (sys_page (run_moves courseId
                     (recover courseId (Toggle (Lesson.id lesson)) s) s)).
Proof.
  intros Hinv Hshown Hreach Hin. destruct (calm_start _ _ _ Hinv Hshown) as [user H0].
  pose proof (reaches_calm _ _ _ _ H0 Hreach) as Hs.
  destruct (settle_calm _ _ _ Hs) as (st1 & w1 & Hrun & H1).
  assert (reaches courseId (mkSys st w []) (mkSys st1 w1 [])) as Hreach1.
  { eapply reaches_trans; [done|]. rewrite <- Hrun. apply reaches_run_moves. }
  pose proof (calm_lessons _ _ _ _ H0 Hreach1 H1) as Hls. sys_simpl.
  rewrite <- Hls in Hin.
  destruct (toggle_calm _ _ _ _ _ H1 Hin) as (w' & Hrun' & _ & H2 & _).
  unfold recover. rewrite run_moves_app, Hrun, Hrun'. sys_simpl.
  split_and!; [by apply (calm_offers _ _ _ _ H1)|done| |by apply (calm_shown _ _ _ H2)].
  eapply synced_loaded, H2.
Qed.

(** ** The work of a schedule *)

(** A click adds at most the three steps of its handler. *)
Lemma weight_start courseId a s : weight (start courseId a s) ≤ weight s + 3.
Proof.
  unfold start, spawn, weight. repeat case_match; simpl; try lia;
    rewrite fmap_app, sum_list_with_app; simpl; lia.
Qed.

Lemma work_exec courseId m s :
  steps_taken courseId [m] s + weight (exec courseId m s) ≤
  weight s + 3 * starts [m].
Proof.
  destruct m as [a|i]; simpl.
  - pose proof (weight_start courseId a s). lia.
  - case_decide as Hi; [pose proof (weight_advance_any courseId i s Hi); lia|].
    unfold advance. rewrite lookup_ge_None_2 by lia. lia.
Qed.

(** C31: whatever is clicked and in whatever order the handlers in flight
    take their steps, with whatever faults of the network, a schedule takes
    at most three steps for each handler in flight at its start and three
    for each click in it, less what is still to do at its end: every handler
    ends after three steps of its own, and no order of steps makes a handler
    run for ever. *)
Theorem work_bound courseId ms s :
  steps_taken courseId ms s + weight (run_moves courseId ms s) ≤
  weight s + 3 * starts ms.
Proof.
  revert s. induction ms as [|m ms IH]; intros s; [simpl; lia|].
  rewrite run_moves_cons. specialize (IH (exec courseId m s)).
  pose proof (work_exec courseId m s). destruct m; simpl in *; lia.
Qed.

(** ** The theorems on the sample world *)

Lemma race_typed_witness :
  sys_typed "c1" (Some "alice") (run_moves "c1" stale_reload sample_sys).
Proof.
  apply (race_typed "c1" sample_sys); [|apply reaches_run_moves].
  split; [|constructor]. split_and!; [by intros ? [= <-]|repeat constructor..].
Defined.

Lemma page_catches_up_witness :
  Toggle "l2" ∈
    offered (render (sys_page
      (run_moves "c1" (settle (run_moves "c1" stale_reload sample_sys))
         (run_moves "c1" stale_reload sample_sys)))) ∧
  sys_tasks (run_moves "c1"
               (recover "c1" (Toggle "l2") (run_moves "c1" stale_reload sample_sys))
               (run_moves "c1" stale_reload sample_sys)) = [] ∧
  synced "c1"
    (sys_page (run_moves "c1"
                 (recover "c1" (Toggle "l2") (run_moves "c1" stale_reload sample_sys))
                 (run_moves "c1" stale_reload sample_sys)))
    (sys_world (run_moves "c1"
                  (recover "c1" (Toggle "l2") (run_moves "c1" stale_reload sample_sys))
                  (run_moves "c1" stale_reload sample_sys))) ∧
  shown (sys_page (run_moves "c1"
                     (recover "c1" (Toggle "l2") (run_moves "c1" stale_reload sample_sys))
                     (run_moves "c1" stale_reload sample_sys))).
Proof.
  apply (page_catches_up "c1" sample_page sample_world
           (run_moves "c1" stale_reload sample_sys) Sample.l2).
  - split; [apply sample_page_ok|]. split; [apply sample_fresh_source|compute_done].
  - split_and!; [done..|]. by eexists.
  - apply reaches_run_moves.
  - compute_done.
Defined.

Lemma work_bound_witness :
  steps_taken "c1" stale_reload sample_sys +
  weight (run_moves "c1" stale_reload sample_sys) ≤
  weight sample_sys + 3 * starts stale_reload.
Proof. exact (work_bound "c1" stale_reload sample_sys). Defined.
