(* ===== verification/Lifecycle.v ===== *)
(** * Lifecycle: leaving the course page with handlers in flight

    src/src/pages/CourseDetail.tsx cancels nothing: when the user goes back
    to the list while a handler of the course page is in flight, the handler
    runs on.  Its write still reaches the store and its reload still reads;
    what it sets is the state of an instance that is no longer mounted, and
    is lost.  When the user opens a course again a new instance is mounted
    with fresh state hooks, and its effect loads.

    A tab holds the course page that is mounted, if any, as a system of
    [Race] (the page, the world, the handlers of this instance in flight)
    and beside it the handlers of earlier instances still in flight
    ([tab_orphans]), each with the course of its instance.  The handlers of
    the mounted instance step as in [Race]; an orphan steps on a state of its
    own and shares only the world. *)

From stdpp Require Import base tactics option list strings.
From S2P Require Import Prelude JsNumber Schema Policy Client CourseDetail.
From S2P Require Import Completion Session Race Recovery.
Set Warnings "-clear-no-such-hyp".

(** ** State *)

Record Tab := mkTab {
  tab_course : option uuid;
  tab_sys : Sys;
  tab_orphans : list (uuid * task);
}.

Inductive tab_move :=
| Enter (courseId : uuid)
| Press (a : action)
| Step (i : nat)
| Drift (i : nat).

(** ** Steps *)

(** The course page is mounted: fresh state hooks, and the effect starts
    [loadCourseData], which runs up to its await. *)
Definition enter (courseId : uuid) (t : Tab) : Tab :=
  match tab_course t with
  | Some _ => t
  | None =>
      mkTab (Some courseId)
        (mkSys initial_state (sys_world (tab_sys t)) [Loading])
        (tab_orphans t)
  end.

(** [onBack]: the page is unmounted, and its handlers in flight run on
    without it. *)
Definition leave (courseId : uuid) (t : Tab) : Tab :=
  mkTab None
    (mkSys initial_state (sys_world (tab_sys t)) [])
    (tab_orphans t ++ ((λ task, (courseId, task)) <$> sys_tasks (tab_sys t))).

(** A click on the page that is mounted. *)
Definition press (a : action) (t : Tab) : Tab :=
  match tab_course t with
  | None => t
  | Some courseId =>
      match a with
      | Back =>
          if bool_decide (Back ∈ offered (render (sys_page (tab_sys t))))
          then leave courseId t else t
      | _ => mkTab (tab_course t) (start courseId a (tab_sys t)) (tab_orphans t)
      end
  end.

(** A handler of the mounted instance takes its next step. *)
Definition step (i : nat) (t : Tab) : Tab :=
  match tab_course t with
  | None => t
  | Some courseId =>
      mkTab (tab_course t) (advance courseId i (tab_sys t)) (tab_orphans t)
  end.

(** The state hooks of an instance that is no longer mounted: what is set
    there is seen by nobody. *)
Definition unmounted : State.t := initial_state.

(** An orphan takes its next step: on the world, and on its own state. *)
Definition drift (i : nat) (t : Tab) : Tab :=
  match tab_orphans t !! i with
  | None => t
  | Some (courseId, task) =>
      let s := advance courseId 0 (mkSys unmounted (sys_world (tab_sys t)) [task]) in
      mkTab (tab_course t)
        (mkSys (sys_page (tab_sys t)) (sys_world s) (sys_tasks (tab_sys t)))
        (match sys_tasks s with
         | [] => delete i (tab_orphans t)
         | task' :: _ => <[i := (courseId, task')]> (tab_orphans t)
         end)
  end.

Definition tab_exec (m : tab_move) (t : Tab) : Tab :=
  match m with
  | Enter courseId => enter courseId t
  | Press a => press a t
  | Step i => step i t
  | Drift i => drift i t
  end.

Definition tab_run (ms : list tab_move) (t : Tab) : Tab :=
  foldl (λ t m, tab_exec m t) t ms.

(** A tab on the list of courses, with nothing in flight. *)
Definition tab_start (w : World) : Tab := mkTab None (mkSys initial_state w []) [].

(** ** What a tab keeps *)

(** The data of the page mounted are those of its course and of the caller,
    and so are the data every handler in flight is about to set, each for
    the course of its instance. *)
Definition tab_typed (c : caller) (t : Tab) : Prop :=
  match tab_course t with
  | Some courseId => sys_typed courseId c (tab_sys t)
  | None => sys_tasks (tab_sys t) = []
  end ∧
  Forall (λ o, task_typed o.1 c o.2) (tab_orphans t).

(** ** The sample schedules *)

(** Alice toggles the first lesson and goes back at once; the handler
    runs to its end; she opens the course again and the page loads. *)
Definition leave_early : list tab_move :=
  [Enter "c1"; Step 0; Step 0; Press (Toggle "l1"); Press Back;
   Drift 0; Drift 0; Drift 0; Enter "c1"; Step 0; Step 0].

(** She opens the course again before the write has been sent: the new
    page reads, the write lands, and the page sets what it read. *)
Definition back_too_soon : list tab_move :=
  [Enter "c1"; Step 0; Step 0; Press (Toggle "l1"); Press Back;
   Enter "c1"; Step 0; Drift 0; Drift 0; Drift 0; Step 0].

(** ** The world of a tab *)

(** Whatever a tab does, its world takes a step of a handler: the session
    stays, and the store is as it was or changed by one write of the
    session's caller. *)
Lemma tab_exec_world m t :
  world_step (sys_world (tab_sys t)) (sys_world (tab_sys (tab_exec m t))).
Proof.
  destruct m as [courseId|a|i|i]; simpl.
  - unfold enter. destruct (tab_course t); apply world_step_refl.
  - unfold press, leave. destruct (tab_course t) as [courseId|];
      [|apply world_step_refl].
    destruct a; [case_bool_decide; apply world_step_refl|..];
      apply (exec_world_step courseId (Start _)).
  - unfold step. destruct (tab_course t) as [courseId|]; [|apply world_step_refl].
    apply (exec_world_step courseId (Advance i)).
  - unfold drift. destruct (tab_orphans t !! i) as [[courseId task]|];
      [|apply world_step_refl].
    apply (exec_world_step courseId (Advance 0)
             (mkSys unmounted (sys_world (tab_sys t)) [task])).
Qed.

Lemma tab_run_cons m ms t : tab_run (m :: ms) t = tab_run ms (tab_exec m t).
Proof. reflexivity. Qed.

Lemma tab_run_safe w0 ms t :
  safe w0 (tab_sys t) → safe w0 (tab_sys (tab_run ms t)).
Proof.
  revert t. induction ms as [|m ms IH]; intros t Hsafe; [done|].
  rewrite tab_run_cons. apply IH. eapply safe_world_step, tab_exec_world. done.
Qed.

(** Leaving the course page cancels nothing and harms nothing.  Whatever
    the user does in a tab (open a course, click, go back with handlers in
    flight, open a course again) and in whatever order the handlers of the
    page and those left behind take their steps, under whatever faults: the
    session is the same, the store is referentially intact, its catalogue
    and identities are unchanged, the rows of every other account are what
    they were, and no progress row is gone. *)
Theorem tab_safe w ms :
  db_wf (db w) →
  session (sys_world (tab_sys (tab_run ms (tab_start w)))) = session w ∧
  store_kept (auth_uid w) (db w)
    (db (sys_world (tab_sys (tab_run ms (tab_start w))))).
Proof.
  intros Hwf. apply (tab_run_safe w ms (tab_start w)).
  split; [done|by apply store_kept_refl].
Qed.

(** ** The data of a tab stay well formed *)

Section Typed.
Context (c : caller) (t : Tab).
Context (Hc : auth_uid (sys_world (tab_sys t)) = c) (Htyped : tab_typed c t).

Lemma enter_typed courseId : tab_typed c (enter courseId t).
Proof using Htyped.
  unfold enter. destruct (tab_course t) eqn:Hcourse; [done|].
  unfold tab_typed in *. rewrite Hcourse in Htyped.
  destruct Htyped as [_ Ho]. simpl. split; [|done].
  split; [apply page_typed_initial|by apply Forall_singleton].
Qed.

Lemma leave_typed courseId :
  tab_course t = Some courseId → tab_typed c (leave courseId t).
Proof using Htyped.
  intros Hcourse. unfold leave, tab_typed in *. rewrite Hcourse in Htyped.
  destruct Htyped as [[_ Hts] Ho]. simpl. split; [done|].
  apply Forall_app. split; [done|]. by apply Forall_fmap.
Qed.

Lemma press_typed a : tab_typed c (press a t).
Proof using Hc Htyped.
  unfold press. destruct (tab_course t) as [courseId|] eqn:Hcourse; [|done].
  destruct a; [case_bool_decide; [by apply leave_typed|done]|..];
    unfold tab_typed in *; rewrite Hcourse in *; simpl;
    (split; [|apply Htyped]); subst c;
    apply (exec_typed courseId (Start _)), Htyped.
Qed.

Lemma step_typed i : tab_typed c (step i t).
Proof using Hc Htyped.
  unfold step. destruct (tab_course t) as [courseId|] eqn:Hcourse; [|done].
  unfold tab_typed in *. rewrite Hcourse in *. simpl.
  split; [|apply Htyped]. subst c. apply (exec_typed courseId (Advance i)), Htyped.
Qed.

Lemma drift_typed i : tab_typed c (drift i t).
Proof using Hc Htyped.
  unfold drift. destruct (tab_orphans t !! i) as [[courseId task]|] eqn:Hi; [|done].
  destruct Htyped as [Hlive Ho]. pose proof (Forall_lookup_1 _ _ _ _ Ho Hi) as Htask.
  assert (sys_typed courseId c
            (advance courseId 0 (mkSys unmounted (sys_world (tab_sys t)) [task])))
    as [_ Hts].
  { subst c. apply (exec_typed courseId (Advance 0) (mkSys _ _ _)).
    split; [apply page_typed_initial|by apply Forall_singleton]. }
  unfold tab_typed. simpl. split.
  - destruct (tab_course t); [|done]. by destruct Hlive.
  - destruct (sys_tasks (advance _ _ _)) as [|task' ?]; [by apply Forall_delete|].
    apply Forall_insert; [done|]. by apply Forall_cons in Hts as [? _].
Qed.

Lemma tab_exec_typed m : tab_typed c (tab_exec m t).
Proof using Hc Htyped.
  destruct m; [apply enter_typed|apply press_typed|apply step_typed|apply drift_typed].
Qed.

End Typed.

Lemma tab_run_typed c ms t :
  auth_uid (sys_world (tab_sys t)) = c → tab_typed c t →
  auth_uid (sys_world (tab_sys (tab_run ms t))) = c ∧ tab_typed c (tab_run ms t).
Proof.
  revert t. induction ms as [|m ms IH]; intros t Hc Ht; [done|].
  rewrite tab_run_cons. apply IH; [|by apply tab_exec_typed].
  destruct (tab_exec_world m t) as [Hs _]. by rewrite (auth_uid_kept _ _ Hs).
Qed.

(** What an earlier instance of the page loaded never shows on a later
    one.  Whatever the user does in a tab and in whatever order the handlers
    step, under whatever faults, the page that is mounted shows the course it
    was opened for, lessons of that course and progress rows of the signed-in
    user for that course, though handlers of other courses are in flight
    beside it; without a page nothing of the page is in flight. *)
Theorem tab_pages_typed w ms :
  tab_typed (auth_uid w) (tab_run ms (tab_start w)).
Proof. by apply (tab_run_typed (auth_uid w) ms (tab_start w)). Qed.

(** An orphan acts on the store and on nothing else: its step leaves
    the page that is mounted and its handlers as they are, and takes the
    world one step of a handler further; its reload sets nothing. *)
Theorem orphan_sets_nothing i t :
  tab_course (drift i t) = tab_course t ∧
  sys_page (tab_sys (drift i t)) = sys_page (tab_sys t) ∧
  sys_tasks (tab_sys (drift i t)) = sys_tasks (tab_sys t) ∧
  world_step (sys_world (tab_sys t)) (sys_world (tab_sys (drift i t))) ∧
  length (tab_orphans (drift i t)) ≤ length (tab_orphans t).
Proof.
  split_and!; [..|apply (tab_exec_world (Drift i))|];
    unfold drift; destruct (tab_orphans t !! i) as [[courseId task]|] eqn:Hi;
    try done.
  simpl. destruct (sys_tasks (advance _ _ _));
    [rewrite length_delete by eauto; lia|by rewrite length_insert].
Qed.

(** ** Two visits on the sample world *)

(** A write outlives its page: Alice toggles the first lesson and goes
    back before the request is sent; the handler runs on, the store takes
    the row, nothing is logged, and when she opens the course again the page
    shows the lesson completed and 50 percent. *)
Example write_outlives_page :
  tab_orphans (tab_run leave_early (tab_start sample_world)) = [] ∧
  sys_tasks (tab_sys (tab_run leave_early (tab_start sample_world))) = [] ∧
  console (sys_world (tab_sys (tab_run leave_early (tab_start sample_world)))) = [] ∧
  isLessonCompleted
    (sys_page (tab_sys (tab_run leave_early (tab_start sample_world)))) "l1" = true ∧
  progressPercentage
    (sys_page (tab_sys (tab_run leave_early (tab_start sample_world)))) = Some 50%Z.
Proof. by vm_compute. Qed.

(** Coming back too soon shows the course as it was: when the page is
    opened again before the write of the page left behind has been sent, and
    reads before it lands, it ends up showing the lesson not completed, with
    nothing in flight and nothing logged, while the store holds it
    completed; a toggle of the lesson then inserts a second row. *)
Example back_too_soon_stale :
  tab_orphans (tab_run back_too_soon (tab_start sample_world)) = [] ∧
  sys_tasks (tab_sys (tab_run back_too_soon (tab_start sample_world))) = [] ∧
  console (sys_world (tab_sys (tab_run back_too_soon (tab_start sample_world)))) = [] ∧
  isLessonCompleted
    (sys_page (tab_sys (tab_run back_too_soon (tab_start sample_world)))) "l1" = false ∧
  UserProgress.lesson_id <$>
    select_user_progress (Some "alice") "alice" "c1"
      (db (sys_world (tab_sys (tab_run back_too_soon (tab_start sample_world))))) =
    [Some "l1"] ∧
  UserProgress.lesson_id <$>
    select_user_progress (Some "alice") "alice" "c1"
      (db (sys_world (tab_sys
        (tab_run (back_too_soon ++ [Press (Toggle "l1"); Step 0; Step 0; Step 0])
           (tab_start sample_world))))) =
    [Some "l1"; Some "l1"].
Proof. by vm_compute. Qed.

Lemma tab_safe_witness :
  session (sys_world (tab_sys (tab_run back_too_soon (tab_start sample_world)))) =
    session sample_world ∧
  store_kept (auth_uid sample_world) (db sample_world)
    (db (sys_world (tab_sys (tab_run back_too_soon (tab_start sample_world))))).
Proof. apply (tab_safe sample_world back_too_soon), sample_wf. Defined.
