(* ===== verification/Faults.v ===== *)
(** * Faults: what a lossy network does to a page, and what it cannot do

    [Recovery] shows what a page keeps on a network that loses nothing.
    This file is about the network that does lose requests and responses.
    A request that is lost is seen by the page as a network error, whether
    or not the store has applied it; [Completion] and [Race] show the damage
    (a retry that duplicates a row, a page left behind).

    What the faults cannot cause is a refusal: however the handlers of a
    page step and whatever is lost, every request of the page that reaches
    the store is one the store accepts ([held]): the rows it updates are
    rows of its account, the lessons it inserts rows for are lessons of the
    store, and the one course it asks for is unique.  So every error the
    page logs is the network's ([only_network_errors]), and the two readings
    of the policies ([Postgres]) are the same to the page. *)

From stdpp Require Import base tactics option list strings.
From S2P Require Import Prelude JsNumber Schema Policy Postgres Client.
From S2P Require Import CourseDetail Completion Session Race Recovery.
Set Warnings "-clear-no-such-hyp".

(** ** A world up to its faults *)

(** The world with a network that loses nothing. *)
Definition hush (w : World) : World := with_faults (λ _, []) w.

(** What a world keeps whatever the network does: a store that is intact,
    identifiers that are new, and an identity for the session. *)
Definition settled (w : World) : Prop :=
  db_wf (db w) ∧ fresh_source w ∧
  ∀ user, session w = Some user → AuthUser.id user ∈ auth_user_ids (db w).

(** The response carries data, or the error of the network. *)
Definition network_only {A} (r : response A) : Prop :=
  error r = None ∨ error r = Some network_error.

Definition only_network (log : list log_entry) : Prop :=
  Forall (λ e, log_error e = network_error) log.

(** ** What a page holds under any faults *)

(** The lessons listed are lessons of the store, and the rows held are rows
    of the account there. *)
Definition page_held (db : Database) (u : uuid) (st : State.t) : Prop :=
  Forall (λ l, Lesson.id l ∈ lesson_ids db) (State.lessons st) ∧
  Forall (λ r, owned db u (UserProgress.id r)) (State.progress st).

Definition task_held (courseId : uuid) (db : Database) (u : uuid) (t : task) :
    Prop :=
  match t with
  | Writing _ call => call_known courseId db u call
  | Loading => True
  | Fetched r =>
      page_held db u (results_page r) ∧
      network_only (courseResult r) ∧ network_only (lessonsResult r)
  end.

(** The page and its handlers, whatever the network has lost. *)
Definition holds (courseId : uuid) (user : AuthUser.t) (s : Sys) : Prop :=
  settled (sys_world s) ∧ session (sys_world s) = Some user ∧
  courseId ∈ course_ids (db (sys_world s)) ∧
  page_held (db (sys_world s)) (AuthUser.id user) (sys_page s) ∧
  Forall (task_held courseId (db (sys_world s)) (AuthUser.id user)) (sys_tasks s).

(** What has been logged and what is shown is the network's. *)
Definition logs_network (s : Sys) : Prop :=
  only_network (console (sys_world s)) ∧
  State.error (sys_page s) ∈ [""; "Failed to load course details"].

Definition held (courseId : uuid) (user : AuthUser.t) (s : Sys) : Prop :=
  holds courseId user s ∧ logs_network s.

(** What a step has logged is the network's. *)
Definition logged_network (w w' : World) : Prop :=
  ∃ log, console w' = console w ++ log ∧ only_network log.

(** A step of a page that holds: the page holds after it, the store has
    grown, what the step has logged is the network's, and the message shown
    is still that of a failed load, if any. *)
Definition kept (courseId : uuid) (user : AuthUser.t) (s s' : Sys) : Prop :=
  holds courseId user s' ∧ grows (db (sys_world s)) (db (sys_world s')) ∧
  logged_network (sys_world s) (sys_world s') ∧
  (State.error (sys_page s) ∈ [""; "Failed to load course details"] →
   State.error (sys_page s') ∈ [""; "Failed to load course details"]).

(** The request the store runs when a call of a handler arrives now. *)
Definition request_of (w : World) (call : write_call) : write_request :=
  match call with
  | CallInsert n => InsertProgress (entropy w (drawn w)) (server_clock w) n
  | CallUpdate rowId p => UpdateProgress rowId p
  end.

(** A lossy world: the response to the first request is lost after the
    store has applied it, the second request is lost before. *)
Definition lossy : World :=
  mkWorld Sample.db (Some Sample.alice) [response_lost; request_lost]
    1000%Z 2000%Z sample_uuid 0 [].

(** Two toggles of the first lesson, each handler run to its end, then a
    third click. *)
Definition retries : list move :=
  serial "c1" (Toggle "l1") ++ serial "c1" (Toggle "l1") ++
  serial "c1" (Toggle "l1").

(** ** Requests on a lossy network *)

Lemma hush_quiet w : quiet w → hush w = w.
Proof. destruct w. unfold quiet, hush. simpl. by intros ->. Qed.

(** A write is lost before the store sees it, or reaches the store as on a
    network that loses nothing, with its response lost or not. *)
Lemma send_cases call w :
  (∃ fs, send call w =
         (Ok (respond (Err network_error)), with_faults (λ _, fs) w)) ∨
  (∃ r0 w0 r fs, send call (hush w) = (Ok r0, w0) ∧
     send call w = (Ok r, with_faults (λ _, fs) w0) ∧
     (r = r0 ∨ r = respond (Err network_error))).
Proof.
  destruct call, w as [d s [|[] fs] cc sc en dr co]; unfold hush; simpl;
    run_calls; repeat case_match; simplify_eq; eauto 10.
Qed.

(** The reads leave the world as it is up to the faults they consume, and
    on a store with unique course ids they fail only as the network
    fails. *)
Lemma reload_fetch_faults courseId w r w' :
  reload_fetch courseId w = (Ok r, w') →
  (∃ fs, w' = with_faults (λ _, fs) w) ∧
  (NoDup (course_ids (db w)) →
   network_only (courseResult r) ∧ network_only (lessonsResult r)).
Proof.
  intros Hfetch. split.
  - revert Hfetch. unfold reload_fetch. split_faults w; destruct session;
      run_calls; intros [= <- <-]; by eexists.
  - intros Hnd.
    destruct (maybeSingle_course (auth_uid w) courseId (db w) Hnd) as [oc Hoc].
    revert Hfetch. unfold reload_fetch, network_only.
    split_faults w; destruct session; run_calls; rewrite ?Hoc;
      intros [= <- <-]; destruct oc; simpl; auto.
Qed.

Lemma settled_hush w : settled w → ready (hush w) ∧ fresh_source (hush w).
Proof. intros (? & ? & ?). by split_and!. Qed.

Lemma settled_faults fs w : ready w → fresh_source w → settled (with_faults (λ _, fs) w).
Proof. intros (_ & ? & ?) ?. by split_and!. Qed.

Lemma settled_refaulted fs w : settled w → settled (with_faults (λ _, fs) w).
Proof. intros (? & ? & ?). by split_and!. Qed.

(** ** What a write of the account keeps *)

Lemma page_held_grows u db db' st :
  grows db db' → page_held db u st → page_held db' u st.
Proof.
  intros (_ & Hl & _ & Hown) [Hls Hps]. split.
  - unfold lesson_ids. by rewrite Hl.
  - eapply Forall_impl; [done|]. intros r. apply Hown.
Qed.

Lemma task_held_grows courseId u db db' t :
  grows db db' → task_held courseId db u t → task_held courseId db' u t.
Proof.
  intros Hg. destruct t as [message call| |r]; simpl; [|done|].
  - apply (task_known_grows courseId u db db' (Writing message call) Hg).
  - intros (? & ? & ?). split_and!; [by eapply page_held_grows|done..].
Qed.

(** A request of the account that the store knows, on a lossy network: it
    is answered with success or with the error of the network, and the
    world it leaves is settled, with the same session and console. *)
Lemma send_held courseId user w call r w' :
  settled w → session w = Some user → courseId ∈ course_ids (db w) →
  call_known courseId (db w) (AuthUser.id user) call →
  send call w = (Ok r, w') →
  network_only r ∧ settled w' ∧ session w' = session w ∧
  console w' = console w ∧ grows (db w) (db w').
Proof.
  intros Hw Hs Hc Hcall Hsend. pose proof Hw as (Hwf & Hf & _).
  destruct (send_cases call w) as [(fs & Heq)|(r0 & w0 & r1 & fs & H0 & Heq & Hr)];
    rewrite Heq in Hsend; injection Hsend as <- <-.
  { split_and!; [by right|by apply settled_refaulted|done..|apply grows_refl]. }
  destruct (settled_hush w Hw) as [Hr0 Hf0].
  destruct (send_calm courseId user (hush w) Hr0 Hf0 Hs Hc call Hcall)
    as (w1 & Hsend1 & Hr1 & Hf1 & Hs1 & Hco1 & Hg1).
  rewrite H0 in Hsend1. injection Hsend1 as -> ->.
  split_and!; [destruct Hr as [->| ->]; [by left|by right]
              |by apply settled_faults|done..].
Qed.

(** ** The steps of a page on a lossy network *)

Lemma only_network_snoc log message :
  only_network log → only_network (log ++ [mkLog message network_error]).
Proof. intros Hlog. apply Forall_app. split; [done|]. by apply Forall_singleton. Qed.

Lemma logged_nothing w w' : console w' = console w → logged_network w w'.
Proof. intros Hc. exists []. rewrite app_nil_r. split; [done|apply Forall_nil_2]. Qed.

Lemma logged_one w w' message :
  console w' = console w ++ [mkLog message network_error] → logged_network w w'.
Proof. intros Hc. eexists. split; [done|]. by apply Forall_singleton. Qed.

Lemma logged_network_only w w' :
  logged_network w w' → only_network (console w) → only_network (console w').
Proof. intros (log & -> & Hlog) Hw. by apply Forall_app. Qed.

Lemma settled_console f w : settled w → settled (with_console f w).
Proof. intros (? & ? & ?). by split_and!. Qed.

Section Held.
Context (courseId : uuid) (user : AuthUser.t) (s : Sys).
Context (Hholds : holds courseId user s).

Lemma kept_refl : kept courseId user s s.
Proof using Hholds.
  split_and!; [done|apply grows_refl|by apply logged_nothing|done].
Qed.

Lemma start_kept a : kept courseId user s (start courseId a s).
Proof using Hholds.
  unfold start. case_bool_decide as Ha; [|apply kept_refl].
  destruct Hholds as (Hw & Hs & Hc & (Hls & Hps) & Ht). rewrite Hs.
  assert (∀ target patch message,
    lesson_ref_ok (db (sys_world s)) target →
    kept courseId user s
      (spawn (Writing message
                (write_call_of courseId target patch (sys_page s) user
                   (client_clock (sys_world s)))) s)) as Hspawn.
  { intros target patch message Href. unfold kept, holds, spawn. sys_simpl.
    split_and!; [done..| |apply grows_refl|by apply logged_nothing|done].
    apply Forall_app. split; [done|]. apply Forall_singleton.
    by apply write_call_known. }
  destruct (offered_elem _ _ Ha) as [->|[(lesson & Hin & ->)|[-> _]]];
    [apply kept_refl|..].
  - rewrite toggle_call_of. apply Hspawn.
    by apply (proj1 (Forall_forall _ _) Hls).
  - rewrite complete_call_of. by apply Hspawn.
Qed.

Lemma writing_kept i message call :
  sys_tasks s !! i = Some (Writing message call) →
  kept courseId user s (advance courseId i s).
Proof using Hholds.
  intros Hi. destruct Hholds as (Hw & Hs & Hc & Hp & Ht).
  unfold advance, failed. rewrite Hi.
  destruct (send_Ok call (sys_world s)) as (r & w' & Hsend). rewrite Hsend.
  destruct (send_held courseId user _ call r w' Hw Hs Hc
              (Forall_lookup_1 _ _ _ _ Ht Hi) Hsend)
    as (Hr & Hw' & Hs' & Hco & Hg).
  assert (Forall (task_held courseId (db w') (AuthUser.id user)) (sys_tasks s))
    as Ht'.
  { eapply Forall_impl; [done|]. intros t. by apply task_held_grows. }
  assert (courseId ∈ course_ids (db w')) as Hc'.
  { unfold course_ids. by rewrite (proj1 Hg). }
  destruct Hr as [Hr|Hr]; rewrite Hr; unfold kept, holds; sys_simpl.
  - split_and!; [done|by rewrite Hs'|done|by eapply page_held_grows
                |by apply Forall_insert|done|by apply logged_nothing|done].
  - simpl. split_and!; [done|by rewrite Hs'|done|by eapply page_held_grows
                       |by apply Forall_delete|done| |done].
    apply (logged_one _ _ message). simpl. by rewrite Hco.
Qed.

Lemma loading_kept i :
  sys_tasks s !! i = Some Loading → kept courseId user s (advance courseId i s).
Proof using Hholds.
  intros Hi. destruct Hholds as (Hw & Hs & Hc & Hp & Ht).
  unfold advance. rewrite Hi.
  destruct (reload_fetch_Ok courseId (sys_world s)) as (r & w' & Hfetch).
  rewrite Hfetch. pose proof Hw as ((Hpk & _) & _).
  destruct (reload_fetch_faults _ _ _ _ Hfetch) as [[fs ->] Hnet].
  destruct (reload_fetch_inv _ _ _ _ Hfetch) as (_ & _ & _ & Hls & Hps).
  unfold kept, holds. sys_simpl.
  split_and!; [by apply settled_refaulted|done..| |apply grows_refl
              |by apply logged_nothing|done].
  apply Forall_insert; [done|]. split; [|apply Hnet, Hpk]. split; simpl.
  - destruct (data (lessonsResult r)) as [ls|] eqn:Hd; [|done]. simpl.
    rewrite (Hls ls eq_refl), (auth_uid_session _ _ Hs). apply Forall_forall.
    intros l [Hl _]%select_lessons_elem. by apply list_elem_of_fmap_2.
  - destruct (data (progressResult r)) as [rows|] eqn:Hd; [|done]. simpl.
    apply Forall_forall. intros row Hrow.
    destruct (Hps rows eq_refl row Hrow) as (u & Hu & Hin).
    rewrite (auth_uid_session _ _ Hs) in Hin. simplify_eq.
    eapply select_user_progress_owned, Hin. apply Hpk.
Qed.

Lemma fetched_kept i r :
  sys_tasks s !! i = Some (Fetched r) → kept courseId user s (advance courseId i s).
Proof using Hholds.
  intros Hi. destruct Hholds as (Hw & Hs & Hc & Hp & Ht).
  unfold advance. rewrite Hi.
  destruct (reload_commit r _) as [x [st w]] eqn:Hcommit.
  destruct (Forall_lookup_1 _ _ _ _ Ht Hi) as (Hres & Hnc & Hnl).
  apply reload_commit_cases in Hcommit as [(-> & -> & _)|(e & -> & -> & Herr)];
    unfold kept, holds; sys_simpl.
  - split_and!; [done..|by apply Forall_delete|apply grows_refl
                |by apply logged_nothing|done].
  - split_and!; [by apply settled_console|done..|by apply Forall_delete
                |apply grows_refl| |].
    + destruct Herr as [Herr|Herr], Hnc as [?|?], Hnl as [?|?]; simplify_eq;
        by apply (logged_one _ _ "").
    + intros _. unfold load_failed. simpl. apply elem_of_cons. right.
      apply elem_of_cons. by left.
Qed.

Lemma exec_kept m : kept courseId user s (exec courseId m s).
Proof using Hholds.
  destruct m as [a|i]; [apply start_kept|]. simpl.
  destruct (sys_tasks s !! i) as [[message call| |r]|] eqn:Hi.
  - by eapply writing_kept.
  - by apply loading_kept.
  - by eapply fetched_kept.
  - unfold advance. rewrite Hi. apply kept_refl.
Qed.

End Held.

Lemma exec_held courseId user s m :
  held courseId user s → held courseId user (exec courseId m s).
Proof.
  intros [Hh [Hlog He]].
  destruct (exec_kept courseId user s Hh m) as (? & _ & Hlog' & He').
  split; [done|]. split; [by eapply logged_network_only|by apply He'].
Qed.

Lemma reaches_held courseId user s0 s :
  held courseId user s0 → reaches courseId s0 s → held courseId user s.
Proof. intros H0. induction 1; [done|by apply exec_held]. Qed.

(** A page in step with a settled store holds what the store has. *)
Lemma held_start courseId st w :
  settled w → courseId ∈ course_ids (db w) → synced courseId st w →
  State.error st = "" → console w = [] →
  ∃ user, held courseId user (mkSys st w []).
Proof.
  intros Hw Hc (user & Hs & _ & Hls & Hps) He Hlog. exists user.
  pose proof Hw as ((Hpk & _) & _). rewrite (auth_uid_session _ _ Hs) in *.
  unfold held, holds, logs_network, page_held. sys_simpl. rewrite Hls, Hps, He, Hlog.
  split_and!; [done..| | |done|by constructor|by apply elem_of_cons; left].
  - apply Forall_forall. intros l [Hl _]%select_lessons_elem.
    by apply list_elem_of_fmap_2.
  - apply Forall_forall. intros r. apply select_user_progress_owned, Hpk.
Qed.

(** The request of a call the store knows is accepted, in both readings of
    the policies, with the same store. *)
Lemma request_accepted courseId user w call :
  settled w → session w = Some user → courseId ∈ course_ids (db w) →
  call_known courseId (db w) (AuthUser.id user) call →
  ∃ db', exec_write (auth_uid w) (request_of w call) (db w) = Ok db' ∧
         pg_exec_write (auth_uid w) (request_of w call) (db w) = Ok db'.
Proof.
  intros (Hwf & Hf & Hu) Hs Hc Hcall. rewrite (auth_uid_session _ _ Hs).
  destruct call as [n|rowId p]; cbn [request_of pg_exec_write exec_write].
  - destruct Hcall as (Hn & Hcourse & Href).
    rewrite (api_insert_user_progress_Ok (db w) (AuthUser.id user));
      [by eexists|done|apply (Hf _ (le_n _))|by apply Hu|by rewrite Hcourse|done].
  - rewrite pg_update_user_progress_agrees,
      (api_update_user_progress_Ok _ _ _ _ (proj2 Hcall)) by done. by eexists.
Qed.

(** C14: on a network that loses requests and responses, whatever is clicked
    and in whatever order the handlers step, a page that was in step with
    the store is refused nothing: every error it logs is the error of the
    network, the only message it shows is that of a failed load, and the
    request of every handler in flight is one the store accepts as it is
    now, under the specification's reading of the policies and under
    PostgreSQL's, with the same result. *)
Theorem only_network_errors courseId st w s :
  settled w → courseId ∈ course_ids (db w) → synced courseId st w →
  State.error st = "" → console w = [] →
  reaches courseId (mkSys st w []) s →
  only_network (console (sys_world s)) ∧
  State.error (sys_page s) ∈ [""; "Failed to load course details"] ∧
  ∀ i message call,
    sys_tasks s !! i = Some (Writing message call) →
    ∃ db', exec_write (auth_uid (sys_world s)) (request_of (sys_world s) call)
             (db (sys_world s)) = Ok db' ∧
           pg_exec_write (auth_uid (sys_world s)) (request_of (sys_world s) call)
             (db (sys_world s)) = Ok db'.
Proof.
  intros Hw Hc Hsync He Hlog Hreach.
  destruct (held_start courseId st w) as [user H0]; [done..|].
  destruct (reaches_held _ _ _ _ H0 Hreach) as ((Hw' & Hs & Hc' & _ & Ht) & ? & ?).
  split_and!; [done..|]. intros i message call Hi.
  eapply request_accepted; [done..|]. apply (Forall_lookup_1 _ _ _ _ Ht Hi).
Qed.

(** On the lossy world, after a toggle whose response is lost, a toggle
    that is lost and a third that arrives: two errors of the network are
    logged, nothing else, and the store holds two rows for the lesson. *)
Example retries_logged :
  log_error <$> console (sys_world (run_moves "c1" retries (mkSys sample_page lossy []))) =
    [network_error; network_error] ∧
  UserProgress.lesson_id <$>
    select_user_progress (Some "alice") "alice" "c1"
      (db (sys_world (run_moves "c1" retries (mkSys sample_page lossy [])))) =
    [Some "l1"; Some "l1"].
Proof. by vm_compute. Qed.

Lemma lossy_settled : settled lossy.
Proof.
  split_and!; [apply sample_wf|exact sample_fresh_source|].
  intros user [= <-]. compute_done.
Qed.

Lemma only_network_errors_witness :
  only_network
    (console (sys_world (run_moves "c1" retries (mkSys sample_page lossy [])))) ∧
  State.error (sys_page (run_moves "c1" retries (mkSys sample_page lossy []))) ∈
    [""; "Failed to load course details"] ∧
  ∀ i message call,
    sys_tasks (run_moves "c1" retries (mkSys sample_page lossy [])) !! i =
      Some (Writing message call) →
    ∃ db',
      exec_write
        (auth_uid (sys_world (run_moves "c1" retries (mkSys sample_page lossy []))))
        (request_of
           (sys_world (run_moves "c1" retries (mkSys sample_page lossy []))) call)
        (db (sys_world (run_moves "c1" retries (mkSys sample_page lossy [])))) =
        Ok db' ∧
      pg_exec_write
        (auth_uid (sys_world (run_moves "c1" retries (mkSys sample_page lossy []))))
        (request_of
           (sys_world (run_moves "c1" retries (mkSys sample_page lossy []))) call)
        (db (sys_world (run_moves "c1" retries (mkSys sample_page lossy [])))) =
        Ok db'.
Proof.
  apply (only_network_errors "c1" sample_page lossy
           (run_moves "c1" retries (mkSys sample_page lossy [])));
    [apply lossy_settled|compute_done|exact (proj1 (proj2 sample_page_ok))
    |reflexivity|reflexivity|apply reaches_run_moves].
Defined.
