(* ===== verification/CourseCard.v ===== *)
(** * CourseCard: one course of the list

    src/src/components/CourseCard.tsx.  The card shows a course's category,
    difficulty, title, description and duration, and colours the difficulty
    by looking it up in an object literal, with the colours of a beginner's
    course when the lookup gives nothing.

    The lookup is a JavaScript property access with a key that is free text
    of the store.  An object literal inherits from [Object.prototype], so a
    key that names one of its properties finds that property, which is no
    text and is not falsy. *)

From stdpp Require Import base tactics option list strings.
From S2P Require Import Prelude Schema.
Set Warnings "-clear-no-such-hyp".

(** ** Property access *)

(** What [obj[key]] evaluates to on an object literal of texts: the text of
    an own property, or a property inherited from [Object.prototype]. *)
Inductive property :=
| own_text (text : string)
| inherited (key : string).

#[export] Instance property_eq_dec : EqDecision property.
Proof. solve_decision. Defined.

(** The names [Object.prototype] defines. *)
Definition object_prototype_keys : list string :=
  [ "constructor"; "__defineGetter__"; "__defineSetter__"; "hasOwnProperty";
    "__lookupGetter__"; "__lookupSetter__"; "isPrototypeOf";
    "propertyIsEnumerable"; "toString"; "valueOf"; "__proto__";
    "toLocaleString" ].

(** [obj[key]]; [None] is [undefined]. *)
Definition get_property (obj : list (string * string)) (key : string) :
    option property :=
  match find (λ kv, bool_decide (kv.1 = key)) obj with
  | Some kv => Some (own_text kv.2)
  | None =>
      if decide (key ∈ object_prototype_keys) then Some (inherited key) else None
  end.

(** [x || y]: [y] when [x] is undefined or the empty text. *)
Definition or_else (x : option property) (y : property) : property :=
  match x with
  | None | Some (own_text "") => y
  | Some p => p
  end.

(** ** The card *)

Definition difficultyColors : list (string * string) :=
  [ ("beginner", "bg-green-100 text-green-700");
    ("intermediate", "bg-yellow-100 text-yellow-700");
    ("advanced", "bg-red-100 text-red-700") ].

Definition difficultyColor (course : Course.t) : property :=
  or_else (get_property difficultyColors (Course.difficulty course))
    (own_text "bg-green-100 text-green-700").

(** What the card shows, and the course its click selects. *)
Record CardView := mkCard {
  card_category : string;
  card_difficulty_class : property;
  card_difficulty : string;
  card_title : string;
  card_description : string;
  card_duration_minutes : Z;
}.

Definition CourseCard (course : Course.t) : CardView :=
  mkCard (Course.category course) (difficultyColor course)
    (Course.difficulty course) (Course.title course) (Course.description course)
    (Course.duration_minutes course).

(** The three sets of colours. *)
Definition colour_classes : list string := snd <$> difficultyColors.

(** A course of the sample store whose difficulty is a name of
    [Object.prototype]. *)
Definition odd_course : Course.t :=
  Course.mk "c3" "Objects" "" "" "General" "constructor" 0%Z 30%Z 30%Z.

(** ** The colours of a difficulty *)

Lemma get_property_own key :
  key ∉ object_prototype_keys →
  get_property difficultyColors key =
    own_text <$> (snd <$> find (λ kv, bool_decide (kv.1 = key)) difficultyColors).
Proof.
  intros Hk. unfold get_property. destruct (find _ _); [done|].
  by rewrite decide_False.
Qed.

(** For a course whose difficulty is no name of [Object.prototype], the
    card's colours are one of the three sets: those of the difficulty when
    it is one of the three known, those of a beginner's course otherwise. *)
Theorem difficultyColor_class course :
  Course.difficulty course ∉ object_prototype_keys →
  ∃ cls, difficultyColor course = own_text cls ∧ cls ∈ colour_classes ∧
    (∀ known, (Course.difficulty course, known) ∈ difficultyColors → cls = known) ∧
    (Course.difficulty course ∉ difficultyColors.*1 →
     cls = "bg-green-100 text-green-700").
Proof.
  intros Hk. unfold difficultyColor. rewrite get_property_own by done.
  destruct course as [? ? ? ? ? d ? ? ?]. unfold difficultyColors, colour_classes.
  simpl in *.
  repeat case_bool_decide; simplify_eq; simpl; eexists; (split; [done|]);
    (split; [compute_done|]);
    (split; [intros known|rewrite ?fmap_cons, ?not_elem_of_cons; simpl]);
    rewrite ?elem_of_cons, ?elem_of_nil; naive_solver.
Qed.

(** C40: a course whose difficulty is a name of [Object.prototype] gets no
    colours: the lookup finds the inherited property, which is not falsy,
    so the colours of a beginner's course are not used. *)
Theorem difficultyColor_inherited course :
  Course.difficulty course ∈ object_prototype_keys →
  difficultyColor course = inherited (Course.difficulty course).
Proof.
  intros Hk. unfold difficultyColor, get_property.
  destruct (find _ _) as [kv|] eqn:Hf; [|by rewrite decide_True].
  apply find_some in Hf as [Hin Heq%bool_decide_eq_true]. exfalso.
  unfold difficultyColors in Hin. simpl in Hin. rewrite <- Heq in Hk.
  destruct Hin as [<-|[<-|[<-|[]]]]; simpl in Hk; revert Hk; compute_done.
Qed.

Lemma difficultyColor_class_witness :
  ∃ cls, difficultyColor Sample.c2 = own_text cls ∧ cls ∈ colour_classes ∧
    (∀ known, (Course.difficulty Sample.c2, known) ∈ difficultyColors →
              cls = known) ∧
    (Course.difficulty Sample.c2 ∉ difficultyColors.*1 →
     cls = "bg-green-100 text-green-700").
Proof. apply (difficultyColor_class Sample.c2). compute_done. Defined.

Lemma difficultyColor_inherited_witness :
  difficultyColor odd_course = inherited "constructor".
Proof. apply (difficultyColor_inherited odd_course). compute_done. Defined.
