(* ===== verification/Home.v ===== *)
(** * Home: the list of courses

    src/src/pages/Home.tsx.  The page keeps three state hooks
    ([HomeState.t]), loads the courses once ([loadCourses]) and shows one of
    four things: a spinner while it loads, the message of a failed load, a
    notice when there is no course, or a card per course ([render_home]).  A click
    on a card selects its course. *)

From stdpp Require Import base tactics option list strings sorting.
From S2P Require Import Prelude Schema Policy Client CourseCard.
Set Warnings "-clear-no-such-hyp".

(** ** State *)

Module HomeState.
Record t := mk {
  courses : list Course.t;
  loading : bool;
  error : string;
}.

Definition setCourses (c : list Course.t) : component t unit :=
  set_state (λ s, mk c (loading s) (error s)).
Definition setLoading (b : bool) : component t unit :=
  set_state (λ s, mk (courses s) b (error s)).
Definition setError (e : string) : component t unit :=
  set_state (λ s, mk (courses s) (loading s) e).
End HomeState.

(** The state of the first render. *)
Definition home_initial : HomeState.t := HomeState.mk [] true "".

(** ** Loading *)

Definition loadCourses : component HomeState.t unit :=
  finally
    (try_catch
       (r ← in_world fetch_courses;
        throw_if_error r;;
        HomeState.setCourses (default [] (data r)))
       (λ err,
        HomeState.setError "Failed to load courses";;
        in_world (console_error "" err)))
    (HomeState.setLoading false).

(** ** What the page shows *)

Inductive HomeView :=
| HomeSpinner
| HomeMessage (text : string)
| HomeEmpty
| HomeGrid (cards : list (CardView * uuid)).

(** The body of the page; each card comes with the course its click
    selects. *)
Definition render_home (st : HomeState.t) : HomeView :=
  if HomeState.loading st then HomeSpinner
  else if negb (String.eqb (HomeState.error st) "") then HomeMessage (HomeState.error st)
  else if Nat.eqb (length (HomeState.courses st)) 0 then HomeEmpty
  else HomeGrid ((λ course, (CourseCard course, Course.id course)) <$>
                   HomeState.courses st).

(** The courses a click can select. *)
Definition selectable (v : HomeView) : list uuid :=
  match v with HomeGrid cards => snd <$> cards | _ => [] end.

(** ** Loading *)

Section LoadCourses.
Context (st : HomeState.t) (w : World).

Lemma loadCourses_quiet :
  quiet w →
  run loadCourses (st, w) =
  (Ok tt, (HomeState.mk (select_courses (auth_uid w) (db w)) false
             (HomeState.error st), w)).
Proof.
  intros Hq. destruct w as [d s f cc sc en dr co]. unfold quiet in Hq.
  simpl in *. subst f. unfold loadCourses, HomeState.setCourses, HomeState.setLoading. by run_calls.
Qed.

(** When the request for the courses fails, the load ends normally:
    the page keeps the courses it had, shows the message, stops loading and
    logs the error; the store is untouched. *)
Theorem loadCourses_failed f fs :
  faults w = f :: fs → f ≠ no_fault →
  run loadCourses (st, w) =
  (Ok tt, (HomeState.mk (HomeState.courses st) false "Failed to load courses",
           with_console (λ c, c ++ [mkLog "" network_error])
             (with_faults (λ _, fs) w))).
Proof.
  intros Hf Hne. destruct w as [d s f' cc sc en dr co]. simpl in *. subst f'.
  unfold loadCourses, HomeState.setCourses, HomeState.setLoading,
    HomeState.setError. run_calls.
  by destruct f.
Qed.

End LoadCourses.

Lemma render_home_loaded courses :
  render_home (HomeState.mk courses false "") =
  match courses with
  | [] => HomeEmpty
  | _ => HomeGrid ((λ course, (CourseCard course, Course.id course)) <$> courses)
  end.
Proof. by destruct courses. Qed.

(** With a session and no fault pending, the first load shows every
    course of the store, the most recently created first, each card
    selecting its own course; it shows the notice exactly when the store
    holds no course. *)
Theorem loadCourses_shows_all w user :
  quiet w → session w = Some user →
  ∃ st', run loadCourses (home_initial, w) = (Ok tt, (st', w)) ∧
    StronglySorted by_created_at_desc (HomeState.courses st') ∧
    selectable (render_home st') ≡ₚ course_ids (db w) ∧
    (render_home st' = HomeEmpty ↔ courses (db w) = []).
Proof.
  intros Hq Hs. rewrite loadCourses_quiet by done. eexists. split; [done|].
  unfold auth_uid. rewrite Hs. simpl.
  destruct (select_courses_perm (AuthUser.id user) (db w)) as [Hsorted Hperm].
  split; [done|]. rewrite render_home_loaded. unfold course_ids.
  destruct (select_courses _ _) as [|c cs].
  - apply Permutation_nil_l in Hperm. by rewrite <- Hperm.
  - split; [simpl; by rewrite <- list_fmap_compose, <- Hperm|].
    split; [done|]. intros Hnil. rewrite Hnil in Hperm.
    by apply Permutation_nil_r in Hperm.
Qed.

Lemma loadCourses_failed_witness :
  run loadCourses (home_initial, with_faults (λ _, [request_lost]) sample_world) =
  (Ok tt, (HomeState.mk [] false "Failed to load courses",
           with_console (λ c, c ++ [mkLog "" network_error]) sample_world)).
Proof.
  by apply (loadCourses_failed home_initial
              (with_faults (λ _, [request_lost]) sample_world) request_lost []).
Defined.

Lemma loadCourses_shows_all_witness :
  ∃ st', run loadCourses (home_initial, sample_world) = (Ok tt, (st', sample_world)) ∧
    StronglySorted by_created_at_desc (HomeState.courses st') ∧
    selectable (render_home st') ≡ₚ course_ids Sample.db ∧
    (render_home st' = HomeEmpty ↔ courses Sample.db = []).
Proof. by apply (loadCourses_shows_all sample_world Sample.alice). Defined.
