(* ===== verification/App.v ===== *)
(** * App: configuration, routing and the header

    src/unnamed/part_001: the check of the two settings before the client is
    created, the component [AppContent] that decides which screen is shown,
    and the header of the pages.  The authentication context
    (contexts/AuthContext) is not part of the sources: its two values, the
    user and its loading flag, are arguments here. *)

From stdpp Require Import base tactics option list strings.
From S2P Require Import Prelude Schema.
Set Warnings "-clear-no-such-hyp".

(** ** Configuration *)

(** [!x] on a setting: it is undefined or the empty text. *)
Definition missing (x : option string) : bool :=
  match x with None | Some "" => true | Some _ => false end.

(** The module's top level: it throws before the client is created unless
    both settings are there. *)
Definition supabase (supabaseUrl supabaseAnonKey : option string) :
    result string (string * string) :=
  if missing supabaseUrl || missing supabaseAnonKey
  then Err "Missing Supabase environment variables"
  else Ok (default "" supabaseUrl, default "" supabaseAnonKey).

(** ** Routing *)

Module AppState.
Record t := mk {
  showLogin : bool;
  selectedCourseId : option string;
}.
End AppState.

Definition app_initial : AppState.t := AppState.mk true None.

Inductive Screen :=
| AppSpinner
| Login
| Signup
| CourseDetail (courseId : string)
| Home.

#[export] Instance Screen_eq_dec : EqDecision Screen.
Proof. solve_decision. Defined.

Definition AppContent (loading : bool) (user : option AuthUser.t)
    (st : AppState.t) : Screen :=
  if loading then AppSpinner
  else
    match user with
    | None => if AppState.showLogin st then Login else Signup
    | Some _ =>
        match AppState.selectedCourseId st with
        | Some courseId =>
            if String.eqb courseId "" then Home else CourseDetail courseId
        | None => Home
        end
    end.

(** The callbacks the screens are given. *)
Inductive app_event :=
| onToggle
| onSelectCourse (courseId : string)
| onBack.

(** What a callback does to the state, on the screen that has it. *)
Definition app_step (screen : Screen) (e : app_event) (st : AppState.t) : AppState.t :=
  match screen, e with
  | Login, onToggle => AppState.mk false (AppState.selectedCourseId st)
  | Signup, onToggle => AppState.mk true (AppState.selectedCourseId st)
  | Home, onSelectCourse courseId => AppState.mk (AppState.showLogin st) (Some courseId)
  | CourseDetail _, onBack => AppState.mk (AppState.showLogin st) None
  | _, _ => st
  end.

(** ** The header *)

Record HeaderView := mkHeader {
  header_title : string;
  header_account : option string;
}.

(** The header shows the user's email and the way to sign out when there is
    a user. *)
Definition Header (user : option AuthUser.t) : HeaderView :=
  mkHeader "LearnHub" (AuthUser.email <$> user).

(** ** Configuration *)

(** The client is created exactly when both settings are given and not
    empty, and with those settings; otherwise start-up fails with the one
    message. *)
Theorem supabase_config supabaseUrl supabaseAnonKey :
  (∀ url key, supabase supabaseUrl supabaseAnonKey = Ok (url, key) ↔
     supabaseUrl = Some url ∧ supabaseAnonKey = Some key ∧ url ≠ "" ∧ key ≠ "") ∧
  (is_Err (supabase supabaseUrl supabaseAnonKey) = true →
   supabase supabaseUrl supabaseAnonKey = Err "Missing Supabase environment variables").
Proof.
  unfold supabase, missing.
  destruct supabaseUrl as [[|??]|], supabaseAnonKey as [[|??]|]; simpl;
    (split; [intros url key; naive_solver|done]).
Qed.

(** ** Routing *)

(** Without a user no page of the application is shown: while the
    authentication loads the spinner, then the login or the signup form,
    whatever course is selected. *)
Theorem AppContent_guard loading st :
  AppContent loading None st ∈ [AppSpinner; Login; Signup] ∧
  ∀ user, ¬ loading →
    AppContent loading (Some user) st ∈
      Home :: (CourseDetail <$> option_list (AppState.selectedCourseId st)).
Proof.
  unfold AppContent. split.
  - destruct loading, (AppState.showLogin st); compute_done.
  - intros user Hl. destruct loading; [done|].
    destruct (AppState.selectedCourseId st) as [c|]; simpl; [|by left].
    destruct (String.eqb c ""); [by left|by right; left].
Qed.

(** Selecting a course on the list shows its page, going back shows
    the list again, and the selection is state of the application, not of
    the session: it is still there when the user signs out and another
    signs in. *)
Theorem app_selection user other st courseId :
  courseId ≠ "" → AppContent false (Some user) st = Home →
  let st1 := app_step Home (onSelectCourse courseId) st in
  AppContent false (Some user) st1 = CourseDetail courseId ∧
  AppContent false (Some user) (app_step (CourseDetail courseId) onBack st1) = Home ∧
  AppContent false None st1 ∈ [Login; Signup] ∧
  AppContent false (Some other) st1 = CourseDetail courseId.
Proof.
  intros Hne%String.eqb_neq _. unfold AppContent. simpl. rewrite Hne.
  split_and!; try done. destruct (AppState.showLogin st); compute_done.
Qed.

Lemma app_selection_witness :
  AppContent false (Some Sample.alice)
    (app_step Home (onSelectCourse "c1") app_initial) = CourseDetail "c1" ∧
  AppContent false (Some Sample.alice)
    (app_step (CourseDetail "c1") onBack
       (app_step Home (onSelectCourse "c1") app_initial)) = Home ∧
  AppContent false None (app_step Home (onSelectCourse "c1") app_initial)
    ∈ [Login; Signup] ∧
  AppContent false (Some Sample.bob)
    (app_step Home (onSelectCourse "c1") app_initial) = CourseDetail "c1".
Proof. by apply (app_selection Sample.alice Sample.bob app_initial "c1"). Defined.
