(* ===== verification/AppFlow.v ===== *)
(** * AppFlow: the screens, their pages and the session, together

    The application as the user meets it: [App] (src/unnamed/part_001) puts
    [AppContent] under the authentication provider; [AppContent] shows the
    login or the signup form, the list of courses (src/src/pages/Home.tsx) or
    the page of the selected course (src/src/pages/CourseDetail.tsx); each
    page loads its data in an effect when it is mounted.  The state is the
    routing state of [AppContent], the page that is mounted with its state
    hooks, and the world.

    A step is something the user does: signing in or out, switching between
    the two forms, selecting a course on the list, clicking a button of the
    course page.  Each handler runs to its end before the next step; the
    handlers in flight at once are the subject of [Race] and [Recovery].

    The provider, the forms and the sign-out call are not in the sources:
    here the provider's user is the session of the world, and signing in and
    out set it.  From the first render the provider is loading, and
    [AppContent] shows the spinner, which offers nothing; when the provider
    has read the session the application starts with it ([Boot]).

    On a network that loses nothing the application stays in step with the
    store through every run ([boot_in_step], [app_in_step]) and a page
    shows rows of the user signed in only ([app_shows_own]). *)

From stdpp Require Import base tactics option list strings sorting.
From S2P Require Import Prelude Schema Policy Client CourseDetail Completion.
From S2P Require Import Session Race Recovery CourseCard Home App.
Set Warnings "-clear-no-such-hyp".

(** ** State *)

(** The page under [AppContent], with its state hooks. *)
Inductive Mounted :=
| NoPage
| HomePage (st : HomeState.t)
| DetailPage (courseId : uuid) (st : State.t).

Record AppSys := mkApp {
  app_state : AppState.t;
  app_page : Mounted;
  app_world : World;
}.

Definition with_session (o : option AuthUser.t) (w : World) : World :=
  mkWorld (db w) o (faults w) (client_clock w) (server_clock w)
    (entropy w) (drawn w) (console w).

(** [useAuth()] once the provider has read the session: the user, and
    [loading] false. *)
Definition useAuth (w : World) : bool * option AuthUser.t := (false, session w).

(** ** Mounting *)

(** The list is mounted: its first render, then its effect. *)
Definition Home_effect (w : World) : Mounted * World :=
  let '(_, (st, w')) := run loadCourses (home_initial, w) in (HomePage st, w').

(** The effect of the course page, at its mount and whenever [courseId]
    changes: the state hooks are those of the instance. *)
Definition CourseDetail_effect (courseId : uuid) (st : State.t) (w : World) :
    Mounted * World :=
  let '(_, (st', w')) := run (loadCourseData courseId) (st, w) in
  (DetailPage courseId st', w').

(** The screen a state shows: what [AppContent] returns for the user the
    provider gives it. *)
Definition screen_of (s : AppSys) : Screen :=
  AppContent (useAuth (app_world s)).1 (useAuth (app_world s)).2 (app_state s).

(** What React does with the element a render returns: the page stays when
    it is the component already there (and its effect runs again when
    [courseId] has changed), and is replaced by a newly mounted one
    otherwise. *)
Definition mount (screen : Screen) (page : Mounted) (w : World) : Mounted * World :=
  match screen, page with
  | Home, HomePage st => (HomePage st, w)
  | Home, _ => Home_effect w
  | CourseDetail courseId, DetailPage shownId st =>
      if decide (shownId = courseId) then (DetailPage shownId st, w)
      else CourseDetail_effect courseId st w
  | CourseDetail courseId, _ => CourseDetail_effect courseId initial_state w
  | _, _ => (NoPage, w)
  end.

(** A render of the application: [AppContent] under the provider. *)
Definition App (s : AppSys) : AppSys :=
  let '(page, w) := mount (screen_of s) (app_page s) (app_world s) in
  mkApp (app_state s) page w.

(** ** Steps *)

Inductive app_action :=
| SignIn (user : AuthUser.t)
| SignOut
| SwitchForm
| SelectCourse (courseId : uuid)
| Click (a : action).

(** A callback of the screen runs, and the application renders. *)
Definition callback (e : app_event) (s : AppSys) : AppSys :=
  App (mkApp (app_step (screen_of s) e (app_state s)) (app_page s) (app_world s)).

Definition app_do (e : app_action) (s : AppSys) : AppSys :=
  match e, app_page s with
  | SignIn user, NoPage =>
      if bool_decide (user ∈ auth_users (db (app_world s)))
      then App (mkApp (app_state s) NoPage (with_session (Some user) (app_world s)))
      else s
  | SignOut, (HomePage _ | DetailPage _ _) =>
      App (mkApp (app_state s) (app_page s) (with_session None (app_world s)))
  | SwitchForm, NoPage => callback onToggle s
  | SelectCourse courseId, HomePage st =>
      if bool_decide (courseId ∈ selectable (render_home st))
      then callback (onSelectCourse courseId) s
      else s
  | Click Back, DetailPage courseId st =>
      if bool_decide (Back ∈ offered (render st)) then callback onBack s else s
  | Click a, DetailPage courseId st =>
      let '(_, (st', w')) := run (click courseId a) (st, app_world s) in
      mkApp (app_state s) (DetailPage courseId st') w'
  | _, _ => s
  end.

Definition app_run (es : list app_action) (s : AppSys) : AppSys :=
  foldl (λ s e, app_do e s) s es.

(** The application when the provider has read the session, the one of
    the world if it holds one. *)
Definition app_start (w : World) : AppSys := App (mkApp app_initial NoPage w).

(** ** From the first render *)

(** The application from its first render: while the provider reads the
    session, and after. *)
Inductive Boot :=
| Booting (w : World)
| Running (s : AppSys).

(** [useAuth()] from the first render: [loading] until the provider has
    read the session, with no user yet. *)
Definition useAuth_boot (b : Boot) : bool * option AuthUser.t :=
  match b with
  | Booting _ => (true, None)
  | Running s => useAuth (app_world s)
  end.

Definition boot_screen (b : Boot) : Screen :=
  AppContent (useAuth_boot b).1 (useAuth_boot b).2
    match b with Booting _ => app_initial | Running s => app_state s end.

Inductive boot_action :=
| AuthReady
| User (e : app_action).

(** The provider ends its loading once; the spinner offers nothing to the
    user. *)
Definition boot_do (e : boot_action) (b : Boot) : Boot :=
  match e, b with
  | AuthReady, Booting w => Running (app_start w)
  | User e, Running s => Running (app_do e s)
  | _, _ => b
  end.

Definition boot_run (es : list boot_action) (b : Boot) : Boot :=
  foldl (λ b e, boot_do e b) b es.

Definition boot_world (b : Boot) : World :=
  match b with Booting w => w | Running s => app_world s end.

(** ** The invariant *)

(** What the page mounted holds, for the user signed in. *)
Definition page_inv (s : AppSys) : Prop :=
  match app_page s with
  | NoPage => session (app_world s) = None
  | HomePage st =>
      is_Some (session (app_world s)) ∧ screen_of s = Home ∧
      st = HomeState.mk
             (select_courses (auth_uid (app_world s)) (db (app_world s))) false ""
  | DetailPage courseId st =>
      ∃ user, screen_of s = CourseDetail courseId ∧
        calm courseId user (mkSys st (app_world s) []) ∧
        synced courseId st (app_world s)
  end.

(** The invariant of the application on a network that loses nothing:
    the world is ready, nothing has been logged since [log], the course
    selected exists, and the page mounted is the screen's and in step with
    the store. *)
Definition app_inv (log : list log_entry) (s : AppSys) : Prop :=
  ready (app_world s) ∧ fresh_source (app_world s) ∧
  console (app_world s) = log ∧
  (∀ courseId, AppState.selectedCourseId (app_state s) = Some courseId →
               courseId ∈ course_ids (db (app_world s))) ∧
  page_inv s.

(** What a page must hold before a render for the render to leave the
    invariant: when the screen is still its own, the page's invariant. *)
Definition render_pre (s : AppSys) : Prop :=
  match app_page s with
  | NoPage => True
  | HomePage _ => screen_of s = Home → page_inv s
  | DetailPage shownId _ =>
      ∀ courseId, screen_of s = CourseDetail courseId →
                  shownId = courseId ∧ page_inv s
  end.

(** The invariant from the first render: while the provider loads, the
    spinner is shown and the world is as it was. *)
Definition boot_inv (w0 : World) (b : Boot) : Prop :=
  match b with
  | Booting w => w = w0 ∧ boot_screen b = AppSpinner
  | Running s => app_inv (console w0) s
  end.

(** ** The sample session *)

(** Nobody is signed in. *)
Definition signed_out : World := with_session None sample_world.

(** Alice signs in, opens the first course and completes its first lesson;
    she signs out, and Bob signs in. *)
Definition two_users : list app_action :=
  [SignIn Sample.alice; SelectCourse "c1"; Click (Toggle "l1"); SignOut;
   SignIn Sample.bob].

(** ** Rendering *)

Lemma screen_of_anon s :
  session (app_world s) = None →
  screen_of s = if AppState.showLogin (app_state s) then Login else Signup.
Proof. unfold screen_of, useAuth. by intros ->. Qed.

Lemma screen_of_user s user :
  session (app_world s) = Some user →
  screen_of s = Home ∨
  ∃ courseId, AppState.selectedCourseId (app_state s) = Some courseId ∧
              screen_of s = CourseDetail courseId.
Proof.
  unfold screen_of, useAuth, AppContent. intros ->. simpl.
  destruct (AppState.selectedCourseId _) as [c|]; [|by left].
  destruct (String.eqb c ""); eauto.
Qed.

Section Render.
Context (log : list log_entry) (s : AppSys).
Context (Hready : ready (app_world s)) (Hfresh : fresh_source (app_world s)).
Context (Hlog : console (app_world s) = log).
Context (Hsel : ∀ courseId, AppState.selectedCourseId (app_state s) = Some courseId →
                            courseId ∈ course_ids (db (app_world s))).
Context (Hpre : render_pre s).

Lemma App_anon : session (app_world s) = None → app_inv log (App s).
Proof using Hready Hfresh Hlog Hsel.
  intros Hs. unfold App, mount. rewrite (screen_of_anon s Hs).
  by destruct (AppState.showLogin _), (app_page s).
Qed.

Lemma Home_effect_ready :
  Home_effect (app_world s) =
  (HomePage (HomeState.mk
               (select_courses (auth_uid (app_world s)) (db (app_world s)))
               false ""), app_world s).
Proof using Hready.
  unfold Home_effect. by rewrite loadCourses_quiet by apply Hready.
Qed.

Lemma CourseDetail_effect_ready courseId :
  CourseDetail_effect courseId initial_state (app_world s) =
  (DetailPage courseId (mounted courseId (app_world s)), app_world s).
Proof using Hready.
  unfold CourseDetail_effect. by rewrite loadCourseData_ready.
Qed.

Lemma App_home user :
  session (app_world s) = Some user → screen_of s = Home → app_inv log (App s).
Proof using Hready Hfresh Hlog Hsel Hpre.
  intros Hs Hscreen. unfold App, mount. rewrite Hscreen. unfold render_pre in Hpre.
  destruct (app_page s) as [|st|c st] eqn:Hpage; rewrite ?Home_effect_ready.
  - by split_and!.
  - split_and!; try done. specialize (Hpre Hscreen).
    unfold page_inv in *. by rewrite Hpage in Hpre.
  - by split_and!.
Qed.

Lemma App_detail user courseId :
  session (app_world s) = Some user → screen_of s = CourseDetail courseId →
  courseId ∈ course_ids (db (app_world s)) → app_inv log (App s).
Proof using Hready Hfresh Hlog Hsel Hpre.
  intros Hs Hscreen Hc. unfold App, mount. rewrite Hscreen. unfold render_pre in Hpre.
  destruct (mounted_calm courseId _ user Hready Hfresh Hs Hc) as [Hcalm Hsync].
  destruct (app_page s) as [|st|c st] eqn:Hpage;
    rewrite ?CourseDetail_effect_ready.
  - split_and!; try done. by exists user.
  - split_and!; try done. by exists user.
  - destruct (Hpre _ Hscreen) as [-> Hinv]. rewrite decide_True by done.
    split_and!; try done. unfold page_inv in *. by rewrite Hpage in Hinv.
Qed.

(** A render leaves the invariant. *)
Lemma App_inv : app_inv log (App s).
Proof using Hready Hfresh Hlog Hsel Hpre.
  destruct (session (app_world s)) as [user|] eqn:Hs; [|by apply App_anon].
  destruct (screen_of_user s user Hs) as [?|(c & Hc & ?)];
    [by eapply App_home|by eapply App_detail; [..|apply Hsel]].
Qed.

End Render.

(** ** Steps *)

Lemma selectable_courses u db courseId :
  courseId ∈ selectable (render_home
                           (HomeState.mk (select_courses (Some u) db) false "")) →
  courseId ∈ course_ids db.
Proof.
  rewrite render_home_loaded. destruct (select_courses_perm u db) as [_ Hperm].
  unfold course_ids. rewrite <- Hperm.
  destruct (select_courses _ _); simpl; [by intros ?%elem_of_nil|].
  by rewrite <- list_fmap_compose.
Qed.

Lemma screen_of_ext s s' :
  app_state s' = app_state s → session (app_world s') = session (app_world s) →
  screen_of s' = screen_of s.
Proof. unfold screen_of, useAuth. simpl. by intros -> ->. Qed.

Section Step.
Context (log : list log_entry) (s : AppSys) (Hinv : app_inv log s).

Lemma sign_in_inv user :
  app_page s = NoPage → user ∈ auth_users (db (app_world s)) →
  app_inv log (App (mkApp (app_state s) NoPage
                      (with_session (Some user) (app_world s)))).
Proof using Hinv.
  intros Hpage Hin. destruct Hinv as ((Hq & Hwf & _) & Hf & Hlog & Hsel & _).
  apply App_inv; try done. unfold ready. simpl. split_and!; [done..|].
  intros u [= <-]. by apply list_elem_of_fmap_2.
Qed.

Lemma sign_out_inv :
  app_inv log (App (mkApp (app_state s) (app_page s)
                      (with_session None (app_world s)))).
Proof using Hinv.
  destruct Hinv as ((Hq & Hwf & _) & Hf & Hlog & Hsel & _).
  by apply App_anon.
Qed.

Lemma callback_onToggle_inv : app_page s = NoPage → app_inv log (callback onToggle s).
Proof using Hinv.
  intros Hpage. destruct Hinv as (Hr & Hf & Hlog & Hsel & Hp).
  unfold page_inv in Hp. rewrite Hpage in Hp. apply App_anon; try done.
  simpl. rewrite (screen_of_anon s Hp). intros c.
  by destruct (AppState.showLogin _); simpl; apply Hsel.
Qed.

Lemma callback_onSelectCourse_inv st courseId :
  app_page s = HomePage st → courseId ∈ selectable (render_home st) →
  app_inv log (callback (onSelectCourse courseId) s).
Proof using Hinv.
  intros Hpage Hin. destruct Hinv as (Hr & Hf & Hlog & Hsel & Hp).
  unfold page_inv in Hp. rewrite Hpage in Hp. destruct Hp as ([user Hs] & Hscreen & ->).
  rewrite (auth_uid_session _ _ Hs) in Hin. apply selectable_courses in Hin.
  unfold callback. rewrite Hscreen. apply App_inv; simpl; try done.
  - by intros c [= <-].
  - unfold render_pre. rewrite Hpage. intros Hscreen'. unfold page_inv. simpl.
    by rewrite (auth_uid_session _ _ Hs).
Qed.

Lemma callback_onBack_inv courseId st :
  app_page s = DetailPage courseId st → app_inv log (callback onBack s).
Proof using Hinv.
  intros Hpage. destruct Hinv as (Hr & Hf & Hlog & Hsel & Hp).
  unfold page_inv in Hp. rewrite Hpage in Hp.
  destruct Hp as (user & Hscreen & (_ & _ & Hs & _) & _).
  unfold callback. rewrite Hscreen. apply App_inv; simpl in *; try done.
  unfold render_pre. rewrite Hpage. intros c. unfold screen_of, useAuth. simpl.
  by rewrite Hs.
Qed.

Lemma click_page_inv courseId st a x st' w' :
  app_page s = DetailPage courseId st →
  run (click courseId a) (st, app_world s) = (x, (st', w')) →
  app_inv log (mkApp (app_state s) (DetailPage courseId st') w').
Proof using Hinv.
  intros Hpage Hrun. destruct Hinv as (Hr & Hf & Hlog & Hsel & Hp).
  unfold page_inv in Hp. rewrite Hpage in Hp.
  destruct Hp as (user & Hscreen & Hcalm & Hsync).
  destruct (click_calm courseId user st _ a Hcalm Hsync)
    as (st1 & w1 & Hrun1 & Hcalm1 & Hsync1 & Hco1).
  rewrite Hrun1 in Hrun. injection Hrun as <- <- <-.
  pose proof Hcalm as (_ & _ & Hs & _).
  assert (AppState.selectedCourseId (app_state s) = Some courseId) as Hselected.
  { destruct (screen_of_user s user Hs) as [H1|(c & H1 & H2)];
      rewrite Hscreen in *; by simplify_eq. }
  pose proof Hcalm1 as (Hr1 & Hf1 & Hs1 & Hc1 & _). simpl in *.
  unfold app_inv, page_inv. simpl. split_and!; [done|done|by rewrite Hco1| |].
  - intros c Hc. by simplify_eq.
  - exists user. split_and!; [|done..]. rewrite <- Hscreen.
    apply screen_of_ext; [done|]. simpl. congruence.
Qed.

End Step.

(** A step leaves the invariant. *)
Lemma app_do_inv log e s : app_inv log s → app_inv log (app_do e s).
Proof.
  intros Hinv. unfold app_do. destruct (app_page s) as [|hst|c st] eqn:Hpage.
  - destruct e as [user| | | |[]]; try done;
      [case_bool_decide; [by apply sign_in_inv|done]|by apply callback_onToggle_inv].
  - destruct e as [| | |courseId|[]]; try done;
      [rewrite <- Hpage; by apply sign_out_inv|].
    case_bool_decide; [by eapply callback_onSelectCourse_inv|done].
  - destruct e as [| | | |a]; try done; [rewrite <- Hpage; by apply sign_out_inv|].
    destruct (run (click c a) _) as [x [st' w']] eqn:Hrun.
    destruct a; [case_bool_decide; [by eapply callback_onBack_inv|done]|..];
      by eapply click_page_inv.
Qed.

Lemma app_start_inv w :
  ready w → fresh_source w → app_inv (console w) (app_start w).
Proof. intros Hr Hf. by apply App_inv. Qed.

Lemma app_run_inv log es s : app_inv log s → app_inv log (app_run es s).
Proof.
  revert s. induction es as [|e es IH]; intros s Hinv; [done|].
  by apply IH, app_do_inv.
Qed.

(** ** The application in step *)

(** On a network that loses nothing, whatever the users of a browser
    tab do, in any order (sign in, sign out, switch forms, select a course,
    click the buttons of its page): nothing is logged, the course selected
    exists, without a session no page is mounted, the list shows the courses
    of the store, and the page of a course is the one the screen selects,
    shows the course and is in step with the store for the user signed
    in. *)
Theorem app_in_step w es :
  ready w → fresh_source w → app_inv (console w) (app_run es (app_start w)).
Proof. intros Hr Hf. by apply app_run_inv, app_start_inv. Qed.

(** C18: the rows a course page holds are rows of the user now signed in,
    for the course on the screen, as the store has them: nothing that an
    earlier session of the tab loaded is still shown, though the selection
    of the course outlives the session. *)
Theorem app_shows_own w es courseId st r :
  ready w → fresh_source w →
  app_page (app_run es (app_start w)) = DetailPage courseId st →
  r ∈ State.progress st →
  screen_of (app_run es (app_start w)) = CourseDetail courseId ∧
  auth_uid (app_world (app_run es (app_start w))) = Some (UserProgress.user_id r) ∧
  UserProgress.course_id r = courseId ∧
  r ∈ user_progress (db (app_world (app_run es (app_start w)))).
Proof.
  intros Hr Hf Hpage Hin.
  pose proof (app_run_inv _ es _ (app_start_inv w Hr Hf)) as (_ & _ & _ & _ & Hp).
  unfold page_inv in Hp. rewrite Hpage in Hp.
  destruct Hp as (user & Hscreen & _ & (u & Hu & _ & _ & Hrows)).
  rewrite Hrows in Hin. apply select_user_progress_elem in Hin as (? & ? & ? & ?).
  split_and!; try done. congruence.
Qed.

(** ** From the first render *)

Lemma boot_do_inv w0 e b :
  ready w0 → fresh_source w0 → boot_inv w0 b → boot_inv w0 (boot_do e b).
Proof.
  intros Hr Hf. destruct e as [|e], b as [w|s]; simpl; try done.
  - intros [-> _]. by apply app_start_inv.
  - by apply app_do_inv.
Qed.

(** While the provider loads, nothing a user does has an effect. *)
Lemma boot_run_loading w es :
  Forall (λ e, e ≠ AuthReady) es → boot_run es (Booting w) = Booting w.
Proof.
  induction 1 as [|e es He _ IH]; [done|]. by destruct e.
Qed.

(** C17: from the first render of the application on a network that loses
    nothing.  While the provider reads the session the spinner is shown, no
    page is mounted and nothing a user does has an effect; afterwards the
    application starts with the session the provider has found, whether
    there is one or not, and whatever the users then do it stays in step
    with the store: nothing is logged, the course selected exists, without
    a session no page is mounted, the list shows the courses of the store,
    and the page of a course is the one the screen selects, shows the course
    and is in step with the store for the user signed in. *)
Theorem boot_in_step w es :
  ready w → fresh_source w →
  boot_inv w (boot_run es (Booting w)) ∧
  (Forall (λ e, e ≠ AuthReady) es → boot_run es (Booting w) = Booting w).
Proof.
  intros Hr Hf. split; [|apply boot_run_loading].
  assert (boot_inv w (Booting w)) as Hb by done. revert Hb.
  generalize (Booting w). induction es as [|e es IH]; intros b Hb; [done|].
  by apply IH, boot_do_inv.
Qed.

(** A session that the provider finds at the start, as after a reload of
    the page: the list of courses is mounted for its user. *)
Example boot_with_session :
  boot_screen (Booting sample_world) = AppSpinner ∧
  boot_run [User (SelectCourse "c1")] (Booting sample_world) = Booting sample_world ∧
  boot_screen (boot_run [AuthReady] (Booting sample_world)) = Home ∧
  boot_screen (boot_run [AuthReady; User (SelectCourse "c1")] (Booting sample_world)) =
    CourseDetail "c1".
Proof. by vm_compute. Qed.

Lemma boot_in_step_witness :
  boot_inv sample_world (boot_run [AuthReady; User (SelectCourse "c1")] (Booting sample_world)).
Proof.
  apply (boot_in_step sample_world [AuthReady; User (SelectCourse "c1")]);
    [split_and!; [done|apply sample_wf|]|exact sample_fresh_source].
  intros user [= <-]. compute_done.
Defined.

(** ** The theorems on the sample world *)

Lemma signed_out_ready : ready signed_out ∧ fresh_source signed_out.
Proof.
  split; [split_and!; [done|apply sample_wf|done]|].
  exact sample_fresh_source.
Qed.

Lemma app_in_step_witness :
  app_inv (console signed_out) (app_run two_users (app_start signed_out)).
Proof.
  apply (app_in_step signed_out two_users); apply signed_out_ready.
Defined.

Lemma app_shows_own_witness :
  screen_of (app_run two_users (app_start signed_out)) = CourseDetail "c1" ∧
  auth_uid (app_world (app_run two_users (app_start signed_out))) = Some "bob" ∧
  UserProgress.course_id Sample.bob_l1 = "c1" ∧
  Sample.bob_l1 ∈ user_progress (db (app_world (app_run two_users (app_start signed_out)))).
Proof.
  eapply (app_shows_own signed_out two_users "c1" _ Sample.bob_l1);
    [apply signed_out_ready|apply signed_out_ready|by vm_compute|].
  apply list_elem_of_singleton. reflexivity.
Defined.
