(* ===== verification/Network.v ===== *)
(** * Network: several browsers, several windows, one store

    The client of src/unnamed/part_001 is created once per window, and
    every window of every browser talks to the same store.  The windows of
    one browser share the session, the console and the clock; all share the
    store, its clock, its source of identifiers and the network.  Nothing
    tells a page that another window has written: a page reads when it is
    mounted and after a write of its own (src/src/pages/CourseDetail.tsx).

    A window holds an instance of the course page as [Race] has it, the
    state hooks and the handlers in flight, with the course it was opened
    for.  A step of the network is a step of one window in the world made
    of its browser's side and the store's side ([world_of]); what the step
    leaves of the world is put back for all ([put_window]).  Opening a
    window mounts the page, whose effect starts the load.

    The file shows what holds for every schedule of the windows: with any
    faults, the store stays intact and an account's rows are changed by its
    own browsers only ([net_isolated]); on a network that loses nothing,
    every window is loading or shows its course, nothing is logged
    ([net_quiet]), a page in step with the store stays in step whatever
    other accounts do ([other_accounts_keep_step]), and any window can be
    brought in step ([window_catches_up]).  A second window of the same
    account does fall behind, and a lesson toggled in both gets two rows
    ([second_window_stale], [two_windows_duplicate]). *)

From stdpp Require Import base tactics option list strings.
From S2P Require Import Prelude JsNumber Schema Policy Client CourseDetail.
From S2P Require Import Completion Session Race Recovery.
Set Warnings "-clear-no-such-hyp".

(** ** State *)

(** An instance of the course page in a window. *)
Record Window := mkWindow {
  win_course : uuid;
  win_page : State.t;
  win_tasks : list task;
}.

Record Browser := mkBrowser {
  br_session : option AuthUser.t;
  br_clock : timestamptz;
  br_console : list log_entry;
  br_windows : list Window;
}.

Record Net := mkNet {
  net_db : Database;
  net_faults : list fault;
  net_clock : timestamptz;
  net_entropy : nat → uuid;
  net_drawn : nat;
  net_browsers : list Browser;
}.

(** The world a window of a browser runs in. *)
Definition world_of (n : Net) (b : Browser) : World :=
  mkWorld (net_db n) (br_session b) (net_faults n) (br_clock b) (net_clock n)
    (net_entropy n) (net_drawn n) (br_console b).

Definition sys_of (n : Net) (b : Browser) (win : Window) : Sys :=
  mkSys (win_page win) (world_of n b) (win_tasks win).

(** The world of another client once a step has left [w]: its own session,
    clock and console, and the store's side of [w]. *)
Definition rebase (w other : World) : World :=
  mkWorld (db w) (session other) (faults w) (client_clock other)
    (server_clock w) (entropy w) (drawn w) (console other).

(** ** Steps *)

(** What a step of window [j] of browser [i] leaves. *)
Definition put_window (i j : nat) (courseId : uuid) (s : Sys) (b : Browser)
    (n : Net) : Net :=
  let w := sys_world s in
  mkNet (db w) (faults w) (server_clock w) (entropy w) (drawn w)
    (<[i := mkBrowser (session w) (client_clock w) (console w)
              (<[j := mkWindow courseId (sys_page s) (sys_tasks s)]>
                 (br_windows b))]> (net_browsers n)).

(** A window of browser [i] opens the course page for a course of the
    list: fresh state hooks, and the effect starts [loadCourseData]. *)
Definition open (i : nat) (courseId : uuid) (n : Net) : Net :=
  match net_browsers n !! i with
  | Some b =>
      if bool_decide (is_Some (br_session b) ∧ courseId ∈ course_ids (net_db n))
      then mkNet (net_db n) (net_faults n) (net_clock n) (net_entropy n)
             (net_drawn n)
             (<[i := mkBrowser (br_session b) (br_clock b) (br_console b)
                       (br_windows b ++ [mkWindow courseId initial_state [Loading]])]>
                (net_browsers n))
      else n
  | None => n
  end.

(** Window [j] of browser [i] makes a move of [Race]: a click, or a step of
    a handler in flight. *)
Definition act (i j : nat) (m : move) (n : Net) : Net :=
  match net_browsers n !! i with
  | Some b =>
      match br_windows b !! j with
      | Some win =>
          put_window i j (win_course win)
            (exec (win_course win) m (sys_of n b win)) b n
      | None => n
      end
  | None => n
  end.

Inductive net_move :=
| Open (i : nat) (courseId : uuid)
| Act (i j : nat) (m : move).

Definition net_exec (mv : net_move) (n : Net) : Net :=
  match mv with
  | Open i courseId => open i courseId n
  | Act i j m => act i j m n
  end.

Definition net_run (mvs : list net_move) (n : Net) : Net :=
  foldl (λ n mv, net_exec mv n) n mvs.

(** The moves of one window. *)
Definition in_window (i j : nat) (ms : list move) : list net_move :=
  Act i j <$> ms.

(** ** What the network keeps *)

(** The callers of the browsers. *)
Definition net_callers (n : Net) : list caller :=
  (λ b, AuthUser.id <$> br_session b) <$> net_browsers n.

(** What the writes of a set of callers leave of a store: it is
    referentially intact, the catalogue and the identities are the same, the
    rows of every account that is not among the callers are what they were,
    and no progress row is gone. *)
Definition net_kept (cs : list caller) (db0 db : Database) : Prop :=
  db_wf db ∧ courses db = courses db0 ∧ lessons db = lessons db0 ∧
  auth_users db = auth_users db0 ∧
  (∀ r, Some (UserProgress.user_id r) ∉ cs →
        r ∈ user_progress db ↔ r ∈ user_progress db0) ∧
  (∀ p, Some (Profile.id p) ∉ cs → p ∈ profiles db ↔ p ∈ profiles db0) ∧
  progress_ids db0 ⊆ progress_ids db.

(** A page that has been mounted and whose first load has not ended. *)
Definition opening (courseId : uuid) (user : AuthUser.t) (s : Sys) : Prop :=
  sys_page s = initial_state ∧ courseId ∈ course_ids (db (sys_world s)) ∧
  (sys_tasks s = [Loading] ∨
   ∃ r, sys_tasks s = [Fetched r] ∧
        task_known courseId (db (sys_world s)) (AuthUser.id user) (Fetched r)).

(** A window on a network that loses nothing: loading for the first time,
    or calm. *)
Definition steady (courseId : uuid) (user : AuthUser.t) (s : Sys) : Prop :=
  opening courseId user s ∨ calm courseId user s.

Definition browser_steady (n : Net) (b : Browser) : Prop :=
  ∃ user, br_session b = Some user ∧
    ready (world_of n b) ∧ fresh_source (world_of n b) ∧
    Forall (λ win, steady (win_course win) user (sys_of n b win)) (br_windows b).

Definition net_steady (n : Net) : Prop := Forall (browser_steady n) (net_browsers n).

(** Window [j] of browser [i]. *)
Definition window (n : Net) (i j : nat) : option Window :=
  b ← net_browsers n !! i; br_windows b !! j.

(** The lessons (or the course, [None]) of the progress rows a window
    holds. *)
Definition held_refs (win : Window) : list (option uuid) :=
  UserProgress.lesson_id <$> State.progress (win_page win).

(** The browser that makes a move. *)
Definition mover (mv : net_move) : nat :=
  match mv with Open i _ | Act i _ _ => i end.

(** What an account reads of [db'] is what it reads of [db]. *)
Definition reads_kept (u : uuid) (db db' : Database) : Prop :=
  courses db' = courses db ∧ lessons db' = lessons db ∧
  ∀ courseId, select_user_progress (Some u) u courseId db' =
              select_user_progress (Some u) u courseId db.

(** What the consoles of the browsers hold. *)
Definition net_consoles (n : Net) : list (list log_entry) :=
  br_console <$> net_browsers n.

(** A window shows its course and is in step with the store. *)
Definition in_step (n : Net) (b : Browser) (win : Window) : Prop :=
  shown (win_page win) ∧ synced (win_course win) (win_page win) (world_of n b).

(** ** Samples *)

(** Alice with two windows on the first course, Bob with one, all just
    loaded. *)
Definition sample_net : Net :=
  mkNet Sample.db [] 2000%Z sample_uuid 0
    [mkBrowser (Some Sample.alice) 1000%Z []
       [mkWindow "c1" sample_page []; mkWindow "c1" sample_page []];
     mkBrowser (Some Sample.bob) 1000%Z [] []].

(** Alice toggles the first lesson in her first window. *)
Definition first_window_toggles : list net_move :=
  in_window 0 0 (serial "c1" (Toggle "l1")).

(** Bob opens the first course, lets it load, and toggles its second
    lesson. *)
Definition bob_studies : list net_move :=
  Open 1 "c1" ::
  in_window 1 0 ([Advance 0; Advance 0] ++ serial "c1" (Toggle "l2")).

(** Then she toggles the same lesson in her second window. *)
Definition both_windows_toggle : list net_move :=
  first_window_toggles ++ in_window 0 1 (serial "c1" (Toggle "l1")).

(** ** Any schedule, any faults *)

Lemma net_kept_refl cs db : db_wf db → net_kept cs db db.
Proof. intros Hwf. by split_and!. Qed.

Lemma net_kept_write cs c req db0 db db' :
  c ∈ cs → net_kept cs db0 db → exec_write c req db = Ok db' →
  net_kept cs db0 db'.
Proof.
  intros Hc (Hwf & Hcs & Hl & Hu & Hr & Hp & Hids) Hexec.
  pose proof (exec_write_effect _ _ _ _ Hwf Hexec) as Heff.
  pose proof (write_effect_catalog _ _ _ Heff) as (Hc' & Hl' & Hu').
  split_and!; [by eapply write_effect_wf|congruence..| | |].
  - intros r Hne. rewrite (write_effect_progress_isolation _ _ _ Heff r), Hr; [done..|].
    by intros ->.
  - intros p Hne. rewrite (write_effect_profile_isolation _ _ _ Heff p), Hp; [done..|].
    by intros ->.
  - etrans; [done|]. by eapply write_effect_keeps_ids.
Qed.

Lemma net_kept_step cs db0 w w' :
  auth_uid w ∈ cs → net_kept cs db0 (db w) → world_step w w' →
  net_kept cs db0 (db w').
Proof.
  intros Hc Hk [_ [->|[req Hexec]]]; [done|]. by eapply net_kept_write.
Qed.

Lemma net_run_cons mv mvs n : net_run (mv :: mvs) n = net_run mvs (net_exec mv n).
Proof. done. Qed.

(** A browser keeps its session. *)
Lemma net_callers_insert i (b b' : Browser) (bs : list Browser) :
  bs !! i = Some b → br_session b' = br_session b →
  (λ b, AuthUser.id <$> br_session b) <$> <[i := b']> bs =
  (λ b, AuthUser.id <$> br_session b) <$> bs.
Proof.
  intros Hi Hs. rewrite list_fmap_insert, Hs. apply list_insert_id.
  by rewrite list_lookup_fmap, Hi.
Qed.

Lemma net_exec_callers mv n : net_callers (net_exec mv n) = net_callers n.
Proof.
  destruct mv as [i courseId|i j m]; simpl.
  - unfold open. destruct (net_browsers n !! i) as [b|] eqn:Hi; [|done].
    case_bool_decide; [|done]. by eapply net_callers_insert.
  - unfold act. destruct (net_browsers n !! i) as [b|] eqn:Hi; [|done].
    destruct (br_windows b !! j) as [win|]; [|done].
    eapply net_callers_insert; [done|].
    apply (exec_world_step (win_course win) m (sys_of n b win)).
Qed.

Lemma net_exec_kept db0 mv n :
  net_kept (net_callers n) db0 (net_db n) →
  net_kept (net_callers n) db0 (net_db (net_exec mv n)).
Proof.
  intros Hk. destruct mv as [i courseId|i j m]; simpl.
  - unfold open. by repeat case_match.
  - unfold act. destruct (net_browsers n !! i) as [b|] eqn:Hi; [|done].
    destruct (br_windows b !! j) as [win|]; [|done].
    eapply (net_kept_step _ _ (world_of n b)), exec_world_step; [|done].
    apply (list_elem_of_fmap_2' _ _ b); [by eapply list_elem_of_lookup_2|done].
Qed.

Lemma net_run_kept db0 mvs n :
  net_kept (net_callers n) db0 (net_db n) →
  net_callers (net_run mvs n) = net_callers n ∧
  net_kept (net_callers n) db0 (net_db (net_run mvs n)).
Proof.
  revert n. induction mvs as [|mv mvs IH]; intros n Hk; [done|].
  rewrite net_run_cons. pose proof (net_exec_callers mv n) as Hc.
  destruct (IH (net_exec mv n)) as [Hc' Hk']; [|split; congruence].
  rewrite Hc. by apply net_exec_kept.
Qed.

(** C15: however the windows of the browsers take their steps, and with
    whatever faults of the network: every browser keeps its session, the store stays
    referentially intact, its catalogue and identities are unchanged, the
    rows of an account no browser is signed in to are what they were, and no
    progress row is gone. *)
Theorem net_isolated mvs n :
  db_wf (net_db n) →
  net_callers (net_run mvs n) = net_callers n ∧
  net_kept (net_callers n) (net_db n) (net_db (net_run mvs n)).
Proof. intros Hwf. by apply net_run_kept, net_kept_refl. Qed.

(** ** A network that loses nothing *)

Lemma world_of_put i j courseId s b n wins :
  world_of (put_window i j courseId s b n)
    (mkBrowser (session (sys_world s)) (client_clock (sys_world s))
       (console (sys_world s)) wins) = sys_world s.
Proof. by destruct s as [st [] ts]. Qed.

(** What a request that arrives leaves for another client. *)
Lemma rebase_sent w w' other :
  ready other → db other = db w → sent w w' →
  ready (rebase w' other) ∧ fresh_source (rebase w' other) ∧
  grows (db other) (db (rebase w' other)).
Proof.
  intros (Hq & Hwf & Hs) Hdb ((Hq' & Hwf' & _) & Hf & _ & _ & Hg).
  split_and!; [|exact Hf|by rewrite Hdb].
  unfold ready. split_and!; [done..|]. intros user Hu. simpl in *. unfold auth_user_ids.
  rewrite (proj1 (proj2 (proj2 Hg))), <- Hdb. by apply Hs.
Qed.

Lemma steady_moved courseId user st ts w w' :
  steady courseId user (mkSys st w ts) →
  ready w' → fresh_source w' → session w' = session w → grows (db w) (db w') →
  steady courseId user (mkSys st w' ts).
Proof.
  intros [(Hp & Hc & Ht)|Hcalm] Hr Hf Hs Hg; [left|right; by eapply calm_moved].
  unfold opening. sys_simpl.
  split_and!; [done|unfold course_ids; by rewrite (proj1 Hg)|].
  destruct Ht as [?|(r & ? & ?)]; [by left|right]. exists r.
  split; [done|]. by eapply task_known_grows.
Qed.

Section Steady.
Context (courseId : uuid) (user : AuthUser.t) (s : Sys).
Context (Hr : ready (sys_world s)) (Hf : fresh_source (sys_world s)).
Context (Hs : session (sys_world s) = Some user).

(** A page that is loading for the first time offers no button; its load
    reads the store, and sets a calm page. *)
Lemma opening_exec m :
  opening courseId user s →
  steady courseId user (exec courseId m s) ∧
  sent (sys_world s) (sys_world (exec courseId m s)).
Proof using Hr Hf Hs.
  intros (Hp & Hc & Ht). destruct s as [st w ts]. sys_simpl. subst st.
  destruct m as [a|[|i]]; simpl.
  - unfold start. sys_simpl.
    assert (offered (render initial_state) = []) as -> by done.
    rewrite bool_decide_eq_false_2 by apply not_elem_of_nil.
    split; [by left|by apply sent_refl].
  - unfold advance. sys_simpl. destruct Ht as [->|(r & -> & Hk & Hec & Hel)]; simpl.
    + destruct (reload_fetch_quiet courseId w) as (r & -> & Hec & Hel & Hpage);
        [apply Hr..|].
      split; [left|by apply sent_refl]. split_and!; [done..|right].
      exists r. split; [done|]. split_and!; [|done..].
      rewrite Hpage. apply mounted_known; [apply Hr|done].
    + destruct (reload_commit r _) as [x [st' w']] eqn:Hcommit.
      apply reload_commit_cases in Hcommit as [(-> & -> & _)|(e & _ & _ & [?|?])];
        [|congruence..].
      split; [right|by apply sent_refl]. by split_and!.
  - unfold advance. sys_simpl.
    destruct Ht as [->|(r & -> & Hk)]; simpl;
      (split; [left; split_and!; eauto|by apply sent_refl]).
Qed.

Lemma steady_exec m :
  steady courseId user s →
  steady courseId user (exec courseId m s) ∧
  sent (sys_world s) (sys_world (exec courseId m s)).
Proof using Hr Hf Hs.
  intros [Ho|Hc]; [by apply opening_exec|].
  split; [right; by apply exec_calm|by eapply exec_sent].
Qed.

End Steady.

Lemma windows_moved user wins w w' :
  Forall (λ win, steady (win_course win) user
                   (mkSys (win_page win) w (win_tasks win))) wins →
  ready w' → fresh_source w' → session w' = session w → grows (db w) (db w') →
  Forall (λ win, steady (win_course win) user
                   (mkSys (win_page win) w' (win_tasks win))) wins.
Proof.
  intros Hwins Hr Hf Hs Hg. eapply Forall_impl; [done|].
  intros win Hwin. simpl in *. eapply steady_moved; [exact Hwin|done..].
Qed.

(** The browsers that did not move, after a request of another has
    arrived. *)
Lemma browser_steady_rebase n n' w' b b2 :
  (∀ b, world_of n' b = rebase w' (world_of n b)) →
  sent (world_of n b) w' → browser_steady n b2 → browser_steady n' b2.
Proof.
  intros Hw Hsent (user & Hs & Hr & Hf & Hwins).
  destruct (rebase_sent (world_of n b) w' (world_of n b2) Hr eq_refl Hsent)
    as (Hr' & Hf' & Hg).
  exists user. unfold sys_of. rewrite Hw. split_and!; [done..|].
  by eapply windows_moved.
Qed.

(** A step of a window leaves every window of every browser steady, and
    logs nothing. *)
Lemma act_steady i j m n :
  net_steady n →
  net_steady (act i j m n) ∧ net_consoles (act i j m n) = net_consoles n.
Proof.
  intros Hn. unfold act.
  destruct (net_browsers n !! i) as [b|] eqn:Hi; [|done].
  destruct (br_windows b !! j) as [win|] eqn:Hj; [|done].
  pose proof (Forall_lookup_1 _ _ _ _ Hn Hi) as (user & Hs & Hr & Hf & Hwins).
  pose proof (Forall_lookup_1 _ _ _ _ Hwins Hj) as Hwin.
  destruct (steady_exec (win_course win) user (sys_of n b win) Hr Hf Hs m Hwin)
    as [Hwin' Hsent].
  set (s' := exec _ _ _) in *.
  pose proof Hsent as (Hr' & Hf' & Hs' & Hco & Hg). split.
  - apply Forall_insert.
    + eapply Forall_impl; [exact Hn|]. intros b2.
      by apply (browser_steady_rebase n _ (sys_world s') b).
    + exists user. rewrite world_of_put. split_and!; [by rewrite Hs'|done..|].
      apply Forall_insert.
      * eapply Forall_impl; [exact (windows_moved _ _ _ _ Hwins Hr' Hf' Hs' Hg)|].
        intros win2 Hwin2. unfold sys_of. by rewrite world_of_put.
      * unfold sys_of. rewrite world_of_put. simpl. by destruct s'.
  - unfold net_consoles, put_window. cbn [net_browsers].
    rewrite list_fmap_insert. cbn [br_console]. rewrite Hco. apply list_insert_id.
    by rewrite list_lookup_fmap, Hi.
Qed.

Lemma open_steady i courseId n :
  net_steady n →
  net_steady (open i courseId n) ∧ net_consoles (open i courseId n) = net_consoles n.
Proof.
  intros Hn. unfold open.
  destruct (net_browsers n !! i) as [b|] eqn:Hi; [|done].
  case_bool_decide as Hopen; [|done]. destruct Hopen as [_ Hc].
  pose proof (Forall_lookup_1 _ _ _ _ Hn Hi) as (user & Hs & Hr & Hf & Hwins).
  split.
  - apply Forall_insert; [done|]. exists user. split_and!; [done..|].
    apply Forall_app. split; [done|]. apply Forall_singleton. left.
    split_and!; [done..|by left].
  - unfold net_consoles. cbn [net_browsers]. rewrite list_fmap_insert.
    apply list_insert_id. by rewrite list_lookup_fmap, Hi.
Qed.

Lemma net_exec_steady mv n :
  net_steady n →
  net_steady (net_exec mv n) ∧ net_consoles (net_exec mv n) = net_consoles n.
Proof. destruct mv; [apply open_steady|apply act_steady]. Qed.

Lemma net_run_steady mvs n :
  net_steady n →
  net_steady (net_run mvs n) ∧ net_consoles (net_run mvs n) = net_consoles n.
Proof.
  revert n. induction mvs as [|mv mvs IH]; intros n Hn; [done|].
  rewrite net_run_cons. destruct (net_exec_steady mv n Hn) as [Hn' Hco].
  destruct (IH _ Hn') as [? ?]. split; congruence.
Qed.

(** ** Other accounts *)

Lemma world_step_reads u w w' :
  db_wf (db w) → auth_uid w ≠ Some u → world_step w w' →
  reads_kept u (db w) (db w').
Proof.
  intros Hwf Hc [_ [->|[req Hexec]]]; [done|].
  pose proof (exec_write_effect _ _ _ _ Hwf Hexec) as Heff.
  destruct (write_effect_catalog _ _ _ Heff) as (? & ? & _).
  split_and!; [done..|]. intros c. by eapply write_effect_reads_kept.
Qed.

Lemma synced_reads courseId st w w' user :
  session w = Some user → session w' = session w →
  reads_kept (AuthUser.id user) (db w) (db w') →
  synced courseId st w → synced courseId st w'.
Proof.
  intros Hs Hs' (Hc & Hl & Hp) (user' & Hu & Hcourse & Hls & Hps).
  rewrite (auth_uid_session _ _ Hs) in *. simplify_eq. exists user.
  rewrite (auth_uid_session w' user) by congruence.
  rewrite (select_course_by_id_catalog _ (db w)), (select_lessons_catalog _ (db w)), Hp
    by done.
  split_and!; [congruence|done..].
Qed.

(** The move of a browser of another account leaves the browser as it was,
    and what its account reads. *)
Lemma net_exec_other mv n i b user :
  db_wf (net_db n) → net_browsers n !! i = Some b → br_session b = Some user →
  net_callers n !! mover mv ≠ Some (Some (AuthUser.id user)) →
  net_browsers (net_exec mv n) !! i = Some b ∧
  reads_kept (AuthUser.id user) (net_db n) (net_db (net_exec mv n)) ∧
  db_wf (net_db (net_exec mv n)).
Proof.
  intros Hwf Hi Hs Hother.
  assert (mover mv ≠ i) as Hne.
  { intros Heq. destruct Hother. unfold net_callers.
    rewrite Heq, list_lookup_fmap, Hi. simpl. by rewrite Hs. }
  split_and!; [| |by eapply (net_exec_kept (net_db n)), net_kept_refl].
  - destruct mv as [k c|k l m]; simpl in *; unfold open, act, put_window;
      repeat case_match; cbn [net_browsers]; try done;
      by rewrite list_lookup_insert_ne.
  - destruct mv as [k c|k l m]; simpl in *; unfold open, act.
    { by repeat case_match. }
    destruct (net_browsers n !! k) as [bk|] eqn:Hk; [|done].
    destruct (br_windows bk !! l) as [win|]; [|done].
    apply (world_step_reads _ (world_of n bk)), exec_world_step; [done|].
    intros Heq. destruct Hother. unfold net_callers.
    rewrite list_lookup_fmap, Hk. simpl. by rewrite <- Heq.
Qed.

Lemma net_run_other mvs n i b user :
  db_wf (net_db n) → net_browsers n !! i = Some b → br_session b = Some user →
  Forall (λ mv, net_callers n !! mover mv ≠ Some (Some (AuthUser.id user))) mvs →
  net_browsers (net_run mvs n) !! i = Some b ∧
  reads_kept (AuthUser.id user) (net_db n) (net_db (net_run mvs n)).
Proof.
  revert n. induction mvs as [|mv mvs IH]; intros n Hwf Hi Hs Hmvs; [done|].
  apply Forall_cons in Hmvs as [Hmv Hmvs]. rewrite net_run_cons.
  destruct (net_exec_other mv n i b user) as (Hi' & (Hc & Hl & Hp) & Hwf'); [done..|].
  destruct (IH (net_exec mv n)) as (? & Hc' & Hl' & Hp'); [done..| |].
  { by rewrite net_exec_callers. }
  split; [done|]. split_and!; [congruence..|]. intros c. by rewrite Hp', Hp.
Qed.

(** Whatever the browsers of other accounts do, in whatever order and with
    whatever faults of the network, a window that shows its course and is in
    step with the store stays so. *)
Theorem other_accounts_keep_step mvs n i b j win user :
  db_wf (net_db n) → net_browsers n !! i = Some b → br_session b = Some user →
  br_windows b !! j = Some win → in_step n b win →
  Forall (λ mv, net_callers n !! mover mv ≠ Some (Some (AuthUser.id user))) mvs →
  net_browsers (net_run mvs n) !! i = Some b ∧ in_step (net_run mvs n) b win.
Proof.
  intros Hwf Hi Hs _ [Hshown Hsync] Hmvs.
  destruct (net_run_other mvs n i b user) as [Hi' Hreads]; [done..|].
  split; [done|]. split; [done|]. by eapply (synced_reads _ _ (world_of n b)).
Qed.

(** ** One window at a time *)

Lemma put_window_id i j n b win :
  net_browsers n !! i = Some b → br_windows b !! j = Some win →
  put_window i j (win_course win) (sys_of n b win) b n = n.
Proof.
  intros Hi Hj. destruct n as [d f c e dr bs], b as [s cl co wins], win as [cid st ts].
  unfold put_window. simpl in *.
  by rewrite (list_insert_id wins), (list_insert_id bs).
Qed.

Lemma act_put i j m courseId s b n :
  i < length (net_browsers n) → j < length (br_windows b) →
  act i j m (put_window i j courseId s b n) =
  put_window i j courseId (exec courseId m s) b n.
Proof.
  intros Hi Hj. unfold act, put_window. cbv zeta. cbn [net_browsers].
  rewrite list_lookup_insert_eq by done. cbn [br_windows].
  rewrite list_lookup_insert_eq by done. cbn [win_course].
  unfold sys_of, world_of. simpl. rewrite !list_insert_insert_eq.
  by destruct s as [st [] ts].
Qed.

(** The moves of one window are the moves of its page in [Race]. *)
Lemma in_window_run i j ms n b win :
  net_browsers n !! i = Some b → br_windows b !! j = Some win →
  net_run (in_window i j ms) n =
  put_window i j (win_course win)
    (run_moves (win_course win) ms (sys_of n b win)) b n.
Proof.
  intros Hi Hj. rewrite <- (put_window_id i j n b win Hi Hj) at 1.
  generalize (sys_of n b win). induction ms as [|m ms IH]; intros s; [done|].
  unfold in_window. rewrite fmap_cons, net_run_cons, run_moves_cons. simpl.
  rewrite act_put by by eapply lookup_lt_Some. apply IH.
Qed.

(** On a network that loses nothing, any window that shows its course can
    be brought in step with the store, whatever the other windows have done:
    let its handlers in flight end, toggle any lesson it lists, and let that
    handler end.  Nothing of the window is then in flight, and the window
    shows its course as the store has it. *)
Theorem window_catches_up n i b j win lesson :
  net_steady n → net_browsers n !! i = Some b → br_windows b !! j = Some win →
  lesson ∈ State.lessons (win_page win) →
  ∃ b' win',
    net_browsers
      (net_run (in_window i j (recover (win_course win) (Toggle (Lesson.id lesson))
                                 (sys_of n b win))) n) !! i = Some b' ∧
    br_windows b' !! j = Some win' ∧ win_tasks win' = [] ∧
    in_step
      (net_run (in_window i j (recover (win_course win) (Toggle (Lesson.id lesson))
                                 (sys_of n b win))) n) b' win'.
Proof.
  intros Hn Hi Hj Hin.
  pose proof (Forall_lookup_1 _ _ _ _ Hn Hi) as (user & Hs & Hr & Hf & Hwins).
  destruct (Forall_lookup_1 _ _ _ _ Hwins Hj) as [(Hp & _)|Hcalm].
  { simpl in Hp. rewrite Hp in Hin. by apply elem_of_nil in Hin. }
  destruct (settle_calm _ _ _ Hcalm) as (st1 & w1 & Hrun & H1).
  pose proof (calm_lessons _ _ _ _ Hcalm
    (reaches_run_moves _ (settle (sys_of n b win)) _)) as Hls.
  rewrite Hrun in Hls. specialize (Hls H1). simpl in Hls. rewrite <- Hls in Hin.
  destruct (toggle_calm _ _ _ _ _ H1 Hin) as (w' & Hrun' & _ & H2 & _).
  rewrite (in_window_run i j _ n b win Hi Hj). unfold recover.
  rewrite run_moves_app, Hrun, Hrun'. unfold put_window. sys_simpl. cbv zeta.
  cbn [net_browsers]. eexists _, _.
  split; [apply list_lookup_insert_eq; by eapply lookup_lt_Some|].
  cbn [br_windows].
  split; [apply list_lookup_insert_eq; by eapply lookup_lt_Some|].
  split; [done|]. split; [by apply (calm_shown _ _ _ H2)|].
  cbn [win_course win_page]. destruct H2 as (_ & _ & Hs2 & _). sys_simpl.
  replace (world_of _ _) with w' by by destruct w'.
  by eapply synced_loaded.
Qed.

(** ** What the windows show *)

(** C16: on a network that loses nothing, however the windows of the browsers
    take their steps: nothing is logged in any console, and every window
    shows the spinner of its first load, or its course with the lessons the
    store has for it. *)
Theorem net_quiet mvs n :
  net_steady n →
  net_consoles (net_run mvs n) = net_consoles n ∧
  Forall (λ b, Forall (λ win,
      win_page win = initial_state ∨
      shown (win_page win) ∧
      State.lessons (win_page win) =
        select_lessons (AuthUser.id <$> br_session b) (win_course win)
          (net_db (net_run mvs n))) (br_windows b))
    (net_browsers (net_run mvs n)).
Proof.
  intros Hn. destruct (net_run_steady mvs n Hn) as [Hn' Hco]. split; [done|].
  eapply Forall_impl; [exact Hn'|]. intros b (user & Hs & _ & _ & Hwins).
  eapply Forall_impl; [exact Hwins|]. intros win [(Hp & _)|Hcalm]; [by left|right].
  split; [by apply (calm_shown _ _ _ Hcalm)|].
  destruct Hcalm as (_ & _ & _ & _ & _ & _ & (_ & Hls & _) & _).
  by rewrite Hs.
Qed.

(** ** A second window of the same account *)

Lemma put_window_lookup i j courseId s b n :
  i < length (net_browsers n) →
  net_browsers (put_window i j courseId s b n) !! i =
  Some (mkBrowser (session (sys_world s)) (client_clock (sys_world s))
          (console (sys_world s))
          (<[j := mkWindow courseId (sys_page s) (sys_tasks s)]> (br_windows b))).
Proof. intros Hi. unfold put_window. simpl. by rewrite list_lookup_insert_eq. Qed.

(** A toggle changes what the account reads. *)
Lemma toggle_changes_rows courseId user st w lesson :
  calm courseId user (mkSys st w []) → synced courseId st w →
  one_row_per_lesson st → lesson ∈ State.lessons st →
  ∃ w', run_moves courseId (serial courseId (Toggle (Lesson.id lesson)))
          (mkSys st w []) = mkSys (mounted courseId w') w' [] ∧
        session w' = Some user ∧
        State.progress (mounted courseId w') ≠ State.progress st.
Proof.
  intros Hcalm Hsync Hone Hin.
  destruct (toggle_calm _ _ _ _ _ Hcalm Hin) as (w' & Hmoves & Hrun & Hcalm' & _).
  pose proof Hcalm as (Hr & Hf & _). pose proof Hcalm' as (_ & _ & Hs' & _).
  destruct (toggle_post courseId st w lesson) as (st' & w2 & r' & Hrun' & Hpost & Hc & _);
    [done..|intros _; apply (Hf _ (le_n _))|].
  rewrite Hrun in Hrun'. injection Hrun' as <- <-.
  exists w'. split_and!; [done..|]. intros Heq.
  pose proof (write_post_flag _ _ _ _ _ _ _ Hpost) as Hflag.
  rewrite Heq, Hc, isLessonCompleted_for in Hflag. by destruct (completed_for _ _).
Qed.

(** C23: on a network that loses nothing, when two windows of one browser show
    the same course in step with the store and one of them toggles a lesson,
    the other is left as it was, and is no longer in step. *)
Theorem second_window_behind n i b j j' win win' lesson :
  net_steady n → net_browsers n !! i = Some b →
  br_windows b !! j = Some win → br_windows b !! j' = Some win' → j ≠ j' →
  win_course win' = win_course win → win_tasks win = [] →
  in_step n b win → in_step n b win' →
  one_row_per_lesson (win_page win) → lesson ∈ State.lessons (win_page win) →
  window (net_run (in_window i j (serial (win_course win) (Toggle (Lesson.id lesson)))) n)
    i j' = Some win' ∧
  ∀ b', net_browsers
          (net_run (in_window i j (serial (win_course win)
                                     (Toggle (Lesson.id lesson)))) n) !! i = Some b' →
        ¬ in_step (net_run (in_window i j (serial (win_course win)
                                            (Toggle (Lesson.id lesson)))) n) b' win'.
Proof.
  intros Hn Hi Hj Hj' Hne Hc Hts [Hshown Hsync] [_ Hsync'] Hone Hin.
  pose proof (Forall_lookup_1 _ _ _ _ Hn Hi) as (user & Hs & Hr & Hf & Hwins).
  destruct (Forall_lookup_1 _ _ _ _ Hwins Hj) as [(Hp & _)|Hcalm].
  { destruct Hshown as [Hld _]. simpl in Hp. by rewrite Hp in Hld. }
  unfold sys_of in Hcalm. rewrite Hts in Hcalm.
  destruct (toggle_changes_rows _ _ _ _ _ Hcalm Hsync Hone Hin)
    as (w' & Hrun & Hs' & Hrows).
  rewrite (in_window_run i j _ n b win Hi Hj). unfold sys_of at 1 2 3.
  rewrite Hts, Hrun. unfold window.
  rewrite put_window_lookup by by eapply lookup_lt_Some.
  split; [simpl; by rewrite list_lookup_insert_ne|].
  intros b' [= <-] [_ Hsync2]. rewrite world_of_put in Hsync2. sys_simpl.
  destruct Hsync2 as (user' & Hu' & _ & _ & Hp'). destruct Hrows.
  trans (State.progress (win_page win')).
  - rewrite Hp'. unfold mounted, loaded. rewrite Hs'. cbn [State.progress].
    simplify_eq. by rewrite Hc.
  - destruct Hsync as (u0 & Hu0 & _ & _ & ->), Hsync' as (u1 & Hu1 & _ & _ & ->).
    rewrite Hc. congruence.
Qed.

(** ** A window that opens *)

(** On a network that loses nothing, a window opened on a course of the
    list, whose load is left to run to its end, shows the course in step
    with the store, whatever the windows open before it have left in
    flight. *)
Theorem opened_window_loads n i b courseId :
  net_steady n → net_browsers n !! i = Some b →
  courseId ∈ course_ids (net_db n) →
  ∃ b' win',
    net_browsers
      (net_run (Open i courseId ::
                in_window i (length (br_windows b)) [Advance 0; Advance 0]) n) !! i =
      Some b' ∧
    br_windows b' !! length (br_windows b) = Some win' ∧
    win_course win' = courseId ∧ win_tasks win' = [] ∧
    in_step
      (net_run (Open i courseId ::
                in_window i (length (br_windows b)) [Advance 0; Advance 0]) n)
      b' win'.
Proof.
  intros Hn Hi Hc.
  pose proof (Forall_lookup_1 _ _ _ _ Hn Hi) as (user & Hs & Hr & Hf & Hwins).
  rewrite net_run_cons. cbn [net_exec]. unfold open.
  rewrite Hi, bool_decide_eq_true_2 by by rewrite Hs.
  set (b1 := mkBrowser _ _ _ _). set (n1 := mkNet _ _ _ _ _ _).
  assert (net_browsers n1 !! i = Some b1) as Hi1.
  { apply list_lookup_insert_eq. by eapply lookup_lt_Some. }
  assert (br_windows b1 !! length (br_windows b) =
          Some (mkWindow courseId initial_state [Loading])) as Hj1.
  { simpl. by rewrite lookup_app_r, Nat.sub_diag. }
  rewrite (in_window_run i _ _ n1 b1 _ Hi1 Hj1). unfold sys_of.
  cbn [win_page win_tasks win_course].
  change (world_of n1 b1) with (world_of n b).
  rewrite mount_loads by apply Hr. eexists _, _.
  split; [apply put_window_lookup; by eapply lookup_lt_Some|].
  unfold in_step. rewrite world_of_put.
  cbn [br_windows sys_page sys_tasks sys_world].
  split; [apply list_lookup_insert_eq; by eapply lookup_lt_Some|].
  split; [done|]. split; [done|]. cbn [win_page win_course].
  destruct (mounted_calm courseId (world_of n b) user Hr Hf Hs Hc) as [Hcalm Hsync].
  split; [by apply (calm_shown _ _ _ Hcalm)|done].
Qed.

(** Two windows of one account that toggle the same lesson one after the
    other, each run to its end: the second window has not seen the row of
    the first, and inserts a second row for the lesson.  Both windows then
    show the lesson completed; the store holds two rows for it. *)
Example two_windows_duplicate :
  net_consoles (net_run both_windows_toggle sample_net) = [[]; []] ∧
  UserProgress.lesson_id <$>
    select_user_progress (Some "alice") "alice" "c1"
      (net_db (net_run both_windows_toggle sample_net)) =
    [Some "l1"; Some "l1"] ∧
  held_refs <$>
    window (net_run both_windows_toggle sample_net) 0 0 = Some [Some "l1"] ∧
  held_refs <$>
    window (net_run both_windows_toggle sample_net) 0 1 =
    Some [Some "l1"; Some "l1"].
Proof. by vm_compute. Qed.

(** ** The theorems on the sample network *)

Lemma sample_in_step : in_step sample_net
  (mkBrowser (Some Sample.alice) 1000%Z []
     [mkWindow "c1" sample_page []; mkWindow "c1" sample_page []])
  (mkWindow "c1" sample_page []).
Proof.
  split; [split_and!; [done..|by eexists]|]. apply sample_page_ok.
Qed.

Lemma sample_calm : calm "c1" Sample.alice (mkSys sample_page sample_world []).
Proof.
  replace sample_page with (mounted "c1" sample_world) by by vm_compute.
  apply (mounted_calm "c1" sample_world Sample.alice);
    [apply sample_ready|apply sample_fresh_source|reflexivity|compute_done].
Qed.

Lemma sample_steady : net_steady sample_net.
Proof.
  unfold net_steady, sample_net. cbn [net_browsers].
  apply Forall_cons_2; [|apply Forall_cons_2; [|apply Forall_nil_2]].
  - exists Sample.alice.
    split_and!; [reflexivity|apply sample_ready|apply sample_fresh_source|].
    repeat apply Forall_cons_2; [right; exact sample_calm..|apply Forall_nil_2].
  - exists Sample.bob.
    split_and!; [reflexivity| |apply sample_fresh_source|apply Forall_nil_2].
    split_and!; [reflexivity|apply sample_wf|]. intros user [= <-]. compute_done.
Qed.

Lemma net_isolated_witness :
  net_callers (net_run both_windows_toggle sample_net) = net_callers sample_net ∧
  net_kept (net_callers sample_net) (net_db sample_net)
    (net_db (net_run both_windows_toggle sample_net)).
Proof. apply (net_isolated both_windows_toggle sample_net), sample_wf. Defined.

Lemma net_quiet_witness :
  net_consoles (net_run (bob_studies ++ both_windows_toggle) sample_net) =
    net_consoles sample_net ∧
  Forall (λ b, Forall (λ win,
      win_page win = initial_state ∨
      shown (win_page win) ∧
      State.lessons (win_page win) =
        select_lessons (AuthUser.id <$> br_session b) (win_course win)
          (net_db (net_run (bob_studies ++ both_windows_toggle) sample_net)))
      (br_windows b))
    (net_browsers (net_run (bob_studies ++ both_windows_toggle) sample_net)).
Proof.
  apply (net_quiet (bob_studies ++ both_windows_toggle) sample_net), sample_steady.
Defined.

Lemma other_accounts_keep_step_witness :
  net_browsers (net_run bob_studies sample_net) !! 0 =
    Some (mkBrowser (Some Sample.alice) 1000%Z []
            [mkWindow "c1" sample_page []; mkWindow "c1" sample_page []]) ∧
  in_step (net_run bob_studies sample_net)
    (mkBrowser (Some Sample.alice) 1000%Z []
       [mkWindow "c1" sample_page []; mkWindow "c1" sample_page []])
    (mkWindow "c1" sample_page []).
Proof.
  apply (other_accounts_keep_step bob_studies sample_net 0 _ 0 _ Sample.alice);
    [apply sample_wf|done|done|done|apply sample_in_step|].
  repeat apply Forall_cons_2; try apply Forall_nil_2; done.
Defined.

Lemma window_catches_up_witness :
  ∃ b' win',
    net_browsers
      (net_run (in_window 0 1
                  (recover "c1" (Toggle "l1") (mkSys sample_page sample_world []))) 
         sample_net) !! 0 = Some b' ∧
    br_windows b' !! 1 = Some win' ∧ win_tasks win' = [] ∧
    in_step
      (net_run (in_window 0 1
                  (recover "c1" (Toggle "l1") (mkSys sample_page sample_world [])))
         sample_net) b' win'.
Proof.
  apply (window_catches_up sample_net 0
           (mkBrowser (Some Sample.alice) 1000%Z []
              [mkWindow "c1" sample_page []; mkWindow "c1" sample_page []])
           1 (mkWindow "c1" sample_page []) Sample.l1);
    [apply sample_steady|reflexivity|reflexivity|compute_done].
Defined.

Lemma second_window_behind_witness :
  window (net_run first_window_toggles sample_net) 0 1 =
    Some (mkWindow "c1" sample_page []) ∧
  ∀ b', net_browsers (net_run first_window_toggles sample_net) !! 0 = Some b' →
        ¬ in_step (net_run first_window_toggles sample_net) b'
            (mkWindow "c1" sample_page []).
Proof.
  apply (second_window_behind sample_net 0
           (mkBrowser (Some Sample.alice) 1000%Z []
              [mkWindow "c1" sample_page []; mkWindow "c1" sample_page []])
           0 1 (mkWindow "c1" sample_page []) (mkWindow "c1" sample_page [])
           Sample.l1);
    [apply sample_steady|reflexivity|reflexivity|reflexivity|lia|reflexivity
    |reflexivity|apply sample_in_step|apply sample_in_step|compute_done
    |compute_done].
Defined.

Lemma opened_window_loads_witness :
  ∃ b' win',
    net_browsers
      (net_run (Open 1 "c2" :: in_window 1 0 [Advance 0; Advance 0])
         (net_run both_windows_toggle sample_net)) !! 1 = Some b' ∧
    br_windows b' !! 0 = Some win' ∧
    win_course win' = "c2" ∧ win_tasks win' = [] ∧
    in_step
      (net_run (Open 1 "c2" :: in_window 1 0 [Advance 0; Advance 0])
         (net_run both_windows_toggle sample_net)) b' win'.
Proof.
  apply (opened_window_loads (net_run both_windows_toggle sample_net) 1
           (mkBrowser (Some Sample.bob) 1000%Z [] []) "c2");
    [apply net_run_steady, sample_steady|by vm_compute|compute_done].
Defined.
