(* ===== verification/Sessions.v ===== *)
(** * Sessions: signing out and in with handlers in flight

    src/unnamed/part_001 shows the pages to a user and the forms to nobody:
    when the user signs out the page is unmounted, and the next user of the
    browser signs in to an application that is the same JavaScript program,
    with the course the previous user had selected ([selectedCourseId] is
    state of [AppContent], which stays mounted) and with the handlers of the
    previous user still in flight.  A handler is a closure of the render
    that created it: the [user] it names in its requests
    (src/src/pages/CourseDetail.tsx, [user.id]) is the user of that render,
    whoever is signed in when the request is sent.

    Which session a request is sent with is decided inside supabase-js, not
    in the sources.  It is modelled from the documented behaviour of the
    client: every request carries the token of the session the client holds
    when the request is sent, and none when it holds no session.

    A shared browser ([Shared]) holds the selection, the page that is
    mounted with its handlers, as a system of [Race], and the handlers left
    behind, each with the user and the course of the render that created it
    ([Orphan]).  The user signed in is the session of the world.  The list
    of courses is not a page here: its load is a read, and [AppFlow] has it.

    The theorems are about every run, under any faults: the store keeps
    the rows of accounts that did not sign in ([shared_isolated]); the page
    mounted holds data of the user signed in ([shared_pages_typed]) and is
    refused nothing ([mounted_accepted]); a write left behind is decided by
    the session it is sent with ([left_behind_decided]), and one that the
    sign-out has overtaken is lost ([left_behind_refused]); so the only
    refusals a browser ever logs are those of handlers left behind
    ([refusals_left_behind]), which all end ([left_behind_end]).  They rest
    on one invariant, [shared_held], which extends [holds] of [Faults] to
    the handlers left behind.  The page that is mounted steps as a system
    of [Race] does ([mounted_moves]), which is what [Replay] builds on. *)

From stdpp Require Import base tactics option list strings.
From S2P Require Import Prelude JsNumber Schema Policy Client CourseDetail.
From S2P Require Import Completion Session Race Recovery Lifecycle Faults AppFlow.
From S2P Require Import App Network Postgres.
Set Warnings "-clear-no-such-hyp".

(** ** State *)

(** A handler left behind: the [user] and the [courseId] of its closure, and
    where it stands. *)
Record Orphan := mkOrphan {
  o_user : AuthUser.t;
  o_course : uuid;
  o_task : task;
}.

(** The browser: [selectedCourseId] of [AppContent], which no sign-out
    resets; the course page with its handlers in flight and the world; and
    the handlers left behind. *)
Record Shared := mkShared {
  sh_selected : option uuid;
  sh_sys : Sys;
  sh_orphans : list Orphan;
}.

Inductive shared_move :=
| SignsIn (user : AuthUser.t)
| SignsOut
| Does (m : tab_move).

Definition sh_world (t : Shared) : World := sys_world (sh_sys t).

(** The course page that [AppContent] renders for the user of the world
    and the selection, if it renders one. *)
Definition course_shown (selected : option uuid) (w : World) : option uuid :=
  match AppContent false (session w) (AppState.mk true selected) with
  | CourseDetail courseId => Some courseId
  | _ => None
  end.

Definition sh_mounted (t : Shared) : option uuid :=
  course_shown (sh_selected t) (sh_world t).

(** ** Steps *)

(** [loadCourseData] up to its await, in a handler whose closure holds
    [user]: the third request is sent, with the id of that user. *)
Definition reload_fetch_as (user : AuthUser.t) (courseId : uuid) :
    prog World store_error Results :=
  courseResult ← fetch_course courseId;
  lessonsResult ← fetch_lessons courseId;
  progressResult ← fetch_progress (AuthUser.id user) courseId;
  mret (mkResults courseResult lessonsResult progressResult).

(** A handler left behind takes its next step, in the world as it is now:
    what it leaves of the world, and where it stands then. *)
Definition orphan_step (o : Orphan) (w : World) : World * option task :=
  match o_task o with
  | Loading =>
      match reload_fetch_as (o_user o) (o_course o) w with
      | (Ok r, w') => (w', Some (Fetched r))
      | (Err _, w') => (w', None)
      end
  | task =>
      let s := advance (o_course o) 0 (mkSys unmounted w [task]) in
      (sys_world s, head (sys_tasks s))
  end.

(** The page is unmounted: its handlers in flight run on without it, with
    the user of their render. *)
Definition unmount (t : Shared) : list Orphan :=
  match sh_mounted t, session (sh_world t) with
  | Some courseId, Some user =>
      sh_orphans t ++ (mkOrphan user courseId <$> sys_tasks (sh_sys t))
  | _, _ => sh_orphans t
  end.

(** [AppContent] renders again: a course page that was not there is mounted
    with fresh state hooks, and its effect starts the load. *)
Definition render_app (selected : option uuid) (w : World) : Sys :=
  mkSys initial_state w
    match course_shown selected w with
    | Some _ => [Loading]
    | None => []
    end.

(** [signIn]: the form is shown to nobody only, and the identity exists. *)
Definition sign_in (user : AuthUser.t) (t : Shared) : Shared :=
  if bool_decide (session (sh_world t) = None ∧ user ∈ auth_users (db (sh_world t)))
  then mkShared (sh_selected t)
         (render_app (sh_selected t) (with_session (Some user) (sh_world t)))
         (sh_orphans t)
  else t.

(** [signOut]: the client drops its session and the page is unmounted. *)
Definition sign_out (t : Shared) : Shared :=
  match session (sh_world t) with
  | Some _ =>
      mkShared (sh_selected t)
        (render_app (sh_selected t) (with_session None (sh_world t))) (unmount t)
  | None => t
  end.

(** [onSelectCourse], of a course that [Home] lists, where [Home] is
    shown. *)
Definition sh_enter (courseId : uuid) (t : Shared) : Shared :=
  match sh_mounted t, session (sh_world t) with
  | None, Some _ =>
      if bool_decide (courseId ∈ course_ids (db (sh_world t)))
      then mkShared (Some courseId) (render_app (Some courseId) (sh_world t))
             (sh_orphans t)
      else t
  | _, _ => t
  end.

(** A click on the page that is mounted; [onBack] unmounts it. *)
Definition sh_press (a : action) (t : Shared) : Shared :=
  match sh_mounted t with
  | None => t
  | Some courseId =>
      match a with
      | Back =>
          if bool_decide (Back ∈ offered (render (sys_page (sh_sys t))))
          then mkShared None (render_app None (sh_world t)) (unmount t)
          else t
      | _ => mkShared (sh_selected t) (start courseId a (sh_sys t)) (sh_orphans t)
      end
  end.

(** A handler of the page that is mounted takes its next step. *)
Definition sh_step (i : nat) (t : Shared) : Shared :=
  match sh_mounted t with
  | None => t
  | Some courseId =>
      mkShared (sh_selected t) (advance courseId i (sh_sys t)) (sh_orphans t)
  end.

(** A handler left behind takes its next step. *)
Definition sh_drift (i : nat) (t : Shared) : Shared :=
  match sh_orphans t !! i with
  | None => t
  | Some o =>
      let '(w, next) := orphan_step o (sh_world t) in
      mkShared (sh_selected t)
        (mkSys (sys_page (sh_sys t)) w (sys_tasks (sh_sys t)))
        (match next with
         | Some task => <[i := mkOrphan (o_user o) (o_course o) task]> (sh_orphans t)
         | None => delete i (sh_orphans t)
         end)
  end.

Definition shared_exec (m : shared_move) (t : Shared) : Shared :=
  match m with
  | SignsIn user => sign_in user t
  | SignsOut => sign_out t
  | Does (Enter courseId) => sh_enter courseId t
  | Does (Press a) => sh_press a t
  | Does (Step i) => sh_step i t
  | Does (Drift i) => sh_drift i t
  end.

Definition shared_run (ms : list shared_move) (t : Shared) : Shared :=
  foldl (λ t m, shared_exec m t) t ms.

(** A browser in which nobody is signed in, no course is selected and
    nothing is in flight. *)
Definition shared_start (w : World) : Shared :=
  mkShared None (mkSys initial_state (with_session None w) []) [].

(** The accounts a run signs in to. *)
Definition signed_in (ms : list shared_move) : list caller :=
  omap (λ m, match m with
             | SignsIn user => Some (Some (AuthUser.id user))
             | _ => None
             end) ms.

(** ** What a shared browser keeps *)

(** A page is mounted for a user only, with data of that user; without a
    page nothing of a page is in flight. *)
Definition shared_typed (t : Shared) : Prop :=
  match sh_mounted t with
  | Some courseId => sys_typed courseId (auth_uid (sh_world t)) (sh_sys t)
  | None => sys_tasks (sh_sys t) = []
  end.

(** What a handler left behind is about to write is known to the store: the
    course of its closure, and the rows and the lessons of its user. *)
Definition orphan_known (db : Database) (o : Orphan) : Prop :=
  match o_task o with
  | Writing _ call =>
      o_course o ∈ course_ids db ∧
      call_known (o_course o) db (AuthUser.id (o_user o)) call
  | Loading => True
  | Fetched r => network_only (courseResult r) ∧ network_only (lessonsResult r)
  end.

(** An error of the network, or the refusal of a write to user_progress. *)
Definition refusal_or_network (e : log_entry) : Prop :=
  log_error e = network_error ∨ log_error e = rls_violation "user_progress".

(** What a step has logged is the network's or a refusal. *)
Definition logged_refusals (w w' : World) : Prop :=
  ∃ log, console w' = console w ++ log ∧ Forall refusal_or_network log.

(** The step of a handler left behind. *)
Definition is_drift (m : shared_move) : Prop :=
  match m with Does (Drift _) => True | _ => False end.

(** What a shared browser holds under any faults: the world is settled, the
    course selected exists, the page that is mounted holds what the store
    has for its user ([holds]), and so does every write left behind. *)
Definition shared_held (t : Shared) : Prop :=
  settled (sh_world t) ∧
  (∀ courseId, sh_selected t = Some courseId →
               courseId ∈ course_ids (db (sh_world t))) ∧
  (∀ courseId, sh_mounted t = Some courseId →
               ∃ user, holds courseId user (sh_sys t)) ∧
  Forall (orphan_known (db (sh_world t))) (sh_orphans t).

(** The steps the handlers left behind have yet to take. *)
Definition orphans_left (t : Shared) : nat :=
  sum_list (steps_left ∘ o_task <$> sh_orphans t).

(** The oldest handler left behind steps, three times for each of them. *)
Definition drift_all (t : Shared) : list shared_move :=
  replicate (3 * length (sh_orphans t)) (Does (Drift 0)).

(** A move of [Race] on the page that is mounted. *)
Definition lift (m : move) : shared_move :=
  match m with
  | Start a => Does (Press a)
  | Advance i => Does (Step i)
  end.

(** ** The sample schedules *)

(** Alice opens the first course, toggles the first lesson and signs out
    before the request is sent; Bob signs in, to the course page of the
    course she had selected, and toggles his first lesson. *)
Definition overtaking : list shared_move :=
  [SignsIn Sample.alice; Does (Enter "c1"); Does (Step 0); Does (Step 0);
   Does (Press (Toggle "l1")); SignsOut;
   SignsIn Sample.bob; Does (Step 0); Does (Step 0); Does (Press (Toggle "l1"))].

(** Then the handler Alice left behind runs on, and Bob's. *)
Definition overtaken : list shared_move :=
  overtaking ++ [Does (Drift 0); Does (Step 0); Does (Step 0); Does (Step 0)].

(** The write she leaves behind. *)
Definition alice_insert : write_call :=
  CallInsert (mkNewProgress "alice" "c1" (Some "l1") true (Some 1000%Z)).

Definition alice_left : Orphan :=
  mkOrphan Sample.alice "c1" (Writing "Failed to update lesson progress:" alice_insert).

(** Alice signs in again before her handler runs on. *)
Definition back_in_time : list shared_move :=
  [SignsIn Sample.alice; Does (Enter "c1"); Does (Step 0); Does (Step 0);
   Does (Press (Toggle "l1")); SignsOut; SignsIn Sample.alice].

(** She signs out, and the handler runs on before anybody signs in. *)
Definition signed_out_first : list shared_move :=
  [SignsIn Sample.alice; Does (Enter "c1"); Does (Step 0); Does (Step 0);
   Does (Press (Toggle "l1")); SignsOut; Does (Drift 0)].

(** ** The steps of a handler left behind *)

Lemma reload_fetch_as_session user courseId w :
  session w = Some user → reload_fetch_as user courseId w = reload_fetch courseId w.
Proof.
  intros Hs. unfold reload_fetch_as, reload_fetch.
  split_faults w; simpl in Hs; subst; by run_calls.
Qed.

Lemma reload_fetch_as_world user courseId w r w' :
  reload_fetch_as user courseId w = (r, w') → session w' = session w ∧ db w' = db w.
Proof.
  unfold reload_fetch_as. split_faults w; run_calls; by intros [= <- <-].
Qed.

(** With the session of its render, a handler left behind steps as a
    handler of [Lifecycle]. *)
Lemma orphan_step_session o w :
  session w = Some (o_user o) →
  orphan_step o w =
  let s := advance (o_course o) 0 (mkSys unmounted w [o_task o]) in
  (sys_world s, head (sys_tasks s)).
Proof.
  intros Hs. unfold orphan_step. destruct (o_task o) as [message call| |r]; [done| |done].
  rewrite reload_fetch_as_session by done. unfold advance. simpl.
  by destruct (reload_fetch _ _) as [[r|e] w'].
Qed.

(** Whoever is signed in, its step is a step of a handler in the world as
    it is: the session stays, and the store is as it was or changed by one
    write of the caller the session gives. *)
Lemma orphan_step_world o w : world_step w (orphan_step o w).1.
Proof.
  unfold orphan_step. destruct (o_task o) as [message call| |r] eqn:Ht.
  - apply (exec_world_step (o_course o) (Advance 0) (mkSys unmounted w [_])).
  - destruct (reload_fetch_as _ _ _) as [[r|e] w'] eqn:Hf;
      apply reload_fetch_as_world in Hf as [? ?]; by split; [|left].
  - apply (exec_world_step (o_course o) (Advance 0) (mkSys unmounted w [_])).
Qed.

(** ** The world of a shared browser *)

Lemma shared_run_cons m ms t : shared_run (m :: ms) t = shared_run ms (shared_exec m t).
Proof. done. Qed.

Lemma orphan_step_left o w :
  match (orphan_step o w).2 with
  | Some task => steps_left task < steps_left (o_task o)
  | None => 0 < steps_left (o_task o)
  end.
Proof.
  unfold orphan_step, advance, failed.
  destruct (o_task o) as [message call| |r]; simpl.
  - destruct (send _ _) as [[r|e] w']; [destruct (error r)|]; simpl; lia.
  - destruct (reload_fetch_as _ _ _) as [[r|e] w']; simpl; lia.
  - destruct (reload_commit _ _) as [x [st w']]. simpl. lia.
Qed.

Lemma sh_drift_left t :
  sh_orphans t ≠ [] → orphans_left (sh_drift 0 t) < orphans_left t.
Proof.
  unfold sh_drift, orphans_left. destruct (sh_orphans t) as [|o os]; [done|].
  intros _. simpl. pose proof (orphan_step_left o (sh_world t)) as Hleft.
  destruct (orphan_step o (sh_world t)) as [w [task|]]; simpl in *;
    unfold fmap in *; lia.
Qed.

Lemma drift_left n t :
  orphans_left t ≤ n →
  sh_orphans (shared_run (replicate n (Does (Drift 0))) t) = [].
Proof.
  revert t. induction n as [|n IH]; intros t Hn.
  - unfold orphans_left in Hn. simpl.
    destruct (sh_orphans t) as [|o os]; [done|].
    assert (0 < steps_left (o_task o)) by (destruct (o_task o); simpl; lia).
    simpl in Hn. exfalso. lia.
  - cbn [replicate]. rewrite shared_run_cons. apply IH. cbn [shared_exec].
    destruct (decide (sh_orphans t = [])) as [Hnil|Hne].
    + unfold sh_drift, orphans_left. rewrite Hnil. simpl. rewrite Hnil. simpl. lia.
    + pose proof (sh_drift_left t Hne). lia.
Qed.

Lemma orphans_left_bound t : orphans_left t ≤ 3 * length (sh_orphans t).
Proof.
  unfold orphans_left. induction (sh_orphans t) as [|o os IH]; simpl; [lia|].
  assert (steps_left (o_task o) ≤ 3) by (destruct (o_task o); simpl; lia).
  unfold fmap in *. lia.
Qed.

(** A step leaves the store as it was, or changes it by one write of the
    caller that is signed in. *)
Lemma shared_exec_db m t :
  db (sh_world (shared_exec m t)) = db (sh_world t) ∨
  ∃ req, exec_write (auth_uid (sh_world t)) req (db (sh_world t)) =
           Ok (db (sh_world (shared_exec m t))).
Proof.
  destruct m as [user| |[courseId|a|i|i]]; simpl.
  - unfold sign_in. case_bool_decide; by left.
  - unfold sign_out. destruct (session _); by left.
  - unfold sh_enter. repeat case_match; by left.
  - unfold sh_press. destruct (sh_mounted t) as [courseId|]; [|by left].
    destruct a; [case_bool_decide; by left|..];
      apply (exec_world_step courseId (Start _)).
  - unfold sh_step. destruct (sh_mounted t) as [courseId|]; [|by left].
    apply (exec_world_step courseId (Advance i)).
  - unfold sh_drift. destruct (sh_orphans t !! i) as [o|]; [|by left].
    pose proof (orphan_step_world o (sh_world t)) as [_ Hdb].
    by destruct (orphan_step o (sh_world t)).
Qed.

(** The session changes when somebody signs in or out, and only then. *)
Lemma shared_exec_session m t :
  auth_uid (sh_world (shared_exec m t)) = auth_uid (sh_world t) ∨
  auth_uid (sh_world (shared_exec m t)) = None ∨
  auth_uid (sh_world (shared_exec m t)) ∈ signed_in [m].
Proof.
  destruct m as [user| |[courseId|a|i|i]]; simpl.
  - unfold sign_in. case_bool_decide; [|by left]. right. right. by left.
  - unfold sign_out. destruct (session _); [right|]; by left.
  - unfold sh_enter. repeat case_match; by left.
  - left. unfold sh_press. destruct (sh_mounted t) as [courseId|]; [|done].
    destruct a; [by case_bool_decide|..];
      apply auth_uid_kept, (exec_world_step courseId (Start _)).
  - left. unfold sh_step. destruct (sh_mounted t) as [courseId|]; [|done].
    apply auth_uid_kept, (exec_world_step courseId (Advance i)).
  - left. unfold sh_drift. destruct (sh_orphans t !! i) as [o|]; [|done].
    pose proof (orphan_step_world o (sh_world t)) as [Hs _].
    destruct (orphan_step o (sh_world t)). by apply auth_uid_kept.
Qed.

(** Without a session no step changes the store. *)
Lemma signed_out_db m t :
  db_wf (db (sh_world t)) → session (sh_world t) = None →
  db (sh_world (shared_exec m t)) = db (sh_world t).
Proof.
  intros Hwf Hs. destruct (shared_exec_db m t) as [?|[req Hreq]]; [done|].
  unfold auth_uid in Hreq. rewrite Hs in Hreq. by eapply exec_write_anon.
Qed.

Lemma shared_exec_kept cs db0 m t :
  auth_uid (sh_world t) = None ∨ auth_uid (sh_world t) ∈ cs →
  net_kept cs db0 (db (sh_world t)) →
  net_kept cs db0 (db (sh_world (shared_exec m t))).
Proof.
  intros Hc Hk. destruct (shared_exec_db m t) as [->|[req Hreq]]; [done|].
  destruct Hc as [Hc|Hc]; [|by eapply net_kept_write].
  rewrite Hc in Hreq. apply exec_write_anon in Hreq as ->; [done|apply Hk].
Qed.

Lemma shared_run_kept cs db0 ms t :
  signed_in ms ⊆ cs →
  auth_uid (sh_world t) = None ∨ auth_uid (sh_world t) ∈ cs →
  net_kept cs db0 (db (sh_world t)) →
  net_kept cs db0 (db (sh_world (shared_run ms t))).
Proof.
  revert t. induction ms as [|m ms IH]; intros t Hms Hc Hk; [done|].
  rewrite shared_run_cons. apply IH; [| |by apply shared_exec_kept].
  - intros c Hin. apply Hms. change (m :: ms) with ([m] ++ ms).
    unfold signed_in. rewrite omap_app. apply elem_of_app. by right.
  - destruct (shared_exec_session m t) as [->|[?|Hin]]; [done|by left|].
    right. apply Hms. change (m :: ms) with ([m] ++ ms).
    unfold signed_in. rewrite omap_app. apply elem_of_app. by left.
Qed.

(** ** The page that is mounted *)

Lemma sys_typed_world courseId c st w w' ts :
  sys_typed courseId c (mkSys st w ts) → sys_typed courseId c (mkSys st w' ts).
Proof. done. Qed.

(** The course page is rendered for a user, when a course is selected. *)
Lemma course_shown_Some selected w courseId :
  course_shown selected w = Some courseId →
  is_Some (session w) ∧ selected = Some courseId.
Proof.
  unfold course_shown, AppContent. simpl. destruct (session w); [|done].
  destruct selected as [c|]; [|done]. destruct (String.eqb c ""); [done|].
  by intros [= ->].
Qed.

Lemma course_shown_session selected w w' :
  session w' = session w → course_shown selected w' = course_shown selected w.
Proof. unfold course_shown. by intros ->. Qed.

Lemma render_app_typed selected w :
  shared_typed (mkShared selected (render_app selected w) []) .
Proof.
  unfold shared_typed, sh_mounted, render_app, sh_world. simpl.
  destruct (course_shown selected w); [|done].
  split; [apply page_typed_initial|by apply Forall_singleton].
Qed.

Lemma shared_typed_orphans selected s os os' :
  shared_typed (mkShared selected s os) → shared_typed (mkShared selected s os').
Proof. done. Qed.

(** A step of the world under a page leaves the page what it was. *)
Lemma shared_typed_step selected s s' os os' :
  world_step (sys_world s) (sys_world s') →
  (∀ courseId, sh_mounted (mkShared selected s os) = Some courseId →
     sys_typed courseId (auth_uid (sys_world s)) s →
     sys_typed courseId (auth_uid (sys_world s)) s') →
  (sh_mounted (mkShared selected s os) = None →
   sys_tasks s = [] → sys_tasks s' = []) →
  shared_typed (mkShared selected s os) → shared_typed (mkShared selected s' os').
Proof.
  intros [Hs _]. unfold shared_typed, sh_mounted, sh_world. simpl.
  rewrite (auth_uid_kept _ _ Hs), (course_shown_session _ _ _ Hs).
  destruct (course_shown selected (sys_world s)); auto.
Qed.

Lemma shared_exec_typed m t : shared_typed t → shared_typed (shared_exec m t).
Proof.
  destruct t as [selected s os].
  destruct m as [user| |[courseId|a|i|i]];
    unfold shared_exec, sign_in, sign_out, sh_enter, sh_press, sh_step, sh_drift;
    simpl; intros Ht.
  - case_bool_decide; [|done]. eapply shared_typed_orphans, render_app_typed.
  - destruct (session _); [|done]. eapply shared_typed_orphans, render_app_typed.
  - repeat case_match; try done. eapply shared_typed_orphans, render_app_typed.
  - destruct (sh_mounted _) as [courseId|] eqn:Hm; [|done].
    destruct a; [case_bool_decide; [|done];
                 eapply shared_typed_orphans, render_app_typed|..].
    all: revert Ht; apply shared_typed_step;
      [apply (exec_world_step courseId (Start _))
      |intros c Hc; assert (c = courseId) as -> by congruence;
       apply (exec_typed courseId (Start _))|congruence].
  - destruct (sh_mounted _) as [courseId|] eqn:Hm; [|done].
    revert Ht. apply shared_typed_step;
      [apply (exec_world_step courseId (Advance i))
      |intros c Hc; assert (c = courseId) as -> by congruence;
       apply (exec_typed courseId (Advance i))|congruence].
  - destruct (os !! i) as [o|]; [|done].
    pose proof (orphan_step_world o (sys_world s)) as Hw. unfold sh_world. simpl.
    destruct (orphan_step o (sys_world s)) as [w next]. revert Ht.
    by apply shared_typed_step.
Qed.

Lemma shared_run_typed ms t : shared_typed t → shared_typed (shared_run ms t).
Proof.
  revert t. induction ms as [|m ms IH]; intros t Ht; [done|].
  rewrite shared_run_cons. by apply IH, shared_exec_typed.
Qed.

(** ** The page that is mounted steps as in [Race] *)

Lemma mounted_exec courseId m t :
  sh_mounted t = Some courseId → m ≠ Start Back →
  shared_exec (lift m) t =
    mkShared (sh_selected t) (exec courseId m (sh_sys t)) (sh_orphans t) ∧
  sh_mounted (shared_exec (lift m) t) = Some courseId.
Proof.
  intros Hm Hback.
  assert (shared_exec (lift m) t =
          mkShared (sh_selected t) (exec courseId m (sh_sys t)) (sh_orphans t)) as ->.
  { destruct m as [a|i]; simpl; [unfold sh_press|unfold sh_step]; rewrite Hm; [|done].
    by destruct a. }
  split; [done|]. unfold sh_mounted, sh_world in *. simpl.
  by rewrite (course_shown_session _ _ _ (proj1 (exec_world_step courseId m _))).
Qed.

Lemma mounted_moves courseId ms t :
  sh_mounted t = Some courseId → Forall (λ m, m ≠ Start Back) ms →
  shared_run (lift <$> ms) t =
    mkShared (sh_selected t) (run_moves courseId ms (sh_sys t)) (sh_orphans t).
Proof.
  revert t. induction ms as [|m ms IH]; intros t Hm Hms.
  - by destruct t.
  - apply Forall_cons in Hms as [Hback Hms]. rewrite fmap_cons, shared_run_cons.
    destruct (mounted_exec courseId m t Hm Hback) as [Heq Hm'].
    rewrite (IH _ Hm' Hms), Heq. by rewrite run_moves_cons.
Qed.

(** Without a page, a click and a step of a handler do nothing. *)
Lemma unmounted_moves ms t :
  sh_mounted t = None → shared_run (lift <$> ms) t = t.
Proof.
  intros Hm. induction ms as [|m ms IH]; [done|].
  rewrite fmap_cons, shared_run_cons.
  destruct m as [a|i]; simpl; [unfold sh_press|unfold sh_step]; by rewrite Hm.
Qed.

(** ** A request that is sent with another session *)

Lemma call_refused courseId u c call w :
  db_wf (db w) → auth_uid w = c → c ≠ Some u →
  call_known courseId (db w) u call →
  exec_write c (match call with
                | CallInsert n => InsertProgress (entropy w (drawn w)) (server_clock w) n
                | CallUpdate rowId p => UpdateProgress rowId p
                end) (db w) = Err (rls_violation "user_progress").
Proof.
  intros Hwf Hc Hne Hcall. destruct call as [n|rowId p]; simpl.
  - destruct Hcall as (<- & _). by apply api_insert_user_progress_denied.
  - destruct Hcall as [(r & Hid & Hr)%list_elem_of_fmap Hown].
    apply (api_update_user_progress_denied _ _ _ _ r); [done|done|].
    by rewrite (Hown r Hr (eq_sym Hid)).
Qed.

Lemma send_refused courseId u call w :
  quiet w → db_wf (db w) → auth_uid w ≠ Some u →
  call_known courseId (db w) u call →
  ∃ w', send call w = (Ok (respond (Err (rls_violation "user_progress"))), w') ∧
        db w' = db w ∧ session w' = session w ∧ console w' = console w ∧
        faults w' = faults w.
Proof.
  intros Hq Hwf Hne Hcall.
  pose proof (call_refused courseId u _ call w Hwf eq_refl Hne Hcall) as Hex.
  destruct w as [d s f cc sc en dr co]. unfold quiet in Hq. simpl in *. subst f.
  destruct call as [n|rowId p]; simpl in *; unfold insert_progress, update_progress;
    run_calls; rewrite Hex; by eexists.
Qed.

(** ** The world after a step of a handler left behind *)

Lemma orphan_known_grows db db' o :
  grows db db' → orphan_known db o → orphan_known db' o.
Proof.
  intros Hg. unfold orphan_known. destruct (o_task o) as [message call| |r]; [|done..].
  intros [Hc Hcall]. split; [unfold course_ids; by rewrite (proj1 Hg)|].
  apply (task_known_grows _ _ db db' (Writing message call) Hg Hcall).
Qed.

Lemma reload_fetch_as_faults user courseId w r w' :
  reload_fetch_as user courseId w = (r, w') → ∃ fs, w' = with_faults (λ _, fs) w.
Proof.
  unfold reload_fetch_as. split_faults w; run_calls; intros [= <- <-]; by eexists.
Qed.

(** Whoever is signed in, on a store with unique course ids the reads fail
    only as the network fails. *)
Lemma reload_fetch_as_network user courseId w r w' :
  NoDup (course_ids (db w)) → reload_fetch_as user courseId w = (Ok r, w') →
  network_only (courseResult r) ∧ network_only (lessonsResult r).
Proof.
  intros Hnd.
  destruct (maybeSingle_course (auth_uid w) courseId (db w) Hnd) as [oc Hoc].
  unfold reload_fetch_as, network_only.
  split_faults w; run_calls; rewrite ?Hoc; intros [= <- <-]; destruct oc;
    simpl; auto.
Qed.

(** A request the store refuses is answered with the refusal, or with the
    error of the network, and leaves a world that is settled. *)
Lemma send_refused_settled courseId u call w r w' :
  settled w → auth_uid w ≠ Some u → call_known courseId (db w) u call →
  send call w = (Ok r, w') →
  settled w' ∧ session w' = session w ∧ db w' = db w ∧ console w' = console w ∧
  (error r = Some network_error ∨ error r = Some (rls_violation "user_progress")).
Proof.
  intros (Hwf & Hf & Hu) Hne Hcall.
  pose proof (call_refused courseId u _ call w Hwf eq_refl Hne Hcall) as Hex.
  unfold settled, fresh_source in *. revert Hex Hf Hu.
  destruct call as [n|rowId p]; split_faults w; simpl in *; run_calls;
    intros Hex Hf Hu; rewrite ?Hex; intros [= <- <-]; simpl;
    (split_and!; [done| |done..|auto]); intros k Hk;
    destruct (Hf k ltac:(lia)) as [Hnew Hinj];
    (split; [done|intros m Hm; apply Hinj; lia]).
Qed.

(** A request of a handler, whoever is signed in when it is sent: the
    world it leaves is settled, with the same session and console, the
    store has grown, and the answer is a success, the error of the network
    or a refusal. *)
Lemma send_settled courseId u call w r w' :
  settled w → courseId ∈ course_ids (db w) → call_known courseId (db w) u call →
  send call w = (Ok r, w') →
  settled w' ∧ session w' = session w ∧ grows (db w) (db w') ∧
  console w' = console w ∧
  (network_only r ∨ error r = Some (rls_violation "user_progress")).
Proof.
  intros Hw Hc Hcall Hsend. destruct (decide (auth_uid w = Some u)) as [Hu|Hu].
  - unfold auth_uid in Hu. destruct (session w) as [user|] eqn:Hs; [|done].
    injection Hu as <-.
    destruct (send_held courseId user w call r w' Hw Hs Hc Hcall Hsend)
      as (? & ? & -> & ? & ?). split_and!; auto.
  - destruct (send_refused_settled courseId u call w r w' Hw Hu Hcall Hsend)
      as (? & ? & -> & ? & [?|?]);
      (split_and!; [done..|apply grows_refl|done|]); [left; by right|by right].
Qed.

Lemma logged_refusal w w' message e :
  console w' = console w ++ [mkLog message e] →
  e = network_error ∨ e = rls_violation "user_progress" → logged_refusals w w'.
Proof. intros Hc He. eexists. split; [done|]. by apply Forall_singleton. Qed.

Lemma logged_network_refusals w w' : logged_network w w' → logged_refusals w w'.
Proof.
  intros (log & ? & Hlog). exists log. split; [done|].
  eapply Forall_impl; [done|]. intros e. by left.
Qed.

(** A step of a handler left behind: the world it leaves is settled, with
    the same session, the store has grown, what it has logged is the
    network's or a refusal, and what it is about to do is known. *)
Lemma orphan_step_kept o w :
  settled w → orphan_known (db w) o →
  settled (orphan_step o w).1 ∧ session (orphan_step o w).1 = session w ∧
  grows (db w) (db (orphan_step o w).1) ∧
  logged_refusals w (orphan_step o w).1 ∧
  ∀ task, (orphan_step o w).2 = Some task →
    orphan_known (db (orphan_step o w).1) (mkOrphan (o_user o) (o_course o) task).
Proof.
  intros Hw. pose proof Hw as ((Hpk & _) & _). unfold orphan_known, orphan_step.
  destruct (o_task o) as [message call| |r]; unfold advance, failed; simpl.
  - intros [Hc Hcall]. destruct (send_Ok call w) as (r & w' & Hsend). rewrite Hsend.
    destruct (send_settled _ _ call w r w' Hw Hc Hcall Hsend)
      as (Hw' & Hs & Hg & Hco & Hr).
    destruct (error r) as [e|] eqn:He; simpl.
    + split_and!; [by apply settled_console|done..| |done].
      apply (logged_refusal _ _ message e); [simpl; by rewrite Hco|].
      destruct Hr as [[?|?]|?]; simplify_eq; auto.
    + split_and!; [done..|by apply logged_network_refusals, logged_nothing|].
      by intros task [= <-].
  - intros _. destruct (reload_fetch_as _ _ _) as [[r|e] w'] eqn:Hf;
      pose proof (reload_fetch_as_faults _ _ _ _ _ Hf) as [fs ->]; simpl;
      (split_and!; [by apply settled_refaulted|done|apply grows_refl
                   |by apply logged_network_refusals, logged_nothing|]);
      [|done].
    intros task [= <-]. eapply reload_fetch_as_network; [apply Hpk|done].
  - intros [Hnc Hnl]. destruct (reload_commit r _) as [x [st w']] eqn:Hcommit.
    apply reload_commit_cases in Hcommit as [(-> & -> & _)|(e & -> & -> & Herr)];
      simpl; (split_and!; [|done|apply grows_refl| |done]);
      [done|by apply logged_network_refusals, logged_nothing
      |by apply settled_console|].
    apply (logged_refusal _ _ "" e); [done|]. left.
    destruct Herr as [Herr|Herr], Hnc as [?|?], Hnl as [?|?]; by simplify_eq.
Qed.

(** ** What a shared browser holds *)

Lemma settled_session o w :
  (∀ user, o = Some user → user ∈ auth_users (db w)) →
  settled w → settled (with_session o w).
Proof.
  intros Ho (? & ? & _). split_and!; [done..|]. simpl. intros user Hu.
  by apply list_elem_of_fmap_2, Ho.
Qed.

Lemma render_app_held selected w os :
  settled w → (∀ courseId, selected = Some courseId → courseId ∈ course_ids (db w)) →
  Forall (orphan_known (db w)) os →
  shared_held (mkShared selected (render_app selected w) os).
Proof.
  intros Hw Hsel Hos. split_and!; [done..| |done].
  unfold sh_mounted, sh_world, render_app. simpl. intros courseId Hm.
  rewrite Hm. apply course_shown_Some in Hm as [[user Hs] ->]. exists user.
  split_and!; simpl; [done|done|by apply Hsel|by split|by apply Forall_singleton].
Qed.

Lemma unmount_known t :
  shared_held t → Forall (orphan_known (db (sh_world t))) (unmount t).
Proof.
  intros (_ & _ & Hm & Hos). unfold unmount.
  destruct (sh_mounted t) as [courseId|] eqn:Hsel; [|done].
  destruct (session (sh_world t)) as [user|] eqn:Hs; [|done].
  apply Forall_app. split; [done|].
  destruct (Hm courseId eq_refl) as (user' & _ & Hs' & Hc & _ & Ht).
  unfold sh_world in Hs. assert (user' = user) as -> by congruence.
  apply Forall_fmap. eapply Forall_impl; [done|].
  intros [message call| |r]; unfold orphan_known; simpl; [done..|].
  by intros (_ & ? & ?).
Qed.

(** The world under the page takes a step of a handler left behind. *)
Lemma holds_world courseId user st ts w w' :
  settled w' → session w' = session w → grows (db w) (db w') →
  holds courseId user (mkSys st w ts) → holds courseId user (mkSys st w' ts).
Proof.
  intros Hw' Hs Hg (_ & Hu & Hc & Hp & Ht). unfold holds in *. sys_simpl.
  split_and!; [done|congruence| |by eapply page_held_grows|].
  - unfold course_ids. by rewrite (proj1 Hg).
  - eapply Forall_impl; [done|]. intros t. by apply task_held_grows.
Qed.

Lemma shared_held_grows selected s s' os os' :
  settled (sys_world s') → session (sys_world s') = session (sys_world s) →
  grows (db (sys_world s)) (db (sys_world s')) →
  (∀ courseId user, sh_mounted (mkShared selected s os) = Some courseId →
     holds courseId user s → holds courseId user s') →
  Forall (orphan_known (db (sys_world s'))) os' →
  shared_held (mkShared selected s os) → shared_held (mkShared selected s' os').
Proof.
  intros Hw' Hs Hg Hh Hos' (_ & Hsel & Hm & _).
  unfold shared_held, sh_mounted, sh_world in *. simpl in *.
  split_and!; [done| | |done].
  - intros courseId Hc. unfold course_ids. rewrite (proj1 Hg). by apply Hsel.
  - rewrite (course_shown_session _ _ _ Hs). intros courseId Hc.
    destruct (Hm courseId Hc) as [user Hu].
    exists user. by apply Hh.
Qed.

Lemma shared_held_exec courseId m t :
  sh_mounted t = Some courseId → shared_held t →
  shared_held (mkShared (sh_selected t) (exec courseId m (sh_sys t)) (sh_orphans t)).
Proof.
  destruct t as [selected s os]. cbn [sh_selected sh_sys sh_orphans].
  intros Hm Ht. pose proof Ht as (_ & _ & Hh & Hos).
  destruct (Hh courseId Hm) as [user Hu]. cbn [sh_selected sh_sys sh_orphans] in *.
  destruct (exec_kept courseId user s Hu m) as (Hu' & Hg & _).
  revert Ht. apply shared_held_grows; [apply Hu'| |done| |].
  - destruct Hu as (_ & Hs & _), Hu' as (_ & Hs' & _). simpl in *. congruence.
  - intros c u Hc Hcu. assert (c = courseId) as -> by congruence.
    by apply exec_kept.
  - eapply Forall_impl; [done|]. intros o. by apply orphan_known_grows.
Qed.

Lemma shared_held_drift i t : shared_held t → shared_held (sh_drift i t).
Proof.
  destruct t as [selected s os]. intros Ht. pose proof Ht as (Hw & _ & _ & Hos).
  unfold sh_drift, sh_world in *. simpl in *.
  destruct (os !! i) as [o|] eqn:Hi; [|done].
  destruct (orphan_step_kept o _ Hw (Forall_lookup_1 _ _ _ _ Hos Hi))
    as (Hw' & Hs & Hg & _ & Hnext).
  destruct (orphan_step o (sys_world s)) as [w next]. simpl in *.
  assert (Forall (orphan_known (db w)) os) as Hos'.
  { eapply Forall_impl; [done|]. intros o'. by apply orphan_known_grows. }
  revert Ht. apply shared_held_grows; [done..| |].
  - intros c u _. destruct s. by apply holds_world.
  - destruct next as [task|]; [|by apply Forall_delete].
    apply Forall_insert; [done|by apply Hnext].
Qed.

Lemma shared_exec_held m t : shared_held t → shared_held (shared_exec m t).
Proof.
  intros Ht. pose proof Ht as (Hw & Hsel & _ & Hos).
  destruct m as [user| |[courseId|a|i|i]]; simpl.
  - unfold sign_in. case_bool_decide as Hu; [|done]. destruct Hu as [_ Hu].
    apply render_app_held; [apply settled_session; [by intros ? [= <-]|done]|done..].
  - unfold sign_out. destruct (session _); [|done].
    apply render_app_held; [by apply settled_session|done|by apply unmount_known].
  - unfold sh_enter. destruct (sh_mounted t); [done|].
    destruct (session _); [|done]. case_bool_decide; [|done].
    apply render_app_held; [done|by intros ? [= <-]|done].
  - unfold sh_press. destruct (sh_mounted t) as [courseId|] eqn:Hm; [|done].
    destruct a;
      [case_bool_decide; [|done];
       apply render_app_held; [done|done|by apply unmount_known]|..];
      by apply (shared_held_exec courseId (Start _)).
  - unfold sh_step. destruct (sh_mounted t) as [courseId|] eqn:Hm; [|done].
    by apply (shared_held_exec courseId (Advance i)).
  - by apply shared_held_drift.
Qed.

Lemma shared_run_held ms t : shared_held t → shared_held (shared_run ms t).
Proof.
  revert t. induction ms as [|m ms IH]; intros t Ht; [done|].
  rewrite shared_run_cons. by apply IH, shared_exec_held.
Qed.

Lemma shared_start_held w : settled w → shared_held (shared_start w).
Proof.
  intros Hw. apply (render_app_held None (with_session None w));
    [by apply settled_session|done|done].
Qed.

(** The request of a handler left behind that is sent with another session,
    or with none, under both readings of the policies. *)
Lemma request_refused courseId u call w :
  db_wf (db w) → auth_uid w ≠ Some u → call_known courseId (db w) u call →
  exec_write (auth_uid w) (request_of w call) (db w) =
    Err (rls_violation "user_progress") ∧
  pg_exec_write (auth_uid w) (request_of w call) (db w) =
    as_postgres (request_of w call) (db w) (Err (rls_violation "user_progress")).
Proof.
  intros Hwf Hne Hcall.
  pose proof (call_refused courseId u _ call w Hwf eq_refl Hne Hcall) as Hex.
  split; [by destruct call|].
  destruct call as [n|rowId p]; cbn [request_of pg_exec_write exec_write] in *.
  - by rewrite Hex.
  - by rewrite pg_update_user_progress_agrees, Hex.
Qed.

Lemma held_orphan t i o message call :
  shared_held t → sh_orphans t !! i = Some o → o_task o = Writing message call →
  settled (sh_world t) ∧ o_course o ∈ course_ids (db (sh_world t)) ∧
  call_known (o_course o) (db (sh_world t)) (AuthUser.id (o_user o)) call.
Proof.
  intros (Hw & _ & _ & Hos) Hi Ht.
  pose proof (Forall_lookup_1 _ _ _ _ Hos Hi) as Ho. unfold orphan_known in Ho.
  rewrite Ht in Ho. by destruct Ho.
Qed.

(** ** What a shared browser logs *)

Lemma logged_refusals_refl w : logged_refusals w w.
Proof. by apply logged_network_refusals, logged_nothing. Qed.

Lemma logged_refusals_trans w1 w2 w3 :
  logged_refusals w1 w2 → logged_refusals w2 w3 → logged_refusals w1 w3.
Proof.
  intros (l1 & H1 & Hl1) (l2 & H2 & Hl2). exists (l1 ++ l2).
  split; [by rewrite H2, H1, (assoc_L (++))|by apply Forall_app].
Qed.

Lemma logged_network_trans w1 w2 w3 :
  logged_network w1 w2 → logged_network w2 w3 → logged_network w1 w3.
Proof.
  intros (l1 & H1 & Hl1) (l2 & H2 & Hl2). exists (l1 ++ l2).
  split; [by rewrite H2, H1, (assoc_L (++))|by apply Forall_app].
Qed.

(** A step of the page that is mounted logs nothing but the network's. *)
Lemma mounted_exec_logged courseId m t :
  sh_mounted t = Some courseId → shared_held t →
  logged_network (sh_world t) (sys_world (exec courseId m (sh_sys t))).
Proof.
  intros Hm (_ & _ & Hh & _). destruct (Hh courseId Hm) as [user Hu].
  by destruct (exec_kept courseId user _ Hu m) as (_ & _ & ? & _).
Qed.

(** Only the step of a handler left behind logs a refusal. *)
Lemma shared_exec_logged m t :
  shared_held t →
  logged_refusals (sh_world t) (sh_world (shared_exec m t)) ∧
  (¬ is_drift m → logged_network (sh_world t) (sh_world (shared_exec m t))).
Proof.
  intros Ht.
  assert (is_drift m ∨
          logged_network (sh_world t) (sh_world (shared_exec m t))) as [Hd|Hlog];
    [|destruct m as [| |[| | |i]]; try done|by split; [apply logged_network_refusals|]].
  - destruct m as [user| |[courseId|a|i|i]]; simpl; [right..|by left].
    + unfold sign_in. case_bool_decide; by apply logged_nothing.
    + unfold sign_out. destruct (session _); by apply logged_nothing.
    + unfold sh_enter. repeat case_match; by apply logged_nothing.
    + unfold sh_press. destruct (sh_mounted t) as [courseId|] eqn:Hm;
        [|by apply logged_nothing].
      destruct a; [case_bool_decide; by apply logged_nothing|..];
        by apply (mounted_exec_logged courseId (Start _)).
    + unfold sh_step. destruct (sh_mounted t) as [courseId|] eqn:Hm;
        [|by apply logged_nothing].
      by apply (mounted_exec_logged courseId (Advance i)).
  - split; [|done]. simpl. unfold sh_drift.
    destruct (sh_orphans t !! i) as [o|] eqn:Hi; [|apply logged_refusals_refl].
    destruct Ht as (Hw & _ & _ & Hos).
    destruct (orphan_step_kept o _ Hw (Forall_lookup_1 _ _ _ _ Hos Hi))
      as (_ & _ & _ & Hlog & _).
    by destruct (orphan_step o (sh_world t)).
Qed.

Lemma shared_run_logged ms t :
  shared_held t →
  logged_refusals (sh_world t) (sh_world (shared_run ms t)) ∧
  (Forall (λ m, ¬ is_drift m) ms →
   logged_network (sh_world t) (sh_world (shared_run ms t))).
Proof.
  revert t. induction ms as [|m ms IH]; intros t Ht.
  - split; [apply logged_refusals_refl|intros _; by apply logged_nothing].
  - rewrite shared_run_cons.
    destruct (shared_exec_logged m t Ht) as [H1 H1'].
    destruct (IH _ (shared_exec_held m t Ht)) as [H2 H2'].
    split; [by eapply logged_refusals_trans|].
    intros [Hm Hms]%Forall_cons. eapply logged_network_trans; eauto.
Qed.

(** ** What holds of every run *)

(** C19: the store of a shared browser.  Whoever signs in and out, whatever
    they click and in whatever order the handlers take their steps, those
    of the page that is mounted and those left behind by users who have
    signed out, under whatever faults: the store stays referentially
    intact, its catalogue and identities are unchanged, no progress row is
    gone, and the rows of every account that has not signed in are what
    they were. *)
Theorem shared_isolated ms w :
  db_wf (db w) →
  net_kept (signed_in ms) (db w) (db (sh_world (shared_run ms (shared_start w)))).
Proof.
  intros Hwf. apply shared_run_kept; [done|by left|by apply net_kept_refl].
Qed.

(** A request is a request of whoever is signed in when it is sent.  A
    step of a shared browser, whichever handler takes it and whoever
    started that handler, leaves the progress rows and the profile of every
    account but the one signed in as they are; with nobody signed in it
    leaves the store as it is. *)
Theorem step_of_session m t :
  db_wf (db (sh_world t)) →
  (∀ r, auth_uid (sh_world t) ≠ Some (UserProgress.user_id r) →
        r ∈ user_progress (db (sh_world (shared_exec m t))) ↔
        r ∈ user_progress (db (sh_world t))) ∧
  (∀ p, auth_uid (sh_world t) ≠ Some (Profile.id p) →
        p ∈ profiles (db (sh_world (shared_exec m t))) ↔
        p ∈ profiles (db (sh_world t))) ∧
  (session (sh_world t) = None →
   db (sh_world (shared_exec m t)) = db (sh_world t)).
Proof.
  intros Hwf. split_and!; [| |by apply signed_out_db].
  all: destruct (shared_exec_db m t) as [->|[req Hreq]]; [done|].
  all: pose proof (exec_write_effect _ _ _ _ Hwf Hreq) as Heff.
  - intros r. by apply write_effect_progress_isolation.
  - intros p. by apply write_effect_profile_isolation.
Qed.

(** The page of the next user.  Whatever earlier users have left in
    flight, a page is mounted for a user that is signed in only, and shows
    the course it was opened for, lessons of that course and progress rows
    of that user for the course; what the handlers left behind load is set
    nowhere. *)
Theorem shared_pages_typed ms w : shared_typed (shared_run ms (shared_start w)).
Proof. by apply shared_run_typed. Qed.

(** C20: the session at the time a request is sent decides it.  In every run
    of a shared browser, under any faults, the write of a handler left
    behind is accepted when the user of its render is signed in again,
    with the same store under both readings of the policies; with another
    user signed in, or none, the specification's reading refuses it, and
    PostgreSQL's refuses an INSERT and skips the rows of an UPDATE without
    an error. *)
Theorem left_behind_decided ms w t i o message call :
  settled w → t = shared_run ms (shared_start w) →
  sh_orphans t !! i = Some o → o_task o = Writing message call →
  (auth_uid (sh_world t) = Some (AuthUser.id (o_user o)) →
   ∃ db', exec_write (auth_uid (sh_world t)) (request_of (sh_world t) call)
            (db (sh_world t)) = Ok db' ∧
          pg_exec_write (auth_uid (sh_world t)) (request_of (sh_world t) call)
            (db (sh_world t)) = Ok db') ∧
  (auth_uid (sh_world t) ≠ Some (AuthUser.id (o_user o)) →
   exec_write (auth_uid (sh_world t)) (request_of (sh_world t) call)
     (db (sh_world t)) = Err (rls_violation "user_progress") ∧
   pg_exec_write (auth_uid (sh_world t)) (request_of (sh_world t) call)
     (db (sh_world t)) =
     match call with
     | CallInsert _ => Err (rls_violation "user_progress")
     | CallUpdate _ _ => Ok (db (sh_world t))
     end).
Proof.
  intros Hw -> Hi Ht.
  destruct (held_orphan _ i o message call
              (shared_run_held ms _ (shared_start_held w Hw)) Hi Ht)
    as (Hw' & Hc & Hcall).
  split.
  - intros Hu. unfold auth_uid in Hu.
    destruct (session (sh_world _)) as [user|] eqn:Hs; [|done].
    injection Hu as Hu. rewrite <- Hu in Hcall. by eapply request_accepted.
  - intros Hne.
    destruct (request_refused _ _ call _ (proj1 Hw') Hne Hcall) as [-> ->].
    by destruct call.
Qed.

(** A click that the sign-out overtakes is lost.  In every run of a
    shared browser, when a handler left behind sends its write with
    another user signed in, or none, on a network that loses nothing: the
    store is as it was, the handler logs its message with the error of the
    policies (in the specification's reading of them) in the console of
    the browser and ends without a reload, and the page that is mounted is
    as it was. *)
Theorem left_behind_refused ms w t i o message call :
  settled w → t = shared_run ms (shared_start w) →
  sh_orphans t !! i = Some o → o_task o = Writing message call →
  auth_uid (sh_world t) ≠ Some (AuthUser.id (o_user o)) → quiet (sh_world t) →
  db (sh_world (sh_drift i t)) = db (sh_world t) ∧
  console (sh_world (sh_drift i t)) =
    console (sh_world t) ++ [mkLog message (rls_violation "user_progress")] ∧
  sh_orphans (sh_drift i t) = delete i (sh_orphans t) ∧
  sys_page (sh_sys (sh_drift i t)) = sys_page (sh_sys t) ∧
  sys_tasks (sh_sys (sh_drift i t)) = sys_tasks (sh_sys t).
Proof.
  intros Hw -> Hi Ht Hne Hq.
  destruct (held_orphan _ i o message call
              (shared_run_held ms _ (shared_start_held w Hw)) Hi Ht)
    as ((Hwf & _) & _ & Hcall).
  destruct (send_refused _ _ call _ Hq Hwf Hne Hcall) as (w' & Hsend & Hdb & _ & Hco & _).
  unfold sh_drift, orphan_step. rewrite Hi, Ht.
  unfold advance, failed. simpl. rewrite Hsend. simpl. by rewrite Hco.
Qed.

(** The page of the user signed in is refused nothing.  In every run of
    a shared browser, under any faults and whatever earlier users have left
    in flight, the write of every handler of the page that is mounted is
    one the store accepts as it is now, under both readings of the
    policies. *)
Theorem mounted_accepted ms w t courseId i message call :
  settled w → t = shared_run ms (shared_start w) →
  sh_mounted t = Some courseId →
  sys_tasks (sh_sys t) !! i = Some (Writing message call) →
  ∃ db', exec_write (auth_uid (sh_world t)) (request_of (sh_world t) call)
           (db (sh_world t)) = Ok db' ∧
         pg_exec_write (auth_uid (sh_world t)) (request_of (sh_world t) call)
           (db (sh_world t)) = Ok db'.
Proof.
  intros Hw -> Hm Hi.
  destruct (shared_run_held ms _ (shared_start_held w Hw)) as (_ & _ & Hh & _).
  destruct (Hh courseId Hm) as (user & Hw' & Hs & Hc & _ & Ht).
  eapply request_accepted; [done..|]. apply (Forall_lookup_1 _ _ _ _ Ht Hi).
Qed.

(** C21: authorization errors come from handlers left behind only.  In every
    run of a shared browser that starts with an empty console, under any
    faults: every error logged is the error of the network or the refusal
    of a write to user_progress; and as long as no handler left behind takes
    a step, whoever signs in and out and whatever they click, every error
    logged is the network's. *)
Theorem refusals_left_behind ms w :
  settled w → console w = [] →
  Forall refusal_or_network (console (sh_world (shared_run ms (shared_start w)))) ∧
  (Forall (λ m, ¬ is_drift m) ms →
   only_network (console (sh_world (shared_run ms (shared_start w))))).
Proof.
  intros Hw Hco.
  destruct (shared_run_logged ms _ (shared_start_held w Hw))
    as [(l1 & H1 & Hl1) Hnet].
  split; [by rewrite H1; simpl; rewrite Hco|].
  intros Hms. destruct (Hnet Hms) as (l2 & H2 & Hl2).
  by rewrite H2; simpl; rewrite Hco.
Qed.

(** The handlers left behind end.  Whoever is signed in and whatever the
    network does, when the oldest handler left behind steps three times for
    each of them, none is left: a handler starts no other, and each ends
    within its three steps, accepted or refused. *)
Theorem left_behind_end t : sh_orphans (shared_run (drift_all t) t) = [].
Proof. apply drift_left, orphans_left_bound. Qed.

(** ** Sample runs *)

Lemma sample_settled : settled sample_world.
Proof.
  split_and!; [apply sample_wf|exact sample_fresh_source|].
  intros user [= <-]. compute_done.
Qed.

(** Alice's click is lost: she toggles the first lesson and signs out before
    the request is sent.  Sent in Bob's session, or in none, the request is
    refused and logged in the console of the browser; the store holds no
    row of hers, and Bob's page shows his row, flipped by his own click. *)
Example click_overtaken :
  let t := shared_run overtaken (shared_start sample_world) in
  let t' := shared_run signed_out_first (shared_start sample_world) in
  console (sh_world t) =
    [mkLog "Failed to update lesson progress:" (rls_violation "user_progress")] ∧
  sh_orphans t = [] ∧
  UserProgress.user_id <$> user_progress (db (sh_world t)) = ["bob"] ∧
  UserProgress.completed <$> State.progress (sys_page (sh_sys t)) = [false] ∧
  log_error <$> console (sh_world t') = [rls_violation "user_progress"] ∧
  sh_orphans t' = [] ∧ user_progress (db (sh_world t')) = [Sample.bob_l1].
Proof. by vm_compute. Qed.

(** Her click arrives when she is signed in again before the request is
    sent: the row is hers, and the handler reloads for a page that is not
    there. *)
Example click_in_time :
  let t := shared_run (back_in_time ++ [Does (Drift 0)]) (shared_start sample_world) in
  UserProgress.user_id <$> user_progress (db (sh_world t)) = ["bob"; "alice"] ∧
  o_task <$> sh_orphans t = [Loading] ∧ console (sh_world t) = [].
Proof. by vm_compute. Qed.

Lemma shared_isolated_witness :
  net_kept (signed_in overtaken) (db sample_world)
    (db (sh_world (shared_run overtaken (shared_start sample_world)))).
Proof. apply shared_isolated, sample_wf. Defined.

Lemma step_of_session_witness :
  let t := shared_run [SignsIn Sample.bob] (shared_start sample_world) in
  (∀ r, auth_uid (sh_world t) ≠ Some (UserProgress.user_id r) →
        r ∈ user_progress (db (sh_world (shared_exec (Does (Drift 0)) t))) ↔
        r ∈ user_progress (db (sh_world t))) ∧
  (∀ p, auth_uid (sh_world t) ≠ Some (Profile.id p) →
        p ∈ profiles (db (sh_world (shared_exec (Does (Drift 0)) t))) ↔
        p ∈ profiles (db (sh_world t))) ∧
  (session (sh_world t) = None →
   db (sh_world (shared_exec (Does (Drift 0)) t)) = db (sh_world t)).
Proof. apply step_of_session, sample_wf. Defined.

Lemma left_behind_refused_witness :
  let t := shared_run overtaking (shared_start sample_world) in
  db (sh_world (sh_drift 0 t)) = db (sh_world t) ∧
  console (sh_world (sh_drift 0 t)) =
    console (sh_world t) ++
    [mkLog "Failed to update lesson progress:" (rls_violation "user_progress")] ∧
  sh_orphans (sh_drift 0 t) = delete 0 (sh_orphans t) ∧
  sys_page (sh_sys (sh_drift 0 t)) = sys_page (sh_sys t) ∧
  sys_tasks (sh_sys (sh_drift 0 t)) = sys_tasks (sh_sys t).
Proof.
  cbv zeta.
  apply (left_behind_refused overtaking sample_world _ 0 alice_left _ alice_insert);
    [apply sample_settled|reflexivity|by vm_compute|reflexivity|by vm_compute
    |by vm_compute].
Defined.

Lemma left_behind_decided_witness :
  let t := shared_run back_in_time (shared_start sample_world) in
  let t' := shared_run overtaking (shared_start sample_world) in
  (∃ db', exec_write (auth_uid (sh_world t)) (request_of (sh_world t) alice_insert)
            (db (sh_world t)) = Ok db' ∧
          pg_exec_write (auth_uid (sh_world t)) (request_of (sh_world t) alice_insert)
            (db (sh_world t)) = Ok db') ∧
  exec_write (auth_uid (sh_world t')) (request_of (sh_world t') alice_insert)
    (db (sh_world t')) = Err (rls_violation "user_progress") ∧
  pg_exec_write (auth_uid (sh_world t')) (request_of (sh_world t') alice_insert)
    (db (sh_world t')) = Err (rls_violation "user_progress").
Proof.
  cbv zeta. split.
  - apply (proj1 (left_behind_decided back_in_time sample_world _ 0 alice_left
                    "Failed to update lesson progress:" alice_insert
                    sample_settled eq_refl ltac:(by vm_compute) eq_refl)).
    by vm_compute.
  - apply (proj2 (left_behind_decided overtaking sample_world _ 0 alice_left
                    "Failed to update lesson progress:" alice_insert
                    sample_settled eq_refl ltac:(by vm_compute) eq_refl)).
    by vm_compute.
Defined.

Lemma mounted_accepted_witness :
  let t := shared_run overtaking (shared_start sample_world) in
  ∃ db',
    exec_write (auth_uid (sh_world t))
      (request_of (sh_world t)
         (CallUpdate "p0" (mkProgressPatch false None 1000%Z)))
      (db (sh_world t)) = Ok db' ∧
    pg_exec_write (auth_uid (sh_world t))
      (request_of (sh_world t)
         (CallUpdate "p0" (mkProgressPatch false None 1000%Z)))
      (db (sh_world t)) = Ok db'.
Proof.
  cbv zeta.
  apply (mounted_accepted overtaking sample_world _ "c1" 0
           "Failed to update lesson progress:");
    [apply sample_settled|reflexivity|by vm_compute|by vm_compute].
Defined.

Lemma refusals_left_behind_witness :
  Forall refusal_or_network
    (console (sh_world (shared_run overtaken (shared_start sample_world)))) ∧
  (Forall (λ m, ¬ is_drift m) overtaken →
   only_network (console (sh_world (shared_run overtaken (shared_start sample_world))))).
Proof. apply refusals_left_behind; [apply sample_settled|reflexivity]. Defined.
