(* ===== verification/Replay.v ===== *)
(** * Replay: the application is the shared browser with every handler run to its end

    [AppFlow] and [Sessions] model the same code, src/unnamed/part_001 with
    the course page under it, at two grains.  In [AppFlow] a step is what a
    user does, and the handler it starts runs to its end before the next
    step; in [Sessions] a click only starts a handler, the handlers take
    their steps one await at a time, and a sign-out can overtake them.

    This file relates the two.  A state of the application is a shared
    browser with nothing in flight and nothing left behind ([browser_of]),
    and a step of the application is a short run of the browser
    ([replay]): the step itself, followed by the steps of the handler it
    has started.  On a network that loses nothing the two agree step by
    step ([app_replayed]) and so on every run ([app_run_replayed]); what
    [Sessions] proves of every run of the browser therefore holds of every
    run of the application ([app_isolated]). *)

From stdpp Require Import base tactics option list strings.
From S2P Require Import Prelude Schema Policy Client CourseDetail Completion.
From S2P Require Import Session Race Recovery Lifecycle Faults Home App AppFlow.
From S2P Require Import Network Sessions.
Set Warnings "-clear-no-such-hyp".

(** ** The two maps *)

(** The state hooks of the course page, when that is the page mounted. *)
Definition page_state (page : Mounted) : State.t :=
  match page with
  | DetailPage _ st => st
  | _ => initial_state
  end.

(** The shared browser a state of the application is: the selection, the
    course page if it is mounted, nothing in flight and nothing left
    behind. *)
Definition browser_of (s : AppSys) : Shared :=
  mkShared (AppState.selectedCourseId (app_state s))
    (mkSys (page_state (app_page s)) (app_world s) []) [].

(** The load of the course page, from its mount to its end. *)
Definition load_steps : list shared_move := lift <$> [Advance 0; Advance 0].

(** A step of the application as moves of the browser: the step, then the
    steps of the handler it starts. *)
Definition replay (e : app_action) : list shared_move :=
  match e with
  | SignIn user => SignsIn user :: load_steps
  | SignOut => [SignsOut]
  | SwitchForm => []
  | SelectCourse courseId => Does (Enter courseId) :: load_steps
  | Click a => lift <$> [Start a; Advance 0; Advance 0; Advance 0]
  end.

Definition replays (es : list app_action) : list shared_move :=
  es ≫= replay.

(** The accounts a run of the application signs in to. *)
Definition app_signed_in (es : list app_action) : list caller :=
  omap (λ e, match e with
             | SignIn user => Some (Some (AuthUser.id user))
             | _ => None
             end) es.

(** ** The browser of a state *)

Lemma shared_run_app ms1 ms2 t :
  shared_run (ms1 ++ ms2) t = shared_run ms2 (shared_run ms1 t).
Proof. apply foldl_app. Qed.

(** The page the browser mounts is the screen of the application. *)
Lemma course_shown_screen st w :
  course_shown (AppState.selectedCourseId st) w =
  match AppContent false (session w) st with
  | CourseDetail courseId => Some courseId
  | _ => None
  end.
Proof.
  unfold course_shown, AppContent. simpl.
  by destruct (session w), (AppState.showLogin st).
Qed.

Lemma browser_mounted s :
  sh_mounted (browser_of s) =
  match screen_of s with CourseDetail courseId => Some courseId | _ => None end.
Proof. apply course_shown_screen. Qed.

(** With nothing in flight, the steps of handlers do nothing. *)
Lemma run_moves_idle_steps courseId n st w :
  run_moves courseId (replicate n (Advance 0)) (mkSys st w []) = mkSys st w [].
Proof. induction n as [|n IH]; [done|]. by rewrite <- IH at 2. Qed.

Lemma idle_steps n t :
  sys_tasks (sh_sys t) = [] →
  shared_run (lift <$> replicate n (Advance 0)) t = t.
Proof.
  intros Hts. destruct (sh_mounted t) as [courseId|] eqn:Hm;
    [|by apply unmounted_moves].
  rewrite (mounted_moves courseId _ _ Hm) by (by apply Forall_replicate).
  destruct t as [selected [st w ts] os]. simpl in *. subst ts.
  by rewrite run_moves_idle_steps.
Qed.

Lemma ready_courses w : ready w → NoDup (course_ids (db w)).
Proof. by intros (_ & ((_ & _ & ? & _) & _) & _). Qed.

(** The courses the list offers are the courses of the store. *)
Lemma selectable_all u db courseId :
  courseId ∈ selectable (render_home
                           (HomeState.mk (select_courses (Some u) db) false "")) ↔
  courseId ∈ course_ids db.
Proof.
  rewrite render_home_loaded. destruct (select_courses_perm u db) as [_ Hperm].
  unfold course_ids. rewrite <- Hperm.
  destruct (select_courses _ _); simpl; [done|].
  by rewrite <- list_fmap_compose.
Qed.

(** ** A render, replayed *)

Lemma Home_mounts w :
  ready w →
  Home_effect w =
  (HomePage (HomeState.mk (select_courses (auth_uid w) (db w)) false ""), w).
Proof. intros Hr. by apply (Home_effect_ready (mkApp app_initial NoPage w)). Qed.

Lemma CourseDetail_mounts courseId w :
  ready w →
  CourseDetail_effect courseId initial_state w =
  (DetailPage courseId (mounted courseId w), w).
Proof.
  intros Hr. by apply (CourseDetail_effect_ready (mkApp app_initial NoPage w)).
Qed.

(** A render without a course page before it: the browser renders, and
    the load of the course page, if one is mounted, runs to its end. *)
Lemma render_replayed st page w :
  ready w → (∀ courseId pst, page ≠ DetailPage courseId pst) →
  browser_of (App (mkApp st page w)) =
  shared_run load_steps
    (mkShared (AppState.selectedCourseId st)
       (render_app (AppState.selectedCourseId st) w) []).
Proof.
  intros Hr Hpage. unfold App, render_app, load_steps.
  rewrite course_shown_screen.
  change (screen_of (mkApp st page w)) with (AppContent false (session w) st).
  destruct (AppContent false (session w) st) as [| | |courseId|] eqn:Hscreen;
    unfold mount; cbn [app_page app_world];
    destruct page as [|hst|c pst]; try (by destruct (Hpage c pst));
    rewrite ?Home_mounts by done;
    try (symmetry; by apply (idle_steps 2)).
  all: rewrite CourseDetail_mounts by done.
  all: rewrite (mounted_moves courseId); [|..|by repeat constructor].
  all: try (change (course_shown (AppState.selectedCourseId st) w = Some courseId);
            by rewrite course_shown_screen, Hscreen).
  all: unfold browser_of;
    cbn [sh_sys sh_selected sh_orphans app_state app_page app_world page_state].
  all: by rewrite mount_loads by (apply Hr || by apply ready_courses).
Qed.

(** ** The pages of the invariant *)

Lemma ready_signed_in user w :
  ready w → user ∈ auth_users (db w) → ready (with_session (Some user) w).
Proof.
  intros (Hq & Hwf & _) Hin. split_and!; [done..|].
  intros u [= <-]. by apply list_elem_of_fmap_2.
Qed.

Lemma ready_signed_out w : ready w → ready (with_session None w).
Proof. by intros (Hq & Hwf & _). Qed.

(** What the browser of a state shows, page by page. *)
Lemma page_cases s :
  page_inv s →
  match app_page s with
  | NoPage => session (app_world s) = None ∧ sh_mounted (browser_of s) = None
  | HomePage st =>
      (∃ user, session (app_world s) = Some user ∧
         st = HomeState.mk (select_courses (Some (AuthUser.id user))
                              (db (app_world s))) false "") ∧
      screen_of s = Home ∧ sh_mounted (browser_of s) = None
  | DetailPage courseId _ =>
      is_Some (session (app_world s)) ∧ screen_of s = CourseDetail courseId ∧
      sh_mounted (browser_of s) = Some courseId
  end.
Proof.
  unfold page_inv. rewrite browser_mounted.
  destruct (app_page s) as [|st|courseId st].
  - intros Hs. by rewrite (screen_of_anon s Hs); destruct (AppState.showLogin _).
  - intros ([user Hs] & Hscreen & ->). rewrite Hscreen. split; [|done].
    exists user. unfold auth_uid. by rewrite Hs.
  - intros (user & Hscreen & _). rewrite Hscreen. split; [|done].
    destruct (session (app_world s)) eqn:Hs; [done|].
    rewrite (screen_of_anon s Hs) in Hscreen. by destruct (AppState.showLogin _).
Qed.

Lemma course_shown_anon selected w :
  session w = None → course_shown selected w = None.
Proof. unfold course_shown, AppContent. by intros ->. Qed.

Lemma course_shown_none w : course_shown None w = None.
Proof. unfold course_shown, AppContent. by destruct (session w). Qed.

(** ** A step, replayed *)

Section Step.
Context (log : list log_entry) (s : AppSys) (Hinv : app_inv log s).

Lemma sign_in_replayed user :
  browser_of (app_do (SignIn user) s) =
  shared_run (replay (SignIn user)) (browser_of s).
Proof using Hinv.
  destruct Hinv as (Hr & _ & _ & _ & Hp%page_cases).
  unfold replay. rewrite shared_run_cons. cbn [shared_exec].
  unfold app_do, sign_in. change (sh_world (browser_of s)) with (app_world s).
  destruct (app_page s) as [|st|courseId st] eqn:Hpage.
  - destruct Hp as [Hs _].
    destruct (decide (user ∈ auth_users (db (app_world s)))) as [Hin|Hout].
    + rewrite !bool_decide_eq_true_2 by done.
      by rewrite render_replayed by (by apply ready_signed_in || done).
    + rewrite !bool_decide_eq_false_2 by tauto. symmetry. by apply (idle_steps 2).
  - destruct Hp as ((u & Hs & _) & _).
    rewrite bool_decide_eq_false_2 by (rewrite Hs; by intros [? _]).
    symmetry. by apply (idle_steps 2).
  - destruct Hp as ([u Hs] & _).
    rewrite bool_decide_eq_false_2 by (rewrite Hs; by intros [? _]).
    symmetry. by apply (idle_steps 2).
Qed.

Lemma sign_out_replayed :
  browser_of (app_do SignOut s) = shared_run (replay SignOut) (browser_of s).
Proof using Hinv.
  destruct Hinv as (Hr & _ & _ & _ & Hp%page_cases).
  unfold replay, shared_run. cbn [foldl shared_exec].
  unfold app_do, sign_out, unmount, render_app.
  change (sh_world (browser_of s)) with (app_world s).
  rewrite course_shown_anon by done.
  destruct (app_page s) as [|st|courseId st] eqn:Hpage;
    [destruct Hp as [Hs _]; by rewrite Hs|
     destruct Hp as ((u & Hs & _) & _ & Hm)|destruct Hp as ([u Hs] & _ & Hm)].
  all: rewrite Hs, Hm; unfold App, mount; rewrite screen_of_anon by done.
  all: by destruct (AppState.showLogin _).
Qed.

Lemma switch_form_replayed :
  browser_of (app_do SwitchForm s) = browser_of s.
Proof using Hinv.
  destruct Hinv as (Hr & _ & _ & _ & Hp%page_cases).
  unfold app_do, callback, App, mount.
  destruct (app_page s) as [|st|courseId st] eqn:Hpage; [|done..].
  destruct Hp as [Hs _]. rewrite !screen_of_anon by done. simpl.
  unfold browser_of. rewrite Hpage.
  by destruct (app_state s) as [[] ?].
Qed.

Lemma select_replayed courseId :
  browser_of (app_do (SelectCourse courseId) s) =
  shared_run (replay (SelectCourse courseId)) (browser_of s).
Proof using Hinv.
  destruct Hinv as (Hr & _ & _ & _ & Hp%page_cases).
  unfold replay. rewrite shared_run_cons. cbn [shared_exec].
  unfold app_do, sh_enter. change (sh_world (browser_of s)) with (app_world s).
  destruct (app_page s) as [|st|c st] eqn:Hpage;
    [destruct Hp as [Hs Hm]|destruct Hp as ((u & Hs & ->) & Hscreen & Hm)|
     destruct Hp as (_ & _ & Hm)];
    rewrite Hm, ?Hs; try (symmetry; by apply (idle_steps 2)).
  rewrite (bool_decide_ext _ _ (selectable_all _ _ _)).
  case_bool_decide; [|symmetry; by apply (idle_steps 2)].
  unfold callback. rewrite Hscreen. rewrite render_replayed by (done || by rewrite Hpage).
  reflexivity.
Qed.

Lemma back_replayed :
  browser_of (app_do (Click Back) s) =
  shared_run (replay (Click Back)) (browser_of s).
Proof using Hinv.
  destruct Hinv as (Hr & _ & _ & _ & Hp%page_cases).
  unfold replay. rewrite fmap_cons, shared_run_cons. cbn [lift shared_exec].
  unfold app_do, sh_press, unmount, render_app.
  change (sh_world (browser_of s)) with (app_world s).
  change (sys_page (sh_sys (browser_of s))) with (page_state (app_page s)).
  destruct (app_page s) as [|st|c st] eqn:Hpage;
    [destruct Hp as [Hs Hm]|destruct Hp as (_ & _ & Hm)|
     destruct Hp as ([u Hs] & Hscreen & Hm)];
    rewrite Hm; try (symmetry; by apply (idle_steps 3)).
  cbn [page_state].
  case_bool_decide; [|symmetry; by apply (idle_steps 3)].
  rewrite course_shown_none, Hs, (idle_steps 3) by done.
  unfold callback, App. rewrite Hscreen.
  unfold screen_of, useAuth, mount. cbn [app_world app_state app_page fst snd].
  rewrite Hs. cbn [AppContent app_step AppState.selectedCourseId].
  by rewrite Hpage, Home_mounts.
Qed.

Lemma press_replayed a :
  a ≠ Back →
  browser_of (app_do (Click a) s) = shared_run (replay (Click a)) (browser_of s).
Proof using Hinv.
  intros Ha. destruct Hinv as (Hr & _ & _ & _ & Hp%page_cases).
  unfold replay, app_do.
  destruct (app_page s) as [|st|c st] eqn:Hpage;
    [destruct Hp as [_ Hm]|destruct Hp as (_ & _ & Hm)|
     destruct Hp as (_ & _ & Hm)];
    try (rewrite unmounted_moves by done; by destruct a).
  rewrite (mounted_moves c _ _ Hm) by (repeat constructor; congruence).
  destruct (click_serial c a st (app_world s)) as (st' & w' & Hrun & Hmoves).
  unfold serial in Hmoves.
  change (sh_sys (browser_of s))
    with (mkSys (page_state (app_page s)) (app_world s) []).
  rewrite Hpage. cbn [page_state].
  rewrite Hmoves. destruct a; [done|by rewrite Hrun..].
Qed.

(** A step of the application is its replay in the browser. *)
Lemma step_replayed e :
  browser_of (app_do e s) = shared_run (replay e) (browser_of s).
Proof using Hinv.
  destruct e as [user| | |courseId|a].
  - apply sign_in_replayed.
  - apply sign_out_replayed.
  - apply switch_form_replayed.
  - apply select_replayed.
  - destruct (decide (a = Back)) as [->|Ha];
      [apply back_replayed|by apply press_replayed].
Qed.

End Step.

(** ** A run, replayed *)

Lemma run_replayed log es s :
  app_inv log s →
  browser_of (app_run es s) = shared_run (replays es) (browser_of s).
Proof.
  revert s. induction es as [|e es IH]; intros s Hinv; [done|].
  unfold replays. rewrite bind_cons, shared_run_app.
  rewrite <- (step_replayed log s Hinv). by apply IH, app_do_inv.
Qed.

Lemma with_session_same w : with_session (session w) w = w.
Proof. by destruct w. Qed.

(** The application starts as the browser does. *)
Lemma start_replayed w :
  ready w → session w = None → browser_of (app_start w) = shared_start w.
Proof.
  intros Hr Hs. unfold app_start, shared_start.
  rewrite render_replayed, <- Hs, with_session_same by done.
  unfold render_app. rewrite course_shown_none. by apply (idle_steps 2).
Qed.

Lemma signed_in_replays es : signed_in (replays es) = app_signed_in es.
Proof.
  induction es as [|e es IH]; [done|].
  unfold replays, signed_in, app_signed_in in *.
  rewrite bind_cons, omap_app, IH. by destruct e.
Qed.

(** ** What the application inherits *)


(** From its start with nobody signed in, a run of the application is the
    replay of the run in the browser as it starts, and the replay leaves
    nothing in flight and nothing behind. *)
Theorem app_from_start w es :
  ready w → fresh_source w → session w = None →
  let t := shared_run (replays es) (shared_start w) in
  browser_of (app_run es (app_start w)) = t ∧
  sys_tasks (sh_sys t) = [] ∧ sh_orphans t = [].
Proof.
  intros Hr Hf Hs t. assert (browser_of (app_run es (app_start w)) = t) as <-; [|done].
  rewrite (run_replayed (console w)) by by apply app_start_inv.
  unfold t. by rewrite start_replayed.
Qed.

(** What [Sessions] shows of the store of every run of the browser holds of
    the application: whoever signs in and out and whatever they click, the
    store stays referentially intact, its catalogue and identities are
    unchanged, no progress row is gone, and the rows of every account that
    has not signed in are what they were. *)
Theorem app_isolated w es :
  ready w → fresh_source w → session w = None →
  net_kept (app_signed_in es) (db w) (db (app_world (app_run es (app_start w)))).
Proof.
  intros Hr Hf Hs.
  change (app_world ?s) with (sh_world (browser_of s)).
  rewrite (run_replayed (console w)), start_replayed, <- signed_in_replays
    by (done || by apply app_start_inv).
  apply shared_run_kept; [done|by left|apply net_kept_refl, Hr].
Qed.

(** ** The theorems on the sample session *)

(** The replay of the sample session: Alice signs in and the list loads;
    she opens the first course and its page loads; her click runs to its
    end; she signs out; Bob signs in, and the page of the course that is
    still selected loads for him. *)
Example replay_two_users :
  replays two_users =
  [SignsIn Sample.alice; Does (Step 0); Does (Step 0);
   Does (Enter "c1"); Does (Step 0); Does (Step 0);
   Does (Press (Toggle "l1")); Does (Step 0); Does (Step 0); Does (Step 0);
   SignsOut;
   SignsIn Sample.bob; Does (Step 0); Does (Step 0)].
Proof. reflexivity. Qed.

(** A sign-out that overtakes the handler is no run of the application:
    the replay of a click without its last step leaves a handler in flight,
    which the sign-out leaves behind. *)
Example overtaken_not_replayed :
  let t := shared_run
             [SignsIn Sample.alice; Does (Enter "c1"); Does (Step 0); Does (Step 0);
              Does (Press (Toggle "l1")); Does (Step 0); SignsOut]
             (shared_start signed_out) in
  length (sh_orphans t) = 1 ∧ ∀ s, browser_of s ≠ t.
Proof. split; [by vm_compute|]. intros s Hs. apply (f_equal (λ t, length (sh_orphans t))) in Hs. revert Hs. by vm_compute. Qed.


Lemma app_from_start_witness :
  browser_of (app_run two_users (app_start signed_out)) =
  shared_run (replays two_users) (shared_start signed_out).
Proof.
  apply (app_from_start signed_out two_users); [apply signed_out_ready..|done].
Defined.

Lemma app_isolated_witness :
  net_kept [Some "alice"; Some "bob"] (db signed_out)
    (db (app_world (app_run two_users (app_start signed_out)))).
Proof.
  apply (app_isolated signed_out two_users); [apply signed_out_ready..|done].
Defined.
